(* ===== verification/_CoqProject ===== *)
-Q . S2P
Prelude.v
Contracts.v
Canonical.v
Reader.v
ReaderSafety.v
JsonRoundTrip.v
Unicode.v
Wire.v
CanonicalBinding.v
Envelope.v
WireParse.v
ReaderBounds.v
Framing.v
Job.v
Crypto.v
CryptoSpec.v
PyText.v
PyFloat.v
PyJson.v
PyLoads.v
PyNumbers.v
PyRoundTrip.v
PyJob.v
PyTransport.v
PyConflict.v
PyDelta.v
PySha256.v
PyRoutes.v
PyAuth.v
PyCapability.v
JobAuth.v
Interop.v
SignedInterop.v
WireInterop.v
PyExchange.v
Threads.v
PyThreads.v
PySealed.v
Tcp.v
Network.v
Transport.v
Timing.v
Orchestrator.v
Engine.v
Adapter.v
AuthKeeps.v
Resources.v
Executor.v
Liveness.v
Hostile.v
Drivers.v
PythonNode.v
CrossLang.v
ThreeNodes.v
PyTwoNodes.v
System.v
Deadlines.v
SimCodec.v
Sim.v
Scenarios.v
PySim.v
PyWitnesses.v
PyUnitTests.v
Stress.v
UnitTests.v
Witnesses.v
