(* ===== verification/Prelude.v ===== *)
(** * A verification library for MA2A: the C++ core and its Python peer

    MA2A lets a node hand a signed job to other nodes over TCP, and carries on
    with the next node when one fails.  The C++ core (cpp/include/ma2a) has
    no server of its own: it prints, signs, frames and sends a request, reads
    and checks the signed answer, and keeps the state of the failover.  The
    Python reference (reference/python/ma2a) has the server, and the admission
    handshake, conflict resolution and route memory beside it.  This library
    models all headers of the core and the modules of the reference, proves
    what makes each correct, and where the two languages agree.

    ** The program and its model

    A file models one header, a Module one class or struct; members, functions
    and error texts keep their names.

<<
    file               header (cpp/include/ma2a/)       depends on
    ----               --------------------------       ----------
    Contracts          contracts.hpp
    Canonical          canonical.hpp                    Contracts
    Wire               wire.hpp, failure_notice.hpp     Canonical
    Reader             wire_parse.hpp 13-135
    Envelope           wire_parse.hpp 137-193           Wire
    WireParse          wire_parse.hpp 195-236           Reader, Envelope
    Framing            framing.hpp
    Job                job.hpp                          Contracts
    Crypto             crypto.hpp                       (OpenSSL)
    JobAuth            job_auth.hpp, failure_notice.hpp Crypto, Canonical
    Tcp                tcp.hpp                          Framing, (system calls)
    Orchestrator       execution_orchestrator.hpp       Contracts
    Engine             resilient_execution.hpp          Orchestrator
    Adapter            resolutive_routing_adapter.hpp   Engine, (router)
    Executor           authenticated_tcp_executor.hpp   JobAuth, WireParse, Tcp
    System             the three as the tests compose them
    Timing, Deadlines  the time tcp.hpp and the client spend waiting
    AuthKeeps, Resources  descriptors and digest contexts of the process
    Liveness, Hostile  an attempt whose peer answers, honestly or to overflow
    Drivers            tests/tcp_crosslang_client.cpp and
                       tests/tcp_crosslang_signed_client.cpp

    file               module (reference/python/ma2a/)  depends on
    ----               -------------------------------  ----------
    PyText             str, bytes, exceptions, base64
    PyFloat            float: decimals read and shown   PyText
    PyJson, PyLoads    json.dumps and json.loads        PyText, PyFloat
    PySha256           hashlib.sha256                   PyText
    PyJob              job.py, capability.py 116-157    PyJson, (cryptography)
    PyTransport        transport.py                     PyJob, PyLoads
    PyAuth             auth.py                          PyJson, (cryptography)
    PyCapability       capability.py 13-113             PyAuth, PyFloat
    PyConflict         conflict.py                      PyText
    PyDelta            wire.py                          PyLoads, PyTransport
    PyRoutes           rm_bridge.py                     PyDelta, PySha256

    Interop, SignedInterop, WireInterop    texts, signatures and frames across
                                           the languages
    PyExchange         a job between two Python nodes
    Threads            two threads around a connection, and their interleavings
    PyThreads          transport.py as threads    PySealed  signed frames
    PyTwoNodes         tests/test_job_transport.py
    ThreeNodes         cpp/tests/distributed_failover_three_nodes.py
    PythonNode         a C++ client and a Python node
    CrossLang          the client programs of Drivers and their Python scripts
                       (cpp/tests/tcp_crosslang_*roundtrip.py)
>>

    The engine ([Engine]) asks a route provider for a node that is not
    excluded, has an executor attempt the request there, and feeds the answer
    to the lifecycle object ([Orchestrator]), until a result is accepted, no
    route is left, or the attempts are used up.  In the client of the tests
    ([System]) the provider is the routing adapter ([Adapter]) and the executor
    speaks the signed protocol over a socket ([Executor]).

    ** How code is represented

    A computation of [M S] is a C++ function over the mutable state [S]: it
    ends in a value ([Ret]), an exception ([Throw], with the standard class and
    the text), undefined behaviour ([Undef]: an access out of range, a signed
    overflow, a null pointer), or, where a loop has a bound on its rounds, in
    [OutOfFuel].  [S] is the reader object for the parser, the lifecycle
    object for its methods, and the world of the process for everything that
    calls the system or OpenSSL.  A reference parameter that is updated is
    returned.  [with_destructor] and [on_unwind] are the scopes of objects whose
    destructor has an effect, [try_catch_all] is [catch (...)].
    Strings are lists of bytes; integers are [Z] with their wrap-around
    ([to_uint32], [to_int32]) or overflow ([int64_result]) written out; an
    [std::unordered_set<std::string>] is a [gset] of byte strings.

    A Python function ends in a value ([Ok]) or an exception ([Raise]); a [str]
    is its code points, surrogates included; a socket is the segments that
    arrive and the bytes sent ([conn]), and [PyM] and [RM] are computations over
    a socket and over a route memory.  Where two Python threads run at once, each
    is a program of sends, receives and notes ([thread]), and the pair is a
    transition system ([step]) that lets either act next: bytes move in chunks of
    any size through buffers of any capacity, a peer that ended closes, and what
    it left unread resets the connection.  [run] gives such a program the meaning
    it has on one socket, and PyThreads proves it equal to [PyM].  [IllTyped] marks the runs in which
    Python would go on with a value of another type than the one declared
    and the model stops.

    Bounds: the reader and scanner take their fuel from the text (the
    remaining length, which every round shortens; ReaderSafety proves that
    it never runs out), the engine from [max_attempts] (every round begins an
    attempt), and the socket loops from a parameter [fuel].  A round of a socket
    loop that is not interrupted moves a byte, so any bound above the largest
    frame (1 MiB and its header) plus the interruptions to come is enough:
    [enough_fuel] of Transport.  [json.loads] runs on twice the length of its
    text, and any larger fuel gives the same result (lemma [loads_fuel]); its
    depth is the recursion limit of the interpreter, an argument.

    ** What code outside of the repository is taken to do

    Each assumption is a class that only the theorems that need it mention,
    and Sim.v has one world that satisfies all of them together.  [OpenSSL],
    [Posix] and [ResolutiveRouting] list the functions the code calls;
    [OpenSSLSpec] and [OpenSSLAvailable] (CryptoSpec.v) say that base64 is
    RFC 4648, that Ed25519 signs deterministically in 64 bytes and verifies its
    own signatures, and that resources do not run out; [PosixSpec],
    [FiniteSignals], [SocketStreams] and [FdTracking] (Network.v) bound the
    counts of [send] and [recv], the interruptions, relate a socket to its byte
    streams and [socket]/[close] to the open descriptors; [ssl_quiet] (AuthKeeps.v)
    says OpenSSL leaves the network alone, [CtxTracking] which digest contexts
    exist and that only these are used and freed, [CtxQuiet] (Resources.v) that
    system calls leave them alone; [RouterSpec] (Adapter.v)
    that a router selects one of the nodes it is given; [TimedPosix] (Timing.v)
    that a waiting call waits at most its deadline and another at most a
    [slack], and which calls set the deadlines; [AnsweringPeer]
    (Liveness.v) describes an honest peer.  That signatures cannot be forged is
    nowhere assumed: theorems conclude that a signature is valid under a key.
    For the Python side [Ed25519] (PyJob.v) and [Ed25519Laws] (PyAuth.v) say the
    same of the [cryptography] library, and [SameScheme] (SignedInterop.v) that
    both libraries compute one signature scheme, as RFC 8032 fixes it.

    ** What is proved

    - Texts: the canonical text of a message determines every signed member
      (CanonicalBinding); printed responses parse back, whatever bytes are in
      their strings, and parsing is total, stays inside of its input and
      normalises (JsonRoundTrip, ReaderSafety, WireParse); the scanner accepts
      exactly the envelopes (Envelope); a parsed message is no longer than its
      envelope (ReaderBounds); UTF-8 and surrogates (Unicode).
    - Frames and sockets: the decoder inverts the encoder exactly (Framing);
      receiving does not depend on segmentation or interruptions, bad headers
      are refused early, sending puts one frame on the wire, all loops end,
      deadlines are set exactly, no descriptor leaks (Network, Transport).
    - Signatures: base64url and signing round trips, soundness and totality of
      verification on hostile input (CryptoSpec, JobAuth).
    - Failover: the lifecycle invariant over all call sequences, atomicity of
      its calls (Orchestrator); [execute] refines the specification [failover],
      its outcomes are well formed, and it ends against any callbacks that keep
      the interfaces [RouteProviderSpec] and [AttemptExecutorSpec] (Engine),
      which Adapter and Executor discharge.
    - The client: only authentic and well-typed evidence leaves an attempt, an
      attempt ends and leaks neither descriptors nor digest contexts (Resources),
      it signs for its target (Executor); an
      honest peer is heard (Liveness); and the calls of the composition form one
      run, whose failure notices, each signed, decide the excluded nodes, and which
      completes only on a result the node of its last attempt signed for this
      request (System).
    - Time: an attempt and an execution of the whole client spend a bounded time
      in system calls, whatever the peers do (Deadlines); the bound is a
      deadline for every byte of a frame, and a slow peer takes it (Scenarios).
    - The two languages: the signed texts agree exactly on messages whose texts
      are below U+007F, and the validators and executors on all, at every clock
      from the epoch on (Interop);
      there both sign alike and verify each other (SignedInterop); each reads
      the frames the other writes, for any Unicode (WireInterop); a C++ client
      completes its job on a Python node (PythonNode), and so does a Python
      client (PyExchange), with both ends running at once and whatever the
      scheduler does (Threads, PyThreads); the signed client program and its script complete
      their round trip, and the program exits with 0 exactly when its run heard an
      answer with a valid signature, although it searches the answer instead of
      parsing it (Drivers, CrossLang).
    - The Python reference: what is dumped loads back (PyRoundTrip), a float as
      the shortest decimal that reads as it, which seventeen digits always do
      (PyFloat, PyNumbers); the
      handshake admits exactly those who meet the conditions the code checks, a
      challenge once, and an honest device (PyAuth); a capability advertisement verifies exactly when it is
      valid and signed, at the times of its window, and its signature binds every
      member (PyCapability); replicas converge on deltas that advance by one
      (PyConflict); deltas round trip, and decoding ends in a valid delta or a
      few exceptions (PyDelta); a route one agent learned serves another and
      the memory stays coherent (PyRoutes).
    - The repository's tests: adversarial and failover scenarios evaluate to
      what they assert (Scenarios, UnitTests, PyUnitTests), the round trip of two
      nodes and the failover over three pass under every interleaving of their
      threads (PyTwoNodes, ThreeNodes), and the stress gate passes for
      any number of iterations (Stress).
    - Defects: every peer, with or without a key, can make the timestamp parser
      overflow (Hostile, WireParse); a clock before the epoch is none for the C++
      validator and refused by the Python one (Interop); the handshake verifier
      checks neither that the challenge was issued, nor the nonces of the
      session, nor the negotiation, which security/handshake.md requires of the
      server (PyAuth); deadlines of 2^31 ms wrap (Transport); a slow peer
      is bounded only by a receive timeout for every byte (Scenarios); canonical texts differ
      outside of ASCII (Interop) and the Python receiver accepts a wider
      envelope (WireInterop); deltas that skip versions make replicas diverge
      (PyConflict); the bar in a route's material makes its address ambiguous
      (PyRoutes); nesting escapes the delta decoder as RecursionError, and a
      decoded delta need not encode (PyDelta).

    Witnesses.v and PyWitnesses.v apply the theorems that have hypotheses to
    the simulated world.

    ** What is not modelled, and why

    The timeouts of the threads of Threads, which wait as long as they must; time
    outside of system calls and the resolvers (the C++ core is
    sequential and reads no clock but [system_clock::now]); allocation failure ([std::bad_alloc]); OpenSSL, the
    kernel and the router beyond their interfaces; the member access of a moved
    socket handle beyond its destructor and assignment; of cpp/tests the measurements of
    the stress gate, the driver of the external router, the fixed Ed25519 values
    of python_interop_test.cpp, and the two failover scripts that run that driver
    as a process (their exchanges are those of ThreeNodes);
    of the Python reference, the sockets before they are connected, integers of
    more than 4300 digits in [dumps], the encoding of a decoded delta that holds
    a list or a dict (its copy is bounded by frames of the interpreter), a text
    as the version of a route, a value whose type is not the declared one (an
    [int] for a [float]), and the Unicode tables of [str.lower] (a parameter of
    PyRoutes).

    ** Where the library can grow

    Timeouts in Threads, for the failover of a client whose peer is silent. *)

From Stdlib Require Export ZArith Lia.
From Stdlib Require Export Strings.Byte.
From stdpp Require Export base tactics decidable numbers option gmap strings countable.
From stdpp Require Export list.

(** ** Byte strings

    A [std::string] and a [std::vector<std::uint8_t>] are finite sequences of
    bytes.  A byte is one of the 256 constructors of [Byte.byte]. *)

Abbreviation byte := Byte.byte.
Abbreviation bytes := (list Byte.byte).

#[global] Instance byte_eq_dec : EqDecision byte := Byte.byte_eq_dec.
#[global] Instance byte_countable : Countable byte :=
  inj_countable Byte.to_N Byte.of_N Byte.of_to_N.
#[global] Instance byte_inhabited : Inhabited byte := populate x00.

(** A C++ string literal. *)
Definition str (s : String.string) : bytes := String.list_byte_of_string s.
Arguments str s%_string_scope.

(** The double quote, which a literal cannot spell. *)
Definition dquote : byte := x22.

(** The literal [\"k\":], a quoted key and its colon. *)
Definition lit_key (k : String.string) : bytes := dquote :: str k ++ [dquote; x3a].
Arguments lit_key k%_string_scope.

(** [static_cast<unsigned char>] of a byte, as an integer in [0, 256). *)
Definition uchar (b : byte) : Z := Z.of_N (Byte.to_N b).

(** A plain [char] is signed on the platforms the code is built for. *)
Definition schar (b : byte) : Z :=
  if (uchar b <? 128)%Z then uchar b else (uchar b - 256)%Z.

(** [static_cast<char>] and [static_cast<std::uint8_t>] of an integer keep
    its value modulo 256. *)
Definition byte_of_Z (z : Z) : byte :=
  match Byte.of_N (Z.to_N (z mod 256)) with Some b => b | None => x00 end.

Lemma uchar_range b : (0 <= uchar b < 256)%Z.
Proof. unfold uchar. pose proof (Byte.to_N_bounded b). lia. Qed.

Lemma uchar_inj b1 b2 : uchar b1 = uchar b2 -> b1 = b2.
Proof.
  unfold uchar. intros H%N2Z.inj.
  pose proof (Byte.of_to_N b1) as H1. pose proof (Byte.of_to_N b2). congruence.
Qed.

Lemma uchar_byte_of_Z z : uchar (byte_of_Z z) = (z mod 256)%Z.
Proof.
  unfold byte_of_Z, uchar.
  pose proof (Z.mod_pos_bound z 256 eq_refl) as Hb.
  destruct (Byte.of_N _) as [b|] eqn:E.
  - apply Byte.to_of_N in E. lia.
  - apply Byte.of_N_None_iff in E. lia.
Qed.

Lemma byte_of_Z_uchar b : byte_of_Z (uchar b) = b.
Proof.
  apply uchar_inj. rewrite uchar_byte_of_Z. apply Z.mod_small, uchar_range.
Qed.

(** ** Machine integers *)

Definition INT64_MAX : Z := 9223372036854775807.
Definition INT64_MIN : Z := (-9223372036854775808)%Z.
Definition INT_MAX : Z := 2147483647.
Definition INT_MIN : Z := (-2147483648)%Z.

Definition is_int64 (z : Z) : Prop := (INT64_MIN <= z <= INT64_MAX)%Z.
Definition int64b (z : Z) : bool := (INT64_MIN <=? z)%Z && (z <=? INT64_MAX)%Z.
Definition is_int (z : Z) : Prop := (INT_MIN <= z <= INT_MAX)%Z.

Lemma int64b_spec z : reflect (is_int64 z) (int64b z).
Proof. apply iff_reflect. unfold is_int64, int64b. lia. Qed.

(** [static_cast<int>] wraps (two's complement, C++20). *)
Definition to_int32 (z : Z) : Z := ((z + 2 ^ 31) mod 2 ^ 32 - 2 ^ 31)%Z.
(** [static_cast<std::uint32_t>]. *)
Definition to_uint32 (z : Z) : Z := (z mod 2 ^ 32)%Z.

Lemma to_int32_small z : is_int z -> to_int32 z = z.
Proof.
  unfold is_int, to_int32, INT_MIN, INT_MAX. intros H. rewrite Z.mod_small; lia.
Qed.

Lemma to_int32_range z : is_int (to_int32 z).
Proof.
  unfold is_int, to_int32, INT_MIN, INT_MAX.
  pose proof (Z.mod_pos_bound (z + 2 ^ 31) (2 ^ 32) eq_refl). lia.
Qed.

(** ** Outcomes of a C++ computation

    A computation returns a value, throws a standard exception, or runs into
    undefined behaviour.  [OutOfFuel] is not an outcome of the code: it is
    what a bounded loop of the model reports when its bound is too small, and
    the termination theorems show that the chosen bounds exclude it. *)

Inductive exn : Type :=
| invalid_argument (what : string)
| length_error (what : string)
| runtime_error (what : string)
| logic_error (what : string)
| other_exception (tag : Z).

#[global] Instance exn_eq_dec : EqDecision exn.
Proof. solve_decision. Defined.

Inductive ub : Type :=
| out_of_range          (* an access outside of an object *)
| signed_overflow       (* an arithmetic result its type cannot hold *)
| null_dereference.     (* an access through a null pointer *)

#[global] Instance ub_eq_dec : EqDecision ub.
Proof. solve_decision. Defined.

Inductive outcome (A : Type) : Type :=
| Ret (a : A)
| Throw (e : exn)
| Undef (u : ub)
| OutOfFuel.
Arguments Ret {A} a.
Arguments Throw {A} e.
Arguments Undef {A} u.
Arguments OutOfFuel {A}.

#[global] Instance outcome_eq_dec {A} `{EqDecision A} : EqDecision (outcome A).
Proof. solve_decision. Defined.

#[global] Instance outcome_ret : MRet outcome := @Ret.
#[global] Instance outcome_bind : MBind outcome := fun A B f o =>
  match o with
  | Ret a => f a
  | Throw e => Throw e
  | Undef u => Undef u
  | OutOfFuel => OutOfFuel
  end.
#[global] Instance outcome_fmap : FMap outcome := fun A B f o => a ← o; mret (f a).

(** An outcome the C++ standard defines. *)
Definition defined {A} (o : outcome A) : Prop :=
  match o with Ret _ | Throw _ => True | Undef _ | OutOfFuel => False end.
(** The bound of the loops was large enough. *)
Definition fuelled {A} (o : outcome A) : Prop :=
  match o with OutOfFuel => False | _ => True end.

(** [if (b) throw e;] *)
Definition throw_if (b : bool) (e : exn) : outcome unit :=
  if b then Throw e else Ret tt.

(** ** Stateful computations

    [M S A] is a computation over a state [S] (a parser object, the world of
    the system calls).  The state survives an exception. *)

Definition M (S A : Type) : Type := S -> outcome A * S.

Section monad.
Context {S : Type}.

#[global] Instance M_ret : MRet (M S) := fun A a s => (Ret a, s).
#[global] Instance M_bind : MBind (M S) := fun A B f m s =>
  match m s with
  | (Ret a, s') => f a s'
  | (Throw e, s') => (Throw e, s')
  | (Undef u, s') => (Undef u, s')
  | (OutOfFuel, s') => (OutOfFuel, s')
  end.

Definition get : M S S := fun s => (Ret s, s).
Definition put (s : S) : M S unit := fun _ => (Ret tt, s).
Definition lift {A} (o : outcome A) : M S A := fun s => (o, s).
Definition throw {A} (e : exn) : M S A := lift (Throw e).
(** A call that cannot fail and may change the state. *)
Definition call {A} (f : S -> A * S) : M S A := fun s => let '(a, s') := f s in (Ret a, s').

(** [try { m } catch (...) { h }] *)
Definition try_catch_all {A} (m h : M S A) : M S A := fun s =>
  match m s with
  | (Throw _, s') => h s'
  | r => r
  end.

(** [m] in the scope of an object whose destructor is [release]: the
    destructor runs when the scope returns and when it unwinds. *)
Definition with_destructor {A} (release : S -> S) (m : M S A) : M S A := fun s =>
  match m s with
  | (Ret a, s') => (Ret a, release s')
  | (Throw e, s') => (Throw e, release s')
  | r => r
  end.

(** [m] in the scope of an object that a return moves out to the caller:
    only unwinding destroys it. *)
Definition on_unwind {A} (release : S -> S) (m : M S A) : M S A := fun s =>
  match m s with
  | (Throw e, s') => (Throw e, release s')
  | r => r
  end.
End monad.

(** *** What a computation keeps

    [keeps u f I m Q]: started in a state of the invariant [I], the
    computation [m] returns a value of [Q] or throws, in a state of [I] again.
    It runs into undefined behaviour only if [u], and out of fuel only if [f]:
    with [False] for both it is total, with [True] only the states count. *)

Definition keeps (u f : Prop) {S A} (I : S -> Prop) (m : M S A) (Q : A -> Prop) : Prop :=
  forall s, I s ->
  match m s with
  | (Ret a, s') => Q a /\ I s'
  | (Throw _, s') => I s'
  | (Undef _, _) => u
  | (OutOfFuel, _) => f
  end.

(** The outcomes a pure computation may have. *)
Definition tolerated (u f : Prop) {A} (o : outcome A) (Q : A -> Prop) : Prop :=
  match o with Ret a => Q a | Throw _ => True | Undef _ => u | OutOfFuel => f end.

Section keeps.
Context {S : Type} (u f : Prop) (I : S -> Prop).

Lemma keeps_ret {A} (a : A) (Q : A -> Prop) : Q a -> keeps u f I (mret a) Q.
Proof. by intros ? s. Qed.
Lemma keeps_throw {A} e (Q : A -> Prop) : keeps u f I (throw e) Q.
Proof. by intros s. Qed.
Lemma keeps_lift {A} (o : outcome A) Q : tolerated u f o Q -> keeps u f I (lift o) Q.
Proof. intros H s Hs. unfold lift. by destruct o. Qed.
Lemma keeps_call {A} (g : S -> A * S) (Q : A -> Prop) :
  (forall s a s', I s -> g s = (a, s') -> Q a /\ I s') -> keeps u f I (call g) Q.
Proof. intros H s Hs. unfold call. destruct (g s) eqn:E. eauto. Qed.

Lemma keeps_bind {A B} (m : M S A) (k : A -> M S B) P Q :
  keeps u f I m P -> (forall a, P a -> keeps u f I (k a) Q) -> keeps u f I (m ≫= k) Q.
Proof.
  intros Hm Hk s Hs. specialize (Hm s Hs). unfold mbind, M_bind.
  destruct (m s) as [[a| | |] s']; try done. destruct Hm as [Ha Hs']. by apply Hk.
Qed.

Lemma keeps_mono {A} (m : M S A) (P Q : A -> Prop) :
  keeps u f I m P -> (forall a, P a -> Q a) -> keeps u f I m Q.
Proof.
  intros Hm HQ s Hs. specialize (Hm s Hs). destruct (m s) as [[]]; try done. destruct Hm; auto.
Qed.

(** Fuel may be shown apart from the rest. *)
Lemma keeps_fuel {A} (m : M S A) Q :
  (forall s, I s -> fuelled (fst (m s))) -> keeps u True I m Q -> keeps u f I m Q.
Proof.
  intros Hf Hm s Hs. specialize (Hm s Hs). specialize (Hf s Hs). by destruct (m s) as [[]].
Qed.

(** Definedness may be shown apart from the rest. *)
Lemma keeps_defined {A} (m : M S A) Q :
  (forall s, I s -> defined (fst (m s))) -> keeps True True I m Q -> keeps u f I m Q.
Proof.
  intros Hd Hm s Hs. specialize (Hm s Hs). specialize (Hd s Hs). by destruct (m s) as [[]].
Qed.

(** The value was returned by a run of the computation. *)
Lemma keeps_run {A} (m : M S A) Q :
  keeps u f I m Q ->
  keeps u f I m (fun a => Q a /\ exists s s', I s /\ m s = (Ret a, s')).
Proof.
  intros Hm s Hs. specialize (Hm s Hs). destruct (m s) as [[]] eqn:E; try done.
  destruct Hm. eauto 10.
Qed.

Lemma keeps_weaken {A} (v g : Prop) (m : M S A) Q :
  keeps v g I m Q -> (v -> u) -> (g -> f) -> keeps u f I m Q.
Proof.
  intros Hm Hu Hf s Hs. specialize (Hm s Hs). destruct (m s) as [[]]; auto.
Qed.

Lemma keeps_if {A} (b : bool) (m n : M S A) Q :
  (b = true -> keeps u f I m Q) -> (b = false -> keeps u f I n Q) ->
  keeps u f I (if b then m else n) Q.
Proof. destruct b; auto. Qed.

Lemma keeps_try {A} (m h : M S A) Q :
  keeps u f I m Q -> keeps u f I h Q -> keeps u f I (try_catch_all m h) Q.
Proof.
  intros Hm Hh s Hs. specialize (Hm s Hs). unfold try_catch_all.
  destruct (m s) as [[]]; try done. by apply Hh.
Qed.

Lemma keeps_with {A} release (m : M S A) Q :
  keeps u f I m Q -> (forall s, I s -> I (release s)) ->
  keeps u f I (with_destructor release m) Q.
Proof.
  intros Hm Hr s Hs. specialize (Hm s Hs). unfold with_destructor.
  destruct (m s) as [[]]; try done; [destruct Hm|]; auto.
Qed.
End keeps.

(** *** Running a bind

    When the first computation is known, the bind is its continuation.
    [m_step] runs the head of a bind with the lemmas of the database [ma2a]. *)
Section run.
Context {S A B : Type}.
Implicit Types (m : M S A) (f : A -> M S B).

Lemma run_bind m f s a s' : m s = (Ret a, s') -> (m ≫= f) s = f a s'.
Proof. unfold mbind, M_bind. by intros ->. Qed.
Lemma run_bind_throw m f s e s' : m s = (Throw e, s') -> (m ≫= f) s = (Throw e, s').
Proof. unfold mbind, M_bind. by intros ->. Qed.
Lemma run_bind_undef m f s u s' : m s = (Undef u, s') -> (m ≫= f) s = (Undef u, s').
Proof. unfold mbind, M_bind. by intros ->. Qed.

Lemma run_bind_inv m f s b s' :
  (m ≫= f) s = (Ret b, s') -> exists a s1, m s = (Ret a, s1) /\ f a s1 = (Ret b, s').
Proof. unfold mbind, M_bind. destruct (m s) as [[] ?]; intros [=]; eauto. Qed.

Lemma try_catch_inv m h s a s' :
  try_catch_all m h s = (Ret a, s') ->
  m s = (Ret a, s') \/ exists e s1, m s = (Throw e, s1) /\ h s1 = (Ret a, s').
Proof. unfold try_catch_all. destruct (m s) as [[] ?]; eauto. Qed.

Lemma with_destructor_inv release m s a s' :
  with_destructor release m s = (Ret a, s') ->
  exists s1, m s = (Ret a, s1) /\ s' = release s1.
Proof. unfold with_destructor. destruct (m s) as [[] ?]; intros [=]; subst; eauto. Qed.
End run.

Create HintDb ma2a.

(** Linear arithmetic with quotients and remainders by constants. *)
Ltac zdiv := Z.to_euclidean_division_equations; lia.

Ltac m_step :=
  erewrite run_bind; [|solve [eauto with ma2a nocore]]; cbv beta iota.
Ltac m_steps := repeat m_step.
