(* ===== verification/Contracts.v ===== *)
(** * Message contracts (cpp/include/ma2a/contracts.hpp)

    One Module per struct, so that the members keep the names they have in
    the code.  [default] is the value-initialised object: empty strings, zero
    integers and the initialisers the struct gives. *)
From Stdlib Require Import SpecFloat.
From S2P Require Import Prelude.

Inductive Scope : Type :=
| LocalOnly
| Private
| Organization
| Public.

#[global] Instance Scope_eq_dec : EqDecision Scope.
Proof. solve_decision. Defined.

Module CapabilityAdvertisement.
(** A [double] is an IEEE 754 binary64 value. *)
Record t : Type := mk {
  protocol_version : bytes;
  message_id : bytes;
  node_id : bytes;
  organization_id : bytes;
  sequence : Z;
  issued_at : Z;
  expires_at : Z;
  available : bool;
  compute_capacity : spec_float;
  current_load : spec_float;
  models : list bytes;
  memory_domains : list bytes;
  supported_scopes : list Scope;
  signature_algorithm : bytes;
  signature : bytes;
}.

Definition default : t := {|
  protocol_version := []; message_id := []; node_id := []; organization_id := [];
  sequence := 0; issued_at := 0; expires_at := 0; available := false;
  compute_capacity := S754_zero false; current_load := S754_zero false;
  models := []; memory_domains := []; supported_scopes := [];
  signature_algorithm := str "Ed25519"; signature := [] |}.
End CapabilityAdvertisement.

Module JobRequest.
Record t : Type := mk {
  protocol_version : bytes;
  message_id : bytes;
  request_id : bytes;
  sender_node_id : bytes;
  target_node_id : bytes;
  organization_id : bytes;
  operation : bytes;
  payload : bytes;
  issued_at : Z;
  expires_at : Z;
  signature_algorithm : bytes;
  signature : bytes;
}.

Definition default : t := {|
  protocol_version := []; message_id := []; request_id := []; sender_node_id := [];
  target_node_id := []; organization_id := []; operation := []; payload := [];
  issued_at := 0; expires_at := 0;
  signature_algorithm := str "Ed25519"; signature := [] |}.

#[global] Instance t_eq_dec : EqDecision t.
Proof. solve_decision. Defined.

(** The members of type [std::int64_t] hold 64-bit values. *)
Definition wf (r : t) : Prop := is_int64 (issued_at r) /\ is_int64 (expires_at r).

Definition set_target_node_id (v : bytes) (r : t) : t :=
  mk (protocol_version r) (message_id r) (request_id r) (sender_node_id r) v
     (organization_id r) (operation r) (payload r) (issued_at r) (expires_at r)
     (signature_algorithm r) (signature r).
Definition set_signature_algorithm (v : bytes) (r : t) : t :=
  mk (protocol_version r) (message_id r) (request_id r) (sender_node_id r) (target_node_id r)
     (organization_id r) (operation r) (payload r) (issued_at r) (expires_at r)
     v (signature r).
Definition set_signature (v : bytes) (r : t) : t :=
  mk (protocol_version r) (message_id r) (request_id r) (sender_node_id r) (target_node_id r)
     (organization_id r) (operation r) (payload r) (issued_at r) (expires_at r)
     (signature_algorithm r) v.
End JobRequest.

Module JobResult.
Record t : Type := mk {
  protocol_version : bytes;
  message_id : bytes;
  request_id : bytes;
  responder_node_id : bytes;
  recipient_node_id : bytes;
  status : bytes;
  payload : bytes;
  completed_at : Z;
  signature_algorithm : bytes;
  signature : bytes;
}.

Definition default : t := {|
  protocol_version := []; message_id := []; request_id := []; responder_node_id := [];
  recipient_node_id := []; status := []; payload := []; completed_at := 0;
  signature_algorithm := str "Ed25519"; signature := [] |}.

#[global] Instance t_eq_dec : EqDecision t.
Proof. solve_decision. Defined.

Definition wf (r : t) : Prop := is_int64 (completed_at r).

Definition set_signature_algorithm (v : bytes) (r : t) : t :=
  mk (protocol_version r) (message_id r) (request_id r) (responder_node_id r)
     (recipient_node_id r) (status r) (payload r) (completed_at r) v (signature r).
Definition set_signature (v : bytes) (r : t) : t :=
  mk (protocol_version r) (message_id r) (request_id r) (responder_node_id r)
     (recipient_node_id r) (status r) (payload r) (completed_at r) (signature_algorithm r) v.
End JobResult.

Module FailureNotice.
Record t : Type := mk {
  protocol_version : bytes;
  message_id : bytes;
  request_id : bytes;
  reporting_node_id : bytes;
  failed_node_id : bytes;
  reason : bytes;
  observed_at : Z;
  signature_algorithm : bytes;
  signature : bytes;
}.

Definition default : t := {|
  protocol_version := []; message_id := []; request_id := []; reporting_node_id := [];
  failed_node_id := []; reason := []; observed_at := 0;
  signature_algorithm := str "Ed25519"; signature := [] |}.

#[global] Instance t_eq_dec : EqDecision t.
Proof. solve_decision. Defined.

Definition wf (n : t) : Prop := is_int64 (observed_at n).

Definition set_signature_algorithm (v : bytes) (n : t) : t :=
  mk (protocol_version n) (message_id n) (request_id n) (reporting_node_id n)
     (failed_node_id n) (reason n) (observed_at n) v (signature n).
Definition set_signature (v : bytes) (n : t) : t :=
  mk (protocol_version n) (message_id n) (request_id n) (reporting_node_id n)
     (failed_node_id n) (reason n) (observed_at n) (signature_algorithm n) v.
End FailureNotice.
