(* ===== verification/Canonical.v ===== *)
(** * Canonical JSON (cpp/include/ma2a/canonical.hpp)

    The text that is signed: a flat JSON object with its keys in
    lexicographic order and no white space.  An [std::ostringstream] is the
    byte string written to it so far, and [out << x] appends. *)
From S2P Require Import Prelude Contracts.

(** ** Formatted output of integers

    What [std::ostream] writes for an integer in the classic locale: the
    digits of its magnitude in the stream's base, most significant first,
    after a minus sign if it is negative. *)

Fixpoint digits (fuel : nat) (base n : Z) (acc : list Z) : list Z :=
  match fuel with
  | O => acc
  | S fuel =>
      if (n <? base)%Z then n :: acc
      else digits fuel base (n / base) (n mod base :: acc)%Z
  end.

Definition digits_of (base n : Z) : list Z := digits (S (Z.to_nat (Z.log2 n))) base n [].

Definition digit_char (d : Z) : byte :=
  byte_of_Z (if (d <? 10)%Z then 48 + d else 87 + d)%Z.

(** [out << std::dec << n] *)
Definition ostream_dec (n : Z) : bytes :=
  if (n <? 0)%Z then x2d :: map digit_char (digits_of 10 (- n))
  else map digit_char (digits_of 10 n).

(** [out << std::hex << std::setw(w) << std::setfill(c) << n], for [n >= 0] *)
Definition ostream_hex (w : nat) (c : byte) (n : Z) : bytes :=
  let text := map digit_char (digits_of 16 n) in
  replicate (w - length text) c ++ text.

(** ** Strings *)

(** The body of the loop of [json_string]. *)
Definition escape_char (ch : byte) : bytes :=
  match ch with
  | x22 => [x5c; x22]                     (* double quote *)
  | x5c => [x5c; x5c]                     (* backslash *)
  | x08 => str "\b"
  | x0c => str "\f"
  | x0a => str "\n"
  | x0d => str "\r"
  | x09 => str "\t"
  | _ => if (uchar ch <? 0x20)%Z
         then str "\u" ++ ostream_hex 4 x30 (uchar ch)
         else [ch]
  end.

Definition json_string (value : bytes) : bytes :=
  [dquote] ++ concat (map escape_char value) ++ [dquote].

(** ** Canonical messages *)

Definition canonical_job_request_json (job : JobRequest.t) : bytes :=
  str "{"
  ++ lit_key "expires_at" ++ ostream_dec (JobRequest.expires_at job) ++ str ","
  ++ lit_key "issued_at" ++ ostream_dec (JobRequest.issued_at job) ++ str ","
  ++ lit_key "message_id" ++ json_string (JobRequest.message_id job) ++ str ","
  ++ lit_key "operation" ++ json_string (JobRequest.operation job) ++ str ","
  ++ lit_key "organization_id"
  ++ (if bool_decide (JobRequest.organization_id job = []) then str "null"
      else json_string (JobRequest.organization_id job))
  ++ str ","
  ++ lit_key "payload" ++ json_string (JobRequest.payload job) ++ str ","
  ++ lit_key "protocol_version" ++ json_string (JobRequest.protocol_version job) ++ str ","
  ++ lit_key "request_id" ++ json_string (JobRequest.request_id job) ++ str ","
  ++ lit_key "sender_node_id" ++ json_string (JobRequest.sender_node_id job) ++ str ","
  ++ lit_key "signature_algorithm" ++ json_string (JobRequest.signature_algorithm job) ++ str ","
  ++ lit_key "target_node_id" ++ json_string (JobRequest.target_node_id job)
  ++ str "}".

Definition canonical_job_result_json (result : JobResult.t) : bytes :=
  str "{"
  ++ lit_key "completed_at" ++ ostream_dec (JobResult.completed_at result) ++ str ","
  ++ lit_key "message_id" ++ json_string (JobResult.message_id result) ++ str ","
  ++ lit_key "payload" ++ json_string (JobResult.payload result) ++ str ","
  ++ lit_key "protocol_version" ++ json_string (JobResult.protocol_version result) ++ str ","
  ++ lit_key "recipient_node_id" ++ json_string (JobResult.recipient_node_id result) ++ str ","
  ++ lit_key "request_id" ++ json_string (JobResult.request_id result) ++ str ","
  ++ lit_key "responder_node_id" ++ json_string (JobResult.responder_node_id result) ++ str ","
  ++ lit_key "signature_algorithm" ++ json_string (JobResult.signature_algorithm result) ++ str ","
  ++ lit_key "status" ++ json_string (JobResult.status result)
  ++ str "}".

(** JSON written with single quotes, which stand for double quotes. *)
Definition json_literal (s : String.string) : bytes :=
  map (fun b => if decide (b = x27) then dquote else b) (str s).
Arguments json_literal s%_string_scope.

(** The literals of the test [python_interop_test.cpp]: the canonical text is
    checked byte for byte against what Python produces. *)
Example canonical_interop :
  canonical_job_request_json {|
    JobRequest.protocol_version := str "0.2"; JobRequest.message_id := str "msg-interop-1";
    JobRequest.request_id := str "job-interop-1"; JobRequest.sender_node_id := str "node-python";
    JobRequest.target_node_id := str "node-cpp"; JobRequest.organization_id := str "org-1";
    JobRequest.operation := str "PING"; JobRequest.payload := [];
    JobRequest.issued_at := 1800000000; JobRequest.expires_at := 1800000030;
    JobRequest.signature_algorithm := str "Ed25519"; JobRequest.signature := [] |}
  = json_literal "{'expires_at':1800000030,'issued_at':1800000000,'message_id':'msg-interop-1','operation':'PING','organization_id':'org-1','payload':'','protocol_version':'0.2','request_id':'job-interop-1','sender_node_id':'node-python','signature_algorithm':'Ed25519','target_node_id':'node-cpp'}".
Proof. vm_compute. reflexivity. Qed.

(** ** Facts about the integer printer *)

Definition value_of (base : Z) (ds : list Z) (v : Z) : Z :=
  fold_left (fun v d => v * base + d)%Z ds v.

Lemma digits_value fuel base n acc :
  (2 <= base)%Z -> (0 <= n < 2 ^ Z.of_nat fuel)%Z ->
  value_of base (digits fuel base n acc) 0 = value_of base acc n.
Proof.
  intros Hb. revert n acc. induction fuel as [|fuel IH]; intros n acc Hn; simpl digits.
  - assert (n = 0)%Z as -> by lia. done.
  - case_match; [unfold value_of; cbn [fold_left]; f_equal; lia|].
    rewrite IH.
    + unfold value_of. cbn [fold_left]. f_equal.
      rewrite (Z.div_mod n base) at 3 by lia. lia.
    + split; [apply Z.div_pos; lia|]. apply Z.div_lt_upper_bound; [lia|].
      rewrite Nat2Z.inj_succ, Z.pow_succ_r in Hn by lia. nia.
Qed.

Lemma digits_bounded fuel base n acc :
  (2 <= base)%Z -> (0 <= n)%Z -> Forall (fun d => 0 <= d < base)%Z acc ->
  Forall (fun d => 0 <= d < base)%Z (digits fuel base n acc).
Proof.
  intros Hb. revert n acc. induction fuel as [|fuel IH]; intros n acc Hn Hacc; simpl; [done|].
  case_match; [constructor; [lia|done]|].
  apply IH; [apply Z.div_pos; lia|]. constructor; [apply Z.mod_pos_bound; lia|done].
Qed.

Lemma digits_nonnil fuel base n acc : fuel <> 0 \/ acc <> [] -> digits fuel base n acc <> [].
Proof.
  revert n acc. induction fuel as [|fuel IH]; intros n acc [H|H]; simpl; try done;
    case_match; try done; apply IH; by right.
Qed.

Lemma digits_of_value base n :
  (2 <= base)%Z -> (0 <= n)%Z -> value_of base (digits_of base n) 0 = n.
Proof.
  intros Hb Hn. unfold digits_of. rewrite digits_value; [done|done|]. split; [done|].
  rewrite Nat2Z.inj_succ, Z2Nat.id by apply Z.log2_nonneg.
  destruct (decide (n = 0)%Z) as [->|]; [reflexivity|].
  pose proof (Z.log2_spec n). lia.
Qed.

Lemma digits_of_bounded base n :
  (2 <= base)%Z -> (0 <= n)%Z -> Forall (fun d => 0 <= d < base)%Z (digits_of base n).
Proof. intros. apply digits_bounded; auto. Qed.

Lemma digits_of_nonnil base n : digits_of base n <> [].
Proof. apply digits_nonnil. by left. Qed.
