(* ===== verification/Reader.v ===== *)
(** * The flat JSON reader (cpp/include/ma2a/wire_parse.hpp, lines 13-135)

    [FlatJsonReader] walks a byte string with an index.  Its members are
    computations of [M FlatJsonReader]: the state is the object, exceptions
    are outcomes, and reading past the terminating NUL of the string or
    overflowing an [std::int64_t] is undefined behaviour. *)
From S2P Require Import Prelude.

(** ** Code points and hexadecimal digits *)

(** [append_utf8(out, cp)], as the new value of [out]. *)
Definition append_utf8 (out : bytes) (cp : Z) : outcome bytes :=
  if (cp <=? 0x7f)%Z then Ret (out ++ [byte_of_Z cp])
  else if (cp <=? 0x7ff)%Z then
    Ret (out ++ [byte_of_Z (Z.lor 0xc0 (Z.shiftr cp 6));
                 byte_of_Z (Z.lor 0x80 (Z.land cp 0x3f))])
  else if (cp <=? 0xffff)%Z then
    Ret (out ++ [byte_of_Z (Z.lor 0xe0 (Z.shiftr cp 12));
                 byte_of_Z (Z.lor 0x80 (Z.land (Z.shiftr cp 6) 0x3f));
                 byte_of_Z (Z.lor 0x80 (Z.land cp 0x3f))])
  else if (cp <=? 0x10ffff)%Z then
    Ret (out ++ [byte_of_Z (Z.lor 0xf0 (Z.shiftr cp 18));
                 byte_of_Z (Z.lor 0x80 (Z.land (Z.shiftr cp 12) 0x3f));
                 byte_of_Z (Z.lor 0x80 (Z.land (Z.shiftr cp 6) 0x3f));
                 byte_of_Z (Z.lor 0x80 (Z.land cp 0x3f))])
  else Throw (invalid_argument "invalid unicode code point").

(** [lo <= ch && ch <= hi] on plain chars. *)
Definition char_between (lo hi ch : byte) : bool :=
  (schar lo <=? schar ch)%Z && (schar ch <=? schar hi)%Z.

Definition hex_digit (ch : byte) : outcome Z :=
  if char_between x30 x39 ch then Ret (schar ch - 48)%Z
  else if char_between x61 x66 ch then Ret (10 + (schar ch - 97))%Z
  else if char_between x41 x46 ch then Ret (10 + (schar ch - 65))%Z
  else Throw (invalid_argument "invalid unicode escape").

(** ** The reader object *)

Module FlatJsonReader.
Record t : Type := mk { json_ : bytes; pos_ : nat }.

(** [explicit FlatJsonReader(const std::string& json)] *)
Definition init (json : bytes) : t := mk json 0.

Definition size (r : t) : nat := length (json_ r).

(** [pos_ += k] *)
Definition advance (k : nat) : M t unit := fun r => (Ret tt, mk (json_ r) (pos_ r + k)).

(** [json_[pos_ + k]]: the byte after the last one is NUL, and there is no
    byte further on. *)
Definition char_at (k : nat) : M t byte := fun r =>
  (match json_ r !! (pos_ r + k) with
   | Some c => Ret c
   | None => if decide (pos_ r + k = size r) then Ret x00 else Undef out_of_range
   end, r).

(** [json_[pos_++]] *)
Definition next : M t byte := c ← char_at 0; advance 1;; mret c.

(** [pos_ + k > json_.size()] *)
Definition too_short (k : nat) : M t bool := fun r => (Ret (size r <? pos_ r + k), r).

(** [pos_ >= json_.size()] *)
Definition at_end : M t bool := fun r => (Ret (size r <=? pos_ r), r).

Definition done (r : t) : bool := pos_ r =? size r.

Definition expect (ch : byte) : M t unit :=
  e ← at_end;
  if (e : bool) then throw (invalid_argument "unexpected JSON token") else
  c ← char_at 0;
  if decide (c <> ch) then throw (invalid_argument "unexpected JSON token") else
  advance 1.

(** The four rounds of the loop of [unicode_unit]. *)
Fixpoint unicode_unit_loop (rounds : nat) (value : Z) : M t Z :=
  match rounds with
  | O => mret value
  | S rounds =>
      c ← next;
      d ← lift (hex_digit c);
      unicode_unit_loop rounds (Z.lor (to_uint32 (Z.shiftl value 4)) (to_uint32 d))
  end.

Definition unicode_unit : M t Z :=
  short ← too_short 4;
  if (short : bool) then throw (invalid_argument "truncated unicode escape") else
  unicode_unit_loop 4 0.

(** The case ['u'] of the switch of [string], up to the [break]. *)
Definition unicode_escape (out : bytes) : M t bytes :=
  first ← unicode_unit;
  cp ← (if (0xd800 <=? first)%Z && (first <=? 0xdbff)%Z then
          short ← too_short 2;
          if (short : bool) then throw (invalid_argument "missing low surrogate") else
          c0 ← char_at 0;
          if decide (c0 <> x5c) then throw (invalid_argument "missing low surrogate") else
          c1 ← char_at 1;
          if decide (c1 <> x75) then throw (invalid_argument "missing low surrogate") else
          advance 2;;
          second ← unicode_unit;
          if (second <? 0xdc00)%Z || (0xdfff <? second)%Z
          then throw (invalid_argument "invalid low surrogate")
          else mret (to_uint32 (to_uint32 (0x10000 + Z.shiftl (first - 0xd800) 10)
                                + (second - 0xdc00)))
        else if (0xdc00 <=? first)%Z && (first <=? 0xdfff)%Z
        then throw (invalid_argument "unexpected low surrogate")
        else mret first);
  lift (append_utf8 out cp).

(** The switch on the character after a backslash. *)
Definition string_escape (out : bytes) : M t bytes :=
  e ← at_end;
  if (e : bool) then throw (invalid_argument "truncated JSON escape") else
  esc ← next;
  match esc with
  | x22 => mret (out ++ [x22])
  | x5c => mret (out ++ [x5c])
  | x2f => mret (out ++ [x2f])
  | x62 => mret (out ++ [x08])
  | x66 => mret (out ++ [x0c])
  | x6e => mret (out ++ [x0a])
  | x72 => mret (out ++ [x0d])
  | x74 => mret (out ++ [x09])
  | x75 => unicode_escape out
  | _ => throw (invalid_argument "unsupported JSON escape")
  end.

(** The while loop of [string]; every round reads at least one byte. *)
Fixpoint string_loop (fuel : nat) (out : bytes) : M t bytes :=
  match fuel with
  | O => lift OutOfFuel
  | S fuel =>
      e ← at_end;
      if (e : bool) then throw (invalid_argument "unterminated JSON string") else
      ch ← next;
      if decide (ch = x22) then mret out else
      if decide (ch <> x5c) then
        if (uchar ch <? 0x20)%Z then throw (invalid_argument "invalid control character")
        else string_loop fuel (out ++ [ch])
      else
        out' ← string_escape out;
        string_loop fuel out'
  end.

Definition string : M t bytes :=
  expect x22;;
  r ← get;
  string_loop (S (size r - pos_ r)) [].

Definition key (expected : String.string) : M t unit :=
  actual ← string;
  if decide (actual <> str expected) then throw (invalid_argument "unexpected JSON key") else
  expect x3a.

(** [json_[pos_] >= '0' && json_[pos_] <= '9'] *)
Definition is_digit (c : byte) : bool := char_between x30 x39 c.

(** A result of [std::int64_t] arithmetic. *)
Definition int64_result (z : Z) : outcome Z := if int64b z then Ret z else Undef signed_overflow.

(** The while loop of [integer]. *)
Fixpoint integer_loop (fuel : nat) (value : Z) : M t Z :=
  match fuel with
  | O => lift OutOfFuel
  | S fuel =>
      e ← at_end;
      if (e : bool) then mret value else
      c ← char_at 0;
      if is_digit c then
        advance 1;;
        tens ← lift (int64_result (value * 10));
        value ← lift (int64_result (tens + (schar c - 48)));
        integer_loop fuel value
      else mret value
  end.

Definition integer : M t Z :=
  e ← at_end;
  if (e : bool) then throw (invalid_argument "missing integer") else
  c ← char_at 0;
  let negative := bool_decide (c = x2d) in
  (if negative then advance 1 else mret tt);;
  e ← at_end;
  if (e : bool) then throw (invalid_argument "invalid integer") else
  c ← char_at 0;
  if negb (is_digit c) then throw (invalid_argument "invalid integer") else
  r ← get;
  value ← integer_loop (S (size r - pos_ r)) 0;
  if negative then lift (int64_result (- value)) else mret value.
End FlatJsonReader.

Arguments FlatJsonReader.key expected%_string_scope.

(** ** The reader in front of a known text

    [rd pre t] is the reader that has consumed [pre] and has [t] in front of
    it; the lemmas below say what each member does to it. *)
Import FlatJsonReader.

Definition rd (pre t : bytes) : FlatJsonReader.t := mk (pre ++ t) (length pre).

Lemma init_rd json : init json = rd [] json.
Proof. done. Qed.

Lemma at_end_cons pre c t : at_end (rd pre (c :: t)) = (Ret false, rd pre (c :: t)).
Proof.
  unfold at_end, rd, size; simpl. do 2 f_equal. apply Nat.leb_gt. rewrite length_app; simpl. lia.
Qed.

Lemma at_end_nil pre : at_end (rd pre []) = (Ret true, rd pre []).
Proof.
  unfold at_end, rd, size; simpl. do 2 f_equal. apply Nat.leb_le. rewrite length_app; simpl. lia.
Qed.

Lemma char_at_lookup k pre t c :
  t !! k = Some c -> char_at k (rd pre t) = (Ret c, rd pre t).
Proof.
  intros H. unfold char_at, rd; simpl. rewrite lookup_app_r by lia.
  replace (length pre + k - length pre) with k by lia. by rewrite H.
Qed.

Lemma char_at_0 pre c t : char_at 0 (rd pre (c :: t)) = (Ret c, rd pre (c :: t)).
Proof. by apply char_at_lookup. Qed.
Lemma char_at_1 pre c d t : char_at 1 (rd pre (c :: d :: t)) = (Ret d, rd pre (c :: d :: t)).
Proof. by apply char_at_lookup. Qed.

Lemma advance_app pre u t : advance (length u) (rd pre (u ++ t)) = (Ret tt, rd (pre ++ u) t).
Proof. unfold advance, rd; simpl. by rewrite length_app, <-app_assoc. Qed.

Lemma advance_1 pre c t : advance 1 (rd pre (c :: t)) = (Ret tt, rd (pre ++ [c]) t).
Proof. apply (advance_app pre [c]). Qed.
Lemma advance_2 pre c d t : advance 2 (rd pre (c :: d :: t)) = (Ret tt, rd (pre ++ [c; d]) t).
Proof. apply (advance_app pre [c; d]). Qed.

Lemma too_short_ge k pre t : k <= length t -> too_short k (rd pre t) = (Ret false, rd pre t).
Proof.
  intros H. unfold too_short, rd, size; simpl. do 2 f_equal. apply Nat.ltb_ge.
  rewrite length_app. lia.
Qed.
Lemma too_short_lt k pre t : length t < k -> too_short k (rd pre t) = (Ret true, rd pre t).
Proof.
  intros H. unfold too_short, rd, size; simpl. do 2 f_equal. apply Nat.ltb_lt.
  rewrite length_app. lia.
Qed.

Lemma get_rd pre t : get (rd pre t) = (Ret (rd pre t), rd pre t).
Proof. done. Qed.

Lemma rd_fuel pre t : size (rd pre t) - pos_ (rd pre t) = length t.
Proof. unfold size, rd; simpl. rewrite length_app. lia. Qed.

#[export] Hint Resolve at_end_cons at_end_nil char_at_0 char_at_1 advance_1 advance_2 get_rd : ma2a.

Lemma next_cons pre c t : next (rd pre (c :: t)) = (Ret c, rd (pre ++ [c]) t).
Proof. unfold next. m_steps. done. Qed.
#[export] Hint Resolve next_cons : ma2a.

Lemma expect_cons pre c t : expect c (rd pre (c :: t)) = (Ret tt, rd (pre ++ [c]) t).
Proof. unfold expect. m_steps. rewrite decide_False by auto. auto with ma2a. Qed.
#[export] Hint Resolve expect_cons : ma2a.

(** ** Hexadecimal units *)

Lemma hex_digit_range c d : hex_digit c = Ret d -> (0 <= d < 16)%Z.
Proof. destruct c; vm_compute; intros [=]; subst; done. Qed.

Lemma land_shiftl_small v d k :
  (0 <= k)%Z -> (0 <= d < 2 ^ k)%Z -> Z.land (Z.shiftl v k) d = 0%Z.
Proof.
  intros Hk Hd. rewrite <-(Z.mod_small d (2 ^ k)), <-Z.land_ones by done.
  apply Z.bits_inj'; intros n Hn. rewrite !Z.land_spec, Z.bits_0, Z.shiftl_spec by done.
  destruct (Z.ltb_spec n k).
  - by rewrite Z.testbit_neg_r by lia.
  - rewrite Z.ones_spec_high by lia. by rewrite !andb_false_r.
Qed.

Lemma lor_add v d k :
  (0 <= k)%Z -> (0 <= d < 2 ^ k)%Z -> Z.lor (Z.shiftl v k) d = (v * 2 ^ k + d)%Z.
Proof.
  intros Hk Hd. rewrite <-Z.lxor_lor, <-Z.add_nocarry_lxor by by apply land_shiftl_small.
  by rewrite Z.shiftl_mul_pow2.
Qed.

Lemma unicode_unit_round v d :
  (0 <= v < 2 ^ 28)%Z -> (0 <= d < 16)%Z ->
  Z.lor (to_uint32 (Z.shiftl v 4)) (to_uint32 d) = (v * 16 + d)%Z.
Proof.
  intros Hv Hd. unfold to_uint32.
  rewrite !Z.mod_small by (rewrite ?Z.shiftl_mul_pow2 by done; lia).
  by rewrite lor_add by lia.
Qed.

Definition hex4 (d0 d1 d2 d3 : Z) : Z := (((d0 * 16 + d1) * 16 + d2) * 16 + d3)%Z.

Lemma unicode_unit_loop_step n v pre c t d :
  hex_digit c = Ret d -> (0 <= v < 2 ^ 28)%Z ->
  unicode_unit_loop (S n) v (rd pre (c :: t))
  = unicode_unit_loop n (v * 16 + d) (rd (pre ++ [c]) t).
Proof.
  intros Hd Hv. simpl. m_step.
  rewrite (run_bind _ _ _ d (rd (pre ++ [c]) t)) by (unfold lift; by rewrite Hd).
  by rewrite unicode_unit_round by eauto using hex_digit_range.
Qed.

Lemma unicode_unit_hex4 pre c0 c1 c2 c3 t d0 d1 d2 d3 :
  hex_digit c0 = Ret d0 -> hex_digit c1 = Ret d1 ->
  hex_digit c2 = Ret d2 -> hex_digit c3 = Ret d3 ->
  unicode_unit (rd pre (c0 :: c1 :: c2 :: c3 :: t))
  = (Ret (hex4 d0 d1 d2 d3), rd (pre ++ [c0; c1; c2; c3]) t).
Proof.
  intros H0 H1 H2 H3. unfold unicode_unit.
  erewrite run_bind; [|apply too_short_ge; simpl; lia]. cbv beta iota.
  pose proof (hex_digit_range _ _ H0). pose proof (hex_digit_range _ _ H1).
  pose proof (hex_digit_range _ _ H2). pose proof (hex_digit_range _ _ H3).
  do 4 (erewrite unicode_unit_loop_step; [|eassumption|lia]).
  rewrite <-!app_assoc. done.
Qed.

(** ** Code points *)

Lemma append_utf8_ascii out cp :
  (0 <= cp < 0x80)%Z -> append_utf8 out cp = Ret (out ++ [byte_of_Z cp]).
Proof. intros H. unfold append_utf8. by rewrite (proj2 (Z.leb_le cp 0x7f)) by lia. Qed.

(** A unit that is no surrogate is the code point itself. *)
Lemma unicode_escape_bmp out pre t u r :
  unicode_unit (rd pre t) = (Ret u, r) ->
  ((0xd800 <=? u) && (u <=? 0xdfff))%Z = false ->
  unicode_escape out (rd pre t) = (append_utf8 out u, r).
Proof.
  intros Hu Hs. unfold unicode_escape. rewrite (run_bind _ _ _ _ _ Hu).
  replace ((0xd800 <=? u) && (u <=? 0xdbff))%Z with false by lia.
  replace ((0xdc00 <=? u) && (u <=? 0xdfff))%Z with false by lia.
  done.
Qed.

(** ** One round of [string] *)

Lemma string_loop_quote fuel out pre t :
  string_loop (S fuel) out (rd pre (dquote :: t)) = (Ret out, rd (pre ++ [dquote]) t).
Proof. simpl. m_steps. done. Qed.

Lemma string_loop_raw fuel out pre ch t :
  ch <> x22 -> ch <> x5c -> (0x20 <= uchar ch)%Z ->
  string_loop (S fuel) out (rd pre (ch :: t))
  = string_loop fuel (out ++ [ch]) (rd (pre ++ [ch]) t).
Proof.
  intros H1 H2 H3. simpl. m_steps. rewrite decide_False, decide_True by done.
  by rewrite (proj2 (Z.ltb_ge (uchar ch) 0x20)) by lia.
Qed.

Lemma string_loop_escape fuel out out' pre t r :
  string_escape out (rd (pre ++ [x5c]) t) = (Ret out', r) ->
  string_loop (S fuel) out (rd pre (x5c :: t)) = string_loop fuel out' r.
Proof.
  intros H. simpl. m_steps. rewrite decide_False, decide_False by (intros ?; done).
  by rewrite (run_bind _ _ _ _ _ H).
Qed.

(** The escapes of one character. *)
Definition simple_escape (esc : byte) : option byte :=
  match esc with
  | x22 => Some x22 | x5c => Some x5c | x2f => Some x2f
  | x62 => Some x08 | x66 => Some x0c | x6e => Some x0a | x72 => Some x0d | x74 => Some x09
  | _ => None
  end.

Lemma string_escape_simple esc ch out pre t :
  simple_escape esc = Some ch ->
  string_escape out (rd pre (esc :: t)) = (Ret (out ++ [ch]), rd (pre ++ [esc]) t).
Proof. intros H. unfold string_escape. m_steps. by destruct esc; simplify_eq/=. Qed.

Lemma string_escape_u out pre t :
  string_escape out (rd pre (x75 :: t)) = unicode_escape out (rd (pre ++ [x75]) t).
Proof. unfold string_escape. m_steps. done. Qed.
