(* ===== verification/ReaderSafety.v ===== *)
(** * The reader on arbitrary input

    Whatever the bytes in front of it, a member of the reader reads inside of
    its string, terminates within the fuel its loop is given, and ends in a
    value, a [std::invalid_argument] or, for [integer] only, a signed
    overflow. *)
From S2P Require Import Prelude Reader.
Import FlatJsonReader.

Definition parser_outcome {A} (o : outcome A) : Prop :=
  match o with
  | Ret _ => True
  | Throw (invalid_argument _) => True
  | Undef signed_overflow => True
  | _ => False
  end.

(** [safe m]: from any position, [m] ends in a parser outcome, at a position
    no further from the end. *)
Definition safe {A} (m : M t A) : Prop :=
  forall pre t, exists o pre' t',
    m (rd pre t) = (o, rd pre' t') /\ parser_outcome o /\ length t' <= length t.

Lemma safe_ret {A} (a : A) : safe (mret a).
Proof. intros pre t. by exists (Ret a), pre, t. Qed.

Lemma safe_lift {A} (o : outcome A) : parser_outcome o -> safe (lift o).
Proof. intros H pre t. by exists o, pre, t. Qed.

Lemma safe_throw {A} w : safe (throw (A := A) (invalid_argument w)).
Proof. by apply safe_lift. Qed.

(** The rest of a bind only has to be safe from where its head stops. *)
Lemma safe_bind_at {A B} (m : M t A) (f : A -> M t B) pre t o pre1 t1 :
  m (rd pre t) = (o, rd pre1 t1) -> parser_outcome o -> length t1 <= length t ->
  (forall a, o = Ret a -> exists o' pre2 t2,
     f a (rd pre1 t1) = (o', rd pre2 t2) /\ parser_outcome o' /\ length t2 <= length t1) ->
  exists o' pre' t',
    (m ≫= f) (rd pre t) = (o', rd pre' t') /\ parser_outcome o' /\ length t' <= length t.
Proof.
  intros Hm Ho Hl Hf. unfold mbind, M_bind. rewrite Hm. destruct o as [a|e|u|];
    [|by eexists _, _, _; split_and!..].
  destruct (Hf a eq_refl) as (o' & pre2 & t2 & -> & ? & ?).
  eexists _, _, _. split_and!; [done|done|lia].
Qed.

Lemma safe_bind {A B} (m : M t A) (f : A -> M t B) :
  safe m -> (forall a, safe (f a)) -> safe (m ≫= f).
Proof.
  intros Hm Hf pre t. destruct (Hm pre t) as (o & pre1 & t1 & H & Ho & Hl).
  eapply safe_bind_at; eauto. intros a _. apply Hf.
Qed.

Lemma safe_if {A} (b : bool) (m n : M t A) : safe m -> safe n -> safe (if b then m else n).
Proof. by destruct b. Qed.
Lemma safe_decide {A} P `{Decision P} (m n : M t A) :
  safe m -> safe n -> safe (if decide P then m else n).
Proof. by destruct (decide P). Qed.

Lemma safe_get {A} (f : FlatJsonReader.t -> M t A) :
  (forall pre t, exists o pre' t',
     f (rd pre t) (rd pre t) = (o, rd pre' t') /\ parser_outcome o /\ length t' <= length t) ->
  safe (get ≫= f).
Proof. intros H pre t. erewrite run_bind by reflexivity. apply H. Qed.

Lemma safe_get_state : safe get.
Proof. intros pre t. by eexists _, _, _. Qed.

Create HintDb safe.
#[export] Hint Resolve safe_get_state safe_ret safe_throw safe_bind safe_if safe_decide : safe.

(** A test for the end, then a computation that has a byte in front of it. *)
Lemma safe_at_end {A} (m : M t A) (f : M t A) :
  (forall pre, exists o, m (rd pre []) = (o, rd pre []) /\ parser_outcome o) ->
  (forall pre c t, exists o pre' t',
     f (rd pre (c :: t)) = (o, rd pre' t') /\ parser_outcome o /\ length t' <= length (c :: t)) ->
  safe (e ← at_end; if (e : bool) then m else f).
Proof.
  intros Hm Hf pre [|c t]; m_step; [|apply Hf].
  destruct (Hm pre) as (o & -> & ?). by eexists _, _, _.
Qed.

Lemma throw_nil {A} w pre :
  exists o, throw (A := A) (invalid_argument w) (rd pre []) = (o, rd pre []) /\ parser_outcome o.
Proof. by eexists. Qed.
#[export] Hint Resolve throw_nil : safe.

Lemma safe_expect c : safe (expect c).
Proof.
  apply safe_at_end; [auto with safe|]. intros pre d t. m_step. case_decide.
  - by apply safe_throw.
  - eexists _, _, t. split; [apply advance_1|]. cbn; auto with lia.
Qed.

Lemma hex_digit_outcome c : parser_outcome (hex_digit c).
Proof. by destruct c. Qed.

Lemma safe_unicode_unit_loop n v pre t :
  n <= length t -> exists o pre' t',
    unicode_unit_loop n v (rd pre t) = (o, rd pre' t') /\ parser_outcome o /\ length t' <= length t.
Proof.
  revert v pre t. induction n as [|n IH]; intros v pre t Hn; [by apply safe_ret|].
  destruct t as [|c t]; cbn in Hn; [lia|]. cbn [unicode_unit_loop].
  eapply safe_bind_at; [apply next_cons|done|cbn; lia|]. intros _ [= <-].
  eapply safe_bind_at; [reflexivity|apply hex_digit_outcome|done|].
  intros d _. apply IH. lia.
Qed.

Lemma safe_unicode_unit : safe unicode_unit.
Proof.
  intros pre t. unfold unicode_unit. destruct (decide (4 <= length t)).
  - erewrite run_bind by (by apply too_short_ge). by apply safe_unicode_unit_loop.
  - erewrite run_bind by (apply too_short_lt; lia). apply safe_throw.
Qed.

Lemma append_utf8_outcome out cp : parser_outcome (append_utf8 out cp).
Proof. unfold append_utf8. by repeat case_match. Qed.

Lemma safe_unicode_escape out : safe (unicode_escape out).
Proof.
  unfold unicode_escape. apply safe_bind; [apply safe_unicode_unit|]. intros first.
  apply safe_bind; [|intros; apply safe_lift, append_utf8_outcome].
  apply safe_if; [|auto with safe]. intros pre t.
  destruct t as [|c [|d t]].
  1-2: erewrite run_bind by (apply too_short_lt; cbn; lia); apply safe_throw.
  erewrite run_bind by (apply too_short_ge; cbn; lia). cbv beta iota. m_step.
  case_decide; [apply safe_throw|]. m_step. case_decide; [apply safe_throw|].
  eapply safe_bind_at; [apply advance_2|done|cbn; lia|]. intros [] _.
  apply safe_bind; [apply safe_unicode_unit|auto with safe].
Qed.

Lemma safe_string_escape out : safe (string_escape out).
Proof.
  apply safe_at_end; [auto with safe|]. intros pre c t.
  eapply safe_bind_at; [apply next_cons|done|cbn; lia|]. intros esc _.
  destruct esc; first [apply safe_unicode_escape | apply safe_ret | apply safe_throw].
Qed.

(** The loops: the fuel they get exceeds the number of bytes left. *)
Lemma safe_string_loop fuel out pre t :
  length t < fuel -> exists o pre' t',
    string_loop fuel out (rd pre t) = (o, rd pre' t') /\ parser_outcome o /\ length t' <= length t.
Proof.
  revert out pre t. induction fuel as [|fuel IH]; intros out pre t Hf; [lia|].
  cbn [string_loop]. destruct t as [|c t]; m_step; [apply safe_throw|]. cbn in Hf.
  eapply safe_bind_at; [apply next_cons|done|cbn; lia|]. intros _ [= <-].
  case_decide; [apply safe_ret|]. case_decide.
  - case_match; [apply safe_throw|]. apply IH. lia.
  - destruct (safe_string_escape out (pre ++ [c]) t) as (o & pre1 & t1 & H1 & Ho & Hl).
    eapply safe_bind_at; [exact H1|done|done|]. intros out' _. apply IH. lia.
Qed.

Lemma safe_string : safe string.
Proof.
  unfold string. apply safe_bind; [apply safe_expect|]. intros _. apply safe_get.
  intros pre t. rewrite rd_fuel. apply safe_string_loop. lia.
Qed.

Lemma safe_key k : safe (key k).
Proof.
  unfold key. apply safe_bind; [apply safe_string|]. intros s.
  apply safe_decide; [apply safe_throw|apply safe_expect].
Qed.

Lemma int64_result_outcome z : parser_outcome (int64_result z).
Proof. unfold int64_result. by case_match. Qed.

Lemma safe_integer_loop fuel v pre t :
  length t < fuel -> exists o pre' t',
    integer_loop fuel v (rd pre t) = (o, rd pre' t') /\ parser_outcome o /\ length t' <= length t.
Proof.
  revert v pre t. induction fuel as [|fuel IH]; intros v pre t Hf; [lia|].
  cbn [integer_loop]. destruct t as [|c t]; m_step; [apply safe_ret|]. cbn in Hf. m_step.
  case_match; [|apply safe_ret].
  eapply safe_bind_at; [apply advance_1|done|cbn; lia|]. intros _ _.
  eapply safe_bind_at; [reflexivity|apply int64_result_outcome|done|]. intros tens _.
  eapply safe_bind_at; [reflexivity|apply int64_result_outcome|done|]. intros v' _.
  apply IH. lia.
Qed.

Lemma safe_integer : safe integer.
Proof.
  apply safe_at_end; [auto with safe|]. intros pre c t. m_step.
  eapply safe_bind_at with (o := Ret tt)
    (t1 := if bool_decide (c = x2d) then t else c :: t)
    (pre1 := if bool_decide (c = x2d) then pre ++ [c] else pre).
  - case_match; [apply advance_1|done].
  - done.
  - case_match; cbn; lia.
  - intros _ _. apply safe_at_end; [auto with safe|]. clear. intros pre d t. m_step.
    apply safe_if; [apply safe_throw|]. apply safe_get. clear. intros pre t. rewrite rd_fuel.
    destruct (safe_integer_loop (S (length t)) 0 pre t) as (o & pre1 & t1 & H1 & Ho & Hl); [lia|].
    eapply safe_bind_at; [exact H1|done|done|]. intros v _.
    case_match; [apply safe_lift, int64_result_outcome|apply safe_ret].
Qed.
#[export] Hint Resolve safe_expect safe_string safe_key safe_integer : safe.
