(* ===== verification/JsonRoundTrip.v ===== *)
(** * Strings and integers survive printing and reading

    The lemmas that connect [json_string] and [ostream_dec] of Canonical.v
    with [string] and [integer] of Reader.v.  Each says that the reader, in
    front of a printed value followed by any text [t], returns the value and
    stops in front of [t]; they are rewrite rules of the database [ma2a]. *)
From S2P Require Import Prelude Canonical Reader.
Import FlatJsonReader.

(** ** Strings *)

(** How each byte is printed: as it is, with a one-letter escape, or as a
    hexadecimal escape below 0x20. *)
Definition escape_shape (ch : byte) (e : bytes) : Prop :=
  (e = [ch] /\ ch <> x22 /\ ch <> x5c /\ (0x20 <= uchar ch)%Z)
  \/ (exists esc, e = [x5c; esc] /\ simple_escape esc = Some ch)
  \/ (exists c2 c3 d2 d3, e = [x5c; x75; x30; x30; c2; c3]
        /\ hex_digit c2 = Ret d2 /\ hex_digit c3 = Ret d3
        /\ byte_of_Z (hex4 0 0 d2 d3) = ch /\ (0 <= hex4 0 0 d2 d3 < 0x20)%Z).

Lemma escape_char_shape ch : escape_shape ch (escape_char ch).
Proof.
  unfold escape_shape.
  destruct ch;
    first [ left; vm_compute; intuition congruence
          | right; left; eexists; split; vm_compute; reflexivity
          | right; right; do 4 eexists; split; [vm_compute; reflexivity|];
            split; [vm_compute; reflexivity|]; split; [vm_compute; reflexivity|];
            vm_compute; intuition congruence ].
Qed.

(** One printed character is one round of the loop. *)
Lemma string_loop_char fuel out pre ch t :
  string_loop (S fuel) out (rd pre (escape_char ch ++ t))
  = string_loop fuel (out ++ [ch]) (rd (pre ++ escape_char ch) t).
Proof.
  destruct (escape_char_shape ch)
    as [(-> & ? & ? & ?) | [(esc & -> & He) | (c2 & c3 & d2 & d3 & -> & H2 & H3 & <- & Hb)]].
  - by apply string_loop_raw.
  - eapply string_loop_escape. rewrite (string_escape_simple _ _ _ _ _ He).
    by rewrite <-app_assoc.
  - eapply string_loop_escape. rewrite string_escape_u.
    erewrite unicode_escape_bmp; [|by apply (unicode_unit_hex4 _ x30 x30 c2 c3 t 0 0 d2 d3)|lia].
    rewrite append_utf8_ascii by lia. by rewrite <-!app_assoc.
Qed.

Lemma string_loop_text s fuel out pre t :
  length s < fuel ->
  string_loop fuel out (rd pre (concat (map escape_char s) ++ [dquote] ++ t))
  = (Ret (out ++ s), rd (pre ++ concat (map escape_char s) ++ [dquote]) t).
Proof.
  revert fuel out pre. induction s as [|ch s IH]; intros [|fuel] out pre Hf; simpl in Hf; try lia.
  - rewrite app_nil_r. apply string_loop_quote.
  - cbn [map concat]. rewrite <-app_assoc, string_loop_char, IH by lia. by rewrite <-!app_assoc.
Qed.

Lemma length_escape_char ch : 0 < length (escape_char ch).
Proof. destruct ch; vm_compute; lia. Qed.

Lemma length_escaped s : length s <= length (concat (map escape_char s)).
Proof.
  induction s as [|ch s IH]; simpl; [lia|]. rewrite length_app.
  pose proof (length_escape_char ch). lia.
Qed.

Lemma string_json_string pre s t :
  string (rd pre (json_string s ++ t)) = (Ret s, rd (pre ++ json_string s) t).
Proof.
  unfold string, json_string. rewrite <-!app_assoc. cbn [app]. m_steps.
  rewrite rd_fuel. change (dquote :: t) with ([dquote] ++ t).
  rewrite string_loop_text; [by rewrite <-!app_assoc|].
  rewrite !length_app. pose proof (length_escaped s). lia.
Qed.
#[export] Hint Resolve string_json_string : ma2a.

(** [key] accepts the key it expects. *)
Lemma json_string_plain (k : String.string) :
  json_string (str k) = dquote :: str k ++ [dquote] ->
  lit_key k = json_string (str k) ++ [x3a].
Proof. intros ->. unfold lit_key. cbn [app]. by rewrite <-app_assoc. Qed.

Lemma key_lit_key pre k t :
  json_string (str k) = dquote :: str k ++ [dquote] ->
  key k (rd pre (lit_key k ++ t)) = (Ret tt, rd (pre ++ lit_key k) t).
Proof.
  intros Hk. rewrite (json_string_plain _ Hk), <-app_assoc. unfold key.
  m_step. rewrite decide_False by auto. cbn [app]. rewrite app_assoc. auto with ma2a.
Qed.
#[export] Hint Extern 2 (key _ _ = _) => (apply key_lit_key; vm_compute; reflexivity) : ma2a.

(** ** Integers *)

Lemma digit_char_spec d :
  (0 <= d < 10)%Z ->
  is_digit (digit_char d) = true /\ (schar (digit_char d) - 48 = d)%Z /\ digit_char d <> x2d.
Proof.
  intros H.
  assert (d = 0 \/ d = 1 \/ d = 2 \/ d = 3 \/ d = 4 \/ d = 5 \/ d = 6 \/ d = 7 \/ d = 8 \/ d = 9)%Z
    as Hd by lia.
  destruct_or! Hd; subst; vm_compute; intuition congruence.
Qed.

Lemma value_of_ge ds v :
  Forall (fun d => 0 <= d < 10)%Z ds -> (0 <= v)%Z -> (v <= value_of 10 ds v)%Z.
Proof.
  intros H. revert v. induction H as [|d ds Hd _ IH]; intros v Hv; unfold value_of; cbn [fold_left];
    [lia|]. specialize (IH (v * 10 + d)%Z ltac:(lia)). unfold value_of in IH. lia.
Qed.

(** The text after an integer does not continue it. *)
Definition ends_integer (t : bytes) : Prop :=
  match t with [] => True | c :: _ => is_digit c = false end.

Lemma integer_loop_stop fuel v pre t :
  ends_integer t -> integer_loop (S fuel) v (rd pre t) = (Ret v, rd pre t).
Proof.
  intros H. simpl. destruct t as [|c t]; m_steps; [done|]. cbn in H. by rewrite H.
Qed.

Lemma integer_loop_digit fuel v pre d t :
  (0 <= d < 10)%Z -> (0 <= v)%Z ->
  integer_loop (S fuel) v (rd pre (digit_char d :: t))
  = if int64b (v * 10 + d)
    then integer_loop fuel (v * 10 + d) (rd (pre ++ [digit_char d]) t)
    else (Undef signed_overflow, rd (pre ++ [digit_char d]) t).
Proof.
  intros Hd Hv. destruct (digit_char_spec d Hd) as (H1 & H2 & _). simpl. m_steps.
  rewrite H1. m_step. rewrite H2. unfold int64_result.
  destruct (int64b_spec (v * 10 + d)) as [Hin|Hin].
  - destruct (int64b_spec (v * 10)) as [Hin'|[]];
      [|unfold is_int64, INT64_MIN, INT64_MAX in *; lia].
    erewrite run_bind by reflexivity. by destruct (int64b_spec (v * 10 + d)).
  - destruct (int64b_spec (v * 10)) as [Hin'|Hin']; [|done].
    erewrite run_bind by reflexivity. by destruct (int64b_spec (v * 10 + d)).
Qed.

(** The whole digit loop, for a value that fits. *)
Lemma integer_loop_digits ds fuel v pre t :
  Forall (fun d => 0 <= d < 10)%Z ds -> (0 <= v)%Z -> (value_of 10 ds v <= INT64_MAX)%Z ->
  length ds < fuel -> ends_integer t ->
  integer_loop fuel v (rd pre (map digit_char ds ++ t))
  = (Ret (value_of 10 ds v), rd (pre ++ map digit_char ds) t).
Proof.
  intros Hds. revert fuel v pre. induction Hds as [|d ds Hd Hds IH]; intros fuel v pre Hv Hm Hf Ht;
    (destruct fuel as [|fuel]; [cbn in Hf; lia|]); cbn [map app].
  - rewrite app_nil_r. by apply integer_loop_stop.
  - rewrite integer_loop_digit by done.
    pose proof (value_of_ge ds (v * 10 + d) Hds ltac:(lia)).
    change (value_of 10 (d :: ds) v) with (value_of 10 ds (v * 10 + d)) in *.
    destruct (int64b_spec (v * 10 + d)) as [_|[]];
      [|unfold is_int64, INT64_MIN in *; lia].
    rewrite IH by (cbn in Hf; first [done|lia]). by rewrite <-app_assoc.
Qed.

(** A literal too large for the accumulator overflows it. *)
Lemma integer_loop_overflow ds fuel v pre t :
  Forall (fun d => 0 <= d < 10)%Z ds -> (0 <= v)%Z -> (INT64_MAX < value_of 10 ds v)%Z ->
  (v <= INT64_MAX)%Z -> length ds < fuel ->
  fst (integer_loop fuel v (rd pre (map digit_char ds ++ t))) = Undef signed_overflow.
Proof.
  intros Hds. revert fuel v pre. induction Hds as [|d ds Hd Hds IH]; intros fuel v pre Hv Hm Hle Hf;
    (destruct fuel as [|fuel]; [cbn in Hf; lia|]); cbn [map app].
  - unfold value_of in Hm. cbn in Hm. lia.
  - rewrite integer_loop_digit by done.
    change (value_of 10 (d :: ds) v) with (value_of 10 ds (v * 10 + d)) in *.
    destruct (int64b_spec (v * 10 + d)) as [Hin|]; [|done].
    apply IH; unfold is_int64 in Hin; cbn in Hf; lia.
Qed.

(** [integer] in front of an optional sign and digits is its digit loop. *)
Definition sign (negative : bool) : bytes := if negative then [x2d] else [].

Lemma integer_unfold negative pre ds t :
  Forall (fun d => 0 <= d < 10)%Z ds -> ds <> [] ->
  integer (rd pre (sign negative ++ map digit_char ds ++ t))
  = (value ← integer_loop (S (length (map digit_char ds ++ t))) 0;
     if negative then lift (int64_result (- value)) else mret value)
    (rd (pre ++ sign negative) (map digit_char ds ++ t)).
Proof.
  intros Hds Hn. destruct ds as [|d ds]; [done|].
  destruct (digit_char_spec d (Forall_inv Hds)) as (H1 & _ & H2).
  unfold integer. destruct negative; cbn [map app sign]; m_steps.
  - rewrite bool_decide_eq_true_2 by done. m_steps. rewrite H1. cbn [negb]. m_steps.
    by rewrite rd_fuel.
  - rewrite bool_decide_eq_false_2, app_nil_r by done. erewrite run_bind by reflexivity.
    m_steps. rewrite H1. cbn [negb]. m_steps. by rewrite rd_fuel.
Qed.

Lemma integer_digits negative pre ds t :
  Forall (fun d => 0 <= d < 10)%Z ds -> ds <> [] -> ends_integer t ->
  (value_of 10 ds 0 <= INT64_MAX)%Z ->
  integer (rd pre (sign negative ++ map digit_char ds ++ t))
  = (Ret (if negative then - value_of 10 ds 0 else value_of 10 ds 0)%Z,
     rd (pre ++ sign negative ++ map digit_char ds) t).
Proof.
  intros Hds Hn Ht Hm. rewrite integer_unfold by done.
  erewrite run_bind
    by (apply integer_loop_digits; try done; rewrite length_app, length_map; lia).
  pose proof (value_of_ge ds 0 Hds ltac:(lia)). rewrite <-app_assoc.
  destruct negative; [|done]. unfold lift, int64_result.
  by destruct (int64b_spec (- value_of 10 ds 0)) as [_|[]];
    [|unfold is_int64, INT64_MIN, INT64_MAX in *; lia].
Qed.

Lemma integer_overflow negative pre ds t :
  Forall (fun d => 0 <= d < 10)%Z ds -> ds <> [] -> (INT64_MAX < value_of 10 ds 0)%Z ->
  fst (integer (rd pre (sign negative ++ map digit_char ds ++ t))) = Undef signed_overflow.
Proof.
  intros Hds Hn Hm. rewrite integer_unfold by done.
  pose proof (integer_loop_overflow ds (S (length (map digit_char ds ++ t))) 0
                (pre ++ sign negative) t Hds) as Hu.
  destruct (integer_loop _ _ _) as [o r'] eqn:E.
  erewrite run_bind_undef; [done|]. rewrite E. f_equal. apply Hu; try done.
  rewrite length_app, length_map. lia.
Qed.

Lemma ostream_dec_digits z :
  ostream_dec z = sign (z <? 0)%Z ++ map digit_char (digits_of 10 (Z.abs z)).
Proof.
  unfold ostream_dec. destruct (Z.ltb_spec z 0).
  - by rewrite Z.abs_neq by lia.
  - by rewrite Z.abs_eq by lia.
Qed.

(** What is printed is read back, but for the one value whose magnitude does
    not fit the reader's accumulator. *)
Lemma integer_ostream_dec pre z t :
  is_int64 z -> z <> INT64_MIN -> ends_integer t ->
  integer (rd pre (ostream_dec z ++ t)) = (Ret z, rd (pre ++ ostream_dec z) t).
Proof.
  intros Hz Hmin Ht. unfold is_int64, INT64_MIN, INT64_MAX in *.
  pose proof (digits_of_value 10 (Z.abs z) ltac:(lia) ltac:(lia)) as Hv.
  pose proof (digits_of_bounded 10 (Z.abs z) ltac:(lia) ltac:(lia)) as Hb.
  rewrite ostream_dec_digits, <-app_assoc, integer_digits by
    (try done; rewrite ?Hv; try apply digits_of_nonnil; unfold INT64_MAX; lia).
  rewrite Hv. do 2 f_equal. destruct (Z.ltb_spec z 0); lia.
Qed.

(** The printed minimum is undefined behaviour for the reader. *)
Lemma integer_ostream_dec_min pre t :
  fst (integer (rd pre (ostream_dec INT64_MIN ++ t))) = Undef signed_overflow.
Proof.
  rewrite ostream_dec_digits, <-app_assoc. apply integer_overflow.
  - by apply digits_of_bounded.
  - apply digits_of_nonnil.
  - by rewrite digits_of_value.
Qed.

#[export] Hint Extern 3 (integer _ = _) =>
  (apply integer_ostream_dec; [assumption|assumption|reflexivity]) : ma2a.
