(* ===== verification/Unicode.v ===== *)
(** * Unicode: UTF-8 output of the reader and JSON text written by Python

    A reference decoder for UTF-8 (RFC 3629) against which [append_utf8] is
    proved, the surrogate pairs of [FlatJsonReader::string], and the interop
    with the Python peer: what [json.dumps] writes by default, escaping every
    character outside of printable ASCII
    (reference/python/ma2a/auth.py, [canonical_json], and transport.py,
    [send_frame]), against what [json_string] writes and [string] reads. *)
From S2P Require Import Prelude Canonical Reader JsonRoundTrip.
Import FlatJsonReader.

(** A Unicode scalar value: a code point that is no surrogate. *)
Definition scalar (cp : Z) : Prop :=
  (0 <= cp < 0xd800 \/ 0xe000 <= cp <= 0x10ffff)%Z.

(** ** A reference decoder *)

Definition continuation (b : byte) : option Z :=
  if (0x80 <=? uchar b)%Z && (uchar b <=? 0xbf)%Z then Some (uchar b - 0x80)%Z else None.

(** Decodes one code point; [None] on text that is no well-formed UTF-8
    (overlong forms, surrogates and values past 0x10ffff included). *)
Definition utf8_decode (t : bytes) : option (Z * bytes) :=
  match t with
  | [] => None
  | b0 :: t =>
      let u0 := uchar b0 in
      if (u0 <? 0x80)%Z then Some (u0, t)
      else if (u0 <? 0xc0)%Z then None
      else if (u0 <? 0xe0)%Z then
        match t with
        | b1 :: t =>
            c1 ← continuation b1;
            let cp := ((u0 - 0xc0) * 64 + c1)%Z in
            if (0x80 <=? cp)%Z then Some (cp, t) else None
        | _ => None
        end
      else if (u0 <? 0xf0)%Z then
        match t with
        | b1 :: b2 :: t =>
            c1 ← continuation b1; c2 ← continuation b2;
            let cp := (((u0 - 0xe0) * 64 + c1) * 64 + c2)%Z in
            if (0x800 <=? cp)%Z && negb ((0xd800 <=? cp)%Z && (cp <=? 0xdfff)%Z)
            then Some (cp, t) else None
        | _ => None
        end
      else if (u0 <? 0xf8)%Z then
        match t with
        | b1 :: b2 :: b3 :: t =>
            c1 ← continuation b1; c2 ← continuation b2; c3 ← continuation b3;
            let cp := ((((u0 - 0xf0) * 64 + c1) * 64 + c2) * 64 + c3)%Z in
            if (0x10000 <=? cp)%Z && (cp <=? 0x10ffff)%Z then Some (cp, t) else None
        | _ => None
        end
      else None
  end.

(** ** [append_utf8] in arithmetic *)

Lemma uchar_lor c v k x :
  (c = v * 2 ^ k)%Z -> (0 <= k)%Z -> (0 <= x < 2 ^ k)%Z -> (0 <= c + x < 256)%Z ->
  uchar (byte_of_Z (Z.lor c x)) = (c + x)%Z.
Proof.
  intros -> Hk Hx Hb. rewrite <-(Z.shiftl_mul_pow2 v k) at 1 by done. rewrite lor_add by done.
  rewrite uchar_byte_of_Z. by apply Z.mod_small.
Qed.

Lemma land_3f x : Z.land x 0x3f = (x mod 64)%Z.
Proof. change 0x3f%Z with (Z.ones 6). by rewrite Z.land_ones. Qed.

(** A continuation byte carries six bits. *)
Lemma continuation_byte x :
  continuation (byte_of_Z (Z.lor 0x80 (Z.land x 0x3f))) = Some (x mod 64)%Z.
Proof.
  rewrite land_3f. pose proof (Z.mod_pos_bound x 64 ltac:(lia)).
  unfold continuation. rewrite (uchar_lor _ 2 6) by lia.
  replace (_ && _)%Z with true by lia. f_equal. lia.
Qed.

Lemma append_utf8_decodes out cp t :
  scalar cp -> exists e,
    append_utf8 out cp = Ret (out ++ e) /\ utf8_decode (e ++ t) = Some (cp, t).
Proof.
  unfold scalar. intros Hcp. unfold append_utf8.
  destruct (Z.leb_spec cp 0x7f); [|destruct (Z.leb_spec cp 0x7ff);
    [|destruct (Z.leb_spec cp 0xffff); [|destruct (Z.leb_spec cp 0x10ffff); [|lia]]]];
    eexists; (split; [reflexivity|]); cbn [app utf8_decode]; cbv zeta;
    rewrite ?continuation_byte; rewrite ?Z.shiftr_div_pow2 by lia;
    change (2 ^ 6)%Z with 64%Z; change (2 ^ 12)%Z with 4096%Z; change (2 ^ 18)%Z with 262144%Z.
  - rewrite uchar_byte_of_Z, Z.mod_small by lia.
    by rewrite (proj2 (Z.ltb_lt cp 0x80)) by lia.
  - assert (0 <= cp / 64 < 32)%Z by zdiv.
    rewrite (uchar_lor _ 6 5) by lia. cbn [mbind option_bind].
    repeat case_match; try zdiv. f_equal. f_equal. zdiv.
  - assert (0 <= cp / 4096 < 16)%Z by zdiv.
    rewrite (uchar_lor _ 14 4) by lia. cbn [mbind option_bind].
    repeat case_match; try zdiv. f_equal. f_equal. zdiv.
  - assert (0 <= cp / 262144 < 8)%Z by zdiv.
    rewrite (uchar_lor _ 30 3) by lia. cbn [mbind option_bind].
    repeat case_match; try zdiv. f_equal. f_equal. zdiv.
Qed.

(** ** Surrogate pairs *)

Lemma unicode_escape_pair out pre t hi pre1 t1 lo r2 :
  unicode_unit (rd pre t) = (Ret hi, rd pre1 (x5c :: x75 :: t1)) ->
  unicode_unit (rd (pre1 ++ [x5c; x75]) t1) = (Ret lo, r2) ->
  (0xd800 <= hi <= 0xdbff)%Z -> (0xdc00 <= lo <= 0xdfff)%Z ->
  unicode_escape out (rd pre t)
  = (append_utf8 out (0x10000 + (hi - 0xd800) * 1024 + (lo - 0xdc00)), r2).
Proof.
  intros H1 H2 Hhi Hlo. unfold unicode_escape. rewrite (run_bind _ _ _ _ _ H1).
  replace ((0xd800 <=? hi) && (hi <=? 0xdbff))%Z with true by lia.
  erewrite run_bind; [reflexivity|].
  erewrite run_bind by (apply too_short_ge; cbn; lia). cbv beta iota.
  m_step. rewrite decide_False by auto. m_step. rewrite decide_False by auto. m_step.
  rewrite (run_bind _ _ _ _ _ H2).
  replace ((lo <? 0xdc00) || (0xdfff <? lo))%Z with false by lia.
  unfold mret, M_ret, to_uint32. rewrite Z.shiftl_mul_pow2 by lia.
  do 2 f_equal. rewrite (Z.mod_small (0x10000 + _)) by lia. apply Z.mod_small. lia.
Qed.

(** ** What Python writes

    [json.dumps] with its default [ensure_ascii]: printable ASCII as it is,
    the usual one-letter escapes, and [\uXXXX] for everything else, with a
    surrogate pair above the basic plane. *)

Definition py_hex4 (n : Z) : bytes :=
  map digit_char [n / 4096; n / 256 mod 16; n / 16 mod 16; n mod 16]%Z.

Definition py_u (n : Z) : bytes := str "\u" ++ py_hex4 n.

Definition py_escape_char (cp : Z) : bytes :=
  if (cp =? 0x22)%Z then [x5c; x22]
  else if (cp =? 0x5c)%Z then [x5c; x5c]
  else if (cp =? 0x08)%Z then str "\b"
  else if (cp =? 0x0c)%Z then str "\f"
  else if (cp =? 0x0a)%Z then str "\n"
  else if (cp =? 0x0d)%Z then str "\r"
  else if (cp =? 0x09)%Z then str "\t"
  else if (0x20 <=? cp)%Z && (cp <=? 0x7e)%Z then [byte_of_Z cp]
  else if (cp <? 0x10000)%Z then py_u cp
  else py_u (0xd800 + (cp - 0x10000) / 1024) ++ py_u (0xdc00 + (cp - 0x10000) mod 1024).

(** A Python [str] is a sequence of code points. *)
Definition py_json_string (text : list Z) : bytes :=
  [dquote] ++ concat (map py_escape_char text) ++ [dquote].

(** [text.encode("utf-8")] *)
Definition utf8 (cp : Z) : bytes := match append_utf8 [] cp with Ret e => e | _ => [] end.
Definition utf8_text (text : list Z) : bytes := concat (map utf8 text).

Lemma append_utf8_utf8 out cp : scalar cp -> append_utf8 out cp = Ret (out ++ utf8 cp).
Proof.
  intros H. destruct (append_utf8_decodes [] cp [] H) as (e & He & _).
  unfold utf8. rewrite He. unfold append_utf8 in He |- *. unfold scalar in H.
  repeat case_match; simplify_eq/=; try done.
Qed.

(** ** Reading what Python writes *)

Lemma hex_digit_char d : (0 <= d < 16)%Z -> hex_digit (digit_char d) = Ret d.
Proof.
  intros H. assert (Z.to_nat d < 16) as Hn by lia. rewrite <-(Z2Nat.id d) by lia.
  generalize dependent (Z.to_nat d). intros n Hn. do 16 (destruct n; [done|]). lia.
Qed.

Lemma unicode_unit_py_hex4 pre n t :
  (0 <= n < 0x10000)%Z -> unicode_unit (rd pre (py_hex4 n ++ t)) = (Ret n, rd (pre ++ py_hex4 n) t).
Proof.
  intros Hn. unfold py_hex4. cbn [map app].
  rewrite (unicode_unit_hex4 _ _ _ _ _ _ (n / 4096) (n / 256 mod 16) (n / 16 mod 16) (n mod 16))
    by (apply hex_digit_char; zdiv).
  do 2 f_equal. unfold hex4. zdiv.
Qed.

Lemma string_loop_py_u fuel out pre cp t :
  scalar cp -> (cp < 0x10000)%Z ->
  string_loop (S fuel) out (rd pre (py_u cp ++ t))
  = string_loop fuel (out ++ utf8 cp) (rd (pre ++ py_u cp) t).
Proof.
  intros Hcp Hlt. unfold scalar in Hcp. unfold py_u. rewrite <-app_assoc.
  eapply string_loop_escape. cbn [str String.list_byte_of_string app].
  rewrite string_escape_u. erewrite unicode_escape_bmp; [|apply unicode_unit_py_hex4; lia|lia].
  rewrite append_utf8_utf8 by done. by rewrite <-!app_assoc.
Qed.

Lemma string_loop_py_pair fuel out pre cp t :
  scalar cp -> (0x10000 <= cp)%Z ->
  string_loop (S fuel) out (rd pre (py_u (0xd800 + (cp - 0x10000) / 1024)
                                    ++ py_u (0xdc00 + (cp - 0x10000) mod 1024) ++ t))
  = string_loop fuel (out ++ utf8 cp) (rd (pre ++ py_u (0xd800 + (cp - 0x10000) / 1024)
                                    ++ py_u (0xdc00 + (cp - 0x10000) mod 1024)) t).
Proof.
  intros Hcp Hge. unfold scalar in Hcp. unfold py_u. rewrite <-!app_assoc.
  eapply string_loop_escape. cbn [str String.list_byte_of_string app]. rewrite string_escape_u.
  erewrite unicode_escape_pair;
    [|apply unicode_unit_py_hex4; zdiv|apply unicode_unit_py_hex4; zdiv|zdiv|zdiv].
  replace (_ + _ + _)%Z with cp by zdiv.
  rewrite append_utf8_utf8 by done. by rewrite <-!app_assoc.
Qed.

Lemma escape_char_py b : (uchar b < 0x7f)%Z -> escape_char b = py_escape_char (uchar b).
Proof. destruct b; first [by intros _ | intros H; vm_compute in H; discriminate H]. Qed.

Lemma py_escape_ascii cp : (0 <= cp < 0x7f)%Z -> py_escape_char cp = escape_char (byte_of_Z cp).
Proof.
  intros H. assert (uchar (byte_of_Z cp) = cp) as E by (rewrite uchar_byte_of_Z; zdiv).
  rewrite escape_char_py by lia. by rewrite E.
Qed.

Lemma utf8_ascii cp : (0 <= cp < 0x80)%Z -> utf8 cp = [byte_of_Z cp].
Proof. intros H. unfold utf8. by rewrite append_utf8_ascii. Qed.

Lemma py_escape_high cp :
  (0x7f <= cp)%Z ->
  py_escape_char cp
  = if (cp <? 0x10000)%Z then py_u cp
    else py_u (0xd800 + (cp - 0x10000) / 1024) ++ py_u (0xdc00 + (cp - 0x10000) mod 1024).
Proof. intros H. unfold py_escape_char. by repeat (case_match; try lia). Qed.

Lemma string_loop_py_char fuel out pre cp t :
  scalar cp ->
  string_loop (S fuel) out (rd pre (py_escape_char cp ++ t))
  = string_loop fuel (out ++ utf8 cp) (rd (pre ++ py_escape_char cp) t).
Proof.
  intros Hcp. destruct (Z.lt_ge_cases cp 0x7f) as [H|H].
  - unfold scalar in Hcp. rewrite py_escape_ascii, utf8_ascii by lia. apply string_loop_char.
  - rewrite py_escape_high by done. destruct (Z.ltb_spec cp 0x10000).
    + by apply string_loop_py_u.
    + rewrite <-app_assoc. by apply string_loop_py_pair.
Qed.

Lemma string_loop_py_text text fuel out pre t :
  Forall scalar text -> length text < fuel ->
  string_loop fuel out (rd pre (concat (map py_escape_char text) ++ [dquote] ++ t))
  = (Ret (out ++ utf8_text text),
     rd (pre ++ concat (map py_escape_char text) ++ [dquote]) t).
Proof.
  intros H. revert fuel out pre. induction H as [|cp text Hcp _ IH]; intros [|fuel] out pre Hf;
    cbn [length] in Hf; try lia.
  - unfold utf8_text. cbn [map concat app]. rewrite app_nil_r. apply string_loop_quote.
  - unfold utf8_text. cbn [map concat]. rewrite <-app_assoc, string_loop_py_char, IH by (done || lia).
    by rewrite <-!app_assoc.
Qed.

Lemma py_escape_char_length cp : 0 < length (py_escape_char cp).
Proof. unfold py_escape_char. repeat case_match; cbn; lia. Qed.

Lemma py_text_length text : length text <= length (concat (map py_escape_char text)).
Proof.
  induction text as [|cp text IH]; simpl; [lia|]. rewrite length_app.
  pose proof (py_escape_char_length cp). lia.
Qed.

Lemma string_py_json_string (text : list Z) (pre t : bytes) :
  Forall scalar text ->
  string (rd pre (py_json_string text ++ t))
  = (Ret (utf8_text text), rd (pre ++ py_json_string text) t).
Proof.
  intros Hs. unfold string, py_json_string. rewrite <-!app_assoc. cbn [app]. m_steps.
  rewrite rd_fuel. change (dquote :: t) with ([dquote] ++ t).
  rewrite string_loop_py_text; [by rewrite <-!app_assoc|done|].
  rewrite !length_app. pose proof (py_text_length text). lia.
Qed.

Lemma utf8_decode_utf8 cp t : scalar cp -> utf8_decode (utf8 cp ++ t) = Some (cp, t).
Proof.
  intros H. destruct (append_utf8_decodes [] cp t H) as (e & He & Hd). unfold utf8. by rewrite He.
Qed.

(** The reader decodes every string the Python peer writes: for a text of
    Unicode scalar values printed by [json.dumps] (one-letter escapes,
    [\uXXXX] escapes and surrogate pairs included), [FlatJsonReader::string]
    returns its UTF-8 encoding and stops behind the closing quote, whatever
    follows. *)
Lemma string_reads_python_text (text : list Z) (pre t : bytes) (Hs : Forall scalar text) :
  string (rd pre (py_json_string text ++ t))
  = (Ret (utf8_text text), rd (pre ++ py_json_string text) t).
Proof. by apply string_py_json_string. Qed.

(** [append_utf8] is UTF-8: for every scalar value it appends a
    well-formed encoding that the RFC 3629 reference decoder maps back to that
    value and that any text may follow; for every value past the Unicode range
    it throws. *)
Lemma append_utf8_encodes (out : bytes) (cp : Z) :
  (scalar cp -> append_utf8 out cp = Ret (out ++ utf8 cp)
                /\ forall t, utf8_decode (utf8 cp ++ t) = Some (cp, t))
  /\ (0x10ffff < cp -> append_utf8 out cp = Throw (invalid_argument "invalid unicode code point"))%Z.
Proof.
  split; intros H.
  - split; [by apply append_utf8_utf8|]. intros t. by apply utf8_decode_utf8.
  - unfold append_utf8. repeat (case_match; try lia). done.
Qed.

(** ** Where the two canonical texts agree *)

Lemma escaped_app u v :
  concat (map escape_char (u ++ v)) = concat (map escape_char u) ++ concat (map escape_char v).
Proof. by rewrite map_app, concat_app. Qed.

Definition printable (b : byte) : Prop := (uchar b < 0x7f)%Z.

Lemma printable_digit_char d : (0 <= d < 16)%Z -> printable (digit_char d).
Proof.
  intros H. unfold printable, digit_char. rewrite uchar_byte_of_Z.
  destruct (Z.ltb_spec d 10); zdiv.
Qed.

Lemma printable_py_u n : (0 <= n < 0x10000)%Z -> Forall printable (py_u n).
Proof.
  intros H. unfold py_u, py_hex4. cbn [map app str String.list_byte_of_string].
  repeat constructor; apply printable_digit_char; zdiv.
Qed.

Lemma printable_py_escape cp : scalar cp -> Forall printable (py_escape_char cp).
Proof.
  unfold scalar. intros H. unfold py_escape_char. repeat case_match;
    first [by repeat constructor | apply Forall_app; split; apply printable_py_u; zdiv
          | apply printable_py_u; zdiv | idtac].
  repeat constructor. unfold printable. rewrite uchar_byte_of_Z. zdiv.
Qed.

Lemma utf8_unprintable cp : scalar cp -> (0x7f <= cp)%Z -> exists b, b ∈ utf8 cp /\ ~ printable b.
Proof.
  intros Hcp Hge. destruct (append_utf8_decodes [] cp [] Hcp) as (e & He & Hd).
  assert (utf8 cp = e) as -> by (unfold utf8; by rewrite He).
  rewrite app_nil_r in Hd. destruct e as [|b e]; [done|]. exists b. split; [by left|].
  unfold printable. intros Hb. cbn [utf8_decode] in Hd. cbv zeta in Hd.
  rewrite (proj2 (Z.ltb_lt (uchar b) 0x80)) in Hd by lia. injection Hd as Hd _. lia.
Qed.

Lemma escape_char_unprintable b : ~ printable b -> escape_char b = [b].
Proof. unfold printable. destruct b; first [done | intros H; exfalso; apply H; done]. Qed.

Lemma canonical_text_ascii text :
  Forall scalar text ->
  json_string (utf8_text text) = py_json_string text -> Forall (fun cp => cp < 0x7f)%Z text.
Proof.
  intros Hs E. apply Forall_forall. intros cp Hin.
  destruct (Z.lt_ge_cases cp 0x7f) as [|Hge]; [done|]. exfalso.
  assert (scalar cp) as Hcp by (by eapply Forall_forall in Hs).
  destruct (utf8_unprintable cp Hcp Hge) as (b & Hb & Hnp). apply Hnp.
  assert (Forall printable (py_json_string text)) as Hp.
  { unfold py_json_string. apply Forall_app; split; [by repeat constructor|].
    apply Forall_app; split; [|by repeat constructor].
    apply Forall_concat, Forall_map. eapply Forall_impl; [exact Hs|]. apply printable_py_escape. }
  rewrite <-E in Hp. unfold json_string in Hp.
  apply Forall_app in Hp as [_ Hp]. apply Forall_app in Hp as [Hp _].
  rewrite Forall_concat, Forall_map, Forall_forall in Hp.
  assert (b ∈ utf8_text text) as Hbt.
  { unfold utf8_text. apply list_elem_of_In, in_concat. exists (utf8 cp).
    split; [apply in_map|]; by apply list_elem_of_In. }
  specialize (Hp b Hbt). rewrite escape_char_unprintable in Hp by done. by inversion_clear Hp.
Qed.

Lemma ascii_canonical_text text :
  Forall scalar text -> Forall (fun cp => cp < 0x7f)%Z text ->
  json_string (utf8_text text) = py_json_string text.
Proof.
  intros Hs Ha. unfold json_string, py_json_string. f_equal. f_equal.
  induction Hs as [|cp text Hcp Hs IH]; [done|]. inversion_clear Ha.
  unfold utf8_text in *. cbn [map concat]. unfold scalar in Hcp.
  rewrite escaped_app, utf8_ascii, py_escape_ascii by lia. cbn [map concat].
  rewrite app_nil_r. f_equal. auto.
Qed.

(** Where the C++ and the Python canonical texts coincide.  For a text of
    scalar values, [json_string] of its UTF-8 encoding is what Python's
    [canonical_json] signs for it exactly when all its characters are below
    U+007F.  A DEL or any character outside of ASCII gives the two languages
    different canonical texts, so a signature made by one does not verify
    over the text the other rebuilds. *)
Lemma canonical_text_matches_python (text : list Z) (Hs : Forall scalar text) :
  json_string (utf8_text text) = py_json_string text <-> Forall (fun cp => cp < 0x7f)%Z text.
Proof. split; [by apply canonical_text_ascii|by apply ascii_canonical_text]. Qed.

(** Both witnesses use the text [a], [/], a line feed, [e] with an acute
    accent, the euro sign and U+1F600. *)
Definition sample_text : list Z := [0x61; 0x2f; 0x0a; 0xe9; 0x20ac; 0x1f600]%Z.

Lemma sample_text_scalar : Forall scalar sample_text.
Proof. unfold sample_text, scalar. repeat constructor; lia. Qed.

Lemma string_reads_python_text_witness :
  string (rd [] (py_json_string sample_text ++ str ",x"))
  = (Ret (utf8_text sample_text), rd (py_json_string sample_text) (str ",x")).
Proof. exact (string_reads_python_text sample_text [] (str ",x") sample_text_scalar). Defined.

Lemma canonical_text_matches_python_witness :
  json_string (utf8_text sample_text) <> py_json_string sample_text
  /\ json_string (utf8_text [0x61; 0x2f; 0x0a]%Z) = py_json_string [0x61; 0x2f; 0x0a]%Z.
Proof.
  split.
  - intros H. apply (canonical_text_matches_python sample_text sample_text_scalar) in H.
    unfold sample_text in H. rewrite !Forall_cons in H. lia.
  - apply canonical_text_matches_python; repeat constructor; unfold scalar; lia.
Defined.

Lemma append_utf8_encodes_witness :
  append_utf8 [] 0x20ac = Ret [xe2; x82; xac]
  /\ utf8_decode (utf8 0x20ac ++ str "!") = Some (0x20ac%Z, str "!").
Proof.
  destruct (append_utf8_encodes [] 0x20ac) as [H _].
  destruct H as [H1 H2]; [unfold scalar; lia|]. split; [rewrite H1; reflexivity|apply H2].
Defined.
