(* ===== verification/Wire.v ===== *)
(** * Wire messages (cpp/include/ma2a/wire.hpp and the JSON part of
    cpp/include/ma2a/failure_notice.hpp)

    The signed messages are the canonical ones with the [signature] member in
    its place in the key order; an envelope wraps one with its type. *)
From S2P Require Import Prelude Contracts Canonical.

Definition signed_job_request_json (job : JobRequest.t) : bytes :=
  str "{"
  ++ lit_key "expires_at" ++ ostream_dec (JobRequest.expires_at job) ++ str ","
  ++ lit_key "issued_at" ++ ostream_dec (JobRequest.issued_at job) ++ str ","
  ++ lit_key "message_id" ++ json_string (JobRequest.message_id job) ++ str ","
  ++ lit_key "operation" ++ json_string (JobRequest.operation job) ++ str ","
  ++ lit_key "organization_id"
  ++ (if bool_decide (JobRequest.organization_id job = []) then str "null"
      else json_string (JobRequest.organization_id job))
  ++ str ","
  ++ lit_key "payload" ++ json_string (JobRequest.payload job) ++ str ","
  ++ lit_key "protocol_version" ++ json_string (JobRequest.protocol_version job) ++ str ","
  ++ lit_key "request_id" ++ json_string (JobRequest.request_id job) ++ str ","
  ++ lit_key "sender_node_id" ++ json_string (JobRequest.sender_node_id job) ++ str ","
  ++ lit_key "signature" ++ json_string (JobRequest.signature job) ++ str ","
  ++ lit_key "signature_algorithm" ++ json_string (JobRequest.signature_algorithm job) ++ str ","
  ++ lit_key "target_node_id" ++ json_string (JobRequest.target_node_id job)
  ++ str "}".

Definition signed_job_result_json (result : JobResult.t) : bytes :=
  str "{"
  ++ lit_key "completed_at" ++ ostream_dec (JobResult.completed_at result) ++ str ","
  ++ lit_key "message_id" ++ json_string (JobResult.message_id result) ++ str ","
  ++ lit_key "payload" ++ json_string (JobResult.payload result) ++ str ","
  ++ lit_key "protocol_version" ++ json_string (JobResult.protocol_version result) ++ str ","
  ++ lit_key "recipient_node_id" ++ json_string (JobResult.recipient_node_id result) ++ str ","
  ++ lit_key "request_id" ++ json_string (JobResult.request_id result) ++ str ","
  ++ lit_key "responder_node_id" ++ json_string (JobResult.responder_node_id result) ++ str ","
  ++ lit_key "signature" ++ json_string (JobResult.signature result) ++ str ","
  ++ lit_key "signature_algorithm" ++ json_string (JobResult.signature_algorithm result) ++ str ","
  ++ lit_key "status" ++ json_string (JobResult.status result)
  ++ str "}".

Definition canonical_failure_notice_json (notice : FailureNotice.t) : bytes :=
  str "{"
  ++ lit_key "failed_node_id" ++ json_string (FailureNotice.failed_node_id notice) ++ str ","
  ++ lit_key "message_id" ++ json_string (FailureNotice.message_id notice) ++ str ","
  ++ lit_key "observed_at" ++ ostream_dec (FailureNotice.observed_at notice) ++ str ","
  ++ lit_key "protocol_version" ++ json_string (FailureNotice.protocol_version notice) ++ str ","
  ++ lit_key "reason" ++ json_string (FailureNotice.reason notice) ++ str ","
  ++ lit_key "reporting_node_id" ++ json_string (FailureNotice.reporting_node_id notice) ++ str ","
  ++ lit_key "request_id" ++ json_string (FailureNotice.request_id notice) ++ str ","
  ++ lit_key "signature_algorithm" ++ json_string (FailureNotice.signature_algorithm notice)
  ++ str "}".

Definition signed_failure_notice_json (notice : FailureNotice.t) : bytes :=
  str "{"
  ++ lit_key "failed_node_id" ++ json_string (FailureNotice.failed_node_id notice) ++ str ","
  ++ lit_key "message_id" ++ json_string (FailureNotice.message_id notice) ++ str ","
  ++ lit_key "observed_at" ++ ostream_dec (FailureNotice.observed_at notice) ++ str ","
  ++ lit_key "protocol_version" ++ json_string (FailureNotice.protocol_version notice) ++ str ","
  ++ lit_key "reason" ++ json_string (FailureNotice.reason notice) ++ str ","
  ++ lit_key "reporting_node_id" ++ json_string (FailureNotice.reporting_node_id notice) ++ str ","
  ++ lit_key "request_id" ++ json_string (FailureNotice.request_id notice) ++ str ","
  ++ lit_key "signature" ++ json_string (FailureNotice.signature notice) ++ str ","
  ++ lit_key "signature_algorithm" ++ json_string (FailureNotice.signature_algorithm notice)
  ++ str "}".

(** The literals [{\"payload\":] and [,\"type\":\"T\"}]. *)
Definition envelope_prefix : bytes := str "{" ++ lit_key "payload".
Definition envelope_suffix (type : bytes) : bytes :=
  str "," ++ lit_key "type" ++ [dquote] ++ type ++ [dquote] ++ str "}".

Definition job_request_envelope_json (job : JobRequest.t) : bytes :=
  envelope_prefix ++ signed_job_request_json job ++ envelope_suffix (str "JOB_REQUEST").

Definition job_result_envelope_json (result : JobResult.t) : bytes :=
  envelope_prefix ++ signed_job_result_json result ++ envelope_suffix (str "JOB_RESULT").

Definition failure_notice_envelope_json (notice : FailureNotice.t) : bytes :=
  envelope_prefix ++ signed_failure_notice_json notice ++ envelope_suffix (str "FAILURE_NOTICE").
