(* ===== verification/CanonicalBinding.v ===== *)
(** * What a signature over a canonical text binds

    The canonical texts are uniquely decodable: two messages with the same
    canonical text agree on every member but the signature, and texts of
    different message types differ.  The argument peels a text from the left:
    a printed string or integer is determined by any text it begins. *)
From S2P Require Import Prelude Contracts Canonical Reader JsonRoundTrip Wire.
Import FlatJsonReader.

(** ** Peeling *)

Lemma json_string_app_inj s s' t t' :
  json_string s ++ t = json_string s' ++ t' -> s = s' /\ t = t'.
Proof.
  intros H. pose proof (string_json_string [] s t) as H1. rewrite H, string_json_string in H1.
  injection H1 as H1 _. subst s'. by apply app_inv_head in H.
Qed.

Lemma app_sep_inj {A} (u u' t t' : list A) c :
  c ∉ u -> c ∉ u' -> u ++ c :: t = u' ++ c :: t' -> u = u' /\ t = t'.
Proof.
  revert u'. induction u as [|a u IH]; intros [|a' u'] Hu Hu' H; simpl in H.
  - by simplify_eq.
  - simplify_eq. by destruct Hu'; left.
  - simplify_eq. by destruct Hu; left.
  - injection H as -> H. rewrite not_elem_of_cons in Hu, Hu'.
    destruct (IH u') as [-> ->]; tauto.
Qed.

Lemma digit_char_inj d d' :
  (0 <= d < 10)%Z -> (0 <= d' < 10)%Z -> digit_char d = digit_char d' -> d = d'.
Proof.
  intros H H' E. destruct (digit_char_spec d H) as (_ & <- & _).
  destruct (digit_char_spec d' H') as (_ & <- & _). by rewrite E.
Qed.

Lemma map_digit_char_inj ds ds' :
  Forall (fun d => 0 <= d < 10)%Z ds -> Forall (fun d => 0 <= d < 10)%Z ds' ->
  map digit_char ds = map digit_char ds' -> ds = ds'.
Proof.
  intros H. revert ds'. induction H as [|d ds Hd _ IH]; intros [|d' ds'] H' E; try done.
  inversion_clear H'. simpl in E. injection E as E1 E2. f_equal; [by apply digit_char_inj|auto].
Qed.

Lemma ostream_dec_inj z z' : ostream_dec z = ostream_dec z' -> z = z'.
Proof.
  pose proof (digits_of_bounded 10 (Z.abs z) ltac:(lia) ltac:(lia)) as Hb.
  pose proof (digits_of_bounded 10 (Z.abs z') ltac:(lia) ltac:(lia)) as Hb'.
  pose proof (digits_of_value 10 (Z.abs z) ltac:(lia) ltac:(lia)) as Hv.
  pose proof (digits_of_value 10 (Z.abs z') ltac:(lia) ltac:(lia)) as Hv'.
  pose proof (digits_of_nonnil 10 (Z.abs z)) as Hn. pose proof (digits_of_nonnil 10 (Z.abs z')) as Hn'.
  rewrite !ostream_dec_digits.
  destruct (digits_of 10 (Z.abs z)) as [|d ds], (digits_of 10 (Z.abs z')) as [|d' ds']; try done.
  destruct (digit_char_spec d (Forall_inv Hb)) as (_ & _ & Hd).
  destruct (digit_char_spec d' (Forall_inv Hb')) as (_ & _ & Hd').
  assert (Hds : map digit_char (d :: ds) = map digit_char (d' :: ds') -> Z.abs z = Z.abs z').
  { intros E%map_digit_char_inj; [|done..]. by rewrite <-Hv, <-Hv', E. }
  destruct (Z.ltb_spec z 0), (Z.ltb_spec z' 0); cbn [sign app]; intros E.
  - injection E as E1 E2. apply Hds in E2 || (specialize (Hds ltac:(cbn; congruence))); lia.
  - cbn in E. congruence.
  - cbn in E. congruence.
  - specialize (Hds E). lia.
Qed.

Lemma comma_not_in_ostream_dec z : x2c ∉ ostream_dec z.
Proof.
  rewrite ostream_dec_digits, not_elem_of_app. split.
  - destruct (z <? 0)%Z; cbn; [|apply not_elem_of_nil]. by rewrite list_elem_of_singleton.
  - intros (d & Hd & Hin)%list_elem_of_fmap.
    pose proof (digits_of_bounded 10 (Z.abs z) ltac:(lia) ltac:(lia)) as Hb.
    rewrite Forall_forall in Hb. destruct (digit_char_spec d (Hb _ Hin)) as (H1 & _).
    by rewrite <-Hd in H1.
Qed.

Lemma ostream_dec_app_inj z z' t t' :
  ostream_dec z ++ str "," ++ t = ostream_dec z' ++ str "," ++ t' -> z = z' /\ t = t'.
Proof.
  intros [E ->]%app_sep_inj; [|apply comma_not_in_ostream_dec..].
  by apply ostream_dec_inj in E.
Qed.

(** The organization is printed as [null] when it is empty. *)
Lemma organization_app_inj o o' t t' :
  (if bool_decide (o = []) then str "null" else json_string o) ++ t
  = (if bool_decide (o' = []) then str "null" else json_string o') ++ t' ->
  o = o' /\ t = t'.
Proof.
  repeat case_bool_decide; subst; intros E.
  - by apply app_inv_head in E.
  - discriminate E.
  - discriminate E.
  - by apply json_string_app_inj.
Qed.

(** [peel H] decomposes an equation between two texts of the same layout. *)
Ltac peel H :=
  repeat first
    [ apply app_inv_head in H
    | let E := fresh "E" in apply ostream_dec_app_inj in H as [E H]
    | let E := fresh "E" in apply organization_app_inj in H as [E H]
    | let E := fresh "E" in apply json_string_app_inj in H as [E H] ].

(** The canonical text of a request determines all of it but the signature. *)
Lemma canonical_request_binds a b :
  canonical_job_request_json a = canonical_job_request_json b ->
  JobRequest.set_signature [] a = JobRequest.set_signature [] b.
Proof.
  unfold canonical_job_request_json. intros H. peel H. destruct a, b; simpl in *; by subst.
Qed.

Lemma canonical_result_binds a b :
  canonical_job_result_json a = canonical_job_result_json b ->
  JobResult.set_signature [] a = JobResult.set_signature [] b.
Proof.
  unfold canonical_job_result_json. intros H. peel H. destruct a, b; simpl in *; by subst.
Qed.

Lemma canonical_failure_binds a b :
  canonical_failure_notice_json a = canonical_failure_notice_json b ->
  FailureNotice.set_signature [] a = FailureNotice.set_signature [] b.
Proof.
  unfold canonical_failure_notice_json. intros H. peel H. destruct a, b; simpl in *; by subst.
Qed.

(** Two requests have the same canonical text exactly when they agree on all
    members but [signature]. *)
Lemma canonical_job_request_json_binding (a b : JobRequest.t) :
  canonical_job_request_json a = canonical_job_request_json b
  <-> JobRequest.set_signature [] a = JobRequest.set_signature [] b.
Proof.
  split; [apply canonical_request_binds|].
  intros H. change (canonical_job_request_json (JobRequest.set_signature [] a)
                    = canonical_job_request_json (JobRequest.set_signature [] b)).
  by rewrite H.
Qed.

(** The same for the two kinds of terminal evidence: the canonical text
    of a result, and of a failure notice, determines every member but the
    signature, and is determined by them. *)
Lemma canonical_evidence_binding :
  (forall a b : JobResult.t,
     canonical_job_result_json a = canonical_job_result_json b
     <-> JobResult.set_signature [] a = JobResult.set_signature [] b)
  /\ (forall a b : FailureNotice.t,
     canonical_failure_notice_json a = canonical_failure_notice_json b
     <-> FailureNotice.set_signature [] a = FailureNotice.set_signature [] b).
Proof.
  split; intros a b; split.
  - apply canonical_result_binds.
  - intros H. change (canonical_job_result_json (JobResult.set_signature [] a)
                      = canonical_job_result_json (JobResult.set_signature [] b)).
    by rewrite H.
  - apply canonical_failure_binds.
  - intros H. change (canonical_failure_notice_json (FailureNotice.set_signature [] a)
                      = canonical_failure_notice_json (FailureNotice.set_signature [] b)).
    by rewrite H.
Qed.

(** C13: What an Ed25519 signature covers.  Two requests, two results or two
    failure notices have the same canonical text exactly when they agree on
    all members but [signature]; in particular a signature made for one target
    node, payload, organization or validity window is a signature over a
    different text than the one any other request is checked against.  And the
    three kinds are apart: no text is the canonical text of messages of two
    kinds, so a signature of a message of one kind never passes for another. *)
Theorem canonical_texts_bind :
  (forall a b : JobRequest.t,
     canonical_job_request_json a = canonical_job_request_json b
     <-> JobRequest.set_signature [] a = JobRequest.set_signature [] b)
  /\ (forall a b : JobResult.t,
      canonical_job_result_json a = canonical_job_result_json b
      <-> JobResult.set_signature [] a = JobResult.set_signature [] b)
  /\ (forall a b : FailureNotice.t,
      canonical_failure_notice_json a = canonical_failure_notice_json b
      <-> FailureNotice.set_signature [] a = FailureNotice.set_signature [] b)
  /\ (forall q r n,
        canonical_job_request_json q <> canonical_job_result_json r
        /\ canonical_job_request_json q <> canonical_failure_notice_json n
        /\ canonical_job_result_json r <> canonical_failure_notice_json n).
Proof.
  split; [apply canonical_job_request_json_binding|].
  split; [apply canonical_evidence_binding|]. split; [apply canonical_evidence_binding|].
  intros q r n. split_and!; intros E%(f_equal (take 3)); discriminate E.
Qed.

(** The signed text on the wire carries the signed content and the
    signature: two requests (results, notices) have the same signed text
    exactly when they are equal. *)
Lemma signed_json_injective :
  (forall a b : JobRequest.t, signed_job_request_json a = signed_job_request_json b <-> a = b)
  /\ (forall a b : JobResult.t, signed_job_result_json a = signed_job_result_json b <-> a = b)
  /\ (forall a b : FailureNotice.t,
        signed_failure_notice_json a = signed_failure_notice_json b <-> a = b).
Proof.
  split_and!; intros a b; (split; [|by intros ->]);
    unfold signed_job_request_json, signed_job_result_json, signed_failure_notice_json;
    intros H; peel H; destruct a, b; simpl in *; by subst.
Qed.
