(* ===== verification/Envelope.v ===== *)
(** * Envelopes (cpp/include/ma2a/wire_parse.hpp, lines 137-193)

    [split_envelope] finds the end of the payload object by counting braces
    outside of strings and checks the text around it. *)
From S2P Require Import Prelude Contracts Canonical Reader JsonRoundTrip Wire.

(** ** [std::string] operations *)

(** [s.compare(0, p.size(), p) == 0] *)
Definition compare_prefix (s p : bytes) : bool := bool_decide (take (length p) s = p).

(** [s.substr(pos, n)], for [pos <= s.size()] *)
Definition substr (s : bytes) (pos n : nat) : bytes := take n (drop pos s).

(** [s.back()], for a string that is not empty *)
Definition back (s : bytes) : option byte := s !! pred (length s).

(** [s.find(c, pos)]; [None] is [npos]. *)
Fixpoint find_char (s : bytes) (c : byte) : option nat :=
  match s with
  | [] => None
  | d :: s => if decide (d = c) then Some 0 else S <$> find_char s c
  end.
Definition find_from (s : bytes) (c : byte) (pos : nat) : option nat :=
  (Nat.add pos) <$> find_char (drop pos s) c.

(** ** The scan for the end of the payload

    One round of the loop per byte of [rest], which is the text from index
    [i] on; the result is [payload_end], [None] for [npos]. *)
Fixpoint scan_payload (rest : bytes) (i : nat) (in_string escaped : bool) (depth : Z)
    : outcome (option nat) :=
  match rest with
  | [] => Ret None
  | ch :: rest =>
      if in_string then
        if escaped then scan_payload rest (S i) true false depth
        else if decide (ch = x5c) then scan_payload rest (S i) true true depth
        else if decide (ch = x22) then scan_payload rest (S i) false false depth
        else scan_payload rest (S i) true false depth
      else if decide (ch = x22) then scan_payload rest (S i) true escaped depth
      else if decide (ch = x7b) then
        if (depth =? INT_MAX)%Z then Undef signed_overflow
        else scan_payload rest (S i) in_string escaped (depth + 1)
      else if decide (ch = x7d) then
        if (depth =? INT_MIN)%Z then Undef signed_overflow
        else if (depth - 1 =? 0)%Z then Ret (Some i)
        else if (depth - 1 <? 0)%Z then Throw (invalid_argument "invalid envelope nesting")
        else scan_payload rest (S i) in_string escaped (depth - 1)
      else scan_payload rest (S i) in_string escaped depth
  end.

Definition type_prefix : bytes := str "," ++ lit_key "type" ++ [dquote].

(** The checks on the text after the payload; the result is the type. *)
Definition suffix_type (suffix : bytes) : outcome bytes :=
  if (length suffix <? length type_prefix + 2)
     || negb (compare_prefix suffix type_prefix)
     || bool_decide (back suffix <> Some x7d)
  then Throw (invalid_argument "invalid envelope type") else
  match find_from suffix x22 (length type_prefix) with
  | None => Throw (invalid_argument "invalid envelope suffix")
  | Some quote =>
      if negb (quote + 2 =? length suffix)
      then Throw (invalid_argument "invalid envelope suffix") else
      Ret (substr suffix (length type_prefix) (quote - length type_prefix))
  end.

Definition split_envelope (json : bytes) : outcome (bytes * bytes) :=
  let prefix := envelope_prefix in
  if (length json <=? length prefix) || negb (compare_prefix json prefix)
  then Throw (invalid_argument "invalid MA2A envelope") else
  let payload_start := length prefix in
  if decide (json !! payload_start <> Some x7b)
  then Throw (invalid_argument "payload must be an object") else
  scanned ← scan_payload (drop payload_start json) payload_start false false 0;
  match scanned with
  | None => Throw (invalid_argument "unterminated envelope payload")
  | Some payload_end =>
      let suffix := drop (payload_end + 1) json in
      type ← suffix_type suffix;
      Ret (substr json payload_start (payload_end - payload_start + 1), type)
  end.

Definition wire_envelope_type (json : bytes) : outcome bytes :=
  parts ← split_envelope json; mret (snd parts).

(** ** The scan over printed text *)

Lemma scan_skip ch rest i depth :
  ch <> x22 -> ch <> x7b -> ch <> x7d ->
  scan_payload (ch :: rest) i false false depth = scan_payload rest (S i) false false depth.
Proof. intros. cbn [scan_payload]. by rewrite !decide_False. Qed.

(** A character inside a string, printed, leaves the scan inside it. *)
Lemma scan_escape_char ch rest i depth :
  scan_payload (escape_char ch ++ rest) i true false depth
  = scan_payload rest (length (escape_char ch) + i) true false depth.
Proof.
  destruct (escape_char_shape ch)
    as [(-> & ? & ? & _) | [(esc & -> & _) | (c2 & c3 & d2 & d3 & -> & H2 & H3 & _)]];
    cbn [scan_payload app length Nat.add].
  - by rewrite !decide_False.
  - by rewrite decide_True.
  - rewrite decide_True by done.
    assert (forall c d, hex_digit c = Ret d -> c <> x5c /\ c <> x22) as Hhex.
    { intros c d. destruct c; vm_compute; intuition congruence. }
    destruct (Hhex _ _ H2), (Hhex _ _ H3).
    by repeat first [rewrite decide_False by done].
Qed.

Lemma scan_escaped s rest i depth :
  scan_payload (concat (map escape_char s) ++ rest) i true false depth
  = scan_payload rest (length (concat (map escape_char s)) + i) true false depth.
Proof.
  revert i. induction s as [|ch s IH]; intros i; cbn [map concat]; [done|].
  rewrite <-app_assoc, scan_escape_char, IH, length_app. f_equal. lia.
Qed.

Lemma scan_json_string s rest i depth :
  scan_payload (json_string s ++ rest) i false false depth
  = scan_payload rest (length (json_string s) + i) false false depth.
Proof.
  unfold json_string. rewrite <-!app_assoc. cbn [app].
  cbn [scan_payload]. rewrite decide_True by done.
  rewrite scan_escaped. cbn [scan_payload].
  rewrite decide_False, decide_True by done. f_equal.
  cbn [length]. rewrite !length_app. cbn [length]. lia.
Qed.

(** [flat u]: the scan passes over [u] without a change of its state. *)
Definition flat (u : bytes) : Prop :=
  forall rest i depth,
    scan_payload (u ++ rest) i false false depth
    = scan_payload rest (length u + i) false false depth.

Lemma flat_json_string s : flat (json_string s).
Proof. intros rest i depth. apply scan_json_string. Qed.

Lemma flat_app u v : flat u -> flat v -> flat (u ++ v).
Proof.
  intros Hu Hv rest i depth. rewrite <-app_assoc, Hu, Hv, length_app. f_equal. lia.
Qed.

Lemma flat_plain u :
  Forall (fun ch => ch <> x22 /\ ch <> x7b /\ ch <> x7d) u -> flat u.
Proof.
  induction 1 as [|ch u (? & ? & ?) _ IH]; intros rest i depth; [done|].
  cbn [app]. rewrite scan_skip, IH by done. f_equal. cbn [length]. lia.
Qed.

Lemma digit_char_plain d :
  (0 <= d < 10)%Z -> digit_char d <> x22 /\ digit_char d <> x7b /\ digit_char d <> x7d.
Proof.
  intros H. destruct (digit_char_spec d H) as (H1 & _). destruct (digit_char d); done.
Qed.

Lemma flat_ostream_dec z : flat (ostream_dec z).
Proof.
  apply flat_plain. rewrite ostream_dec_digits. apply Forall_app. split.
  - by destruct (z <? 0)%Z; repeat constructor.
  - apply Forall_map, Forall_forall. intros d Hd. apply digit_char_plain.
    eapply Forall_forall in Hd; [|apply (digits_of_bounded 10 (Z.abs z)); lia]. done.
Qed.

Lemma flat_lit_key k : json_string (str k) = dquote :: str k ++ [dquote] -> flat (lit_key k).
Proof.
  intros H. rewrite json_string_plain by done.
  apply flat_app; [apply flat_json_string|]. by apply flat_plain; repeat constructor.
Qed.

Create HintDb flat.
#[export] Hint Resolve flat_app flat_json_string flat_ostream_dec : flat.
#[export] Hint Extern 1 (flat (lit_key _)) => (apply flat_lit_key; vm_compute; reflexivity) : flat.
#[export] Hint Extern 1 (flat (str _)) => (apply flat_plain; repeat constructor; discriminate) : flat.

(** ** Facts about the string operations *)

Lemma compare_prefix_app p t : compare_prefix (p ++ t) p = true.
Proof. unfold compare_prefix. apply bool_decide_eq_true_2, take_app_length. Qed.

Lemma compare_prefix_true s p : compare_prefix s p = true -> s = p ++ drop (length p) s.
Proof. intros H%bool_decide_eq_true_1. rewrite <-H at 1. by rewrite take_drop. Qed.

Lemma substr_app p u t : substr (p ++ u ++ t) (length p) (length u) = u.
Proof. unfold substr. by rewrite drop_app_length, take_app_length. Qed.

Lemma find_char_fresh u c t : c ∉ u -> find_char (u ++ c :: t) c = Some (length u).
Proof.
  induction u as [|d u IH]; intros H; simpl.
  - by rewrite decide_True.
  - rewrite not_elem_of_cons in H. destruct H. rewrite decide_False by congruence.
    by rewrite IH.
Qed.

Lemma find_char_Some s c k :
  find_char s c = Some k -> exists u t, s = u ++ c :: t /\ length u = k /\ c ∉ u.
Proof.
  revert k. induction s as [|d s IH]; intros k H; simpl in H; [done|].
  case_decide; simplify_eq.
  - exists [], s. split_and!; [done|done|apply not_elem_of_nil].
  - apply fmap_Some in H as (k' & H & ->). destruct (IH _ H) as (u & t & -> & <- & Hu).
    exists (d :: u), t. split_and!; [done|done|]. apply not_elem_of_cons; split; congruence || done.
Qed.

Lemma back_snoc s c : back (s ++ [c]) = Some c.
Proof.
  unfold back. rewrite length_app, lookup_app_r; simpl; [|lia].
  by replace (pred (length s + 1) - length s) with 0 by lia.
Qed.

(** ** [split_envelope] undoes the envelope *)

Lemma scan_object body t i :
  flat body ->
  scan_payload (str "{" ++ body ++ str "}" ++ t) i false false 0
  = Ret (Some (S (length body) + i)).
Proof.
  intros Hb. change (str "{" ++ body ++ str "}" ++ t) with (x7b :: body ++ x7d :: t).
  transitivity (scan_payload (body ++ x7d :: t) (S i) false false 1); [done|].
  rewrite Hb. cbn. do 2 f_equal. lia.
Qed.

Lemma envelope_suffix_prefix type :
  envelope_suffix type = type_prefix ++ type ++ [dquote; x7d].
Proof. unfold envelope_suffix, type_prefix. by rewrite <-!app_assoc. Qed.

Lemma back_suffix type : back (type_prefix ++ type ++ [dquote; x7d]) = Some x7d.
Proof. change [dquote; x7d] with ([dquote] ++ [x7d]). rewrite !app_assoc. apply back_snoc. Qed.

Lemma suffix_type_envelope type : dquote ∉ type -> suffix_type (envelope_suffix type) = Ret type.
Proof.
  intros Ht. rewrite envelope_suffix_prefix. unfold suffix_type.
  replace (length (type_prefix ++ type ++ [dquote; x7d]) <? _) with false
    by (symmetry; apply Nat.ltb_ge; rewrite !length_app; cbn [length]; lia).
  rewrite compare_prefix_app, back_suffix, bool_decide_eq_false_2 by auto. cbn [orb negb].
  unfold find_from. rewrite drop_app_length, find_char_fresh by done.
  cbn [fmap option_fmap option_map].
  replace (length type_prefix + length type + 2 =? _) with true
    by (symmetry; apply Nat.eqb_eq; rewrite !length_app; cbn [length]; lia).
  replace (_ + _ - _) with (length type) by lia. by rewrite substr_app.
Qed.

Lemma split_envelope_flat body type :
  flat body -> dquote ∉ type ->
  split_envelope (envelope_prefix ++ (str "{" ++ body ++ str "}") ++ envelope_suffix type)
  = Ret (str "{" ++ body ++ str "}", type).
Proof.
  intros Hb Ht. set (p := str "{" ++ body ++ str "}").
  assert (Hlen : length p = length body + 2) by (unfold p; rewrite !length_app; cbn; lia).
  unfold split_envelope.
  replace (length _ <=? length envelope_prefix) with false
    by (symmetry; apply Nat.leb_gt; rewrite !length_app; lia).
  rewrite compare_prefix_app. cbn [orb negb].
  rewrite decide_False by (rewrite lookup_app_r, Nat.sub_diag by lia; intros []; done).
  rewrite drop_app_length.
  assert (scan_payload (p ++ envelope_suffix type) (length envelope_prefix) false false 0
          = Ret (Some (S (length body) + length envelope_prefix))) as ->
    by (unfold p; rewrite <-!app_assoc; by apply scan_object).
  cbn [mbind outcome_bind].
  replace (S (length body) + length envelope_prefix + 1) with (length (envelope_prefix ++ p))
    by (rewrite length_app, Hlen; lia).
  rewrite app_assoc, drop_app_length, suffix_type_envelope, <-app_assoc by done.
  replace (_ - _ + 1) with (length p) by lia. by rewrite substr_app.
Qed.

(** ** What [split_envelope] accepts *)

(** The scan stops at a closing brace of the text. *)
Lemma scan_payload_found rest i ins esc depth k :
  scan_payload rest i ins esc depth = Ret (Some k) ->
  i <= k /\ rest !! (k - i) = Some x7d.
Proof.
  revert i ins esc depth. induction rest as [|ch rest IH]; intros i ins esc depth H; [done|].
  assert (forall ins' esc' depth',
            scan_payload rest (S i) ins' esc' depth' = Ret (Some k) ->
            i <= k /\ (ch :: rest) !! (k - i) = Some x7d) as Hrec.
  { intros ins' esc' depth' [Hk Hl]%IH. split; [lia|].
    by replace (k - i) with (S (k - S i)) by lia. }
  cbn [scan_payload] in H.
  repeat case_match; simplify_eq; eauto.
  split; [done|]. by rewrite Nat.sub_diag.
Qed.

(** The only exception of the scan. *)
Lemma scan_payload_throw rest i ins esc depth e :
  scan_payload rest i ins esc depth = Throw e -> e = invalid_argument "invalid envelope nesting".
Proof.
  revert i ins esc depth. induction rest as [|ch rest IH]; intros i ins esc depth; [done|].
  cbn [scan_payload]. repeat case_match; try done; try apply IH. by intros [= <-].
Qed.

(** The depth is positive while the scan is inside the object: the check for
    a negative depth never fires. *)
Lemma scan_payload_no_throw rest i ins esc depth e :
  (0 < depth)%Z -> ~ (scan_payload rest i ins esc depth = Throw e).
Proof.
  revert i ins esc depth. induction rest as [|ch rest IH]; intros i ins esc depth Hd; [done|].
  cbn [scan_payload]. repeat case_match; try done; try (apply IH; lia). lia.
Qed.

(** Nesting is bounded by the text, so an [int] holds the depth of any text
    shorter than 2 GiB. *)
Lemma scan_payload_defined rest i ins esc depth :
  (0 <= depth)%Z -> (depth + Z.of_nat (length rest) <= INT_MAX)%Z ->
  defined (scan_payload rest i ins esc depth).
Proof.
  revert i ins esc depth. induction rest as [|ch rest IH]; intros i ins esc depth Hd Hl; [done|].
  cbn [length] in Hl. cbn [scan_payload].
  repeat case_match; try done; try (apply IH; lia); unfold INT_MIN in *; lia.
Qed.

Lemma suffix_type_inv suffix type :
  suffix_type suffix = Ret type -> suffix = envelope_suffix type /\ dquote ∉ type.
Proof.
  unfold suffix_type. intros H.
  destruct (_ || _) eqn:E; [done|].
  apply orb_false_iff in E as [[_ E1]%orb_false_iff E2].
  apply negb_false_iff, compare_prefix_true in E1.
  apply bool_decide_eq_false_1, dec_stable in E2.
  destruct (find_from _ _ _) as [q|] eqn:Ef; [|done].
  apply fmap_Some in Ef as (n & Ef & ->).
  set (rest := drop (length type_prefix) suffix) in *. clearbody rest. subst suffix.
  apply find_char_Some in Ef as (u & t & -> & <- & Hu).
  destruct (negb _) eqn:E3; [done|]. apply negb_false_iff, Nat.eqb_eq in E3.
  rewrite !length_app in E3. cbn [length] in E3.
  destruct t as [|c [|]]; cbn [length] in E3; try lia.
  replace (type_prefix ++ u ++ [x22; c]) with ((type_prefix ++ u ++ [x22]) ++ [c]) in E2
    by (by rewrite <-!app_assoc).
  rewrite back_snoc in E2. injection E2 as ->.
  replace (_ + _ - _) with (length u) in H by lia. rewrite substr_app in H.
  injection H as <-. by rewrite envelope_suffix_prefix.
Qed.

#[local] Opaque envelope_prefix.
Lemma split_envelope_inv json p type :
  split_envelope json = Ret (p, type) ->
  json = envelope_prefix ++ p ++ envelope_suffix type
  /\ (dquote ∉ type) /\ head p = Some x7b /\ back p = Some x7d.
Proof.
  unfold split_envelope. intros H. cbv zeta in H.
  destruct (_ || _) eqn:E1; [done|]. apply orb_false_iff in E1 as [_ E1].
  apply negb_false_iff, compare_prefix_true in E1.
  set (body := drop (length envelope_prefix) json) in *. clearbody body. subst json.
  rewrite lookup_app_r, Nat.sub_diag in H by lia.
  destruct (decide _) as [|Hbrace]; [done|]. apply dec_stable in Hbrace.
  destruct (scan_payload _ _ _ _ _) as [[k|]| | |] eqn:Es; try done. cbn [mbind outcome_bind] in H.
  apply scan_payload_found in Es as [Hk Hlast].
  remember (k - length envelope_prefix) as j.
  assert (Hj : j < length body) by (by eapply lookup_lt_Some).
  replace (drop (k + 1) (envelope_prefix ++ body)) with (drop (j + 1) body) in H
    by (rewrite drop_app_ge by lia; f_equal; lia).
  destruct (suffix_type _) as [type'| | |] eqn:Es; try done. cbn [mbind outcome_bind] in H.
  apply suffix_type_inv in Es as [Es Hq]. injection H as H1 ->.
  unfold substr in H1. rewrite drop_app_length in H1. subst p.
  split_and!.
  - by rewrite <-Es, take_drop.
  - done.
  - destruct body as [|b body]; [done|]. by rewrite Nat.add_1_r.
  - unfold back. rewrite length_take, lookup_take_lt by lia.
    by replace (pred _) with j by lia.
Qed.

(** ** Printed messages are objects with a flat body *)

Definition closes (u : bytes) : Prop := exists body, u = body ++ str "}" /\ flat body.
Definition flat_object (p : bytes) : Prop := exists body, p = str "{" ++ body ++ str "}" /\ flat body.

Lemma closes_end : closes (str "}").
Proof. exists []. split; [done|]. by apply flat_plain. Qed.
Lemma closes_app u v : flat u -> closes v -> closes (u ++ v).
Proof.
  intros Hu (body & -> & Hb). exists (u ++ body). rewrite app_assoc. auto with flat.
Qed.
Lemma flat_object_intro u : closes u -> flat_object (str "{" ++ u).
Proof. intros (body & -> & Hb). by exists body. Qed.
Lemma flat_if (b : bool) u v : flat u -> flat v -> flat (if b then u else v).
Proof. by destruct b. Qed.
#[export] Hint Resolve closes_end closes_app flat_object_intro flat_if : flat.

Lemma signed_job_request_object job : flat_object (signed_job_request_json job).
Proof. unfold signed_job_request_json. auto 100 with flat nocore. Qed.
Lemma signed_job_result_object r : flat_object (signed_job_result_json r).
Proof. unfold signed_job_result_json. auto 100 with flat nocore. Qed.
Lemma signed_failure_notice_object n : flat_object (signed_failure_notice_json n).
Proof. unfold signed_failure_notice_json. auto 100 with flat nocore. Qed.
#[export] Hint Resolve signed_job_request_object signed_job_result_object
  signed_failure_notice_object : flat.

Lemma split_envelope_object p type :
  flat_object p -> dquote ∉ type ->
  split_envelope (envelope_prefix ++ p ++ envelope_suffix type) = Ret (p, type).
Proof. intros (body & -> & Hb). by apply split_envelope_flat. Qed.

#[export] Hint Extern 1 (_ ∉ str _) =>
  (apply (bool_decide_unpack _); vm_compute; exact I) : flat.
