(* ===== verification/WireParse.v ===== *)
(** * Parsing of responses (cpp/include/ma2a/wire_parse.hpp, lines 195-236)

    A response is parsed by a fixed sequence of reader calls, one per member,
    in the canonical key order. *)
From S2P Require Import Prelude Contracts Canonical Reader ReaderSafety JsonRoundTrip Wire Envelope.
Import FlatJsonReader.

Definition read_job_result : M FlatJsonReader.t JobResult.t :=
  expect x7b;;
  key "completed_at";; completed_at ← integer; expect x2c;;
  key "message_id";; message_id ← string; expect x2c;;
  key "payload";; payload ← string; expect x2c;;
  key "protocol_version";; protocol_version ← string; expect x2c;;
  key "recipient_node_id";; recipient_node_id ← string; expect x2c;;
  key "request_id";; request_id ← string; expect x2c;;
  key "responder_node_id";; responder_node_id ← string; expect x2c;;
  key "signature";; signature ← string; expect x2c;;
  key "signature_algorithm";; signature_algorithm ← string; expect x2c;;
  key "status";; status ← string;
  expect x7d;;
  r ← get;
  if negb (done r) then throw (invalid_argument "trailing JOB_RESULT data") else
  mret {| JobResult.protocol_version := protocol_version; JobResult.message_id := message_id;
          JobResult.request_id := request_id; JobResult.responder_node_id := responder_node_id;
          JobResult.recipient_node_id := recipient_node_id; JobResult.status := status;
          JobResult.payload := payload; JobResult.completed_at := completed_at;
          JobResult.signature_algorithm := signature_algorithm;
          JobResult.signature := signature |}.

Definition parse_job_result_envelope_json (json : bytes) : outcome JobResult.t :=
  parts ← split_envelope json;
  let '(payload, type) := parts in
  if decide (type <> str "JOB_RESULT")
  then Throw (invalid_argument "expected JOB_RESULT envelope") else
  fst (read_job_result (init payload)).

Definition read_failure_notice : M FlatJsonReader.t FailureNotice.t :=
  expect x7b;;
  key "failed_node_id";; failed_node_id ← string; expect x2c;;
  key "message_id";; message_id ← string; expect x2c;;
  key "observed_at";; observed_at ← integer; expect x2c;;
  key "protocol_version";; protocol_version ← string; expect x2c;;
  key "reason";; reason ← string; expect x2c;;
  key "reporting_node_id";; reporting_node_id ← string; expect x2c;;
  key "request_id";; request_id ← string; expect x2c;;
  key "signature";; signature ← string; expect x2c;;
  key "signature_algorithm";; signature_algorithm ← string;
  expect x7d;;
  r ← get;
  if negb (done r) then throw (invalid_argument "trailing FAILURE_NOTICE data") else
  mret {| FailureNotice.protocol_version := protocol_version;
          FailureNotice.message_id := message_id; FailureNotice.request_id := request_id;
          FailureNotice.reporting_node_id := reporting_node_id;
          FailureNotice.failed_node_id := failed_node_id; FailureNotice.reason := reason;
          FailureNotice.observed_at := observed_at;
          FailureNotice.signature_algorithm := signature_algorithm;
          FailureNotice.signature := signature |}.

Definition parse_failure_notice_envelope_json (json : bytes) : outcome FailureNotice.t :=
  parts ← split_envelope json;
  let '(payload, type) := parts in
  if decide (type <> str "FAILURE_NOTICE")
  then Throw (invalid_argument "expected FAILURE_NOTICE envelope") else
  fst (read_failure_notice (init payload)).

(** ** The reader on printed messages *)

Lemma expect_str_open pre t : expect x7b (rd pre (str "{" ++ t)) = (Ret tt, rd (pre ++ str "{") t).
Proof. apply expect_cons. Qed.
Lemma expect_str_comma pre t : expect x2c (rd pre (str "," ++ t)) = (Ret tt, rd (pre ++ str ",") t).
Proof. apply expect_cons. Qed.
Lemma expect_str_close pre : expect x7d (rd pre (str "}")) = (Ret tt, rd (pre ++ str "}") []).
Proof. apply expect_cons. Qed.
#[export] Hint Resolve expect_str_open expect_str_comma expect_str_close : ma2a.

Lemma done_rd_nil pre : done (rd pre []) = true.
Proof. unfold done, size, rd; cbn. rewrite app_nil_r. apply Nat.eqb_refl. Qed.

Lemma read_signed_job_result r :
  is_int64 (JobResult.completed_at r) -> JobResult.completed_at r <> INT64_MIN ->
  fst (read_job_result (init (signed_job_result_json r))) = Ret r.
Proof.
  intros Hr Hm. unfold read_job_result, signed_job_result_json. rewrite init_rd.
  m_steps. rewrite done_rd_nil. by destruct r.
Qed.

Lemma read_signed_failure_notice n :
  is_int64 (FailureNotice.observed_at n) -> FailureNotice.observed_at n <> INT64_MIN ->
  fst (read_failure_notice (init (signed_failure_notice_json n))) = Ret n.
Proof.
  intros Hn Hm. unfold read_failure_notice, signed_failure_notice_json. rewrite init_rd.
  m_steps. rewrite done_rd_nil. by destruct n.
Qed.

(** ** The integers the reader returns *)

Lemma integer_loop_bounds fuel v r z r' :
  (0 <= v <= INT64_MAX)%Z -> integer_loop fuel v r = (Ret z, r') -> (0 <= z <= INT64_MAX)%Z.
Proof.
  revert v r. induction fuel as [|fuel IH]; intros v r Hv H; [done|].
  cbn [integer_loop] in H. apply run_bind_inv in H as (e & r1 & _ & H).
  destruct e; [by injection H as <- _|].
  apply run_bind_inv in H as (c & r2 & _ & H).
  destruct (is_digit c) eqn:Hd; [|by injection H as <- _].
  apply run_bind_inv in H as (? & r3 & _ & H).
  apply run_bind_inv in H as (tens & r4 & H1 & H).
  apply run_bind_inv in H as (v' & r5 & H2 & H).
  unfold lift, int64_result in H1, H2.
  destruct (int64b_spec (v * 10)) as [Ht|]; [|done]. injection H1 as <- <-.
  destruct (int64b_spec (v * 10 + (schar c - 48))) as [Ht'|]; [|done]. injection H2 as <- <-.
  apply IH in H; [done|]. unfold is_int64, is_digit, char_between in *.
  change (schar x30) with 48%Z in Hd. lia.
Qed.

Lemma integer_bounds r z r' : integer r = (Ret z, r') -> is_int64 z /\ z <> INT64_MIN.
Proof.
  unfold integer. intros H.
  apply run_bind_inv in H as (e & r1 & _ & H). destruct e; [done|].
  apply run_bind_inv in H as (c & r2 & _ & H). cbv zeta in H.
  apply run_bind_inv in H as (? & r3 & _ & H).
  apply run_bind_inv in H as (e & r4 & _ & H). destruct e; [done|].
  apply run_bind_inv in H as (d & r5 & _ & H). destruct (negb _); [done|].
  apply run_bind_inv in H as (r6 & r7 & _ & H).
  apply run_bind_inv in H as (v & r8 & Hv & H).
  apply integer_loop_bounds in Hv; [|unfold INT64_MAX; lia].
  assert (z = v \/ z = - v)%Z as Hz.
  { destruct (bool_decide _).
    - unfold lift, int64_result in H. destruct (int64b _); [|done]. injection H as <- _. by right.
    - injection H as <- _. by left. }
  unfold is_int64, INT64_MIN, INT64_MAX in *. lia.
Qed.

Ltac run_bind_inv_all H :=
  repeat (let a := fresh "a" in let r := fresh "r" in let E := fresh "E" in
          let K := fresh "K" in
          destruct (run_bind_inv _ _ _ _ _ H) as (a & r & E & K); clear H; rename K into H).

Lemma read_job_result_bounds r res r' :
  read_job_result r = (Ret res, r') ->
  is_int64 (JobResult.completed_at res) /\ JobResult.completed_at res <> INT64_MIN.
Proof.
  unfold read_job_result. intros H. run_bind_inv_all H.
  case_match; [done|]. injection H as <- _. cbn. eauto using integer_bounds.
Qed.

Lemma read_failure_notice_bounds r n r' :
  read_failure_notice r = (Ret n, r') ->
  is_int64 (FailureNotice.observed_at n) /\ FailureNotice.observed_at n <> INT64_MIN.
Proof.
  unfold read_failure_notice. intros H. run_bind_inv_all H.
  case_match; [done|]. injection H as <- _. cbn. eauto using integer_bounds.
Qed.

Lemma parse_job_result_inv json r :
  parse_job_result_envelope_json json = Ret r ->
  exists payload r', split_envelope json = Ret (payload, str "JOB_RESULT")
    /\ read_job_result (init payload) = (Ret r, r').
Proof.
  unfold parse_job_result_envelope_json. intros H.
  destruct (split_envelope json) as [[p ty]| | |] eqn:E; try done. cbn in H.
  destruct (decide _) as [|Hty]; [done|]. apply dec_stable in Hty. subst ty.
  destruct (read_job_result (init p)) as [o r'] eqn:Er. cbn in H. subst o. by eexists _, _.
Qed.

Lemma parse_failure_notice_inv json n :
  parse_failure_notice_envelope_json json = Ret n ->
  exists payload r', split_envelope json = Ret (payload, str "FAILURE_NOTICE")
    /\ read_failure_notice (init payload) = (Ret n, r').
Proof.
  unfold parse_failure_notice_envelope_json. intros H.
  destruct (split_envelope json) as [[p ty]| | |] eqn:E; try done. cbn in H.
  destruct (decide _) as [|Hty]; [done|]. apply dec_stable in Hty. subst ty.
  destruct (read_failure_notice (init p)) as [o r'] eqn:Er. cbn in H. subst o. by eexists _, _.
Qed.

(** ** Parsing printed envelopes *)

Lemma parse_printed_job_result r :
  is_int64 (JobResult.completed_at r) -> JobResult.completed_at r <> INT64_MIN ->
  parse_job_result_envelope_json (job_result_envelope_json r) = Ret r.
Proof.
  intros Hr Hm. unfold parse_job_result_envelope_json, job_result_envelope_json.
  rewrite split_envelope_object by auto with flat.
  cbn [mbind outcome_bind]. rewrite decide_False by auto. by apply read_signed_job_result.
Qed.

Lemma parse_printed_failure_notice n :
  is_int64 (FailureNotice.observed_at n) -> FailureNotice.observed_at n <> INT64_MIN ->
  parse_failure_notice_envelope_json (failure_notice_envelope_json n) = Ret n.
Proof.
  intros Hn Hm. unfold parse_failure_notice_envelope_json, failure_notice_envelope_json.
  rewrite split_envelope_object by auto with flat.
  cbn [mbind outcome_bind]. rewrite decide_False by auto. by apply read_signed_failure_notice.
Qed.

Lemma split_envelope_outcome json :
  (Z.of_nat (length json) <= INT_MAX)%Z ->
  match split_envelope json with Ret _ | Throw (invalid_argument _) => True | _ => False end.
Proof.
  intros Hl. unfold split_envelope. destruct (_ || _); [done|]. case_decide; [done|].
  set (body := drop (length envelope_prefix) json).
  assert (Hb : (0 + Z.of_nat (length body) <= INT_MAX)%Z)
    by (unfold body; rewrite length_drop; lia).
  pose proof (scan_payload_defined body (length envelope_prefix) false false 0 ltac:(lia) Hb) as Hd.
  destruct (scan_payload body _ _ _ _) as [[k|]|e| |] eqn:E; try done; cbn [mbind outcome_bind].
  - unfold suffix_type. by repeat case_match.
  - apply scan_payload_throw in E as ->. done.
Qed.

Lemma read_job_result_outcome r : parser_outcome (fst (read_job_result (init r))).
Proof.
  assert (safe read_job_result) as H.
  { unfold read_job_result. repeat (apply safe_bind; [auto with safe|intros]).
    auto with safe. }
  rewrite init_rd. destruct (H [] r) as (o & ? & ? & -> & ? & _). done.
Qed.

Lemma read_failure_notice_outcome r : parser_outcome (fst (read_failure_notice (init r))).
Proof.
  assert (safe read_failure_notice) as H.
  { unfold read_failure_notice. repeat (apply safe_bind; [auto with safe|intros]).
    auto with safe. }
  rewrite init_rd. destruct (H [] r) as (o & ? & ? & -> & ? & _). done.
Qed.

(** ** Properties *)

(** Results survive the wire.  Parsing the envelope of any [JobResult]
    whose completion time is a 64-bit value other than the minimum returns
    that very result, for arbitrary bytes in all its strings (quotes,
    backslashes, control characters, braces and invalid UTF-8 included). *)
Lemma job_result_round_trip (r : JobResult.t)
    (Hr : JobResult.wf r) (Hm : JobResult.completed_at r <> INT64_MIN) :
  parse_job_result_envelope_json (job_result_envelope_json r) = Ret r.
Proof. by apply parse_printed_job_result. Qed.

(** Failure notices survive the wire, in the same generality. *)
Lemma failure_notice_round_trip (n : FailureNotice.t)
    (Hn : FailureNotice.wf n) (Hm : FailureNotice.observed_at n <> INT64_MIN) :
  parse_failure_notice_envelope_json (failure_notice_envelope_json n) = Ret n.
Proof. by apply parse_printed_failure_notice. Qed.

(** C19: Terminal evidence survives the wire.  Parsing the envelope of any result
    or failure notice whose timestamp is a 64-bit value other than the minimum
    returns that very message, for arbitrary bytes in all its strings (quotes,
    backslashes, control characters, braces and invalid UTF-8 included). *)
Theorem evidence_round_trip (r : JobResult.t) (n : FailureNotice.t)
    (Hr : JobResult.wf r) (Hrm : JobResult.completed_at r <> INT64_MIN)
    (Hn : FailureNotice.wf n) (Hnm : FailureNotice.observed_at n <> INT64_MIN) :
  parse_job_result_envelope_json (job_result_envelope_json r) = Ret r
  /\ parse_failure_notice_envelope_json (failure_notice_envelope_json n) = Ret n.
Proof. split; [by apply parse_printed_job_result|by apply parse_printed_failure_notice]. Qed.

(** The envelope names its message.  The type read from a printed
    envelope is the type it was printed with, for requests, results and
    notices with any members. *)
Lemma envelope_type_round_trip (j : JobRequest.t) (r : JobResult.t) (n : FailureNotice.t) :
  wire_envelope_type (job_request_envelope_json j) = Ret (str "JOB_REQUEST")
  /\ wire_envelope_type (job_result_envelope_json r) = Ret (str "JOB_RESULT")
  /\ wire_envelope_type (failure_notice_envelope_json n) = Ret (str "FAILURE_NOTICE").
Proof.
  unfold wire_envelope_type, job_request_envelope_json, job_result_envelope_json,
    failure_notice_envelope_json.
  by split_and!; rewrite split_envelope_object by auto with flat.
Qed.

(** Every accepted response is a fixed point of printing and parsing: when
    a byte string, canonical or not, parses as a result (a notice), the
    canonical envelope of what was parsed parses as the same value. *)
Lemma parse_normalizes (json : bytes) :
  (forall r, parse_job_result_envelope_json json = Ret r ->
     parse_job_result_envelope_json (job_result_envelope_json r) = Ret r)
  /\ (forall n, parse_failure_notice_envelope_json json = Ret n ->
     parse_failure_notice_envelope_json (failure_notice_envelope_json n) = Ret n).
Proof.
  split; intros v H.
  - apply parse_job_result_inv in H as (p & r' & _ & H).
    apply read_job_result_bounds in H as [? ?]. by apply parse_printed_job_result.
  - apply parse_failure_notice_inv in H as (p & r' & _ & H).
    apply read_failure_notice_bounds in H as [? ?]. by apply parse_printed_failure_notice.
Qed.

(** C20: The parsers on arbitrary network input.  For every byte string up to
    2 GiB, each of the three entry points terminates, reads inside of the
    string, and ends in a value, in [std::invalid_argument], or in the signed
    overflow of [integer]: no other exception and no other undefined
    behaviour. *)
Theorem parsers_are_total (json : bytes) (Hl : (Z.of_nat (length json) <= INT_MAX)%Z) :
  parser_outcome (wire_envelope_type json)
  /\ parser_outcome (parse_job_result_envelope_json json)
  /\ parser_outcome (parse_failure_notice_envelope_json json).
Proof.
  pose proof (split_envelope_outcome json Hl) as H.
  unfold wire_envelope_type, parse_job_result_envelope_json, parse_failure_notice_envelope_json.
  destruct (split_envelope json) as [[p ty]|e|u|]; try done. cbn [mbind outcome_bind].
  split_and!; [done| |]; case_decide; try done.
  - apply read_job_result_outcome.
  - apply read_failure_notice_outcome.
Qed.

(** C21: [split_envelope] is exact.  What it accepts is an envelope around the
    payload and type it returns: the payload is a braced text of the input,
    the type contains no quote, and printing the two parts gives the input
    back. *)
Theorem split_envelope_exact (json p type : bytes) (H : split_envelope json = Ret (p, type)) :
  json = envelope_prefix ++ p ++ envelope_suffix type
  /\ (dquote ∉ type) /\ head p = Some x7b /\ back p = Some x7d.
Proof. by apply split_envelope_inv. Qed.

(** The one timestamp the wire cannot carry.  A result completed at
    [INT64_MIN] is printed, and parsing what was printed overflows the signed
    accumulator of [FlatJsonReader::integer]. *)
Lemma job_result_min_timestamp_overflows (r : JobResult.t)
    (Hm : JobResult.completed_at r = INT64_MIN) :
  parse_job_result_envelope_json (job_result_envelope_json r) = Undef signed_overflow.
Proof.
  unfold parse_job_result_envelope_json, job_result_envelope_json.
  rewrite split_envelope_object by auto with flat. cbn [mbind outcome_bind].
  rewrite decide_False by auto. unfold read_job_result, signed_job_result_json.
  rewrite init_rd, Hm. do 2 m_step.
  match goal with |- fst ((integer ≫= _) (rd ?pre (_ ++ ?t))) = _ =>
    pose proof (integer_ostream_dec_min pre t) as Hu end.
  destruct (integer _) as [o r1] eqn:E. cbn in Hu. subst o. by erewrite run_bind_undef.
Qed.

(** *** Witnesses *)

(** A payload with a quote, a backslash, braces, a NUL, a line feed and a
    byte that is no UTF-8. *)
Definition awkward : bytes := str "a{" ++ [dquote; x5c; x7d; x00; x0a; xff; x7f].

Definition sample_result : JobResult.t := {|
  JobResult.protocol_version := str "0.2"; JobResult.message_id := str "msg-result-1";
  JobResult.request_id := str "job-1"; JobResult.responder_node_id := str "node-b";
  JobResult.recipient_node_id := str "node-a"; JobResult.status := str "OK";
  JobResult.payload := awkward; JobResult.completed_at := 1800000001;
  JobResult.signature_algorithm := str "Ed25519"; JobResult.signature := str "c2ln" |}.

Definition sample_notice : FailureNotice.t := {|
  FailureNotice.protocol_version := str "0.2"; FailureNotice.message_id := str "msg-failure-1";
  FailureNotice.request_id := str "job-1"; FailureNotice.reporting_node_id := str "node-b";
  FailureNotice.failed_node_id := str "node-b"; FailureNotice.reason := awkward;
  FailureNotice.observed_at := -1; FailureNotice.signature_algorithm := str "Ed25519";
  FailureNotice.signature := str "c2ln" |}.

Lemma evidence_round_trip_witness :
  parse_job_result_envelope_json (job_result_envelope_json sample_result) = Ret sample_result
  /\ parse_failure_notice_envelope_json (failure_notice_envelope_json sample_notice)
     = Ret sample_notice.
Proof.
  apply (evidence_round_trip sample_result sample_notice);
    unfold JobResult.wf, FailureNotice.wf, is_int64, INT64_MIN, INT64_MAX; cbn; lia.
Defined.

(** A response that no canonical printer writes: an escaped letter and a
    leading zero. *)
Definition noncanonical_notice : bytes :=
  map (fun b => if decide (b = x27) then dquote else b)
    (str "{'payload':{'failed_node_id':'n\u006fde','message_id':'m','observed_at':007,'protocol_version':'0.2','reason':'r','reporting_node_id':'n','request_id':'j','signature':'s','signature_algorithm':'Ed25519'},'type':'FAILURE_NOTICE'}").

Lemma parse_normalizes_witness :
  exists n, FailureNotice.failed_node_id n = str "node" /\ FailureNotice.observed_at n = 7%Z
    /\ failure_notice_envelope_json n <> noncanonical_notice
    /\ parse_failure_notice_envelope_json (failure_notice_envelope_json n) = Ret n.
Proof.
  eexists. split; [|split; [|split]]; cycle 3.
  - apply (proj2 (parse_normalizes noncanonical_notice)). vm_compute. reflexivity.
  - reflexivity.
  - reflexivity.
  - vm_compute. discriminate.
Defined.

Lemma parsers_are_total_witness :
  parser_outcome (wire_envelope_type noncanonical_notice)
  /\ parser_outcome (parse_job_result_envelope_json noncanonical_notice)
  /\ parser_outcome (parse_failure_notice_envelope_json noncanonical_notice).
Proof. apply (parsers_are_total noncanonical_notice). vm_compute. discriminate. Defined.

Lemma split_envelope_exact_witness :
  exists p, noncanonical_notice = envelope_prefix ++ p ++ envelope_suffix (str "FAILURE_NOTICE").
Proof.
  destruct (split_envelope noncanonical_notice) as [[p ty]| | |] eqn:E;
    try (vm_compute in E; discriminate E).
  exists p. destruct (split_envelope_exact _ _ _ E) as [H _].
  vm_compute in E. injection E as <- <-. exact H.
Defined.

Lemma job_result_min_timestamp_overflows_witness :
  parse_job_result_envelope_json
    (job_result_envelope_json
       (JobResult.mk (str "0.2") (str "m") (str "j") (str "b") (str "a") (str "OK") []
          INT64_MIN (str "Ed25519") (str "s"))) = Undef signed_overflow.
Proof. apply job_result_min_timestamp_overflows. reflexivity. Defined.
