(* ===== verification/ReaderBounds.v ===== *)
(** * How much a parsed message can hold

    The reader never changes its string, and a string it returns is no longer
    than what it has read: escapes only shrink.  So the members of a parsed
    message are no longer than the envelope they came in. *)
From S2P Require Import Prelude Contracts Reader ReaderSafety Envelope WireParse.
Import FlatJsonReader.

(** ** The string stays, the index does not go back *)

(** [m] leaves the string alone and reads at least [n] bytes when it returns. *)
Definition reads (n : nat) {A} (m : M t A) : Prop := forall r,
  json_ (snd (m r)) = json_ r
  /\ forall a, fst (m r) = Ret a -> pos_ r + n <= pos_ (snd (m r)).

Lemma reads_same {A} n (o : t -> outcome A) : n = 0 -> reads n (fun r => (o r, r)).
Proof. intros -> r. split; [done|]. cbn. lia. Qed.
Lemma reads_lift {A} (o : outcome A) : reads 0 (lift o).
Proof. by apply (reads_same 0 (fun _ => o)). Qed.
Lemma reads_ret {A} (a : A) : reads 0 (mret a : M t A).
Proof. apply (reads_lift (Ret a)). Qed.
Lemma reads_throw {A} n e : reads n (throw (A := A) e).
Proof. by intros r. Qed.
Lemma reads_get : reads 0 (get : M t t).
Proof. by apply (reads_same 0 (fun r => Ret r)). Qed.
Lemma reads_at_end : reads 0 at_end.
Proof. by apply reads_same. Qed.
Lemma reads_char_at k : reads 0 (char_at k).
Proof. by apply reads_same. Qed.
Lemma reads_too_short k : reads 0 (too_short k).
Proof. by apply reads_same. Qed.
Lemma reads_advance k : reads k (advance k).
Proof. intros r. split; [done|]. cbn. lia. Qed.

Lemma reads_bind {A B} n k (m : M t A) (f : A -> M t B) :
  reads n m -> (forall a, reads k (f a)) -> reads (n + k) (m ≫= f).
Proof.
  intros Hm Hf r. destruct (Hm r) as [Hj Hp]. unfold mbind, M_bind.
  destruct (m r) as [[a| | |] r1]; cbn in Hj, Hp |- *; try by split.
  destruct (Hf a r1) as [Hj' Hp']. rewrite Hj', Hj. split; [done|].
  intros b Hb. specialize (Hp a eq_refl). specialize (Hp' b Hb). lia.
Qed.

Lemma reads_weaken {A} n k (m : M t A) : reads n m -> k <= n -> reads k m.
Proof. intros H Hk r. destruct (H r) as [? Hp]. split; [done|]. intros a Ha. specialize (Hp a Ha). lia. Qed.

Lemma reads_bind0 {A B} k (m : M t A) (f : A -> M t B) :
  reads 0 m -> (forall a, reads k (f a)) -> reads k (m ≫= f).
Proof. apply (reads_bind 0). Qed.
Lemma reads_bind_ge {A B} n (m : M t A) (f : A -> M t B) :
  reads n m -> (forall a, reads 0 (f a)) -> reads n (m ≫= f).
Proof. intros Hm Hf. eapply reads_weaken; [by eapply reads_bind|lia]. Qed.
Lemma reads_if {A} n (b : bool) (m k : M t A) :
  reads n m -> reads n k -> reads n (if b then m else k).
Proof. by destruct b. Qed.
Lemma reads_decide {A} n P `{Decision P} (m k : M t A) :
  reads n m -> reads n k -> reads n (if decide P then m else k).
Proof. by destruct (decide P). Qed.

Create HintDb reads.
#[export] Hint Resolve reads_lift reads_ret reads_throw reads_get reads_at_end reads_char_at
  reads_too_short reads_advance reads_if reads_decide : reads.

Lemma reads_next : reads 1 next.
Proof.
  unfold next. apply reads_bind0; [auto with reads|]. intros c.
  apply reads_bind_ge; auto with reads.
Qed.
#[export] Hint Resolve reads_next : reads.

Lemma reads_expect c : reads 0 (expect c).
Proof.
  unfold expect. apply reads_bind0; [auto with reads|]. intros e.
  apply reads_if; [auto with reads|]. apply reads_bind0; [auto with reads|]. intros d.
  apply reads_decide; [auto with reads|]. by apply (reads_weaken 1); auto with reads.
Qed.

Lemma reads_unicode_unit_loop n v : reads n (unicode_unit_loop n v).
Proof.
  revert v. induction n as [|n IH]; intros v; [apply reads_ret|]. cbn [unicode_unit_loop].
  apply (reads_bind 1); [auto with reads|]. intros c.
  apply reads_bind0; auto with reads.
Qed.
Lemma reads_unicode_unit : reads 4 unicode_unit.
Proof.
  unfold unicode_unit. apply reads_bind0; [auto with reads|]. intros b.
  apply reads_if; [auto with reads|apply reads_unicode_unit_loop].
Qed.

(** ** Strings *)

(** Started with [out], [m] adds at most [k] bytes more than it reads. *)
Definition pays (k : nat) (out : bytes) (m : M t bytes) : Prop := forall r,
  json_ (snd (m r)) = json_ r
  /\ forall out', fst (m r) = Ret out' -> length out' + pos_ r <= k + length out + pos_ (snd (m r)).

Lemma pays_bind {A} n k out (m : M t A) (f : A -> M t bytes) :
  reads n m -> (forall a, pays (n + k) out (f a)) -> pays k out (m ≫= f).
Proof.
  intros Hm Hf r. destruct (Hm r) as [Hj Hp]. unfold mbind, M_bind.
  destruct (m r) as [[a| | |] r1]; cbn in Hj, Hp |- *; try by split.
  destruct (Hf a r1) as [Hj' Hp']. rewrite Hj', Hj. split; [done|].
  intros b Hb. specialize (Hp a eq_refl). specialize (Hp' b Hb). lia.
Qed.

Lemma pays_bind_out k out (m : M t bytes) (f : bytes -> M t bytes) :
  pays k out m -> (forall out', pays 0 out' (f out')) -> pays k out (m ≫= f).
Proof.
  intros Hm Hf r. destruct (Hm r) as [Hj Hp]. unfold mbind, M_bind.
  destruct (m r) as [[a| | |] r1]; cbn in Hj, Hp |- *; try by split.
  destruct (Hf a r1) as [Hj' Hp']. rewrite Hj', Hj. split; [done|].
  intros b Hb. specialize (Hp a eq_refl). specialize (Hp' b Hb). lia.
Qed.

Lemma pays_ret k out out' : length out' <= k + length out -> pays k out (mret out').
Proof. intros H r. split; [done|]. cbn. intros ? [= <-]. lia. Qed.
Lemma pays_throw k out e : pays k out (throw e).
Proof. by intros r. Qed.
Lemma pays_if k out (b : bool) m n : pays k out m -> pays k out n -> pays k out (if b then m else n).
Proof. by destruct b. Qed.
Lemma pays_decide k out P `{Decision P} m n :
  pays k out m -> pays k out n -> pays k out (if decide P then m else n).
Proof. by destruct (decide P). Qed.
Lemma pays_weaken k out out' m : pays 0 out' m -> length out' <= k + length out -> pays k out m.
Proof.
  intros H Hl r. destruct (H r) as [? Hp]. split; [done|]. intros o Ho. specialize (Hp o Ho). lia.
Qed.

Lemma append_utf8_pays out cp : pays 4 out (lift (append_utf8 out cp)).
Proof.
  intros r. split; [done|]. cbn. intros out'. unfold append_utf8.
  repeat case_match; intros [= <-]; rewrite length_app; cbn; lia.
Qed.

Lemma pays_unicode_escape out : pays 0 out (unicode_escape out).
Proof.
  unfold unicode_escape. apply (pays_bind 4); [apply reads_unicode_unit|]. intros first.
  apply (pays_bind 0); [|intros cp; apply append_utf8_pays].
  apply reads_if; [|auto with reads].
  apply reads_bind0; [auto with reads|]. intros b. apply reads_if; [auto with reads|].
  apply reads_bind0; [auto with reads|]. intros c0. apply reads_decide; [auto with reads|].
  apply reads_bind0; [auto with reads|]. intros c1. apply reads_decide; [auto with reads|].
  apply reads_bind0; [apply (reads_weaken 2); [auto with reads|lia]|]. intros _.
  apply reads_bind0; [apply (reads_weaken 4); [apply reads_unicode_unit|lia]|]. intros second.
  auto with reads.
Qed.

Lemma pays_string_escape out : pays 0 out (string_escape out).
Proof.
  unfold string_escape. apply (pays_bind 0); [auto with reads|]. intros e.
  apply pays_if; [apply pays_throw|]. apply (pays_bind 1); [auto with reads|]. intros esc.
  destruct esc; try apply pays_throw;
    first [apply pays_ret; rewrite length_app; cbn; lia
          |apply (pays_weaken _ _ out); [apply pays_unicode_escape|lia]].
Qed.

Lemma pays_string_loop fuel out : pays 0 out (string_loop fuel out).
Proof.
  revert out. induction fuel as [|fuel IH]; intros out; [by intros r|]. cbn [string_loop].
  apply (pays_bind 0); [auto with reads|]. intros e.
  apply pays_if; [apply pays_throw|]. apply (pays_bind 1); [auto with reads|]. intros ch.
  apply pays_decide; [apply pays_ret; lia|]. apply pays_decide.
  - apply pays_if; [apply pays_throw|]. eapply pays_weaken; [apply IH|]. rewrite length_app. cbn. lia.
  - apply pays_bind_out; [|done]. eapply pays_weaken; [apply pays_string_escape|lia].
Qed.

Lemma pays_string : pays 0 [] string.
Proof.
  unfold string. apply (pays_bind 0); [apply reads_expect|]. intros _.
  apply (pays_bind 0); [apply reads_get|]. intros r. apply pays_string_loop.
Qed.

(** ** Members of messages *)

Lemma reads_string : reads 0 string.
Proof.
  intros r. destruct (pays_string r) as [? Hp]. split; [done|]. intros a Ha. specialize (Hp a Ha).
  cbn in Hp. lia.
Qed.

Lemma reads_key k : reads 0 (key k).
Proof.
  unfold key. apply reads_bind0; [apply reads_string|]. intros s.
  apply reads_decide; [auto with reads|apply reads_expect].
Qed.

Lemma reads_integer_loop fuel v : reads 0 (integer_loop fuel v).
Proof.
  revert v. induction fuel as [|fuel IH]; intros v; [by apply reads_lift|]. cbn [integer_loop].
  apply reads_bind0; [auto with reads|]. intros e. apply reads_if; [auto with reads|].
  apply reads_bind0; [auto with reads|]. intros c. apply reads_if; [|auto with reads].
  apply reads_bind0; [apply (reads_weaken 1); [auto with reads|lia]|]. intros _.
  apply reads_bind0; [auto with reads|]. intros tens.
  apply reads_bind0; [auto with reads|]. done.
Qed.

Lemma reads_integer : reads 0 integer.
Proof.
  unfold integer. apply reads_bind0; [auto with reads|]. intros e.
  apply reads_if; [auto with reads|]. apply reads_bind0; [auto with reads|]. intros c.
  apply reads_bind0.
  { apply reads_if; [apply (reads_weaken 1); [auto with reads|lia]|auto with reads]. }
  intros _. apply reads_bind0; [auto with reads|]. intros e2. apply reads_if; [auto with reads|].
  apply reads_bind0; [auto with reads|]. intros c2. apply reads_if; [auto with reads|].
  apply reads_bind0; [auto with reads|]. intros r.
  apply reads_bind0; [apply reads_integer_loop|]. intros v. auto with reads.
Qed.

(** The reader is inside of [json]. *)
Definition inside (json : bytes) (r : FlatJsonReader.t) : Prop :=
  json_ r = json /\ pos_ r <= length json.

Lemma inside_keeps {A} json (m : M t A) :
  safe m -> reads 0 m -> keeps True True (inside json) m (fun _ => True).
Proof.
  intros Hs Hr r [Hj Hp]. destruct (Hr r) as [Hj' _].
  destruct (Hs (take (pos_ r) json) (drop (pos_ r) json)) as (o & pre & t' & E & _).
  assert (rd (take (pos_ r) json) (drop (pos_ r) json) = r) as Er.
  { unfold rd. rewrite take_drop, length_take. destruct r as [j i]. cbn in Hj, Hp |- *. subst.
    f_equal. lia. }
  rewrite Er in E. rewrite E in Hj' |- *. cbn in Hj'.
  assert (inside json (rd pre t')) as Hi.
  { split; [by rewrite <-Hj, <-Hj'|]. cbn. rewrite <-Hj, <-Hj', length_app. lia. }
  by destruct o.
Qed.

Lemma inside_string json :
  keeps True True (inside json) string (fun s => length s <= length json).
Proof.
  intros r Hr. pose proof (inside_keeps json string safe_string reads_string r Hr) as H.
  destruct (pays_string r) as [_ Hp]. destruct (string r) as [[s| | |] r']; try done.
  destruct H as [_ [? ?]]. specialize (Hp s eq_refl). cbn in Hp. split; [lia|done].
Qed.

Lemma inside_expect json c : keeps True True (inside json) (expect c) (fun _ => True).
Proof. apply inside_keeps; [apply safe_expect|apply reads_expect]. Qed.
Lemma inside_key json k : keeps True True (inside json) (key k) (fun _ => True).
Proof. apply inside_keeps; [apply safe_key|apply reads_key]. Qed.
Lemma inside_integer json : keeps True True (inside json) integer (fun _ => True).
Proof. apply inside_keeps; [apply safe_integer|apply reads_integer]. Qed.
Lemma inside_get json : keeps True True (inside json) get (fun _ => True).
Proof. by intros r. Qed.

Create HintDb inside.
#[export] Hint Resolve inside_string inside_expect inside_key inside_integer inside_get
  keeps_throw : inside.

Ltac inside_reads :=
  repeat (eapply keeps_bind; [solve [eauto with inside nocore]|]; cbv beta; intros ? ?);
  apply keeps_if; intros _; [apply keeps_throw|apply keeps_ret].

Lemma read_job_result_inside json :
  keeps True True (inside json) read_job_result
    (fun res => length (JobResult.signature res) <= length json).
Proof. unfold read_job_result. inside_reads. done. Qed.

Lemma read_failure_notice_inside json :
  keeps True True (inside json) read_failure_notice
    (fun n => length (FailureNotice.signature n) <= length json).
Proof. unfold read_failure_notice. inside_reads. done. Qed.

(** The signature of a parsed message is no longer than its envelope. *)
Lemma parsed_result_signature json r :
  parse_job_result_envelope_json json = Ret r ->
  length (JobResult.signature r) <= length json.
Proof.
  unfold parse_job_result_envelope_json. destruct (split_envelope json) as [[p ty]| | |] eqn:E; try done.
  cbn [mbind outcome_bind]. case_decide; [done|]. intros Hr.
  apply split_envelope_inv in E as [Ej _].
  assert (length p <= length json) by (rewrite Ej, !length_app; lia).
  pose proof (read_job_result_inside p (init p) ltac:(split; [done|cbn; lia])) as H1.
  destruct (read_job_result (init p)) as [o r']. cbn in Hr. subst o. destruct H1. lia.
Qed.

Lemma parsed_notice_signature json n :
  parse_failure_notice_envelope_json json = Ret n ->
  length (FailureNotice.signature n) <= length json.
Proof.
  unfold parse_failure_notice_envelope_json.
  destruct (split_envelope json) as [[p ty]| | |] eqn:E; try done.
  cbn [mbind outcome_bind]. case_decide; [done|]. intros Hr.
  apply split_envelope_inv in E as [Ej _].
  assert (length p <= length json) by (rewrite Ej, !length_app; lia).
  pose proof (read_failure_notice_inside p (init p) ltac:(split; [done|cbn; lia])) as H1.
  destruct (read_failure_notice (init p)) as [o r']. cbn in Hr. subst o. destruct H1. lia.
Qed.
