(* ===== verification/Framing.v ===== *)
(** * Framing (cpp/include/ma2a/framing.hpp)

    A frame is a 4-byte big-endian length and a body of 1 byte to 1 MiB. *)
From S2P Require Import Prelude Reader.

Definition kMaxFrameBytes : Z := 1024 * 1024.

(** [static_cast<std::uint8_t>((n >> k) & 0xff)] *)
Definition header_byte (n k : Z) : byte := byte_of_Z (Z.land (Z.shiftr n k) 0xff).

Definition encode_frame (payload : bytes) : outcome bytes :=
  if bool_decide (payload = []) then Throw (invalid_argument "empty frame") else
  if (kMaxFrameBytes <? Z.of_nat (length payload))%Z then Throw (length_error "frame too large") else
  let n := to_uint32 (Z.of_nat (length payload)) in
  Ret ([header_byte n 24; header_byte n 16; header_byte n 8; byte_of_Z (Z.land n 0xff)] ++ payload).

(** The header is a [std::array] of four bytes. *)
Definition header : Type := byte * byte * byte * byte.

Definition decode_frame_size (h : header) : outcome Z :=
  let '(h0, h1, h2, h3) := h in
  let n := Z.lor (Z.lor (Z.lor (to_uint32 (Z.shiftl (uchar h0) 24))
                               (to_uint32 (Z.shiftl (uchar h1) 16)))
                        (to_uint32 (Z.shiftl (uchar h2) 8)))
                 (uchar h3) in
  if (n =? 0)%Z then Throw (invalid_argument "empty frame") else
  if (kMaxFrameBytes <? n)%Z then Throw (length_error "frame too large") else
  Ret n.

Definition decode_complete_frame (frame : bytes) : outcome bytes :=
  match frame with
  | h0 :: h1 :: h2 :: h3 :: body =>
      n ← decode_frame_size (h0, h1, h2, h3);
      if negb (Z.of_nat (length frame) =? 4 + n)%Z
      then Throw (invalid_argument "frame size mismatch") else
      Ret body
  | _ => Throw (invalid_argument "incomplete frame header")
  end.

(** ** The header in arithmetic *)

Definition big_endian (h : header) : Z :=
  let '(h0, h1, h2, h3) := h in
  (((uchar h0 * 256 + uchar h1) * 256 + uchar h2) * 256 + uchar h3)%Z.

Lemma big_endian_range h : (0 <= big_endian h < 2 ^ 32)%Z.
Proof.
  destruct h as [[[h0 h1] h2] h3]. unfold big_endian.
  pose proof (uchar_range h0). pose proof (uchar_range h1).
  pose proof (uchar_range h2). pose proof (uchar_range h3). lia.
Qed.

Lemma header_or h0 h1 h2 h3 :
  Z.lor (Z.lor (Z.lor (to_uint32 (Z.shiftl (uchar h0) 24)) (to_uint32 (Z.shiftl (uchar h1) 16)))
               (to_uint32 (Z.shiftl (uchar h2) 8))) (uchar h3)
  = big_endian (h0, h1, h2, h3).
Proof.
  pose proof (uchar_range h0). pose proof (uchar_range h1).
  pose proof (uchar_range h2). pose proof (uchar_range h3).
  unfold to_uint32, big_endian.
  rewrite !Z.mod_small by (rewrite Z.shiftl_mul_pow2 by lia; lia).
  rewrite lor_add by (rewrite ?Z.shiftl_mul_pow2 by lia; lia).
  rewrite (Z.shiftl_mul_pow2 (uchar h1)), (Z.shiftl_mul_pow2 (uchar h2)) by lia.
  replace (_ + _)%Z with (Z.shiftl (uchar h0 * 256 + uchar h1) 16)
    by (rewrite Z.shiftl_mul_pow2; lia).
  rewrite lor_add by lia.
  replace (_ + _)%Z with (Z.shiftl ((uchar h0 * 256 + uchar h1) * 256 + uchar h2) 8)
    by (rewrite Z.shiftl_mul_pow2; lia).
  rewrite lor_add by lia. lia.
Qed.

Lemma decode_frame_size_spec h :
  decode_frame_size h
  = if (big_endian h =? 0)%Z then Throw (invalid_argument "empty frame")
    else if (kMaxFrameBytes <? big_endian h)%Z then Throw (length_error "frame too large")
    else Ret (big_endian h).
Proof. destruct h as [[[h0 h1] h2] h3]. unfold decode_frame_size. by rewrite header_or. Qed.

Definition header_of (n : Z) : header :=
  (header_byte n 24, header_byte n 16, header_byte n 8, byte_of_Z (Z.land n 0xff)).

Lemma big_endian_header_of n : (0 <= n < 2 ^ 32)%Z -> big_endian (header_of n) = n.
Proof.
  intros H. unfold big_endian, header_of, header_byte.
  rewrite !uchar_byte_of_Z. change 0xff%Z with (Z.ones 8). rewrite !Z.land_ones by lia.
  rewrite !Z.shiftr_div_pow2 by lia.
  change (2 ^ 24)%Z with 16777216%Z. change (2 ^ 16)%Z with 65536%Z. change (2 ^ 8)%Z with 256%Z.
  zdiv.
Qed.

(** The bytes of a header. *)
Definition header_bytes (h : header) : bytes := let '(h0, h1, h2, h3) := h in [h0; h1; h2; h3].

Lemma header_bytes_big_endian n h : n = big_endian h -> header_bytes (header_of n) = header_bytes h.
Proof.
  intros ->. destruct h as [[[h0 h1] h2] h3].
  pose proof (uchar_range h0). pose proof (uchar_range h1).
  pose proof (uchar_range h2). pose proof (uchar_range h3).
  unfold header_of, header_byte, header_bytes, big_endian.
  change 0xff%Z with (Z.ones 8). rewrite !Z.land_ones, !Z.shiftr_div_pow2 by lia.
  change (2 ^ 24)%Z with 16777216%Z. change (2 ^ 16)%Z with 65536%Z. change (2 ^ 8)%Z with 256%Z.
  repeat f_equal; apply uchar_inj; rewrite uchar_byte_of_Z; zdiv.
Qed.

(** A payload that fits a frame. *)
Definition frameable (payload : bytes) : Prop :=
  payload <> [] /\ (Z.of_nat (length payload) <= kMaxFrameBytes)%Z.

Lemma encode_frame_ok payload :
  frameable payload ->
  encode_frame payload = Ret (header_bytes (header_of (Z.of_nat (length payload))) ++ payload).
Proof.
  intros [Hn Hl]. unfold encode_frame. rewrite bool_decide_eq_false_2 by done.
  rewrite (proj2 (Z.ltb_ge kMaxFrameBytes _)) by lia.
  unfold to_uint32. rewrite Z.mod_small by (unfold kMaxFrameBytes in Hl; lia). done.
Qed.

Lemma decode_frame_size_header payload :
  frameable payload ->
  decode_frame_size (header_of (Z.of_nat (length payload))) = Ret (Z.of_nat (length payload)).
Proof.
  intros [Hn Hl]. rewrite decode_frame_size_spec, big_endian_header_of
    by (unfold kMaxFrameBytes in Hl; lia).
  assert (length payload <> 0) by (by destruct payload).
  rewrite (proj2 (Z.eqb_neq _ 0)), (proj2 (Z.ltb_ge kMaxFrameBytes _)) by lia. done.
Qed.

Lemma decode_complete_frame_header h body :
  decode_complete_frame (header_bytes h ++ body)
  = (n ← decode_frame_size h;
     if negb (4 + Z.of_nat (length body) =? 4 + n)%Z
     then Throw (invalid_argument "frame size mismatch") else Ret body).
Proof.
  destruct h as [[[h0 h1] h2] h3]. cbn [header_bytes app decode_complete_frame].
  destruct (decode_frame_size _) as [n| | |]; try done. cbn [mbind outcome_bind length].
  by replace (Z.of_nat (S (S (S (S (length body)))))) with (4 + Z.of_nat (length body))%Z by lia.
Qed.

Lemma decode_complete_frame_encoded payload :
  frameable payload ->
  decode_complete_frame (header_bytes (header_of (Z.of_nat (length payload))) ++ payload)
  = Ret payload.
Proof.
  intros H. rewrite decode_complete_frame_header, decode_frame_size_header by done.
  cbn [mbind outcome_bind]. by rewrite Z.eqb_refl.
Qed.

Lemma frameable_dec payload :
  frameable payload \/ payload = [] \/ (kMaxFrameBytes < Z.of_nat (length payload))%Z.
Proof. unfold frameable. destruct payload; [tauto|]. cbn [length]. destruct (Z.le_gt_cases
  (Z.of_nat (S (length payload))) kMaxFrameBytes); [left; split; [done|lia]|tauto]. Qed.

(** Encoding gives a frame of a frameable payload, or throws. *)
Lemma encode_frame_cases payload :
  (frameable payload
   /\ encode_frame payload = Ret (header_bytes (header_of (Z.of_nat (length payload))) ++ payload))
  \/ (payload = [] /\ encode_frame payload = Throw (invalid_argument "empty frame"))
  \/ ((kMaxFrameBytes < Z.of_nat (length payload))%Z
      /\ encode_frame payload = Throw (length_error "frame too large")).
Proof.
  destruct (frameable_dec payload) as [H|[->|H]].
  - left. split; [done|by apply encode_frame_ok].
  - by right; left.
  - right; right. split; [done|]. unfold encode_frame.
    rewrite bool_decide_eq_false_2 by (by intros ->).
    by rewrite (proj2 (Z.ltb_lt kMaxFrameBytes _)) by lia.
Qed.

Lemma encode_frame_ret payload frame :
  encode_frame payload = Ret frame ->
  frameable payload /\ frame = header_bytes (header_of (Z.of_nat (length payload))) ++ payload.
Proof.
  destruct (encode_frame_cases payload) as [(? & ->)|[(_ & ->)|(_ & ->)]]; [|done..].
  by intros [= <-].
Qed.

Lemma decode_complete_frame_iff (frame payload : bytes) :
  decode_complete_frame frame = Ret payload <-> encode_frame payload = Ret frame.
Proof.
  split.
  - destruct frame as [|h0 [|h1 [|h2 [|h3 body]]]]; try done.
    change (h0 :: h1 :: h2 :: h3 :: body) with (header_bytes (h0, h1, h2, h3) ++ body).
    set (h := (h0, h1, h2, h3)). rewrite decode_complete_frame_header, decode_frame_size_spec.
    intros H. destruct (Z.eqb_spec (big_endian h) 0); [done|].
    destruct (Z.ltb_spec kMaxFrameBytes (big_endian h)); [done|]. cbn [mbind outcome_bind] in H.
    destruct (Z.eqb_spec (4 + Z.of_nat (length body)) (4 + big_endian h)); [|done].
    injection H as <-. rewrite encode_frame_ok.
    + do 2 f_equal. by apply header_bytes_big_endian; lia.
    + split; [intros ->; cbn in *; lia|lia].
  - intros (Hf & ->)%encode_frame_ret. by apply decode_complete_frame_encoded.
Qed.

(** ** Properties *)

(** [encode_frame] on every input, and its round trip.  A payload of 1
    byte to 1 MiB becomes a frame of four more bytes that
    [decode_complete_frame] maps back to it; an empty payload and one above
    1 MiB are refused with the two exceptions of the code. *)
Lemma encode_frame_round_trip (payload : bytes) :
  (exists frame, encode_frame payload = Ret frame /\ frameable payload
     /\ length frame = 4 + length payload /\ decode_complete_frame frame = Ret payload)
  \/ (payload = [] /\ encode_frame payload = Throw (invalid_argument "empty frame"))
  \/ ((kMaxFrameBytes < Z.of_nat (length payload))%Z
      /\ encode_frame payload = Throw (length_error "frame too large")).
Proof.
  destruct (encode_frame_cases payload) as [(H & E)|H]; [left|by right].
  eexists. split_and!; [done..|by rewrite length_app|by apply decode_complete_frame_encoded].
Qed.

(** C24: [decode_complete_frame] accepts exactly the frames the encoder makes:
    it returns a payload for a byte string if and only if that byte string is
    the encoding of the payload.  So no two frames carry the same payload, a
    truncated or extended frame is refused, and no accepted payload is empty
    or above 1 MiB. *)
Theorem decode_complete_frame_exact (frame payload : bytes) :
  decode_complete_frame frame = Ret payload <-> encode_frame payload = Ret frame.
Proof. apply decode_complete_frame_iff. Qed.
