(* ===== verification/Job.v ===== *)
(** * Job validation and reference execution (cpp/include/ma2a/job.hpp) *)
From S2P Require Import Prelude Contracts.

Definition empty (s : bytes) : bool := bool_decide (s = []).

Definition validate_job_request (request : JobRequest.t) (now : Z) : outcome unit :=
  if empty (JobRequest.protocol_version request) || empty (JobRequest.message_id request)
     || empty (JobRequest.request_id request) || empty (JobRequest.sender_node_id request)
     || empty (JobRequest.target_node_id request) || empty (JobRequest.operation request)
  then Throw (invalid_argument "missing job request field") else
  if bool_decide (JobRequest.operation request <> str "PING")
     && bool_decide (JobRequest.operation request <> str "ECHO")
  then Throw (invalid_argument "unsupported job operation") else
  if (JobRequest.issued_at request <? 0)%Z
     || (JobRequest.expires_at request <=? JobRequest.issued_at request)%Z
  then Throw (invalid_argument "invalid job validity window") else
  if (0 <=? now)%Z
     && negb ((JobRequest.issued_at request <=? now)%Z && (now <=? JobRequest.expires_at request)%Z)
  then Throw (invalid_argument "job request expired or not yet valid") else
  if bool_decide (JobRequest.signature_algorithm request <> str "Ed25519")
  then Throw (invalid_argument "unsupported signature algorithm") else
  Ret tt.

(** The default argument of [now]. *)
Definition now_unchecked : Z := -1.

Definition validate_job_result (result : JobResult.t) : outcome unit :=
  if empty (JobResult.protocol_version result) || empty (JobResult.message_id result)
     || empty (JobResult.request_id result) || empty (JobResult.responder_node_id result)
     || empty (JobResult.recipient_node_id result) || empty (JobResult.status result)
  then Throw (invalid_argument "missing job result field") else
  if bool_decide (JobResult.status result <> str "OK")
     && bool_decide (JobResult.status result <> str "ERROR")
  then Throw (invalid_argument "invalid job result status") else
  if (JobResult.completed_at result <? 0)%Z
  then Throw (invalid_argument "negative completion time") else
  if bool_decide (JobResult.signature_algorithm result <> str "Ed25519")
  then Throw (invalid_argument "unsupported signature algorithm") else
  Ret tt.

Definition execute_reference_job (request : JobRequest.t) : bytes * bytes :=
  if bool_decide (JobRequest.operation request = str "PING") then (str "OK", str "PONG")
  else if bool_decide (JobRequest.operation request = str "ECHO")
  then (str "OK", JobRequest.payload request)
  else (str "ERROR", str "unsupported_operation").

(** ** The contract *)

(** A request a node accepts, without a clock. *)
Record request_contract (r : JobRequest.t) : Prop := {
  rc_fields : Forall (fun s => s <> [])
    [JobRequest.protocol_version r; JobRequest.message_id r; JobRequest.request_id r;
     JobRequest.sender_node_id r; JobRequest.target_node_id r];
  rc_operation : JobRequest.operation r = str "PING" \/ JobRequest.operation r = str "ECHO";
  rc_window : (0 <= JobRequest.issued_at r < JobRequest.expires_at r)%Z;
  rc_algorithm : JobRequest.signature_algorithm r = str "Ed25519";
}.

(** A clock reading the request is valid at; a negative reading is no clock. *)
Definition in_window (r : JobRequest.t) (now : Z) : Prop :=
  (now < 0 \/ JobRequest.issued_at r <= now <= JobRequest.expires_at r)%Z.

Record result_contract (r : JobResult.t) : Prop := {
  sc_fields : Forall (fun s => s <> [])
    [JobResult.protocol_version r; JobResult.message_id r; JobResult.request_id r;
     JobResult.responder_node_id r; JobResult.recipient_node_id r];
  sc_status : JobResult.status r = str "OK" \/ JobResult.status r = str "ERROR";
  sc_time : (0 <= JobResult.completed_at r)%Z;
  sc_algorithm : JobResult.signature_algorithm r = str "Ed25519";
}.

Lemma empty_spec s : reflect (s = []) (empty s).
Proof. apply bool_decide_reflect. Qed.

Lemma empty_false s : empty s = false <-> s <> [].
Proof. by destruct (empty_spec s). Qed.

(** A guard that throws passes exactly when its test is false. *)
Lemma guard_passes {A} (b : bool) e (o : outcome A) a :
  (if b then Throw e else o) = Ret a <-> b = false /\ o = Ret a.
Proof. destruct b; split; [done|by intros []|done|by intros []]. Qed.

(** Rewrites a passing sequence of guards into the negation of its tests. *)
Ltac guards :=
  rewrite !guard_passes, !orb_false_iff, !andb_false_iff, !empty_false, ?negb_false_iff,
    ?andb_true_iff, !bool_decide_eq_false, ?Z.ltb_ge, ?Z.leb_gt, ?Z.leb_le.

Definition rejects (o : outcome unit) : Prop := exists w, o = Throw (invalid_argument w).

(** One of two literals. *)
Lemma one_of (s a b : bytes) : (~ s <> a \/ ~ s <> b) <-> (s = a \/ s = b).
Proof. destruct (decide (s = a)), (decide (s = b)); tauto. Qed.

Lemma validate_job_request_accepts r now :
  validate_job_request r now = Ret tt <-> request_contract r /\ in_window r now.
Proof.
  unfold validate_job_request, in_window. guards. rewrite one_of. split.
  - intros (Hf & Ho & Hw & Hn & Ha & _). split; [constructor|]; try done; try lia.
    + rewrite !Forall_cons, Forall_nil. tauto.
    + by apply dec_stable in Ha.
  - intros [[Hf Ho Hw Ha] Hn]. rewrite !Forall_cons in Hf.
    assert (JobRequest.operation r <> []) by (by destruct Ho as [-> | ->]).
    split_and!; try tauto; lia.
Qed.

Lemma validate_job_request_rejects r now :
  validate_job_request r now = Ret tt \/ rejects (validate_job_request r now).
Proof. unfold validate_job_request, rejects. repeat case_match; eauto. Qed.

Lemma validate_job_result_accepts r :
  validate_job_result r = Ret tt <-> result_contract r.
Proof.
  unfold validate_job_result. guards. rewrite one_of. split.
  - intros (Hf & Ho & Hw & Ha & _). constructor; try done.
    + rewrite !Forall_cons, Forall_nil. tauto.
    + by apply dec_stable in Ha.
  - intros [Hf Ho Hw Ha]. rewrite !Forall_cons in Hf.
    assert (JobResult.status r <> []) by (by destruct Ho as [-> | ->]).
    split_and!; try tauto; lia.
Qed.

Lemma validate_job_result_rejects r :
  validate_job_result r = Ret tt \/ rejects (validate_job_result r).
Proof. unfold validate_job_result, rejects. repeat case_match; eauto. Qed.

(** ** Properties *)

(** Validation is exactly the contract.  [validate_job_request] returns
    for the requests with all required fields, a reference operation, a
    non-empty validity window that contains the clock (if one is given) and
    the algorithm Ed25519, and throws [std::invalid_argument] for every other;
    [validate_job_result] does the same for the contract of results. *)
Lemma validation_is_contract (q : JobRequest.t) (now : Z) (r : JobResult.t) :
  (validate_job_request q now = Ret tt <-> request_contract q /\ in_window q now)
  /\ (validate_job_request q now = Ret tt \/ rejects (validate_job_request q now))
  /\ (validate_job_result r = Ret tt <-> result_contract r)
  /\ (validate_job_result r = Ret tt \/ rejects (validate_job_result r)).
Proof.
  split_and!; auto using validate_job_request_accepts, validate_job_request_rejects,
    validate_job_result_accepts, validate_job_result_rejects.
Qed.

(** A validated request always succeeds in the reference executor: a
    [PING] with [PONG], an [ECHO] with its own payload; the error result is
    only reached by requests that validation refuses. *)
Lemma validated_request_executes (r : JobRequest.t) (now : Z)
    (H : validate_job_request r now = Ret tt) :
  execute_reference_job r
  = (str "OK", if bool_decide (JobRequest.operation r = str "PING") then str "PONG"
               else JobRequest.payload r).
Proof.
  apply validate_job_request_accepts in H as [[_ Ho _ _] _].
  unfold execute_reference_job. destruct Ho as [-> | ->]; reflexivity.
Qed.

Definition sample_ping : JobRequest.t := {|
  JobRequest.protocol_version := str "0.2"; JobRequest.message_id := str "m";
  JobRequest.request_id := str "j"; JobRequest.sender_node_id := str "node-a";
  JobRequest.target_node_id := str "node-b"; JobRequest.organization_id := [];
  JobRequest.operation := str "PING"; JobRequest.payload := [];
  JobRequest.issued_at := 100; JobRequest.expires_at := 200;
  JobRequest.signature_algorithm := str "Ed25519"; JobRequest.signature := [] |}.

Example sample_ping_executes :
  execute_reference_job sample_ping = (str "OK", str "PONG").
Proof. apply (validated_request_executes sample_ping 150). reflexivity. Qed.
