(* ===== verification/Crypto.v ===== *)
(** * Base64 and Ed25519 (cpp/include/ma2a/crypto.hpp)

    OpenSSL is not part of the repository: the class [OpenSSL] lists the
    functions of it the code calls, over the world [W] they run in, and the
    class [OpenSSLSpec] states what their documentation promises.  The code
    of crypto.hpp is modelled against the first; theorems about values use
    the second. *)
From S2P Require Import Prelude.

(** ** The interface to OpenSSL *)

Class OpenSSL (W : Type) : Type := {
  EVP_PKEY : Type;
  EVP_MD_CTX : Type;
  (** [EVP_EncodeBlock(t, f, n)]: the return value and the characters written,
      the terminating NUL aside; [EVP_DecodeBlock] likewise. *)
  EVP_EncodeBlock : bytes -> Z -> Z * bytes;
  EVP_DecodeBlock : bytes -> Z -> Z * bytes;
  (** A null pointer is [None]. *)
  EVP_MD_CTX_new : W -> option EVP_MD_CTX * W;
  EVP_MD_CTX_free : EVP_MD_CTX -> W -> W;
  EVP_PKEY_new_raw_private_key : bytes -> W -> option EVP_PKEY * W;
  EVP_PKEY_new_raw_public_key : bytes -> W -> option EVP_PKEY * W;
  EVP_DigestSignInit : EVP_MD_CTX -> option EVP_PKEY -> W -> Z * W;
  (** With a null signature buffer: the return value and the length. *)
  EVP_DigestSign_size : EVP_MD_CTX -> bytes -> W -> (Z * nat) * W;
  (** With a buffer of the given size: the return value and the bytes written. *)
  EVP_DigestSign : EVP_MD_CTX -> nat -> bytes -> W -> (Z * bytes) * W;
  EVP_DigestVerifyInit : EVP_MD_CTX -> option EVP_PKEY -> W -> Z * W;
  (** Signature, then message. *)
  EVP_DigestVerify : EVP_MD_CTX -> bytes -> bytes -> W -> Z * W;
}.

(** ** Buffers *)

(** Storing [data] at the start of a buffer. *)
Definition store (buf data : bytes) : outcome bytes :=
  if length buf <? length data then Undef out_of_range
  else Ret (data ++ drop (length data) buf).

Definition PTRDIFF_MAX : Z := 2 ^ 63 - 1.

(** [v.resize(n)] for a [std::size_t] [n]. *)
Definition resize (n : Z) (v : bytes) : outcome bytes :=
  if (PTRDIFF_MAX <? n)%Z then Throw (length_error "vector::_M_default_append")
  else Ret (take (Z.to_nat n) v ++ replicate (Z.to_nat n - length v) x00).

(** [--n] of a [std::size_t]. *)
Definition size_dec (n : Z) : Z := ((n - 1) mod 2 ^ 64)%Z.

(** [std::replace(s.begin(), s.end(), old, new)] *)
Definition replace_char (old new : byte) (s : bytes) : bytes :=
  map (fun c => if decide (c = old) then new else c) s.

Section crypto.
Context {W : Type} `{O : OpenSSL W}.

Definition base64url_encode (input : bytes) : outcome bytes :=
  if decide (input = []) then Ret [] else
  let output := replicate (4 * ((length input + 2) / 3)) x00 in
  let '(len, written) := EVP_EncodeBlock input (to_int32 (Z.of_nat (length input))) in
  output ← store output written;
  if (len <? 0)%Z then Throw (runtime_error "base64 encode failed") else
  output ← resize len output;
  Ret (replace_char x2f x5f (replace_char x2b x2d output)).

Definition base64url_decode (input : bytes) : outcome bytes :=
  let input := replace_char x5f x2f (replace_char x2d x2b input) in
  if negb (length input mod 4 =? 0) then Throw (invalid_argument "invalid base64 length") else
  let output := replicate (3 * (length input / 4)) x00 in
  let '(len, written) := EVP_DecodeBlock input (to_int32 (Z.of_nat (length input))) in
  output ← store output written;
  if (len <? 0)%Z then Throw (invalid_argument "invalid base64") else
  let actual := len in
  let actual := if decide (input <> [] /\ input !! (length input - 1) = Some x3d)
                then size_dec actual else actual in
  let actual := if decide (2 <= length input /\ input !! (length input - 2) = Some x3d)
                then size_dec actual else actual in
  resize actual output.

(** *** Keys *)

Definition ed25519_private_key_from_seed (seed : bytes) : M W EVP_PKEY :=
  raw ← call (EVP_PKEY_new_raw_private_key seed);
  match raw with
  | None => throw (runtime_error "failed to create Ed25519 private key")
  | Some key => mret key
  end.

Definition ed25519_public_key_from_raw (key : bytes) : M W EVP_PKEY :=
  raw ← call (EVP_PKEY_new_raw_public_key key);
  match raw with
  | None => throw (runtime_error "failed to create Ed25519 public key")
  | Some key => mret key
  end.

(** *** Signatures *)

(** A scope that owns a digest context ([EvpMdCtxPtr]). *)
Definition with_md_ctx {A} (body : EVP_MD_CTX -> M W A) : M W A :=
  ctx ← call EVP_MD_CTX_new;
  match ctx with
  | None => throw (runtime_error "failed to allocate digest context")
  | Some ctx => with_destructor (EVP_MD_CTX_free ctx) (body ctx)
  end.

Definition ed25519_sign (private_key : option EVP_PKEY) (message : bytes) : M W bytes :=
  with_md_ctx (fun ctx =>
    rc ← call (EVP_DigestSignInit ctx private_key);
    if negb (rc =? 1)%Z then throw (runtime_error "Ed25519 sign init failed") else
    sizing ← call (EVP_DigestSign_size ctx message);
    let '(rc, signature_len) := sizing in
    if negb (rc =? 1)%Z then throw (runtime_error "Ed25519 signature sizing failed") else
    let signature := replicate signature_len x00 in
    signing ← call (EVP_DigestSign ctx signature_len message);
    let '(rc, written) := signing in
    signature ← lift (store signature written);
    if negb (rc =? 1)%Z then throw (runtime_error "Ed25519 signing failed") else
    lift (resize (Z.of_nat (length written)) signature)).

Definition ed25519_verify (public_key : option EVP_PKEY) (message signature : bytes) : M W bool :=
  with_md_ctx (fun ctx =>
    rc ← call (EVP_DigestVerifyInit ctx public_key);
    if negb (rc =? 1)%Z then throw (runtime_error "Ed25519 verify init failed") else
    rc ← call (EVP_DigestVerify ctx signature message);
    mret (rc =? 1)%Z).
End crypto.
