(* ===== verification/CryptoSpec.v ===== *)
(** * What OpenSSL promises, and what crypto.hpp makes of it

    [OpenSSLSpec] states the documented behaviour of the functions of
    [OpenSSL]: base64 as in RFC 4648 with the padding decoded as zero bytes,
    and a deterministic signature scheme (Ed25519) driven through digest
    contexts.  Nothing is assumed about whether calls succeed. *)
From S2P Require Import Prelude Crypto.

(** ** Base64 (RFC 4648, section 4) *)

Definition char64 (i : Z) : byte :=
  byte_of_Z (if i <? 26 then 65 + i
             else if i <? 52 then 97 + (i - 26)
             else if i <? 62 then 48 + (i - 52)
             else if i =? 62 then 43 else 47)%Z.

Definition quartet (n : Z) : bytes :=
  map char64 [n / 262144; n / 4096 mod 64; n / 64 mod 64; n mod 64]%Z.

Fixpoint base64 (d : bytes) : bytes :=
  match d with
  | [] => []
  | [a] => take 2 (quartet (uchar a * 65536)) ++ [x3d; x3d]
  | [a; b] => take 3 (quartet (uchar a * 65536 + uchar b * 256)) ++ [x3d]
  | a :: b :: c :: d => quartet (uchar a * 65536 + uchar b * 256 + uchar c) ++ base64 d
  end.

Lemma bytes_ind3 (P : bytes -> Prop) :
  P [] -> (forall a, P [a]) -> (forall a b, P [a; b]) ->
  (forall a b c d, P d -> P (a :: b :: c :: d)) -> forall d, P d.
Proof.
  intros H0 H1 H2 H3. fix IH 1. intros [|a [|b [|c d]]]; [done|done|done|]. apply H3, IH.
Qed.

Lemma length_base64 d : length (base64 d) = 4 * ((length d + 2) / 3).
Proof.
  induction d as [| | |a b c d IH] using bytes_ind3; try done.
  cbn [base64 length]. rewrite length_app, IH. cbn [quartet map length].
  replace (S (S (S (length d))) + 2) with (length d + 2 + 1 * 3) by lia.
  rewrite Nat.div_add by lia. lia.
Qed.

(** The padding tells the length modulo three. *)
Lemma back_base64_app u d : d <> [] -> (u ++ base64 d) !! (length (u ++ base64 d) - 1)
  = base64 d !! (length (base64 d) - 1) /\ (u ++ base64 d) !! (length (u ++ base64 d) - 2)
  = base64 d !! (length (base64 d) - 2).
Proof.
  intros H. rewrite length_app.
  assert (4 <= length (base64 d)).
  { rewrite length_base64. destruct d; [done|]. cbn [length].
    assert (1 <= (S (length d) + 2) / 3) by (apply Nat.div_le_lower_bound; lia). lia. }
  rewrite !lookup_app_r by lia. split; f_equal; lia.
Qed.

Lemma char64_not_special i :
  (0 <= i < 64)%Z -> char64 i <> x3d /\ char64 i <> x2d /\ char64 i <> x5f.
Proof.
  intros H. assert (Z.to_nat i < 64) as Hn by lia. rewrite <-(Z2Nat.id i) by lia.
  generalize dependent (Z.to_nat i). intros n Hn. do 64 (destruct n; [done|]). lia.
Qed.

Lemma quartet_chars n :
  (0 <= n < 16777216)%Z -> Forall (fun c => c <> x3d /\ c <> x2d /\ c <> x5f) (quartet n).
Proof. intros H. unfold quartet. repeat constructor; apply char64_not_special; zdiv. Qed.

Definition ends_with_pad (s : bytes) : Prop := s !! (length s - 1) = Some x3d.
Definition ends_with_two_pads (s : bytes) : Prop := s !! (length s - 2) = Some x3d.

Ltac uchar_bounds :=
  repeat match goal with
    | b : byte |- _ => lazymatch goal with
                       | _ : (0 <= uchar b < 256)%Z |- _ => fail
                       | _ => let B := fresh "B" in pose proof (uchar_range b) as B
                       end
    end.

Lemma quartet_no_pad n i : (0 <= n < 16777216)%Z -> ~ (quartet n !! i = Some x3d).
Proof.
  intros Hn Hi. pose proof (quartet_chars n Hn) as Hq. rewrite Forall_lookup in Hq.
  by destruct (Hq i _ Hi).
Qed.

Lemma base64_pads d :
  d <> [] ->
  (ends_with_pad (base64 d) <-> length d mod 3 <> 0)
  /\ (ends_with_two_pads (base64 d) <-> length d mod 3 = 1).
Proof.
  unfold ends_with_pad, ends_with_two_pads.
  induction d as [| a | a b |a b c d IH] using bytes_ind3; intros Hd; [done|done| |].
  - uchar_bounds. split; [done|]. split; [|done]. intros Hp.
    by destruct (quartet_no_pad (uchar a * 65536 + uchar b * 256) 2); [lia|].
  - replace (length (a :: b :: c :: d)) with (length d + 1 * 3) by (cbn; lia).
    rewrite Nat.Div0.mod_add. cbn [base64].
    destruct (decide (d = [])) as [->|Hd'].
    + uchar_bounds. split; (split; [|done]); intros Hp;
        [destruct (quartet_no_pad (uchar a * 65536 + uchar b * 256 + uchar c) 3)
        |destruct (quartet_no_pad (uchar a * 65536 + uchar b * 256 + uchar c) 2)]; done || lia.
    + destruct (back_base64_app (quartet (uchar a * 65536 + uchar b * 256 + uchar c)) d Hd') as [-> ->].
      by apply IH.
Qed.

(** What holds of the 64 characters and of the pad holds of every text. *)
Definition alphabet64 : bytes := map (fun i => char64 (Z.of_nat i)) (seq 0 64).

Lemma base64_forall (P : byte -> Prop) d : Forall P alphabet64 -> P x3d -> Forall P (base64 d).
Proof.
  intros H64 Hpad. assert (forall i, (0 <= i < 64)%Z -> P (char64 i)) as Hc.
  { intros i Hi. rewrite Forall_forall in H64. apply H64, list_elem_of_fmap.
    exists (Z.to_nat i). split; [by rewrite Z2Nat.id by lia|]. apply elem_of_seq. lia. }
  assert (forall n, (0 <= n < 16777216)%Z -> Forall P (quartet n)) as Hq
    by (intros n Hn; unfold quartet; repeat constructor; apply Hc; zdiv).
  induction d as [| a | a b |a b c d IH] using bytes_ind3; cbn [base64]; uchar_bounds;
    [done| | |]; (apply Forall_app; split; [|done || by repeat constructor]);
    try apply Forall_take; apply Hq; lia.
Qed.

Lemma base64_alphabet d : Forall (fun c => c <> x2d /\ c <> x5f) (base64 d).
Proof. apply base64_forall; [apply (bool_decide_unpack _); vm_compute; exact I|done]. Qed.

(** The two alphabets are related by a renaming that decoding undoes. *)
Definition to_url (s : bytes) : bytes := replace_char x2f x5f (replace_char x2b x2d s).
Definition of_url (s : bytes) : bytes := replace_char x5f x2f (replace_char x2d x2b s).

Definition url_alphabet : bytes := x3d :: map (fun c => if decide (c = x2b) then x2d
                                                  else if decide (c = x2f) then x5f else c) alphabet64.

Lemma to_url_forall (P : byte -> Prop) d : Forall P url_alphabet -> Forall P (to_url (base64 d)).
Proof.
  intros [Hpad H]%Forall_cons. unfold to_url, replace_char. rewrite !Forall_map.
  apply base64_forall; [|done]. rewrite Forall_map in H.
  eapply Forall_impl; [exact H|]. intros c. cbv beta. by repeat case_decide; subst.
Qed.

Lemma of_url_to_url s : Forall (fun c => c <> x2d /\ c <> x5f) s -> of_url (to_url s) = s.
Proof.
  induction 1 as [|c s (? & ?) _ IH]; [done|].
  unfold of_url, to_url, replace_char in *. cbn [map]. f_equal; [|done].
  destruct (decide (c = x2b)) as [->|]; [done|]. destruct (decide (c = x2f)) as [->|]; [done|].
  rewrite (decide_False (P := c = x2d)) by done. by rewrite decide_False.
Qed.

(** ** The contract of OpenSSL *)

Inductive ctx_mode : Type := Signing | Verifying.

Class OpenSSLSpec (W : Type) `{O : OpenSSL W} : Type := {
  (** The key a context has been initialised with, in a world. *)
  ctx_key : W -> EVP_MD_CTX -> option (ctx_mode * EVP_PKEY);
  (** Ed25519: the signature of a message, its verification, and the public
      half of a key. *)
  ed25519_signature : EVP_PKEY -> bytes -> bytes;
  ed25519_valid : EVP_PKEY -> bytes -> bytes -> bool;
  public_key_of : EVP_PKEY -> EVP_PKEY;

  ed25519_signature_length k m : length (ed25519_signature k m) = 64;
  ed25519_correct k m : ed25519_valid (public_key_of k) m (ed25519_signature k m) = true;

  encode_block_spec d : (Z.of_nat (length (base64 d)) <= INT_MAX)%Z ->
    EVP_EncodeBlock d (Z.of_nat (length d)) = (Z.of_nat (length (base64 d)), base64 d);
  decode_block_spec d : (Z.of_nat (length (base64 d)) <= INT_MAX)%Z ->
    EVP_DecodeBlock (base64 d) (Z.of_nat (length (base64 d)))
    = (Z.of_nat (3 * (length (base64 d) / 4)),
       d ++ replicate (3 * (length (base64 d) / 4) - length d) x00);
  decode_block_bound s : (Z.of_nat (length s) <= INT_MAX)%Z ->
    length (snd (EVP_DecodeBlock s (Z.of_nat (length s)))) <= 3 * (length s / 4);

  sign_init_spec ctx key w w' :
    EVP_DigestSignInit ctx key w = (1%Z, w') ->
    exists k, key = Some k /\ ctx_key w' ctx = Some (Signing, k);
  sign_size_spec ctx k m rc n w w' :
    ctx_key w ctx = Some (Signing, k) -> EVP_DigestSign_size ctx m w = ((rc, n), w') ->
    ctx_key w' ctx = Some (Signing, k) /\ (rc = 1%Z -> n = 64);
  sign_spec ctx k n m rc sg w w' :
    ctx_key w ctx = Some (Signing, k) -> EVP_DigestSign ctx n m w = ((rc, sg), w') ->
    length sg <= n /\ (rc = 1%Z -> n = 64 -> sg = ed25519_signature k m);
  verify_init_spec ctx key w w' :
    EVP_DigestVerifyInit ctx key w = (1%Z, w') ->
    exists k, key = Some k /\ ctx_key w' ctx = Some (Verifying, k);
  verify_spec ctx k sg m rc w w' :
    ctx_key w ctx = Some (Verifying, k) -> EVP_DigestVerify ctx sg m w = (rc, w') ->
    rc = 1%Z <-> ed25519_valid k m sg = true;
}.

(** The calls that can run out of resources succeed. *)
Class OpenSSLAvailable (W : Type) `{O : OpenSSL W} : Prop := {
  ctx_new_available w : exists ctx w', EVP_MD_CTX_new w = (Some ctx, w');
  sign_init_available ctx k w : exists w', EVP_DigestSignInit ctx (Some k) w = (1%Z, w');
  sign_size_available ctx m w : exists n w', EVP_DigestSign_size ctx m w = ((1%Z, n), w');
  sign_available ctx n m w : exists sg w', EVP_DigestSign ctx n m w = ((1%Z, sg), w');
  verify_init_available ctx k w : exists w', EVP_DigestVerifyInit ctx (Some k) w = (1%Z, w');
}.

(** ** Buffers *)

Lemma store_exact n data : length data = n -> store (replicate n x00) data = Ret data.
Proof.
  intros <-. unfold store. rewrite length_replicate, Nat.ltb_irrefl.
  by rewrite drop_ge, app_nil_r by (by rewrite length_replicate).
Qed.

Lemma resize_prefix n v :
  n <= length v -> (Z.of_nat n <= PTRDIFF_MAX)%Z -> resize (Z.of_nat n) v = Ret (take n v).
Proof.
  intros Hn Hm. unfold resize. rewrite (proj2 (Z.ltb_ge PTRDIFF_MAX _)) by lia.
  rewrite Nat2Z.id. replace (n - length v) with 0 by lia. by rewrite app_nil_r.
Qed.

Section base64.
Context {W : Type} `{OpenSSLSpec W}.

(** A byte string whose encoding an [int] can measure. *)
Definition encodable (d : bytes) : Prop := (Z.of_nat (length (base64 d)) <= INT_MAX)%Z.

Lemma encodable_int d : encodable d -> to_int32 (Z.of_nat (length d)) = Z.of_nat (length d).
Proof.
  unfold encodable. rewrite length_base64. intros Hd. apply to_int32_small.
  unfold is_int, INT_MIN. pose proof (Nat.mul_succ_div_gt (length d + 2) 3). lia.
Qed.

Lemma base64url_encode_spec d : encodable d -> base64url_encode d = Ret (to_url (base64 d)).
Proof.
  intros Hd. unfold base64url_encode. case_decide; [by subst|].
  rewrite encodable_int, encode_block_spec by done.
  rewrite store_exact by (by rewrite length_base64). cbn [mbind outcome_bind].
  rewrite (proj2 (Z.ltb_ge _ 0)) by lia.
  rewrite resize_prefix, firstn_all; [done|done|].
  unfold encodable, INT_MAX, PTRDIFF_MAX in *. lia.
Qed.

Lemma length_base64_div d : length (base64 d) / 4 = (length d + 2) / 3.
Proof. rewrite length_base64, Nat.mul_comm. by rewrite Nat.div_mul. Qed.

(** The decoded length, after one decrement per padding character. *)
Lemma unpadded_length (d : bytes) :
  d <> [] ->
  let k := (length d + 2) / 3 in
  3 * k - length d
  = (if decide (length d mod 3 <> 0) then 1 else 0) + (if decide (length d mod 3 = 1) then 1 else 0)
  /\ length d <= 3 * k.
Proof.
  intros Hd k. unfold k. pose proof (Nat.div_mod_eq (length d) 3) as E.
  pose proof (Nat.mod_upper_bound (length d) 3 ltac:(lia)).
  set (q := length d / 3) in *. set (r := length d mod 3) in *.
  assert ((length d + 2) / 3 = q + (if decide (r <> 0) then 1 else 0)) as ->.
  { symmetry. apply Nat.div_unique with (r := if decide (r <> 0) then r - 1 else 2);
      case_decide; lia. }
  repeat case_decide; lia.
Qed.

Lemma base64url_decode_spec d :
  encodable d -> base64url_decode (to_url (base64 d)) = Ret d.
Proof.
  intros Hd. unfold base64url_decode. fold (of_url (to_url (base64 d))).
  rewrite of_url_to_url by apply base64_alphabet.
  assert ((length (base64 d) mod 4 =? 0) = true) as ->
    by (apply Nat.eqb_eq; rewrite length_base64, Nat.mul_comm; by apply Nat.Div0.mod_mul).
  cbn [negb]. rewrite to_int32_small, decode_block_spec by
    (done || (unfold encodable, is_int, INT_MIN in *; lia)).
  rewrite length_base64_div. cbv zeta.
  destruct (decide (d = [])) as [->|Hn]; [done|].
  destruct (unpadded_length d Hn) as [Hk Hle]. cbv zeta in Hk, Hle.
  assert (encodable d /\ length (base64 d) = 4 * ((length d + 2) / 3)) as [Hm Hl]
    by (split; [done|apply length_base64]).
  unfold encodable, INT_MAX in Hm. set (k := (length d + 2) / 3) in *.
  rewrite store_exact by (rewrite length_app, length_replicate; lia). cbn [mbind outcome_bind].
  rewrite (proj2 (Z.ltb_ge _ 0)) by lia.
  assert (1 <= length d) by (destruct d; [done|cbn; lia]).
  assert (base64 d <> []) as Hb by (intros E; rewrite E in Hl; cbn [length] in Hl; lia).
  destruct (base64_pads d Hn) as [Hp1 Hp2]. unfold ends_with_pad, ends_with_two_pads in *.
  replace (if decide (2 <= _ /\ _) then _ else _) with (Z.of_nat (length d)).
  - rewrite resize_prefix.
    + by rewrite take_app_length.
    + rewrite length_app. lia.
    + unfold PTRDIFF_MAX. lia.
  - assert (2 <= length (base64 d)) by lia. unfold size_dec.
    repeat case_decide; rewrite ?(Z.mod_small (Z.of_nat (3 * k) - 1)) by lia;
      rewrite ?Z.mod_small; lia || tauto.
Qed.

(** On any text, decoding stays inside of its buffer. *)
Lemma base64url_decode_defined s :
  (Z.of_nat (length s) <= INT_MAX)%Z -> defined (base64url_decode s).
Proof.
  intros Hs. unfold base64url_decode.
  assert (length (replace_char x5f x2f (replace_char x2d x2b s)) = length s) as Hl
    by (unfold replace_char; by rewrite !length_map).
  set (t := replace_char x5f x2f (replace_char x2d x2b s)) in *. clearbody t.
  destruct (negb _); [done|]. rewrite to_int32_small by (unfold is_int, INT_MIN; lia).
  pose proof (decode_block_bound t ltac:(lia)) as Hb.
  destruct (EVP_DecodeBlock t _) as [len written]. cbn [snd] in Hb.
  unfold store. rewrite length_replicate, (proj2 (Nat.ltb_ge _ _)) by done.
  cbn [mbind outcome_bind]. destruct (len <? 0)%Z; [done|]. unfold resize. by case_match.
Qed.
End base64.

(** ** Signatures *)

Section signatures.
Context {W : Type} `{OpenSSLSpec W}.

(** What a scope with a context returns was returned by its body. *)
Lemma with_md_ctx_ret {A} (body : EVP_MD_CTX -> M W A) w a w' :
  with_md_ctx body w = (Ret a, w') -> exists ctx w1 w2, body ctx w1 = (Ret a, w2).
Proof.
  unfold with_md_ctx. intros (c & w1 & _ & E)%run_bind_inv. destruct c as [ctx|]; [|done].
  unfold with_destructor in E. destruct (body ctx w1) as [[] w2] eqn:Eb; simplify_eq. eauto.
Qed.

Lemma with_md_ctx_defined {A} (body : EVP_MD_CTX -> M W A) w :
  (forall ctx w1, defined (fst (body ctx w1))) -> defined (fst (with_md_ctx body w)).
Proof.
  intros Hb. unfold with_md_ctx, mbind, M_bind, call.
  destruct (EVP_MD_CTX_new w) as [[ctx|] w1]; [|done].
  unfold with_destructor. specialize (Hb ctx w1). by destruct (body ctx w1) as [[] ?].
Qed.

Lemma call_inv {A} (f : W -> A * W) w a w' : call f w = (Ret a, w') -> f w = (a, w').
Proof. unfold call. destruct (f w). by intros [= -> ->]. Qed.

Lemma resize_full (v : bytes) : (Z.of_nat (length v) <= PTRDIFF_MAX)%Z ->
  resize (Z.of_nat (length v)) v = Ret v.
Proof. intros Hv. by rewrite resize_prefix, firstn_all. Qed.

Lemma store_full n (data : bytes) :
  length data <= n ->
  store (replicate n x00) data = Ret (data ++ replicate (n - length data) x00).
Proof.
  intros Hn. unfold store. rewrite length_replicate, (proj2 (Nat.ltb_ge _ _)) by done.
  by rewrite drop_replicate.
Qed.

Lemma ed25519_sign_sound key m w sg w' :
  ed25519_sign key m w = (Ret sg, w') ->
  exists k, key = Some k /\ sg = ed25519_signature k m.
Proof.
  intros (ctx & w1 & w2 & E)%with_md_ctx_ret.
  apply run_bind_inv in E as (rc & w3 & Hi%call_inv & E).
  destruct (Z.eqb_spec rc 1) as [->|]; [|done]. cbn [negb] in E.
  apply sign_init_spec in Hi as (k & -> & Hk).
  apply run_bind_inv in E as ([rc2 n] & w4 & Hs%call_inv & E).
  eapply sign_size_spec in Hs as [Hk2 Hn]; [|done].
  destruct (Z.eqb_spec rc2 1) as [->|]; [|done]. specialize (Hn eq_refl). subst n. cbn [negb] in E.
  apply run_bind_inv in E as ([rc3 written] & w5 & Hsg%call_inv & E).
  eapply sign_spec in Hsg as [Hl Hw]; [|done].
  rewrite store_full in E by done.
  apply run_bind_inv in E as (buf & w6 & Hb & E). injection Hb as <- <-.
  destruct (Z.eqb_spec rc3 1) as [->|]; [|done]. cbn [negb] in E.
  exists k. split; [done|]. rewrite <-Hw by done.
  rewrite resize_prefix in E by (rewrite ?length_app; unfold PTRDIFF_MAX; lia).
  rewrite take_app_length in E. by injection E.
Qed.

Lemma ed25519_sign_defined key m w : defined (fst (ed25519_sign key m w)).
Proof.
  apply with_md_ctx_defined. intros ctx w1. unfold mbind, M_bind, call.
  destruct (EVP_DigestSignInit ctx key w1) as [rc w2] eqn:Hi.
  destruct (Z.eqb_spec rc 1) as [->|]; [|done]. cbn [negb].
  apply sign_init_spec in Hi as (k & -> & Hk).
  destruct (EVP_DigestSign_size ctx m w2) as [[rc2 n] w3] eqn:Hs.
  eapply sign_size_spec in Hs as [Hk2 _]; [|done].
  destruct (negb (rc2 =? 1)%Z); [done|].
  destruct (EVP_DigestSign ctx n m w3) as [[rc3 written] w4] eqn:Hsg.
  eapply sign_spec in Hsg as [Hl _]; [|done].
  rewrite store_full by done. cbn. destruct (negb (rc3 =? 1)%Z); [done|].
  cbn. unfold resize. by case_match.
Qed.

Lemma ed25519_verify_sound key m sg w b w' :
  ed25519_verify key m sg w = (Ret b, w') ->
  exists k, key = Some k /\ b = ed25519_valid k m sg.
Proof.
  intros (ctx & w1 & w2 & E)%with_md_ctx_ret.
  apply run_bind_inv in E as (rc & w3 & Hi%call_inv & E).
  destruct (Z.eqb_spec rc 1) as [->|]; [|done]. cbn [negb] in E.
  apply verify_init_spec in Hi as (k & -> & Hk).
  apply run_bind_inv in E as (rc & w4 & Hv%call_inv & E). injection E as <- <-.
  eapply verify_spec in Hv; [|done]. exists k. split; [done|].
  destruct (Z.eqb_spec rc 1) as [->|]; [by symmetry; apply Hv|].
  destruct (ed25519_valid k m sg); tauto.
Qed.

Lemma ed25519_verify_defined key m sg w : defined (fst (ed25519_verify key m sg w)).
Proof.
  apply with_md_ctx_defined. intros ctx w1. unfold mbind, M_bind, call.
  destruct (EVP_DigestVerifyInit ctx key w1) as [rc w2].
  destruct (negb (rc =? 1)%Z); [done|]. by destruct (EVP_DigestVerify ctx sg m w2).
Qed.

(** With resources available, both calls return. *)
Context `{A : !OpenSSLAvailable W}.

Lemma ed25519_sign_returns k m w :
  exists w', ed25519_sign (Some k) m w = (Ret (ed25519_signature k m), w').
Proof.
  assert (exists sg w', ed25519_sign (Some k) m w = (Ret sg, w')) as (sg & w' & E).
  { unfold ed25519_sign, with_md_ctx, mbind, M_bind, call.
    destruct (ctx_new_available w) as (ctx & w1 & ->).
    unfold with_destructor. destruct (sign_init_available ctx k w1) as (w2 & Hi). rewrite Hi.
    apply sign_init_spec in Hi as (k' & [= <-] & Hk). cbn [negb Z.eqb Pos.eqb].
    destruct (sign_size_available ctx m w2) as (n & w3 & Hs). rewrite Hs.
    eapply sign_size_spec in Hs as [Hk2 Hn]; [|done]. specialize (Hn eq_refl). subst n.
    cbn [negb Z.eqb Pos.eqb].
    destruct (sign_available ctx 64 m w3) as (sg & w4 & Hsg). rewrite Hsg.
    eapply sign_spec in Hsg as [Hl _]; [|done]. rewrite store_full by done.
    cbn [lift negb Z.eqb Pos.eqb]. unfold lift.
    rewrite resize_prefix by (rewrite ?length_app; unfold PTRDIFF_MAX; lia). eauto. }
  exists w'. rewrite E. by apply ed25519_sign_sound in E as (k' & [= <-] & ->).
Qed.

Lemma ed25519_verify_returns k m sg w :
  exists w', ed25519_verify (Some k) m sg w = (Ret (ed25519_valid k m sg), w').
Proof.
  assert (exists b w', ed25519_verify (Some k) m sg w = (Ret b, w')) as (b & w' & E).
  { unfold ed25519_verify, with_md_ctx, mbind, M_bind, call.
    destruct (ctx_new_available w) as (ctx & w1 & ->).
    unfold with_destructor. destruct (verify_init_available ctx k w1) as (w2 & ->).
    cbn [negb Z.eqb Pos.eqb]. destruct (EVP_DigestVerify ctx sg m w2). eauto. }
  exists w'. rewrite E. by apply ed25519_verify_sound in E as (k' & [= <-] & ->).
Qed.
End signatures.

(** ** Properties *)

(** Base64url round trip.  Every byte string whose encoding an [int] can
    measure encodes to a text of four characters per started group of three
    bytes, without the two characters of the standard alphabet that are not
    URL-safe, and decoding that text (padding included) gives the byte string
    back. *)
Lemma base64url_round_trip {W : Type} {O : OpenSSL W} {OS : OpenSSLSpec W} (d : bytes)
    (Hd : encodable d) :
  exists text, base64url_encode d = Ret text /\ base64url_decode text = Ret d
    /\ length text = 4 * ((length d + 2) / 3)
    /\ Forall (fun c => c <> x2b /\ c <> x2f) text.
Proof.
  exists (to_url (base64 d)). split_and!.
  - by apply base64url_encode_spec.
  - by apply base64url_decode_spec.
  - unfold to_url, replace_char. by rewrite !length_map, length_base64.
  - unfold to_url, replace_char. rewrite map_map. apply Forall_forall. intros c Hc.
    apply list_elem_of_fmap in Hc as (b & -> & _). by repeat case_decide.
Qed.
