(* ===== verification/PyText.v ===== *)
(** * Python text, errors and base64

    What reference/python/ma2a uses of Python's [str], [bytes], exceptions and
    [base64].  A [str] is a list of code points (surrogates included), a
    [bytes] a list of bytes.  A Python function ends in a value or raises. *)
From S2P Require Import Prelude Reader Unicode Crypto CryptoSpec.

(** ** Exceptions

    [IllTyped] is no exception of Python: it marks a run in which a dataclass
    is given a value outside of the declared type of a member, which Python
    does not check.  The model stops there. *)

Inductive pyexn : Type :=
| ValueError (msg : String.string)
| UnicodeEncodeError
| UnicodeDecodeError
| BinasciiError
| InvalidSignature
| TypeError
| KeyError
| AttributeError
| RecursionError
| ConnectionError (msg : String.string)
| RuntimeError (msg : String.string)
| OSError
| OverflowError
| AssertionError
| IllTyped.

#[global] Instance pyexn_eq_dec : EqDecision pyexn.
Proof. solve_decision. Defined.

(** The classes the reference catches together in
    [except (InvalidSignature, ValueError, UnicodeError, binascii.Error)];
    encoding, decoding and base64 errors are subclasses of [ValueError]. *)
Definition rejected (e : pyexn) : bool :=
  match e with
  | ValueError _ | UnicodeEncodeError | UnicodeDecodeError | BinasciiError | InvalidSignature => true
  | _ => false
  end.

Inductive presult (A : Type) : Type :=
| Ok (a : A)
| Raise (e : pyexn).
Arguments Ok {A} a.
Arguments Raise {A} e.

#[global] Instance presult_ret : MRet presult := @Ok.
#[global] Instance presult_bind : MBind presult := fun A B f r =>
  match r with Ok a => f a | Raise e => Raise e end.

(** [if b: raise e] *)
Definition raise_if (b : bool) (e : pyexn) : presult unit := if b then Raise e else Ok tt.

(** [try: return r / except (...): return False] *)
Definition false_if_rejected (r : presult bool) : presult bool :=
  match r with
  | Raise e => if rejected e then Ok false else Raise e
  | Ok b => Ok b
  end.

Lemma presult_bind_ok {A B} (r : presult A) (f : A -> presult B) b :
  (x ← r; f x) = Ok b -> exists a, r = Ok a /\ f a = Ok b.
Proof. destruct r; [eauto|done]. Qed.

Lemma raise_if_then {A} b e (k : presult A) x :
  (raise_if b e;; k) = Ok x <-> b = false /\ k = Ok x.
Proof. destruct b; cbn; intuition congruence. Qed.

Lemma raise_if_ok b e u : raise_if b e = Ok u <-> b = false.
Proof. destruct b, u; cbn; intuition congruence. Qed.

Lemma then_ok (r : presult unit) {A} (k : presult A) a : (r;; k) = Ok a -> r = Ok tt /\ k = Ok a.
Proof. by destruct r as [[]|]. Qed.

(** ** Strings *)

Abbreviation pystr := (list Z).

(** A literal of ASCII characters, and bytes that are ASCII as text. *)
Definition ascii_text (t : bytes) : pystr := map uchar t.
Definition lit (s : String.string) : pystr := ascii_text (str s).
Arguments lit s%_string_scope.

Definition scalarb (cp : Z) : bool :=
  ((0 <=? cp) && (cp <? 0xd800) || (0xe000 <=? cp) && (cp <=? 0x10ffff))%Z.

Lemma scalarb_spec cp : reflect (scalar cp) (scalarb cp).
Proof. apply iff_reflect. unfold scalar, scalarb. lia. Qed.

(** [s.encode("utf-8")] and [s.encode("ascii")] *)
Definition encode_utf8 (s : pystr) : presult bytes :=
  if forallb scalarb s then Ok (utf8_text s) else Raise UnicodeEncodeError.
Definition asciib (cp : Z) : bool := ((0 <=? cp) && (cp <? 0x80))%Z.
Definition encode_ascii (s : pystr) : presult bytes :=
  if forallb asciib s then Ok (map byte_of_Z s) else Raise UnicodeEncodeError.

(** [b.decode("utf-8")]; every round decodes at least one byte. *)
Fixpoint decode_utf8_loop (fuel : nat) (b : bytes) : presult pystr :=
  match fuel, b with
  | _, [] => Ok []
  | O, _ => Raise UnicodeDecodeError
  | S fuel, _ =>
      match utf8_decode b with
      | None => Raise UnicodeDecodeError
      | Some (cp, rest) => s ← decode_utf8_loop fuel rest; Ok (cp :: s)
      end
  end.
Definition decode_utf8 (b : bytes) : presult pystr := decode_utf8_loop (length b) b.

(** Python's order on sequences of numbers: [str], [bytes] and tuples. *)
Fixpoint seq_lt (a b : list Z) : bool :=
  match a, b with
  | _, [] => false
  | [], _ :: _ => true
  | x :: a, y :: b => if (x =? y)%Z then seq_lt a b else (x <? y)%Z
  end.

(** ** [base64] (Python 3.11) *)

(** [base64.urlsafe_b64encode(data).decode("ascii")] *)
Definition _b64 (data : bytes) : pystr := ascii_text (to_url (base64 data)).

Definition table_a2b (c : byte) : option Z :=
  let v := uchar c in
  (if (65 <=? v) && (v <=? 90) then Some (v - 65)
   else if (97 <=? v) && (v <=? 122) then Some (v - 71)
   else if (48 <=? v) && (v <=? 57) then Some (v + 4)
   else if v =? 43 then Some 62 else if v =? 47 then Some 63 else None)%Z.

(** [binascii.a2b_base64(s, strict_mode=True)] from a position with these
    variables of its loop: the place in the quad, the bits left over, the pads
    seen in a row, and whether padding has started. *)
Fixpoint a2b_loop (s : bytes) (quad_pos : nat) (leftchar : Z) (pads : nat) (padding : bool)
    : presult bytes :=
  match s with
  | [] => if decide (quad_pos = 0) then Ok [] else Raise BinasciiError
  | x3d :: s =>
      if (2 <=? quad_pos) && (4 <=? quad_pos + S pads)
      then (match s with [] => Ok [] | _ => Raise BinasciiError end)
      else a2b_loop s quad_pos leftchar (if 2 <=? quad_pos then S pads else pads) true
  | c :: s =>
      match table_a2b c with
      | None => Raise BinasciiError
      | Some v =>
          if padding then Raise BinasciiError else
          match quad_pos with
          | 0 => a2b_loop s 1 v 0 false
          | 1 => out ← a2b_loop s 2 (Z.land v 0x0f) 0 false;
                 Ok (byte_of_Z (Z.lor (Z.shiftl leftchar 2) (Z.shiftr v 4)) :: out)
          | 2 => out ← a2b_loop s 3 (Z.land v 0x03) 0 false;
                 Ok (byte_of_Z (Z.lor (Z.shiftl leftchar 4) (Z.shiftr v 2)) :: out)
          | _ => out ← a2b_loop s 0 0 0 false;
                 Ok (byte_of_Z (Z.lor (Z.shiftl leftchar 6) v) :: out)
          end
      end
  end.

Definition a2b_base64 (s : bytes) : presult bytes :=
  match s with
  | x3d :: _ => Raise BinasciiError
  | _ => a2b_loop s 0 0 0 false
  end.

(** [base64.b64decode(text.encode("ascii"), altchars=b"-_", validate=True)] *)
Definition _unb64 (text : pystr) : presult bytes :=
  s ← encode_ascii text; a2b_base64 (of_url s).

(** ** UTF-8 *)

Lemma utf8_length cp : scalar cp -> 0 < length (utf8 cp).
Proof.
  intros H. pose proof (utf8_decode_utf8 cp [] H) as E. rewrite app_nil_r in E.
  destruct (utf8 cp); [done|cbn; lia].
Qed.

Lemma decode_utf8_loop_text s fuel :
  Forall scalar s -> length (utf8_text s) <= fuel -> decode_utf8_loop fuel (utf8_text s) = Ok s.
Proof.
  intros Hs. revert fuel. induction Hs as [|cp s Hcp Hs IH]; intros fuel Hf; [by destruct fuel|].
  unfold utf8_text in *. cbn [map concat] in *. rewrite length_app in Hf.
  pose proof (utf8_length cp Hcp). destruct fuel as [|fuel]; [lia|]. cbn [decode_utf8_loop].
  rewrite utf8_decode_utf8 by done. rewrite IH by lia.
  destruct (utf8 cp); [cbn in *; lia|done].
Qed.

Lemma decode_utf8_text s : Forall scalar s -> decode_utf8 (utf8_text s) = Ok s.
Proof. intros Hs. by apply decode_utf8_loop_text. Qed.

Lemma utf8_text_inj s1 s2 :
  Forall scalar s1 -> Forall scalar s2 -> utf8_text s1 = utf8_text s2 -> s1 = s2.
Proof.
  intros H1%decode_utf8_text H2%decode_utf8_text E. rewrite E, H2 in H1. by injection H1.
Qed.

Lemma utf8_text_nil s : Forall scalar s -> utf8_text s = [] <-> s = [].
Proof.
  intros Hs. split; [|by intros ->]. intros E. by apply utf8_text_inj; [|constructor|].
Qed.

Lemma forallb_scalar s : forallb scalarb s = true <-> Forall scalar s.
Proof.
  rewrite forallb_forall, Forall_forall. setoid_rewrite list_elem_of_In.
  split; intros H cp Hin; specialize (H cp Hin); by destruct (scalarb_spec cp).
Qed.

Lemma encode_utf8_ok s b : encode_utf8 s = Ok b <-> Forall scalar s /\ b = utf8_text s.
Proof.
  unfold encode_utf8. rewrite <-forallb_scalar. destruct (forallb scalarb s).
  - split; [by intros [= <-]|by intros [_ ->]].
  - split; [done|by intros [[=] _]].
Qed.

(** ASCII text is its own encoding. *)
Definition ascii (b : byte) : Prop := (uchar b < 0x80)%Z.

(** A literal is ASCII. *)
Ltac ascii_lit := by repeat constructor.

Lemma utf8_text_ascii t : Forall ascii t -> utf8_text (ascii_text t) = t.
Proof.
  induction 1 as [|b t Hb Ht IH]; [done|]. unfold utf8_text, ascii_text in *. cbn [map concat].
  rewrite IH, utf8_ascii by (pose proof (uchar_range b); unfold ascii in Hb; lia).
  by rewrite byte_of_Z_uchar.
Qed.

Lemma ascii_text_scalar t : Forall ascii t -> Forall scalar (ascii_text t).
Proof.
  intros H. apply Forall_map. eapply Forall_impl; [exact H|]. intros b Hb.
  pose proof (uchar_range b). unfold scalar, ascii in *. lia.
Qed.

Lemma lit_scalar k : Forall ascii (str k) -> Forall scalar (lit k).
Proof. apply ascii_text_scalar. Qed.

Lemma decode_utf8_ascii t : Forall ascii t -> decode_utf8 t = Ok (ascii_text t).
Proof.
  intros H. rewrite <-(utf8_text_ascii t) at 1 by done. by apply decode_utf8_text, ascii_text_scalar.
Qed.

Lemma encode_ascii_text t : Forall ascii t -> encode_ascii (ascii_text t) = Ok t.
Proof.
  intros H. unfold encode_ascii. replace (forallb asciib (ascii_text t)) with true.
  - f_equal. unfold ascii_text. rewrite map_map. clear H.
    induction t as [|b t IH]; [done|]. cbn [map]. by rewrite byte_of_Z_uchar, IH.
  - symmetry. apply forallb_forall. intros cp (b & <- & Hb)%in_map_iff.
    rewrite Forall_forall in H. specialize (H b ltac:(by apply list_elem_of_In)).
    pose proof (uchar_range b). unfold asciib, ascii in *. lia.
Qed.

(** ** The order *)

Lemma seq_lt_irrefl a : seq_lt a a = false.
Proof. induction a as [|x a IH]; [done|]. cbn. by rewrite Z.eqb_refl. Qed.

Lemma seq_lt_trans a b c : seq_lt a b = true -> seq_lt b c = true -> seq_lt a c = true.
Proof.
  revert b c. induction a as [|x a IH]; intros [|y b] [|z c]; try done. cbn.
  destruct (Z.eqb_spec x y), (Z.eqb_spec y z), (Z.eqb_spec x z); try lia; eauto.
Qed.

Lemma seq_lt_total a b : seq_lt a b = false -> seq_lt b a = false -> a = b.
Proof.
  revert b. induction a as [|x a IH]; intros [|y b]; try done. cbn.
  destruct (Z.eqb_spec x y) as [->|]; [|destruct (Z.eqb_spec y x); lia].
  rewrite Z.eqb_refl. intros. f_equal. auto.
Qed.

Lemma seq_lt_asym a b : seq_lt a b = true -> seq_lt b a = false.
Proof.
  intros H. destruct (seq_lt b a) eqn:E; [|done].
  pose proof (seq_lt_trans _ _ _ H E) as C. by rewrite seq_lt_irrefl in C.
Qed.

(** ** Base64 *)

Lemma table_a2b_char64 i : (0 <= i < 64)%Z -> table_a2b (char64 i) = Some i.
Proof.
  intros H. assert (Z.to_nat i < 64) as Hn by lia. rewrite <-(Z2Nat.id i) by lia.
  generalize dependent (Z.to_nat i). intros n Hn. do 64 (destruct n; [done|]). lia.
Qed.

(** One character of the alphabet. *)
Lemma a2b_loop_char i s quad left pads :
  (0 <= i < 64)%Z ->
  a2b_loop (char64 i :: s) quad left pads false
  = match quad with
    | 0 => a2b_loop s 1 i 0 false
    | 1 => out ← a2b_loop s 2 (Z.land i 0x0f) 0 false;
           Ok (byte_of_Z (Z.lor (Z.shiftl left 2) (Z.shiftr i 4)) :: out)
    | 2 => out ← a2b_loop s 3 (Z.land i 0x03) 0 false;
           Ok (byte_of_Z (Z.lor (Z.shiftl left 4) (Z.shiftr i 2)) :: out)
    | _ => out ← a2b_loop s 0 0 0 false;
           Ok (byte_of_Z (Z.lor (Z.shiftl left 6) i) :: out)
    end.
Proof.
  intros H. pose proof (char64_not_special i H) as (Hp & _). cbn [a2b_loop].
  rewrite table_a2b_char64 by done. by destruct (char64 i).
Qed.

(** The bytes the four characters of a number are decoded to. *)
Lemma a2b_bytes n :
  (0 <= n < 16777216)%Z ->
  byte_of_Z (Z.lor (Z.shiftl (n / 262144) 2) (Z.shiftr (n / 4096 mod 64) 4)) = byte_of_Z (n / 65536)
  /\ byte_of_Z (Z.lor (Z.shiftl (Z.land (n / 4096 mod 64) 0x0f) 4) (Z.shiftr (n / 64 mod 64) 2))
     = byte_of_Z (n / 256)
  /\ byte_of_Z (Z.lor (Z.shiftl (Z.land (n / 64 mod 64) 0x03) 6) (n mod 64)) = byte_of_Z n.
Proof.
  intros Hn. change 0x0f%Z with (Z.ones 4). change 0x03%Z with (Z.ones 2).
  rewrite !Z.land_ones, !Z.shiftr_div_pow2 by lia.
  change (2 ^ 4)%Z with 16%Z. change (2 ^ 2)%Z with 4%Z.
  split_and!; (rewrite lor_add by zdiv); apply uchar_inj; rewrite !uchar_byte_of_Z; zdiv.
Qed.

Lemma a2b_loop_quartet n s :
  (0 <= n < 16777216)%Z ->
  a2b_loop (quartet n ++ s) 0 0 0 false
  = (out ← a2b_loop s 0 0 0 false;
     Ok (byte_of_Z (n / 65536) :: byte_of_Z (n / 256) :: byte_of_Z n :: out)).
Proof.
  intros Hn. destruct (a2b_bytes n Hn) as (<- & <- & <-). unfold quartet. cbn [map app].
  rewrite !a2b_loop_char by zdiv. by destruct (a2b_loop s 0 0 0 false).
Qed.

Lemma a2b_base64_encoded d : a2b_base64 (base64 d) = Ok d.
Proof.
  assert (a2b_base64 (base64 d) = a2b_loop (base64 d) 0 0 0 false) as ->.
  { assert (forall i s, (0 <= i < 64)%Z -> a2b_base64 (char64 i :: s)
      = a2b_loop (char64 i :: s) 0 0 0 false) as H.
    { intros i s Hi. destruct (char64_not_special i Hi) as [Hp _]. unfold a2b_base64.
      by destruct (char64 i). }
    destruct d as [|a [|b [|c d]]]; [done| | |]; cbn [base64]; unfold quartet; cbn [map take app];
      uchar_bounds; apply H; zdiv. }
  induction d as [|a|a b|a b c d IH] using bytes_ind3; cbn [base64]; uchar_bounds.
  - done.
  - unfold quartet. cbn [map take app]. rewrite !a2b_loop_char by zdiv. cbn.
    destruct (a2b_bytes (uchar a * 65536)) as (E & _ & _); [lia|]. rewrite E. do 2 f_equal.
    apply uchar_inj. rewrite uchar_byte_of_Z. zdiv.
  - unfold quartet. cbn [map take app]. rewrite !a2b_loop_char by zdiv. cbn.
    destruct (a2b_bytes (uchar a * 65536 + uchar b * 256)) as (E1 & E2 & _); [lia|].
    rewrite E1, E2. repeat f_equal; apply uchar_inj; rewrite uchar_byte_of_Z; zdiv.
  - rewrite a2b_loop_quartet, IH by lia. cbn. repeat f_equal;
      apply uchar_inj; rewrite uchar_byte_of_Z; zdiv.
Qed.

Lemma to_url_ascii d : Forall ascii (to_url (base64 d)).
Proof. apply to_url_forall. by repeat constructor. Qed.

Lemma _unb64_b64 d : _unb64 (_b64 d) = Ok d.
Proof.
  unfold _unb64, _b64. rewrite encode_ascii_text by apply to_url_ascii. cbn [mbind presult_bind].
  rewrite of_url_to_url by apply base64_alphabet. apply a2b_base64_encoded.
Qed.
