(* ===== verification/PyFloat.v ===== *)
(** * Python's [float]

    A [float] is an IEEE 754 binary64 value.  Reading a decimal rounds to the
    nearest value, ties to even; [repr] writes the shortest decimal that reads
    back, as David Gay's algorithm does (mode 0 of CPython's dtoa.c).  Both are
    computed here on integers: a magnitude is a fraction [A / B] of the unit
    2^-1074, the least positive value. *)
From Stdlib Require Import SpecFloat.
From S2P Require Import Prelude Canonical PyText.
#[local] Open Scope Z_scope.

(** ** Reading *)

(** The exponent of the unit. *)
Definition scale : Z := 1074.

(** [M * 2^s] units, for the [M] of at most 53 bits nearest to [A / B]. *)
Definition round_ratio (A B : Z) : Z * Z :=
  let s := Z.max 0 (Z.log2 (A / B) - 52) in
  let D := B * 2 ^ s in
  let '(q, r) := Z.div_eucl A D in
  let M := if (D <? 2 * r) || ((2 * r =? D) && Z.odd q) then q + 1 else q in
  if M =? 2 ^ 53 then (2 ^ 52, s + 1) else (M, s).

Definition float_of_ratio (negative : bool) (A B : Z) : spec_float :=
  let '(M, s) := round_ratio A B in
  match M with
  | Zpos m => if s <=? 971 + scale then S754_finite negative m (s - scale) else S754_infinity negative
  | _ => S754_zero negative
  end.

(** The decimal [d * 10^p]. *)
Definition float_of_decimal (negative : bool) (d p : Z) : spec_float :=
  if 0 <=? p then float_of_ratio negative (d * 10 ^ p * 2 ^ scale) 1
  else float_of_ratio negative (d * 2 ^ scale) (10 ^ (- p)).

(** ** Comparisons and conversions *)

(** [x < 0] *)
Definition float_negative (x : spec_float) : bool := SFltb x (S754_zero false).

(** [int(x)] of a finite float: truncation. *)
Definition truncate (m : positive) (e : Z) : Z :=
  if 0 <=? e then Zpos m * 2 ^ e else Zpos m / 2 ^ (- e).
Definition int_of_float (x : spec_float) : presult Z :=
  match x with
  | S754_zero _ => Ok 0
  | S754_infinity _ => Raise OverflowError
  | S754_nan => Raise (ValueError "cannot convert float NaN to integer")
  | S754_finite negative m e => Ok (if negative then - truncate m e else truncate m e)
  end.

(** ** Writing *)

Definition digit_count (n : Z) : Z := Z.of_nat (length (digits_of 10 n)).

(** [m * 2^e] as an exact decimal [X * 10^p]. *)
Definition exact_decimal (m : positive) (e : Z) : Z * Z :=
  if 0 <=? e then (Zpos m * 2 ^ e, 0) else (Zpos m * 5 ^ (- e), e).

(** The two decimals of [n] digits around one of [K] digits, the nearer one
    first, in multiples of 10^(K-n); of two equally near ones the even is first. *)
Definition candidates (X K n : Z) : Z * Z :=
  let N := X * 10 ^ Z.max 0 (n - K) in
  let P := 10 ^ Z.max 0 (K - n) in
  let '(q, r) := Z.div_eucl N P in
  if (P <? 2 * r) || ((2 * r =? P) && Z.odd q) then (q + 1, q) else (q, q + 1).

#[global] Instance spec_float_eq_dec : EqDecision spec_float.
Proof. solve_decision. Defined.

(** The first decimal of [n], [n + 1], ... digits that reads as [x], for an [x]
    of [X * 10^p] with [K] digits in [X]. *)
Fixpoint shortest (x : spec_float) (X K p n : Z) (fuel : nat) : Z * Z :=
  let '(near, far) := candidates X K n in
  let p' := K + p - n in
  if decide (float_of_decimal false near p' = x) then (near, p') else
  if decide (float_of_decimal false far p' = x) then (far, p') else
  match fuel with
  | O => (near, p')
  | S fuel => shortest x X K p (n + 1) fuel
  end.

(** Without the zeros at the end. *)
Fixpoint strip (fuel : nat) (d p : Z) : Z * Z :=
  match fuel with
  | O => (d, p)
  | S fuel => if d mod 10 =? 0 then strip fuel (d / 10) (p + 1) else (d, p)
  end.

(** The digits and the exponent [repr] shows; 17 digits always suffice. *)
Definition shortest_decimal (m : positive) (e : Z) : Z * Z :=
  let '(X, p) := exact_decimal m e in
  let '(d, p) := shortest (S754_finite false m e) X (digit_count X) p 1 16 in
  strip 17 d p.

Definition zeros (n : Z) : bytes := replicate (Z.to_nat n) x30.
Definition digits_text (n : Z) : bytes := map digit_char (digits_of 10 n).

(** The sign and two digits at least. *)
Definition exponent_text (x : Z) : bytes :=
  (if x <? 0 then str "-" else str "+")
  ++ (if Z.abs x <? 10 then str "0" else []) ++ digits_text (Z.abs x).

(** [d * 10^p] in the format [repr] uses. *)
Definition format_decimal (d p : Z) : bytes :=
  let ds := digits_text d in
  let point := digit_count d + p in
  if (-4 <? point) && (point <=? 16) then
    if point <=? 0 then str "0." ++ zeros (- point) ++ ds
    else if digit_count d <=? point then ds ++ zeros (point - digit_count d) ++ str ".0"
    else take (Z.to_nat point) ds ++ str "." ++ drop (Z.to_nat point) ds
  else
    take 1 ds ++ (if digit_count d =? 1 then [] else str "." ++ drop 1 ds)
    ++ str "e" ++ exponent_text (point - 1).

Definition minus (negative : bool) : bytes := if negative then str "-" else [].

(** [float.__repr__], and the constants [json] writes for the other values. *)
Definition float_repr (x : spec_float) : bytes :=
  match x with
  | S754_zero negative => minus negative ++ str "0.0"
  | S754_infinity negative => minus negative ++ str "Infinity"
  | S754_nan => str "NaN"
  | S754_finite negative m e => minus negative ++ (let '(d, p) := shortest_decimal m e in format_decimal d p)
  end.

Example float_repr_samples :
  map float_repr [float_of_decimal false 64 0; float_of_decimal false 25 (-2); float_of_decimal true 1 (-5);
                  float_of_decimal false 1 (-4); float_of_decimal false 1 16; float_of_decimal false 1 15;
                  float_of_decimal false 9007199254740993 0; float_of_decimal false 30000000000000004 (-17);
                  S754_finite false (2 ^ 52) (-96); float_of_decimal false 12345 18; S754_zero true]
  = map str ["64.0"; "0.25"; "-1e-05"; "0.0001"; "1e+16"; "1000000000000000.0"; "9007199254740992.0";
             "0.30000000000000004"; "5.684341886080802e-14"; "1.2345e+22"; "-0.0"]%string.
Proof. vm_compute. reflexivity. Qed.

(** The least positive value, and what is too large or too small. *)
Example float_repr_limits :
  map float_repr [S754_finite false 1 (-1074); float_of_decimal false 1 309]
  = map str ["5e-324"; "Infinity"]%string
  /\ float_of_decimal false 1 (-400) = S754_zero false.
Proof. vm_compute. split; reflexivity. Qed.

(** ** Rounding *)

Lemma round_ratio_unfold A B :
  round_ratio A B
  = let s := Z.max 0 (Z.log2 (A / B) - 52) in
    let D := B * 2 ^ s in
    let M := if (D <? 2 * (A mod D)) || ((2 * (A mod D) =? D) && Z.odd (A / D)) then A / D + 1 else A / D in
    if M =? 2 ^ 53 then (2 ^ 52, s + 1) else (M, s).
Proof.
  unfold round_ratio, Z.div, Z.modulo at 1. cbv zeta.
  unfold Z.modulo. by destruct (Z.div_eucl A (B * _)).
Qed.

Lemma pow2_pos s : 0 <= s -> 0 < 2 ^ s.
Proof. intros. by apply Z.pow_pos_nonneg. Qed.

Lemma round_ratio_scale c A B :
  0 < c -> 0 < B -> round_ratio (c * A) (c * B) = round_ratio A B.
Proof.
  intros Hc HB. rewrite !round_ratio_unfold, Z.div_mul_cancel_l by lia. cbv zeta.
  set (s := Z.max 0 (Z.log2 (A / B) - 52)). assert (0 < 2 ^ s) by (apply pow2_pos; lia).
  rewrite <-(Z.mul_assoc c B), Z.div_mul_cancel_l, Z.mul_mod_distr_l by nia.
  replace (c * (B * 2 ^ s) <? 2 * (c * (A mod (B * 2 ^ s)))) with (B * 2 ^ s <? 2 * (A mod (B * 2 ^ s))).
  2: { apply eq_true_iff_eq. rewrite !Z.ltb_lt. nia. }
  replace (2 * (c * (A mod (B * 2 ^ s))) =? c * (B * 2 ^ s)) with (2 * (A mod (B * 2 ^ s)) =? B * 2 ^ s).
  2: { apply eq_true_iff_eq. rewrite !Z.eqb_eq. nia. }
  done.
Qed.

(** The result depends on the fraction, not on how it is written. *)
Lemma round_ratio_eq A B A' B' :
  0 < B -> 0 < B' -> A * B' = A' * B -> round_ratio A B = round_ratio A' B'.
Proof.
  intros HB HB' E. rewrite <-(round_ratio_scale B' A B), <-(round_ratio_scale B A' B') by done.
  f_equal; lia.
Qed.

Lemma log2_at x n : 0 <= n -> 2 ^ n <= x < 2 ^ (n + 1) -> Z.log2 x = n.
Proof. intros Hn H. apply Z.log2_unique; [done|]. by rewrite <-Z.add_1_r. Qed.

(** The quotient by a divisor that is scaled up. *)
Lemma div_bounds A D l u : 0 < D -> l * D <= A < u * D -> l <= A / D < u.
Proof.
  intros HD [H1 H2]. split; [apply Z.div_le_lower_bound; lia|apply Z.div_lt_upper_bound; lia].
Qed.

(** Rounding at a known scale. *)
Lemma round_at A B m s :
  0 < B -> 0 <= s -> 0 <= A -> s = Z.max 0 (Z.log2 (A / B) - 52) ->
  2 * Z.abs (A - m * (B * 2 ^ s)) < B * 2 ^ s ->
  round_ratio A B = if m =? 2 ^ 53 then (2 ^ 52, s + 1) else (m, s).
Proof.
  intros HB Hs HA Es Hd. rewrite round_ratio_unfold, <-Es. cbv zeta.
  pose proof (pow2_pos s Hs). assert (0 < B * 2 ^ s) as HD by nia. set (D := B * 2 ^ s) in *.
  pose proof (Z.div_mod A D ltac:(lia)) as E. pose proof (Z.mod_pos_bound A D HD) as Hr.
  assert (A / D = m \/ A / D = m - 1) as [Eq|Eq] by (assert (m - 2 < A / D < m + 1) by nia; lia).
  - rewrite Eq in *. rewrite (proj2 (Z.ltb_ge D (2 * (A mod D)))), (proj2 (Z.eqb_neq (2 * (A mod D)) D)) by lia.
    done.
  - rewrite Eq in *. rewrite (proj2 (Z.ltb_lt D (2 * (A mod D)))) by nia. cbn [orb].
    by replace (m - 1 + 1) with m by lia.
Qed.

(** A fraction that is near a representable value rounds to it: within half of
    its spacing, or a quarter where the values below are denser. *)
Lemma round_near A B m s :
  0 < B -> 0 <= A -> 0 < m < 2 ^ 53 -> 0 <= s -> (s = 0 \/ 2 ^ 52 <= m) ->
  2 * Z.abs (A - m * 2 ^ s * B) < 2 ^ s * B ->
  (m = 2 ^ 52 -> 4 * Z.abs (A - m * 2 ^ s * B) < 2 ^ s * B) ->
  round_ratio A B = (m, s).
Proof.
  intros HB HA Hm Hs Hn Hd Hq. pose proof (pow2_pos s Hs) as Hp.
  assert (0 < 2 ^ s * B) as HD by nia.
  destruct (decide (m = 2 ^ 52 /\ 0 < s /\ A < m * 2 ^ s * B)) as [(-> & Hs0 & Hlt)|Hc].
  - specialize (Hq eq_refl).
    assert (2 ^ s = 2 * 2 ^ (s - 1)) as E2
      by (rewrite <-Z.pow_succ_r by lia; f_equal; lia).
    pose proof (pow2_pos (s - 1) ltac:(lia)) as Hp1. set (t := 2 ^ (s - 1)) in *.
    assert (Z.log2 (A / B) = 51 + s) as El.
    { apply log2_at; [lia|]. apply div_bounds; [done|].
      replace (51 + s) with (52 + (s - 1)) by lia. replace (52 + (s - 1) + 1) with (53 + (s - 1)) by lia.
      rewrite !Z.pow_add_r by lia. fold t. change (2 ^ 53) with (2 * 2 ^ 52). rewrite E2 in *. nia. }
    rewrite (round_at A B (2 ^ 53) (s - 1)); [|done|lia|done|lia|].
    + rewrite Z.eqb_refl. f_equal. lia.
    + fold t. rewrite E2 in *. change (2 ^ 53) with (2 * 2 ^ 52). nia.
  - rewrite (round_at A B m s); [by rewrite (proj2 (Z.eqb_neq m (2 ^ 53))) by lia|done|done|done| |].
    2: { replace (m * (B * 2 ^ s)) with (m * 2 ^ s * B) by lia. lia. }
    destruct (decide (s = 0)) as [->|Hs0].
    + rewrite Z.pow_0_r in *. assert (A / B < 2 ^ 53) by (apply Z.div_lt_upper_bound; [done|nia]).
      destruct (Z.le_gt_cases (A / B) 0); [rewrite Z.log2_nonpos by done; lia|].
      assert (Z.log2 (A / B) < 53) by (apply Z.log2_lt_pow2; lia). lia.
    + rewrite (log2_at (A / B) (52 + s)); [lia|lia|]. apply div_bounds; [done|].
      replace (52 + s + 1) with (53 + s) by lia. rewrite !Z.pow_add_r by lia.
      change (2 ^ 53) with (2 * 2 ^ 52) in *. set (t := 2 ^ s) in *.
      assert (2 ^ 52 * (t * B) <= A).
      { destruct (decide (m = 2 ^ 52)) as [->|Hm']; [|assert ((m - 2 ^ 52 - 1) * (t * B) >= 0) by nia; lia].
        apply Z.nlt_ge. intros ?. apply Hc. split_and!; [done|lia|nia]. }
      assert ((2 * 2 ^ 52 - 1 - m) * (t * B) >= 0) by nia. lia.
Qed.

(** ** Values *)

Lemma digits2_log2 m : Zpos (digits2_pos m) = Z.log2 (Zpos m) + 1.
Proof.
  induction m as [m IH|m IH|]; cbn [digits2_pos]; [..|done]; rewrite Pos2Z.inj_succ, IH.
  - change (Zpos m~1) with (2 * Zpos m + 1). rewrite Z.log2_succ_double by done. lia.
  - change (Zpos m~0) with (2 * Zpos m). rewrite Z.log2_double by done. lia.
Qed.

(** A finite value has at most 53 bits, and fewer only at the least exponent. *)
Lemma bounded_spec m e :
  bounded 53 1024 m e = true
  <-> Zpos m < 2 ^ 53 /\ -1074 <= e <= 971 /\ (e = -1074 \/ 2 ^ 52 <= Zpos m).
Proof.
  unfold bounded, canonical_mantissa, fexp, emin. rewrite andb_true_iff, Z.eqb_eq, Z.leb_le, digits2_log2.
  pose proof (Z.log2_spec (Zpos m) ltac:(done)) as [Hl Hu]. pose proof (Z.log2_nonneg (Zpos m)).
  split.
  - intros [E He]. assert (Z.log2 (Zpos m) <= 52) by lia. split_and!.
    + apply Z.log2_lt_pow2; lia.
    + lia.
    + lia.
    + destruct (decide (e = -1074)) as [|Hne]; [by left|right].
      replace 52 with (Z.log2 (Zpos m)) by lia. done.
  - intros (Hm & He & Hn). apply Z.log2_lt_pow2 in Hm; [|done]. split; [|lia].
    destruct Hn as [->|Hn]; [lia|]. apply Z.log2_le_pow2 in Hn; [lia|done].
Qed.

Lemma round_ratio_range A B M s :
  0 < B -> 0 <= A -> round_ratio A B = (M, s) ->
  0 <= M < 2 ^ 53 /\ 0 <= s /\ (s = 0 \/ 2 ^ 52 <= M).
Proof.
  intros HB HA. rewrite round_ratio_unfold. cbv zeta.
  set (t := Z.max 0 (Z.log2 (A / B) - 52)). pose proof (pow2_pos t ltac:(lia)) as Hp.
  assert (0 < B * 2 ^ t) as HD by nia. rewrite <-Z.div_div by lia.
  assert (0 <= A / B) as Hq by (apply Z.div_pos; lia).
  assert (A / B / 2 ^ t < 2 ^ 53 /\ (t = 0 \/ 2 ^ 52 <= A / B / 2 ^ t)) as [Hu Hl].
  { destruct (decide (A / B = 0)) as [E|E]; [by rewrite E, Z.div_0_l by lia; unfold t; rewrite E; cbn; lia|].
    pose proof (Z.log2_spec (A / B) ltac:(lia)) as [H1 H2]. split.
    - apply Z.div_lt_upper_bound; [done|]. rewrite <-Z.pow_add_r by lia.
      eapply Z.lt_le_trans; [exact H2|]. apply Z.pow_le_mono_r; lia.
    - destruct (decide (t = 0)); [by left|right]. apply Z.div_le_lower_bound; [done|].
      rewrite <-Z.pow_add_r by lia. eapply Z.le_trans; [|exact H1]. apply Z.pow_le_mono_r; lia. }
  assert (0 <= A / B / 2 ^ t) by (by apply Z.div_pos).
  destruct (_ || _); (match goal with |- context [?x =? 2 ^ 53] => destruct (Z.eqb_spec x (2 ^ 53)) end);
    intros [= <- <-]; lia.
Qed.

(** What is read is a value of the format. *)
Lemma float_of_ratio_valid negative A B :
  0 < B -> 0 <= A -> valid_binary 53 1024 (float_of_ratio negative A B) = true.
Proof.
  intros HB HA. unfold float_of_ratio. destruct (round_ratio A B) as [M s] eqn:E.
  apply round_ratio_range in E as (HM & Hs & Hn); [|done|done]. unfold scale.
  destruct M as [|m|m]; [done| |done]. destruct (Z.leb_spec s (971 + 1074)); [|done].
  cbn [valid_binary]. apply bounded_spec. lia.
Qed.

Lemma pow10_pos n : 0 <= n -> 0 < 10 ^ n.
Proof. intros. by apply Z.pow_pos_nonneg. Qed.

Lemma float_of_decimal_valid negative d p :
  0 <= d -> valid_binary 53 1024 (float_of_decimal negative d p) = true.
Proof.
  intros Hd. unfold float_of_decimal. pose proof (pow2_pos scale ltac:(done)).
  destruct (Z.leb_spec 0 p).
  - apply float_of_ratio_valid; [done|]. pose proof (pow10_pos p). nia.
  - apply float_of_ratio_valid; [apply pow10_pos; lia|nia].
Qed.

Lemma float_of_ratio_eq negative A B A' B' :
  0 < B -> 0 < B' -> A * B' = A' * B -> float_of_ratio negative A B = float_of_ratio negative A' B'.
Proof. intros HB HB' E. unfold float_of_ratio. by rewrite (round_ratio_eq A B A' B'). Qed.

(** A decimal as a fraction, by any power of ten that makes it one. *)
Lemma float_of_decimal_shift negative d p j :
  0 <= j -> 0 <= p + j ->
  float_of_decimal negative d p = float_of_ratio negative (d * 10 ^ (p + j) * 2 ^ scale) (10 ^ j).
Proof.
  intros Hj Hp. unfold float_of_decimal. destruct (Z.leb_spec 0 p).
  - apply float_of_ratio_eq; [done|by apply pow10_pos|]. rewrite Z.pow_add_r by lia. lia.
  - apply float_of_ratio_eq; [apply pow10_pos; lia|by apply pow10_pos|].
    replace (10 ^ j) with (10 ^ (p + j) * 10 ^ (- p)) by (rewrite <-Z.pow_add_r by lia; f_equal; lia). lia.
Qed.

(** A decimal with zeros behind it. *)
Lemma float_of_decimal_pad negative d p n :
  0 <= n -> float_of_decimal negative (d * 10 ^ n) (p - n) = float_of_decimal negative d p.
Proof.
  intros Hn. set (j := Z.abs p + n). rewrite !(float_of_decimal_shift _ _ _ j) by lia. f_equal.
  replace (p + j) with (n + (p - n + j)) by lia. rewrite (Z.pow_add_r 10 n) by lia. lia.
Qed.

(** The sign is that of the text. *)
Lemma float_of_decimal_sign negative d p m e :
  float_of_decimal false d p = S754_finite false m e -> float_of_decimal negative d p = S754_finite negative m e.
Proof.
  unfold float_of_decimal, float_of_ratio. intros H.
  case_match; (destruct (round_ratio _ _) as [[|k|k] s]; try done; case_match; [|done]; by injection H as -> ->).
Qed.

(** ** Digits *)

Lemma value_of_bounds ds v :
  Forall (fun d => 0 <= d < 10) ds -> 0 <= v ->
  v * 10 ^ Z.of_nat (length ds) <= value_of 10 ds v < (v + 1) * 10 ^ Z.of_nat (length ds).
Proof.
  intros H. revert v. induction H as [|d ds Hd _ IH]; intros v Hv; unfold value_of; cbn [fold_left length].
  - rewrite Z.pow_0_r. lia.
  - specialize (IH (v * 10 + d) ltac:(lia)). unfold value_of in IH.
    rewrite Nat2Z.inj_succ, Z.pow_succ_r by lia.
    pose proof (pow10_pos (Z.of_nat (length ds)) ltac:(lia)). nia.
Qed.

(** No leading zero. *)
Lemma digits_head fuel n acc :
  0 < n < 2 ^ Z.of_nat fuel -> exists d ds, digits fuel 10 n acc = d :: ds /\ d <> 0.
Proof.
  revert n acc. induction fuel as [|fuel IH]; intros n acc Hn; [cbn in Hn; lia|].
  cbn [digits]. destruct (Z.ltb_spec n 10).
  - exists n, acc. split; [done|lia].
  - apply IH. rewrite Nat2Z.inj_succ, Z.pow_succ_r in Hn by lia. zdiv.
Qed.

Lemma digits_of_head n : 0 < n -> exists d ds, digits_of 10 n = d :: ds /\ 0 < d.
Proof.
  intros Hn. destruct (digits_head (S (Z.to_nat (Z.log2 n))) n []) as (d & ds & E & Hd).
  { rewrite Nat2Z.inj_succ, Z2Nat.id by apply Z.log2_nonneg. pose proof (Z.log2_spec n). lia. }
  exists d, ds. split; [done|]. pose proof (digits_of_bounded 10 n ltac:(lia) ltac:(lia)) as Hb.
  unfold digits_of in Hb. rewrite E in Hb. apply Forall_cons in Hb as [Hb _]. lia.
Qed.

Lemma digit_count_spec n : 0 < n -> 0 < digit_count n /\ 10 ^ (digit_count n - 1) <= n < 10 ^ digit_count n.
Proof.
  intros Hn. pose proof (digits_of_bounded 10 n ltac:(lia) ltac:(lia)) as Hb.
  pose proof (digits_of_value 10 n ltac:(lia) ltac:(lia)) as Hv. unfold digit_count.
  destruct (digits_of_head n Hn) as (d & ds & E & Hd). rewrite E in Hb, Hv |- *.
  apply Forall_cons in Hb as [Hd' Hb]. unfold value_of in Hv. cbn [fold_left] in Hv.
  pose proof (value_of_bounds ds d Hb ltac:(lia)) as H. unfold value_of in H. replace (0 * 10 + d) with d in Hv by lia.
  cbn [length]. rewrite Nat2Z.inj_succ, Z.sub_1_r, Z.pred_succ, Z.pow_succ_r by lia.
  pose proof (pow10_pos (Z.of_nat (length ds)) ltac:(lia)). nia.
Qed.

(** ** What is written reads back *)

Lemma strip_spec fuel d p d' p' negative :
  0 < d -> strip fuel d p = (d', p') ->
  0 < d' /\ float_of_decimal negative d' p' = float_of_decimal negative d p.
Proof.
  revert d p. induction fuel as [|fuel IH]; intros d p Hd; cbn [strip]; [by intros [= <- <-]|].
  destruct (Z.eqb_spec (d mod 10) 0) as [E|]; [|by intros [= <- <-]].
  intros (Hd' & ->)%IH; [|zdiv]. split; [done|].
  rewrite <-(float_of_decimal_pad negative (d / 10) (p + 1) 1) by lia. f_equal; zdiv.
Qed.

(** The value of a float in units is that of its exact decimal. *)
Lemma exact_decimal_spec m e X p :
  -1074 <= e -> exact_decimal m e = (X, p) ->
  0 < X /\ -1074 <= p /\ forall j, 0 <= j -> 0 <= p + j ->
  Zpos m * 2 ^ (e + scale) * 10 ^ j = X * 10 ^ (p + j) * 2 ^ scale.
Proof.
  intros He. unfold exact_decimal, scale. destruct (Z.leb_spec 0 e); intros [= <- <-].
  - pose proof (pow2_pos e). split_and!; [nia|lia|]. intros j Hj _.
    rewrite Z.add_0_l, Z.pow_add_r by lia. lia.
  - split_and!; [apply Z.mul_pos_pos; [done|apply Z.pow_pos_nonneg; lia]|done|]. intros j Hj Hej.
    replace (2 ^ 1074) with (2 ^ (e + 1074) * 2 ^ (- e)) by (rewrite <-Z.pow_add_r by lia; f_equal; lia).
    replace (10 ^ j) with (10 ^ (e + j) * 10 ^ (- e)) by (rewrite <-Z.pow_add_r by lia; f_equal; lia).
    assert (10 ^ (- e) = 5 ^ (- e) * 2 ^ (- e)) as -> by by rewrite <-Z.pow_mul_l. lia.
Qed.

(** The nearer candidate is within half a unit of its last digit. *)
Lemma candidates_near X K n near far :
  0 <= X -> candidates X K n = (near, far) ->
  let N := X * 10 ^ Z.max 0 (n - K) in
  let P := 10 ^ Z.max 0 (K - n) in
  0 <= near /\ 0 <= far /\ 2 * Z.abs (near * P - N) <= P.
Proof.
  intros HX. unfold candidates. cbv zeta. set (N := X * _). set (P := 10 ^ Z.max 0 (K - n)).
  assert (0 < P) as HP by (apply pow10_pos; lia).
  assert (0 <= N) as HN by (apply Z.mul_nonneg_nonneg; [done|]; apply Z.pow_nonneg; lia).
  pose proof (Z.div_mod N P ltac:(lia)) as E. pose proof (Z.mod_pos_bound N P HP) as Hr.
  assert (0 <= N / P) by (apply Z.div_pos; lia).
  unfold Z.div, Z.modulo in *. destruct (Z.div_eucl N P) as [q r].
  destruct ((P <? 2 * r) || ((2 * r =? P) && Z.odd q)) eqn:Ec; intros [= <- <-]; split_and!; lia.
Qed.

(** An error of half of [G] is harmless when [G] is 10^-16 of the value. *)
Lemma rounds_back A B G m s :
  0 < B -> 0 <= A -> 0 < m < 2 ^ 53 -> 0 <= s -> (s = 0 \/ 2 ^ 52 <= m) ->
  2 * Z.abs (A - m * 2 ^ s * B) <= G -> G * 10 ^ 16 <= m * 2 ^ s * B -> round_ratio A B = (m, s).
Proof.
  intros HB HA Hm Hs Hn Hd HG. pose proof (pow2_pos s Hs).
  replace (m * 2 ^ s * B) with (m * (2 ^ s * B)) in * by lia. assert (0 < 2 ^ s * B) as Ht by nia.
  set (t := 2 ^ s * B) in *. assert (m * t <= (2 ^ 53 - 1) * t) by nia.
  assert (G < t) by lia. apply round_near; try done; replace (m * 2 ^ s * B) with (m * t) by (unfold t; lia); fold t.
  - lia.
  - intros ->. lia.
Qed.

(** The error of the nearer decimal of 17 digits, over the common denominator
    10^j. *)
Lemma decimal_error X p j near far :
  let K := digit_count X in
  let G := 10 ^ (K + p - 17 + j) * 2 ^ scale in
  let V := X * 10 ^ (p + j) * 2 ^ scale in
  0 < X -> 0 <= p + j -> 0 <= K + p - 17 + j -> candidates X K 17 = (near, far) ->
  0 <= near * G /\ 2 * Z.abs (near * G - V) <= G /\ G * 10 ^ 16 <= V.
Proof.
  intros K G V HX Hpj HKj (Hnear & _ & Herr)%candidates_near; [|lia]. cbv zeta in Herr.
  destruct (digit_count_spec X HX) as (HK & Hlow & _). fold K in HK, Hlow.
  pose proof (pow2_pos scale ltac:(done)) as H2. pose proof (pow10_pos (p + j) Hpj) as Hp.
  assert (0 < G) as HG by (apply Z.mul_pos_pos; [by apply pow10_pos|done]).
  set (T := 10 ^ (p + j) * 2 ^ scale). assert (0 < T) as HT by nia.
  assert (V = X * T) as -> by (unfold V, T; lia). split; [nia|].
  assert (G * 10 ^ 16 = 10 ^ (K - 1) * T) as E16.
  { unfold G, T. replace (10 ^ (K - 1) * (10 ^ (p + j) * 2 ^ scale)) with (10 ^ (K - 1) * 10 ^ (p + j) * 2 ^ scale) by lia.
    replace (10 ^ (K + p - 17 + j) * 2 ^ scale * 10 ^ 16) with (10 ^ (K + p - 17 + j) * 10 ^ 16 * 2 ^ scale) by lia.
    rewrite <-!Z.pow_add_r by lia. do 2 f_equal. lia. }
  split; [|rewrite E16; apply Z.mul_le_mono_nonneg_r; lia]. destruct (Z.le_gt_cases 17 K).
  - rewrite (Z.max_l 0 (17 - K)), (Z.max_r 0 (K - 17)), Z.pow_0_r in Herr by lia.
    assert (G = 10 ^ (K - 17) * T) as ->; [|nia].
    unfold G, T. rewrite Z.mul_assoc, <-Z.pow_add_r by lia. do 2 f_equal. lia.
  - rewrite (Z.max_r 0 (17 - K)), (Z.max_l 0 (K - 17)), Z.pow_0_r in Herr by lia.
    assert (T = 10 ^ (17 - K) * G) as ->; [|nia].
    unfold G, T. rewrite Z.mul_assoc, <-Z.pow_add_r by lia. do 2 f_equal. lia.
Qed.

(** Seventeen digits read back. *)
Lemma seventeen_digits m e X p near far :
  bounded 53 1024 m e = true -> exact_decimal m e = (X, p) -> candidates X (digit_count X) 17 = (near, far) ->
  float_of_decimal false near (digit_count X + p - 17) = S754_finite false m e.
Proof.
  intros (Hm & He & Hn)%bounded_spec (HX & Hp & Hval)%exact_decimal_spec Hc; [|lia].
  destruct (digit_count_spec X HX) as (HK & _). set (j := 2000 + digit_count X).
  specialize (Hval j ltac:(lia) ltac:(lia)).
  destruct (decimal_error X p j near far HX ltac:(lia) ltac:(lia) Hc) as (HA & Hd & HG).
  rewrite <-Hval in Hd, HG. rewrite (float_of_decimal_shift _ _ _ j) by lia.
  rewrite <-Z.mul_assoc. unfold float_of_ratio, scale in *.
  rewrite (rounds_back _ _ _ (Zpos m) (e + 1074) (pow10_pos j ltac:(lia)) HA) by (exact Hd || exact HG || lia).
  rewrite (proj2 (Z.leb_le _ _)) by lia. f_equal. lia.
Qed.

Lemma float_of_decimal_zero negative p : float_of_decimal negative 0 p = S754_zero negative.
Proof.
  assert (forall B, 0 < B -> float_of_ratio negative 0 B = S754_zero negative) as H.
  { intros B HB. unfold float_of_ratio. rewrite (round_at 0 B 0 0); try done; lia. }
  unfold float_of_decimal. destruct (Z.leb_spec 0 p); rewrite !Z.mul_0_l; apply H; [done|].
  apply pow10_pos. lia.
Qed.

(** A decimal that reads as a finite value is positive. *)
Lemma reads_positive d p m e : 0 <= d -> float_of_decimal false d p = S754_finite false m e -> 0 < d.
Proof.
  intros Hd Hr. destruct (decide (d = 0)) as [->|]; [|lia]. by rewrite float_of_decimal_zero in Hr.
Qed.

Lemma shortest_spec m e X p n fuel d p' :
  bounded 53 1024 m e = true -> exact_decimal m e = (X, p) -> n + Z.of_nat fuel = 17 ->
  shortest (S754_finite false m e) X (digit_count X) p n fuel = (d, p') ->
  0 < d /\ float_of_decimal false d p' = S754_finite false m e.
Proof.
  intros Hb HX. pose proof HX as (HX0 & _)%exact_decimal_spec; [|by apply bounded_spec in Hb; lia].
  revert n. induction fuel as [|fuel IH]; intros n Hn; cbn [shortest];
    destruct (candidates X (digit_count X) n) as [near far] eqn:Ec;
    pose proof Ec as (Hnear & Hfar & _)%candidates_near; try lia.
  - replace n with 17 in * by lia. rewrite decide_True by by eapply seventeen_digits.
    intros [= <- <-]. pose proof (seventeen_digits _ _ _ _ _ _ Hb HX Ec) as Hr.
    split; [by eapply reads_positive|done].
  - case_decide as H1; [intros [= <- <-]; split; [by eapply reads_positive|done]|].
    case_decide as H2; [intros [= <- <-]; split; [by eapply reads_positive|done]|].
    apply IH. lia.
Qed.

(** The decimal [repr] shows reads back, with either sign. *)
Lemma shortest_decimal_reads m e d p negative :
  bounded 53 1024 m e = true -> shortest_decimal m e = (d, p) ->
  0 < d /\ float_of_decimal negative d p = S754_finite negative m e.
Proof.
  intros Hb. unfold shortest_decimal. destruct (exact_decimal m e) as [X q] eqn:HX.
  destruct (shortest _ X _ q 1 16) as [c r] eqn:Hs. intros Hst.
  apply shortest_spec in Hs as [Hc Hr]; [|done|done|done].
  apply (strip_spec _ _ _ _ _ negative) in Hst as [Hd ->]; [|done].
  split; [done|]. by apply float_of_decimal_sign.
Qed.

(** ** The text is ASCII *)

Lemma digits_text_ascii n : 0 <= n -> Forall ascii (digits_text n).
Proof.
  intros Hn. apply Forall_map. eapply Forall_impl; [by apply digits_of_bounded|].
  intros d Hd. cbv beta in Hd. unfold ascii, digit_char. rewrite uchar_byte_of_Z.
  destruct (Z.ltb_spec d 10); rewrite Z.mod_small by lia; lia.
Qed.

Lemma format_decimal_ascii d p : 0 <= d -> Forall ascii (format_decimal d p).
Proof.
  intros Hd. pose proof (digits_text_ascii d Hd) as H.
  assert (forall n, Forall ascii (zeros n)) as Hz by (intros; by apply Forall_replicate).
  assert (forall x, Forall ascii (exponent_text x)) as Hx.
  { intros x. unfold exponent_text. repeat (apply Forall_app; split); [by case_match; repeat constructor..|].
    apply digits_text_ascii. lia. }
  unfold format_decimal. cbv zeta.
  repeat case_match; rewrite ?Forall_app; split_and!; try done; try (by repeat constructor);
    try (by apply Forall_take); by apply Forall_drop.
Qed.

Lemma shortest_nonneg x X K p n fuel d p' : 0 <= X -> shortest x X K p n fuel = (d, p') -> 0 <= d.
Proof.
  intros HX. revert n. induction fuel as [|fuel IH]; intros n; cbn [shortest];
    destruct (candidates X K n) as [near far] eqn:Ec; apply candidates_near in Ec as (? & ? & _); try done;
    repeat (case_decide; [by intros [= <- <-]|]); [by intros [= <- <-]|apply IH].
Qed.

Lemma strip_nonneg fuel d p d' p' : 0 <= d -> strip fuel d p = (d', p') -> 0 <= d'.
Proof.
  revert d p. induction fuel as [|fuel IH]; intros d p Hd; cbn [strip]; [by intros [= <- <-]|].
  destruct (d mod 10 =? 0); [|by intros [= <- <-]]. apply IH. by apply Z.div_pos.
Qed.

Lemma shortest_decimal_nonneg m e d p : shortest_decimal m e = (d, p) -> 0 <= d.
Proof.
  unfold shortest_decimal. destruct (exact_decimal m e) as [X q] eqn:HX.
  destruct (shortest _ X _ q 1 16) as [c r] eqn:Hs. intros Ht.
  eapply strip_nonneg, Ht. eapply shortest_nonneg, Hs.
  unfold exact_decimal in HX. destruct (0 <=? e); injection HX as <- _;
    (apply Z.mul_nonneg_nonneg; [done|by apply Z.pow_nonneg]).
Qed.

Lemma float_repr_ascii x : Forall ascii (float_repr x).
Proof.
  assert (forall b, Forall ascii (minus b)) as Hm by (intros []; by repeat constructor).
  destruct x as [b|b| |b m e]; cbn [float_repr]; [apply Forall_app; split; [done|by repeat constructor]..|
    by repeat constructor|]. apply Forall_app; split; [done|].
  destruct (shortest_decimal m e) as [d p] eqn:E.
  by eapply format_decimal_ascii, shortest_decimal_nonneg.
Qed.
