(* ===== verification/PyJson.v ===== *)
(** * Python's [json]: what is written

    [json.dumps(value, sort_keys=True, separators=(",", ":"))] of the values
    the reference writes (dicts, lists, strings, numbers, truth values and
    [None]), which is
    [canonical_json] of reference/python/ma2a/auth.py and the body of
    [send_frame] of transport.py.  An integer of more than 4300 digits, which
    [json.dumps] refuses, is outside of the model of [dumps]. *)
From Stdlib Require Import SpecFloat.
From S2P Require Import Prelude Canonical Reader Unicode Crypto CryptoSpec PyText PyFloat.

#[local] Unset Elimination Schemes.
Inductive pyobj : Type :=
| PNone
| PBool (b : bool)
| PInt (z : Z)
| PFloat (x : spec_float)
| PStr (s : pystr)
| PList (l : list pyobj)
| PDict (items : list (pystr * pyobj)).
#[local] Set Elimination Schemes.

(** [sorted(dct.items())]: the keys of a dict are distinct, so only they are
    compared. *)
Fixpoint insert_item {A} (k : pystr) (x : A) (l : list (pystr * A)) : list (pystr * A) :=
  match l with
  | [] => [(k, x)]
  | (k', y) :: l' => if seq_lt k k' then (k, x) :: l else (k', y) :: insert_item k x l'
  end.
Fixpoint sort_items {A} (l : list (pystr * A)) : list (pystr * A) :=
  match l with
  | [] => []
  | (k, x) :: l => insert_item k x (sort_items l)
  end.

(** [sep.join(texts)] *)
Fixpoint join {A} (sep : A) (texts : list (list A)) : list A :=
  match texts with
  | [] => []
  | [t] => t
  | t :: texts => t ++ sep :: join sep texts
  end.

Definition dump_item (item : pystr * bytes) : bytes :=
  py_json_string (fst item) ++ str ":" ++ snd item.

Fixpoint dumps (v : pyobj) : bytes :=
  match v with
  | PNone => str "null"
  | PBool b => if b then str "true" else str "false"
  | PInt z => ostream_dec z
  | PFloat x => float_repr x
  | PStr s => py_json_string s
  | PList l => str "[" ++ join x2c (map dumps l) ++ str "]"
  | PDict items =>
      str "{" ++ join x2c (map dump_item (sort_items (map (fun '(k, v) => (k, dumps v)) items)))
      ++ str "}"
  end.

(** [json.dumps(...).encode("utf-8")]: the text is ASCII. *)
Definition canonical_json (value : pyobj) : bytes := dumps value.

(** An induction principle that goes through lists and dicts. *)
Section induction.
Context (P : pyobj -> Prop) (Hnone : P PNone) (Hbool : forall b, P (PBool b))
  (Hint : forall z, P (PInt z)) (Hfloat : forall x, P (PFloat x))
  (Hstr : forall s, P (PStr s)) (Hlist : forall l, Forall P l -> P (PList l))
  (Hdict : forall items, Forall (fun item => P (snd item)) items -> P (PDict items)).

Fixpoint pyobj_nested_ind (v : pyobj) : P v :=
  match v with
  | PNone => Hnone
  | PBool b => Hbool b
  | PInt z => Hint z
  | PFloat x => Hfloat x
  | PStr s => Hstr s
  | PList l =>
      Hlist l ((fix go (l : list pyobj) : Forall P l :=
        match l with
        | [] => List.Forall_nil P
        | v :: l => List.Forall_cons P v l (pyobj_nested_ind v) (go l)
        end) l)
  | PDict items =>
      Hdict items ((fix go (l : list (pystr * pyobj)) : Forall (fun item => P (snd item)) l :=
        match l with
        | [] => List.Forall_nil _
        | item :: l => List.Forall_cons _ item l (pyobj_nested_ind (snd item)) (go l)
        end) items)
  end.
End induction.

(** ** The text is ASCII *)

Lemma digit_char_ascii d : (0 <= d < 16)%Z -> ascii (digit_char d).
Proof. intros H. pose proof (printable_digit_char d H). unfold ascii, printable in *. lia. Qed.

Lemma ostream_dec_ascii z : Forall ascii (ostream_dec z).
Proof.
  assert (forall n, (0 <= n)%Z -> Forall ascii (map digit_char (digits_of 10 n))) as H.
  { intros n Hn. apply Forall_map. eapply Forall_impl; [by apply digits_of_bounded|].
    intros d Hd. apply digit_char_ascii. cbn in Hd. lia. }
  unfold ostream_dec. destruct (Z.ltb_spec z 0); [constructor; [done|]|]; apply H; lia.
Qed.

Lemma printable_ascii b : printable b -> ascii b.
Proof. unfold printable, ascii. lia. Qed.

Lemma py_json_string_ascii s : Forall scalar s -> Forall ascii (py_json_string s).
Proof.
  intros H. eapply Forall_impl; [|apply printable_ascii]. unfold py_json_string.
  apply Forall_app; split; [by repeat constructor|].
  apply Forall_app; split; [|by repeat constructor].
  apply Forall_concat, Forall_map. eapply Forall_impl; [exact H|]. apply printable_py_escape.
Qed.

(** [int(text)] of more digits than this raises. *)
Definition int_max_str_digits : nat := 4300.

(** Values that can be written and read back: strings without surrogates,
    integers Python reads back, floats of the format, and dicts (whose keys are
    distinct). *)
#[local] Unset Elimination Schemes.
Inductive writable : pyobj -> Prop :=
| writable_none : writable PNone
| writable_bool b : writable (PBool b)
| writable_int z : length (digits_of 10 (Z.abs z)) <= int_max_str_digits -> writable (PInt z)
| writable_float x : valid_binary 53 1024 x = true -> writable (PFloat x)
| writable_str s : Forall scalar s -> writable (PStr s)
| writable_list l : Forall writable l -> writable (PList l)
| writable_dict items :
    NoDup (map fst items) -> Forall (fun item => Forall scalar (fst item)) items ->
    Forall (fun item => writable (snd item)) items -> writable (PDict items).
#[local] Set Elimination Schemes.

Lemma join_ascii texts : Forall (Forall ascii) texts -> Forall ascii (join x2c texts).
Proof.
  induction 1 as [|t texts Ht H IH]; [constructor|]. cbn [join].
  destruct texts; [done|]. apply Forall_app; split; [done|]. by constructor.
Qed.

Lemma Forall_insert_item {A} (P : pystr * A -> Prop) k x l :
  P (k, x) -> Forall P l -> Forall P (insert_item k x l).
Proof.
  intros Hx. induction 1 as [|[k' y] l Hy Hl IH]; cbn [insert_item]; [by repeat constructor|].
  destruct (seq_lt k k'); by repeat constructor.
Qed.

Lemma Forall_sort_items {A} (P : pystr * A -> Prop) l : Forall P l -> Forall P (sort_items l).
Proof.
  induction 1 as [|[k x] l Hx Hl IH]; [done|]. by apply Forall_insert_item.
Qed.

Lemma dumps_ascii v : writable v -> Forall ascii (dumps v).
Proof.
  induction v as [|b|z|x|s|l IH|items IH] using pyobj_nested_ind; inversion_clear 1; cbn [dumps].
  - by repeat constructor.
  - destruct b; by repeat constructor.
  - apply ostream_dec_ascii.
  - apply float_repr_ascii.
  - by apply py_json_string_ascii.
  - repeat (apply Forall_app; split); [by repeat constructor| |by repeat constructor].
    apply join_ascii, Forall_map. rewrite Forall_forall in *. auto.
  - repeat (apply Forall_app; split); [by repeat constructor| |by repeat constructor].
    apply join_ascii, Forall_map.
    apply Forall_impl with (fun item => Forall scalar (fst item) /\ Forall ascii (snd item)).
    + apply Forall_sort_items, Forall_map. rewrite Forall_forall in *. intros [k v] Hin.
      cbn. split; [by apply (H1 (k, v))|]. apply (IH (k, v) Hin), (H2 (k, v) Hin).
    + intros [k t] [Hk Ht]. unfold dump_item. cbn [fst snd].
      rewrite !Forall_app. split_and!; [by apply py_json_string_ascii|by repeat constructor|done].
Qed.
