(* ===== verification/PyLoads.v ===== *)
(** * Python's [json]: what is read

    [json.loads(text)] as CPython 3.11 implements it: white space, the number
    grammar, strings in strict mode with surrogate pairs joined, dicts in which
    a repeated key keeps its place and takes the last value.  [depth] is what is
    left of the recursion limit. *)
From Stdlib Require Import SpecFloat.
From S2P Require Import Prelude Canonical Reader JsonRoundTrip Unicode Crypto CryptoSpec PyText PyFloat PyJson.

#[local] Unset Elimination Schemes.
Inductive json : Type :=
| JNull
| JBool (b : bool)
| JInt (z : Z)
| JFloat (x : spec_float)
| JStr (s : pystr)
| JArr (l : list json)
| JObj (items : list (pystr * json)).
#[local] Set Elimination Schemes.

(** [json.JSONDecodeError], a subclass of [ValueError]. *)
Definition JSONDecodeError : pyexn := ValueError "JSONDecodeError".

Definition is_space (c : Z) : bool :=
  (c =? 0x20)%Z || (c =? 0x09)%Z || (c =? 0x0a)%Z || (c =? 0x0d)%Z.
Fixpoint skip_space (s : pystr) : pystr :=
  match s with
  | c :: s' => if is_space c then skip_space s' else s
  | [] => []
  end.

(** ** Strings *)

Definition hex_value (c : Z) : presult Z :=
  if (0x30 <=? c)%Z && (c <=? 0x39)%Z then Ok (c - 0x30)%Z
  else if (0x61 <=? c)%Z && (c <=? 0x66)%Z then Ok (c - 0x61 + 10)%Z
  else if (0x41 <=? c)%Z && (c <=? 0x46)%Z then Ok (c - 0x41 + 10)%Z
  else Raise JSONDecodeError.

Definition hex_unit (a b c d : Z) : presult Z :=
  a ← hex_value a; b ← hex_value b; c ← hex_value c; d ← hex_value d;
  Ok (((a * 16 + b) * 16 + c) * 16 + d)%Z.

Definition high_surrogate (u : Z) : bool := (0xd800 <=? u)%Z && (u <=? 0xdbff)%Z.
Definition low_surrogate (u : Z) : bool := (0xdc00 <=? u)%Z && (u <=? 0xdfff)%Z.

(** The character of an escape of one letter. *)
Definition simple_escape (e : Z) : option Z :=
  if (e =? 0x22)%Z then Some 0x22%Z else if (e =? 0x5c)%Z then Some 0x5c%Z
  else if (e =? 0x2f)%Z then Some 0x2f%Z else if (e =? 0x62)%Z then Some 0x08%Z
  else if (e =? 0x66)%Z then Some 0x0c%Z else if (e =? 0x6e)%Z then Some 0x0a%Z
  else if (e =? 0x72)%Z then Some 0x0d%Z else if (e =? 0x74)%Z then Some 0x09%Z else None.

(** Prepends a code point to the string read from the rest. *)
Definition cons_str (c : Z) (r : presult (pystr * pystr)) : presult (pystr * pystr) :=
  '(t, rest) ← r; Ok (c :: t, rest).

(** From behind the opening quote to behind the closing one. *)
Fixpoint scanstring (s : pystr) : presult (pystr * pystr) :=
  match s with
  | [] => Raise JSONDecodeError
  | c :: s1 =>
      if (c =? 0x22)%Z then Ok ([], s1) else
      if negb (c =? 0x5c)%Z then
        if (c <=? 0x1f)%Z then Raise JSONDecodeError else cons_str c (scanstring s1)
      else
        match s1 with
        | [] => Raise JSONDecodeError
        | e :: s2 =>
            if negb (e =? 0x75)%Z then
              match simple_escape e with
              | Some c => cons_str c (scanstring s2)
              | None => Raise JSONDecodeError
              end
            else
              match s2 with
              | h0 :: h1 :: h2 :: h3 :: s3 =>
                  u ← hex_unit h0 h1 h2 h3;
                  match s3 with
                  | b :: x :: l0 :: l1 :: l2 :: l3 :: s4 =>
                      if high_surrogate u && (b =? 0x5c)%Z && (x =? 0x75)%Z then
                        v ← hex_unit l0 l1 l2 l3;
                        if low_surrogate v
                        then cons_str (0x10000 + (u - 0xd800) * 1024 + (v - 0xdc00))%Z
                               (scanstring s4)
                        else cons_str u (scanstring s3)
                      else cons_str u (scanstring s3)
                  | _ => cons_str u (scanstring s3)
                  end
              | _ => Raise JSONDecodeError
              end
        end
  end.

(** ** Numbers *)

Definition digitb (c : Z) : bool := (0x30 <=? c)%Z && (c <=? 0x39)%Z.
Fixpoint span_digits (s : pystr) : pystr * pystr :=
  match s with
  | c :: s' => if digitb c then let '(d, r) := span_digits s' in (c :: d, r) else ([], s)
  | [] => ([], [])
  end.

(** The integer part: a zero, or digits that start with none. *)
Definition int_part (s : pystr) : option (pystr * pystr) :=
  match s with
  | c :: s' =>
      if (c =? 0x30)%Z then Some ([c], s')
      else if digitb c then let '(d, r) := span_digits s' in Some (c :: d, r) else None
  | [] => None
  end.
(** The fraction, if there is one. *)
Definition frac_part (s : pystr) : pystr * pystr :=
  match s with
  | c :: d :: s' =>
      if (c =? 0x2e)%Z && digitb d then let '(ds, r) := span_digits s' in (c :: d :: ds, r)
      else ([], s)
  | _ => ([], s)
  end.
(** The exponent, if there is one. *)
Definition exp_part (s : pystr) : pystr * pystr :=
  match s with
  | c :: s' =>
      if (c =? 0x65)%Z || (c =? 0x45)%Z then
        let '(sign, r) := match s' with
                          | x :: r => if (x =? 0x2b)%Z || (x =? 0x2d)%Z then ([x], r) else ([], s')
                          | [] => ([], s')
                          end in
        match span_digits r with
        | ([], _) => ([], s)
        | (ds, r) => (c :: sign ++ ds, r)
        end
      else ([], s)
  | [] => ([], s)
  end.

(** [int(digits)] *)
Definition int_of_digits (ds : pystr) : Z := fold_left (fun v d => v * 10 + (d - 0x30))%Z ds 0%Z.

(** [float(text)] of the parts of a literal. *)
Definition exponent_value (exp : pystr) : Z :=
  match exp with
  | _ :: c :: ds =>
      if (c =? 0x2b)%Z then int_of_digits ds
      else if (c =? 0x2d)%Z then (- int_of_digits ds)%Z
      else int_of_digits (c :: ds)
  | _ => 0%Z
  end.
Definition float_of_literal (sign ds frac exp : pystr) : spec_float :=
  let frac := drop 1 frac in
  float_of_decimal (match sign with [] => false | _ => true end) (int_of_digits (ds ++ frac))
    (exponent_value exp - Z.of_nat (length frac)).

Definition match_number (s : pystr) : presult (json * pystr) :=
  let '(sign, s1) := match s with
                     | c :: s1 => if (c =? 0x2d)%Z then ([c], s1) else ([], s)
                     | [] => ([], s)
                     end in
  match int_part s1 with
  | None => Raise JSONDecodeError
  | Some (ds, s2) =>
      let '(frac, s3) := frac_part s2 in
      let '(exp, s4) := exp_part s3 in
      match frac ++ exp with
      | [] =>
          if int_max_str_digits <? length ds
          then Raise (ValueError "Exceeds the limit for integer string conversion")
          else Ok (JInt (match sign with [] => int_of_digits ds | _ => - int_of_digits ds end)%Z, s4)
      | _ => Ok (JFloat (float_of_literal sign ds frac exp), s4)
      end
  end.

(** ** Values *)

Fixpoint starts_with (p s : pystr) : option pystr :=
  match p, s with
  | [], _ => Some s
  | c :: p, d :: s => if (c =? d)%Z then starts_with p s else None
  | _ :: _, [] => None
  end.

(** The constants, in the order the scanner tries them. *)
Definition constants : list (pystr * json) :=
  [(lit "null", JNull); (lit "true", JBool true); (lit "false", JBool false);
   (lit "NaN", JFloat S754_nan); (lit "Infinity", JFloat (S754_infinity false));
   (lit "-Infinity", JFloat (S754_infinity true))].
Fixpoint match_constant (cs : list (pystr * json)) (s : pystr) : option (json * pystr) :=
  match cs with
  | [] => None
  | (text, v) :: cs =>
      match starts_with text s with
      | Some rest => Some (v, rest)
      | None => match_constant cs s
      end
  end.

(** [dct[k] = v] *)
Fixpoint dict_set {A} (k : pystr) (v : A) (items : list (pystr * A)) : list (pystr * A) :=
  match items with
  | [] => [(k, v)]
  | (k', v') :: items => if decide (k = k') then (k', v) :: items else (k', v') :: dict_set k v items
  end.

(** [scan_once], and the loops over the members of a dict (in front of a key)
    and the elements of a list (in front of a value).  A value is begun in front
    of a shorter text than the value around it, with at most one call in
    between, so twice the length of the text is [fuel] enough ([scan_fuel]). *)
Fixpoint scan_once (fuel depth : nat) (s : pystr) {struct fuel} : presult (json * pystr) :=
  match fuel with
  | O => Raise RecursionError
  | S fuel =>
      match s with
      | [] => Raise JSONDecodeError
      | c :: s1 =>
          if (c =? 0x22)%Z then '(t, rest) ← scanstring s1; Ok (JStr t, rest)
          else if (c =? 0x7b)%Z then
            match depth with
            | O => Raise RecursionError
            | S depth =>
                match skip_space s1 with
                | [] => Raise JSONDecodeError
                | d :: s2 =>
                    if (d =? 0x7d)%Z then Ok (JObj [], s2)
                    else '(items, rest) ← scan_members fuel depth (d :: s2) []; Ok (JObj items, rest)
                end
            end
          else if (c =? 0x5b)%Z then
            match depth with
            | O => Raise RecursionError
            | S depth =>
                match skip_space s1 with
                | [] => Raise JSONDecodeError
                | d :: s2 =>
                    if (d =? 0x5d)%Z then Ok (JArr [], s2)
                    else '(l, rest) ← scan_elements fuel depth (d :: s2); Ok (JArr l, rest)
                end
            end
          else match match_constant constants s with
               | Some r => Ok r
               | None => match_number s
               end
      end
  end
with scan_members (fuel depth : nat) (s : pystr) (items : list (pystr * json)) {struct fuel}
    : presult (list (pystr * json) * pystr) :=
  match fuel with
  | O => Raise RecursionError
  | S fuel =>
      match s with
      | [] => Raise JSONDecodeError
      | c :: s1 =>
          if negb (c =? 0x22)%Z then Raise JSONDecodeError else
          '(k, s2) ← scanstring s1;
          match skip_space s2 with
          | [] => Raise JSONDecodeError
          | c :: s3 =>
              if negb (c =? 0x3a)%Z then Raise JSONDecodeError else
              '(v, s4) ← scan_once fuel depth (skip_space s3);
              let items := dict_set k v items in
              match skip_space s4 with
              | [] => Raise JSONDecodeError
              | c :: s5 =>
                  if (c =? 0x7d)%Z then Ok (items, s5) else
                  if negb (c =? 0x2c)%Z then Raise JSONDecodeError else
                  scan_members fuel depth (skip_space s5) items
              end
          end
      end
  end
with scan_elements (fuel depth : nat) (s : pystr) {struct fuel} : presult (list json * pystr) :=
  match fuel with
  | O => Raise RecursionError
  | S fuel =>
      '(v, s1) ← scan_once fuel depth s;
      match skip_space s1 with
      | [] => Raise JSONDecodeError
      | c :: s2 =>
          if (c =? 0x5d)%Z then Ok ([v], s2) else
          if negb (c =? 0x2c)%Z then Raise JSONDecodeError else
          '(l, rest) ← scan_elements fuel depth (skip_space s2); Ok (v :: l, rest)
      end
  end.

Definition loads (depth : nat) (text : pystr) : presult json :=
  match text with
  | 0xfeff%Z :: _ => Raise JSONDecodeError
  | _ =>
      '(v, rest) ← scan_once (2 * length text + 1) depth (skip_space text);
      match skip_space rest with
      | [] => Ok v
      | _ => Raise JSONDecodeError
      end
  end.

(** A sample in which single quotes stand for double quotes. *)
Definition quoted_text (s : String.string) : pystr :=
  map (fun c => if (c =? 0x27)%Z then 0x22%Z else c) (lit s).
Arguments quoted_text s%_string_scope.

Example loads_sample :
  loads 10 (quoted_text " { 'a' : [1, -20, 3.5e+1, true,null] , 'b':{}, 'a': 'x\ud83d\ude00\n' } ")
  = Ok (JObj [(lit "a", JStr [0x78; 0x1f600; 0x0a]%Z); (lit "b", JObj [])])
  /\ loads 10 (quoted_text "[1, -20, 3.5e+1, 01]") = Raise JSONDecodeError
  /\ loads 10 (quoted_text "[-20, 3.5e+1, true, 1.]") = Raise JSONDecodeError
  /\ loads 10 (quoted_text "[-20, 3.5e+1, true, '\ud83d']")
     = Ok (JArr [JInt (-20); JFloat (S754_finite false (35 * 2 ^ 47) (-47)); JBool true; JStr [0xd83d%Z]])
  /\ loads 2 (quoted_text "[[[]]]") = Raise RecursionError.
Proof. vm_compute. split_and!; reflexivity. Qed.

(** ** Termination

    Every round reads at least one character, so [fuel] never runs out: any
    fuel past the length of the text gives the same result. *)

Lemma skip_space_length s : length (skip_space s) <= length s.
Proof. induction s as [|c s IH]; cbn; [lia|]. destruct (is_space c); cbn; lia. Qed.

Lemma scanstring_length s t rest : scanstring s = Ok (t, rest) -> length rest < length s.
Proof.
  assert (forall n s, length s <= n -> forall t rest, scanstring s = Ok (t, rest) ->
    length rest < length s) as H; [|by eapply H].
  clear. induction n as [|n IH]; intros [|c s] Hn t rest; cbn [length] in Hn; try done; [lia|].
  assert (forall c s1 t rest, length s1 <= n -> cons_str c (scanstring s1) = Ok (t, rest) ->
    length rest < length s1) as Hc.
  { intros d s1 u r Hl. unfold cons_str. destruct (scanstring s1) as [[u' r']|] eqn:E; [|done].
    cbn. intros [= <- <-]. by eapply IH. }
  cbn [scanstring]. destruct (c =? 0x22)%Z; [intros [= <- <-]; cbn; lia|].
  destruct (negb _).
  { destruct (c <=? 0x1f)%Z; [done|]. intros Hr%Hc; cbn [length]; lia. }
  destruct s as [|e s]; [done|]. cbn [length] in *. destruct (negb _).
  { destruct (simple_escape e); [|done]. intros Hr%Hc; lia. }
  destruct s as [|h0 [|h1 [|h2 [|h3 s]]]]; try done. cbn [length] in *.
  destruct (hex_unit h0 h1 h2 h3) as [u|]; [|done]. cbn [mbind presult_bind].
  destruct s as [|b [|x [|l0 [|l1 [|l2 [|l3 s]]]]]]; cbn [length] in *;
    try (intros Hr%Hc; cbn [length] in *; lia).
  destruct (_ && _); [|intros Hr%Hc; cbn [length] in *; lia].
  destruct (hex_unit l0 l1 l2 l3) as [v|]; [|done]. cbn [mbind presult_bind].
  destruct (low_surrogate v); intros Hr%Hc; cbn [length] in *; lia.
Qed.

Lemma span_digits_length s d r : span_digits s = (d, r) -> length r <= length s.
Proof.
  revert d r. induction s as [|c s IH]; intros d r; cbn [span_digits]; [by intros [= <- <-]|].
  destruct (digitb c); [|intros [= <- <-]; cbn; lia].
  destruct (span_digits s) as [d' r'] eqn:E. intros [= <- <-]. specialize (IH _ _ eq_refl). cbn. lia.
Qed.

Lemma int_part_length s d r : int_part s = Some (d, r) -> length r < length s.
Proof.
  destruct s as [|c s]; [done|]. cbn [int_part]. destruct (c =? 0x30)%Z; [intros [= <- <-]; cbn; lia|].
  destruct (digitb c); [|done]. destruct (span_digits s) as [d' r'] eqn:E. intros [= <- <-].
  apply span_digits_length in E. cbn. lia.
Qed.

Lemma frac_part_length s d r : frac_part s = (d, r) -> length r <= length s.
Proof.
  destruct s as [|c [|e s]]; cbn [frac_part]; try (intros [= <- <-]; cbn; lia).
  destruct (_ && _); [|intros [= <- <-]; cbn; lia].
  destruct (span_digits s) as [d' r'] eqn:E. intros [= <- <-]. apply span_digits_length in E. cbn. lia.
Qed.

Lemma exp_part_length s d r : exp_part s = (d, r) -> length r <= length s.
Proof.
  destruct s as [|c s]; cbn [exp_part]; [by intros [= <- <-]|].
  destruct (_ || _); [|intros [= <- <-]; cbn; lia].
  assert (forall sg r', (match s with
    | x :: r => if (x =? 0x2b)%Z || (x =? 0x2d)%Z then ([x], r) else ([], s)
    | [] => ([], s) end) = (sg, r') -> length r' <= length s) as Hs.
  { intros sg r'. destruct s as [|x s]; [by intros [= <- <-]|].
    destruct (_ || _); intros [= <- <-]; cbn; lia. }
  destruct (match s with [] => _ | _ => _ end) as [sg r']. specialize (Hs _ _ eq_refl).
  destruct (span_digits r') as [ds r''] eqn:E. apply span_digits_length in E.
  destruct ds; intros [= <- <-]; cbn; lia.
Qed.

Lemma match_number_length s v r : match_number s = Ok (v, r) -> length r < length s.
Proof.
  unfold match_number. intros H.
  assert (forall sg s1, (match s with c :: s1 => if (c =? 0x2d)%Z then ([c], s1) else ([], s) | [] => ([], s) end)
    = (sg, s1) -> length s1 <= length s) as Hs.
  { intros sg s1. destruct s as [|c s]; [by intros [= <- <-]|].
    destruct (_ =? _)%Z; intros [= <- <-]; cbn; lia. }
  destruct (match s with [] => _ | _ => _ end) as [sg s1]. specialize (Hs _ _ eq_refl).
  destruct (int_part s1) as [[ds s2]|] eqn:E1; [|done]. apply int_part_length in E1.
  destruct (frac_part s2) as [frac s3] eqn:E2. apply frac_part_length in E2.
  destruct (exp_part s3) as [exp s4] eqn:E3. apply exp_part_length in E3.
  destruct (frac ++ exp); [destruct (_ <? _); [done|]|]; injection H as <- <-; lia.
Qed.

Lemma starts_with_length p s r : starts_with p s = Some r -> length s = length p + length r.
Proof.
  revert s. induction p as [|c p IH]; intros [|d s]; cbn [starts_with]; try by intros [= <-].
  destruct (c =? d)%Z; [|done]. intros H%IH. cbn. lia.
Qed.

Lemma match_constant_length cs s v r :
  Forall (fun '(text, _) => text <> []) cs -> match_constant cs s = Some (v, r) ->
  length r < length s.
Proof.
  induction 1 as [|[text w] cs Ht _ IH]; [done|]. cbn [match_constant].
  destruct (starts_with text s) as [rest|] eqn:E; [|done]. intros [= <- <-].
  apply starts_with_length in E. destruct text; [done|]. cbn in E. lia.
Qed.

Lemma constants_nonempty : Forall (fun '(text, _) => text <> []) constants.
Proof. by repeat constructor. Qed.

Lemma bind_pair_ok {A B C} (r : presult (A * B)) (k : A -> B -> presult C) c :
  ('(a, b) ← r; k a b) = Ok c -> exists a b, r = Ok (a, b) /\ k a b = Ok c.
Proof. destruct r as [[a b]|]; [eauto|done]. Qed.

(** What is left is shorter. *)
Lemma scan_shorter fuel :
  (forall depth s v r, scan_once fuel depth s = Ok (v, r) -> length r < length s)
  /\ (forall depth s items v r, scan_members fuel depth s items = Ok (v, r) -> length r < length s)
  /\ (forall depth s v r, scan_elements fuel depth s = Ok (v, r) -> length r < length s).
Proof.
  induction fuel as [|fuel (IHo & IHm & IHe)]; [done|]. split_and!.
  - intros depth s v r H. cbn [scan_once] in H. destruct s as [|c s]; [done|].
    destruct (c =? 0x22)%Z.
    { apply bind_pair_ok in H as (t & r' & Ht%scanstring_length & [= <- <-]). cbn. lia. }
    pose proof (skip_space_length s) as Hsp. destruct (c =? 0x7b)%Z; [|destruct (c =? 0x5b)%Z].
    + destruct depth; [done|]. destruct (skip_space s) as [|d s2]; [done|]. cbn [length] in *.
      destruct (d =? 0x7d)%Z; [injection H as <- <-; lia|].
      apply bind_pair_ok in H as (t & r' & Ht%IHm & [= <- <-]). cbn [length] in Ht. lia.
    + destruct depth; [done|]. destruct (skip_space s) as [|d s2]; [done|]. cbn [length] in *.
      destruct (d =? 0x5d)%Z; [injection H as <- <-; lia|].
      apply bind_pair_ok in H as (t & r' & Ht%IHe & [= <- <-]). cbn [length] in Ht. lia.
    + destruct (match_constant constants (c :: s)) as [[v' r']|] eqn:E.
      * injection H as <- <-. by apply match_constant_length in E; [|apply constants_nonempty].
      * by apply match_number_length in H.
  - intros depth s items v r H. cbn [scan_members] in H. destruct s as [|c s]; [done|].
    destruct (negb _); [done|]. apply bind_pair_ok in H as (k & s2 & Hk%scanstring_length & H).
    pose proof (skip_space_length s2). destruct (skip_space s2) as [|d s3]; [done|].
    destruct (negb _); [done|]. apply bind_pair_ok in H as (w & s4 & Hw%IHo & H).
    pose proof (skip_space_length s3). pose proof (skip_space_length s4).
    cbv zeta in H. destruct (skip_space s4) as [|e s5]; [done|]. pose proof (skip_space_length s5).
    cbn [length] in *. destruct (e =? 0x7d)%Z; [injection H as <- <-; lia|].
    destruct (negb _); [done|]. apply IHm in H. lia.
  - intros depth s v r H. cbn [scan_elements] in H.
    apply bind_pair_ok in H as (w & s1 & Hw%IHo & H). pose proof (skip_space_length s1).
    destruct (skip_space s1) as [|e s2]; [done|]. pose proof (skip_space_length s2).
    cbn [length] in *. destruct (e =? 0x5d)%Z; [injection H as <- <-; lia|].
    destruct (negb _); [done|]. apply bind_pair_ok in H as (l & r' & Hl%IHe & [= <- <-]). lia.
Qed.

Lemma bind_pair_ext {A B C} (r : presult (A * B)) (k k' : A -> B -> presult C) :
  (forall a b, r = Ok (a, b) -> k a b = k' a b) -> ('(a, b) ← r; k a b) = ('(a, b) ← r; k' a b).
Proof. destruct r as [[a b]|]; [|done]. intros H. by apply H. Qed.

(** Any two fuels that are large enough agree. *)
Lemma scan_fuel fuel fuel' :
  (forall depth s, 2 * length s < fuel -> 2 * length s < fuel' ->
     scan_once fuel depth s = scan_once fuel' depth s)
  /\ (forall depth s items, 2 * length s < fuel -> 2 * length s < fuel' ->
     scan_members fuel depth s items = scan_members fuel' depth s items)
  /\ (forall depth s, 2 * length s + 1 < fuel -> 2 * length s + 1 < fuel' ->
     scan_elements fuel depth s = scan_elements fuel' depth s).
Proof.
  revert fuel'. induction fuel as [|fuel IH]; intros fuel0; [split_and!; intros; lia|].
  destruct fuel0 as [|fuel']; [split_and!; intros; lia|]. destruct (IH fuel') as (IHo & IHm & IHe). split_and!.
  - intros depth [|c s] H H'; [done|]. cbn [scan_once length] in *. pose proof (skip_space_length s).
    destruct (c =? 0x22)%Z; [done|]. destruct (c =? 0x7b)%Z; [|destruct (c =? 0x5b)%Z; [|done]].
    + destruct depth; [done|]. destruct (skip_space s) as [|d s2]; [done|].
      destruct (d =? 0x7d)%Z; [done|]. by rewrite IHm by lia.
    + destruct depth; [done|]. destruct (skip_space s) as [|d s2]; [done|].
      destruct (d =? 0x5d)%Z; [done|]. by rewrite IHe by lia.
  - intros depth [|c s] items H H'; [done|]. cbn [scan_members length] in *.
    destruct (negb _); [done|]. apply bind_pair_ext. intros k s2 Hk%scanstring_length.
    pose proof (skip_space_length s2). destruct (skip_space s2) as [|d s3]; [done|].
    destruct (negb _); [done|]. pose proof (skip_space_length s3). cbn [length] in *.
    rewrite IHo by lia. apply bind_pair_ext. intros w s4 Hw%(proj1 (scan_shorter fuel')). cbv zeta.
    pose proof (skip_space_length s4). destruct (skip_space s4) as [|e s5]; [done|].
    destruct (e =? 0x7d)%Z; [done|]. destruct (negb _); [done|].
    pose proof (skip_space_length s5). cbn [length] in *. apply IHm; lia.
  - intros depth s H H'. cbn [scan_elements]. rewrite IHo by lia. apply bind_pair_ext.
    intros w s1 Hw%(proj1 (scan_shorter fuel')). pose proof (skip_space_length s1).
    destruct (skip_space s1) as [|e s2]; [done|]. destruct (e =? 0x5d)%Z; [done|].
    destruct (negb _); [done|]. pose proof (skip_space_length s2). cbn [length] in *.
    by rewrite IHe by lia.
Qed.

(** [loads] with any larger fuel is [loads]. *)
Lemma loads_fuel fuel depth text :
  2 * length text < fuel -> hd 0%Z text <> 0xfeff%Z ->
  loads depth text
  = ('(v, rest) ← scan_once fuel depth (skip_space text);
     match skip_space rest with [] => Ok v | _ => Raise JSONDecodeError end).
Proof.
  intros Hf Hb. pose proof (skip_space_length text).
  rewrite (proj1 (scan_fuel fuel (2 * length text + 1))) by lia.
  unfold loads. destruct text as [|c text]; [done|]. cbn in Hb.
  by repeat (case_match; try done).
Qed.
