(* ===== verification/PyNumbers.v ===== *)
(** * Python's numbers: what is written reads back

    [match_number] of the text of an integer and of a float. *)
From Stdlib Require Import SpecFloat.
From S2P Require Import Prelude Canonical Reader JsonRoundTrip Unicode PyText PyFloat PyJson PyLoads.

(** What follows a value in compact text. *)
Definition value_ends (rest : pystr) : Prop :=
  match rest with
  | c :: _ => c = 0x2c%Z \/ c = 0x7d%Z \/ c = 0x5d%Z
  | [] => True
  end.

Lemma ascii_text_digits ds :
  Forall (fun d => 0 <= d < 10)%Z ds -> ascii_text (map digit_char ds) = map (Z.add 0x30) ds.
Proof.
  intros H. unfold ascii_text. rewrite map_map. apply map_ext_Forall.
  eapply Forall_impl; [exact H|]. intros d Hd. cbv beta in Hd. unfold digit_char.
  rewrite (proj2 (Z.ltb_lt d 10)) by lia. rewrite uchar_byte_of_Z. apply Z.mod_small. lia.
Qed.

(** The text of decimal digits, and what ends it. *)
Abbreviation digit_codes := (map (Z.add 0x30)).
Definition no_digit (rest : pystr) : Prop :=
  match rest with c :: _ => digitb c = false | [] => True end.

Lemma value_ends_no_digit rest : value_ends rest -> no_digit rest.
Proof. destruct rest as [|c rest]; [done|]. cbn. unfold digitb. lia. Qed.

Lemma digitb_code d : (0 <= d < 10)%Z -> digitb (0x30 + d) = true.
Proof. unfold digitb. lia. Qed.

Lemma span_digits_app ds rest :
  Forall (fun d => 0 <= d < 10)%Z ds -> no_digit rest ->
  span_digits (digit_codes ds ++ rest) = (digit_codes ds, rest).
Proof.
  intros Hds Hr. induction Hds as [|d ds Hd _ IH].
  - destruct rest as [|c rest]; [done|]. cbn in *. by rewrite Hr.
  - cbn [map app span_digits]. by rewrite digitb_code, IH.
Qed.

Lemma int_of_digits_value ds : int_of_digits (map (Z.add 0x30) ds) = value_of 10 ds 0.
Proof.
  unfold int_of_digits, value_of. generalize 0%Z. induction ds as [|d ds IH]; intros v; [done|].
  cbn [map fold_left]. rewrite IH. f_equal. lia.
Qed.


(** An integer part: a zero, or digits that do not start with one. *)
Definition int_digits (ds : list Z) : Prop :=
  Forall (fun d => 0 <= d < 10)%Z ds
  /\ match ds with [] => False | [d] => True | d :: _ => d <> 0%Z end.

Lemma int_part_app ds rest :
  int_digits ds -> no_digit rest -> int_part (digit_codes ds ++ rest) = Some (digit_codes ds, rest).
Proof.
  intros [Hds Hd] Hr. destruct ds as [|d ds]; [done|]. cbn [map app]. unfold int_part.
  apply Forall_cons in Hds as [Hd0 Hds]. destruct (Z.eqb_spec (0x30 + d) 0x30).
  - destruct ds; [done|]. lia.
  - by rewrite digitb_code, span_digits_app.
Qed.

Lemma digits_of_int n : (0 <= n)%Z -> int_digits (digits_of 10 n).
Proof.
  intros Hn. split; [by apply digits_of_bounded|]. destruct (decide (n = 0)%Z) as [->|Hz]; [done|].
  destruct (digits_of_head n ltac:(lia)) as (d & ds & -> & Hd). destruct ds; [done|lia].
Qed.

Lemma frac_exp_ends rest : value_ends rest -> frac_part rest = ([], rest) /\ exp_part rest = ([], rest).
Proof.
  destruct rest as [|c rest]; [done|]. intros H.
  assert (c <> 0x2e /\ c <> 0x65 /\ c <> 0x45)%Z as (H1 & H2 & H3) by (unfold value_ends in H; lia).
  apply Z.eqb_neq in H1, H2, H3. unfold frac_part, exp_part. rewrite H1, H2, H3.
  by destruct rest.
Qed.

Lemma match_number_dec z rest :
  length (digits_of 10 (Z.abs z)) <= int_max_str_digits -> value_ends rest ->
  match_number (ascii_text (ostream_dec z) ++ rest) = Ok (JInt z, rest).
Proof.
  intros Hl Hr. pose proof (digits_of_bounded 10 (Z.abs z) ltac:(lia) ltac:(lia)) as Hb.
  pose proof (digits_of_value 10 (Z.abs z) ltac:(lia) ltac:(lia)) as Hv.
  destruct (frac_exp_ends rest Hr) as [Hf He].
  rewrite ostream_dec_digits. unfold ascii_text. rewrite map_app. fold (ascii_text (map digit_char (digits_of 10 (Z.abs z)))).
  rewrite ascii_text_digits, <-app_assoc by done. unfold match_number.
  assert (forall c t, map (Z.add 0x30) (digits_of 10 (Z.abs z)) ++ rest = c :: t -> c <> 0x2d%Z) as Hs.
  { intros c t E. destruct (digits_of 10 (Z.abs z)) as [|d ds] eqn:Ed; [by apply digits_of_nonnil in Ed|].
    inversion_clear Hb. injection E as <- _. lia. }
  destruct (Z.ltb_spec z 0); cbn [sign map app].
  - change (uchar x2d =? 0x2d)%Z with true. cbv iota beta.
    rewrite int_part_app, Hf, He by auto using digits_of_int, value_ends_no_digit with lia. cbn [app].
    rewrite length_map, (proj2 (Nat.ltb_ge _ _)), int_of_digits_value, Hv by done. do 3 f_equal. lia.
  - destruct (map _ _ ++ rest) as [|c t] eqn:E; [|rewrite (proj2 (Z.eqb_neq c _)) by (by eapply Hs)];
      rewrite <-E, int_part_app, Hf, He by auto using digits_of_int, value_ends_no_digit with lia; cbn [app];
      rewrite length_map, (proj2 (Nat.ltb_ge _ _)), int_of_digits_value, Hv by done; do 3 f_equal; lia.
Qed.


(** ** Floats *)

(** The parts of a literal, as digits: before the point, behind it, and the
    exponent with its sign. *)
Record literal : Type := {
  before : list Z;
  behind : list Z;
  power : option (bool * list Z);
}.

Definition behind_codes (fs : list Z) : pystr :=
  match fs with [] => [] | _ => 0x2e%Z :: digit_codes fs end.
Definition power_codes (power : option (bool * list Z)) : pystr :=
  match power with
  | None => []
  | Some (negative, es) => 0x65%Z :: (if negative then 0x2d%Z else 0x2b%Z) :: digit_codes es
  end.
Definition literal_codes (l : literal) : pystr :=
  digit_codes (before l) ++ behind_codes (behind l) ++ power_codes (power l).

Definition decimal_digits : list Z -> Prop := Forall (fun d => 0 <= d < 10)%Z.

(** A literal of a float: it has a point or an exponent. *)
Definition float_literal (l : literal) : Prop :=
  int_digits (before l) /\ decimal_digits (behind l)
  /\ match power l with Some (_, es) => es <> [] /\ decimal_digits es | None => behind l <> [] end.

Definition literal_power (l : literal) : Z :=
  match power l with
  | Some (negative, es) => if (negative : bool) then (- value_of 10 es 0)%Z else value_of 10 es 0
  | None => 0%Z
  end.
Definition literal_float (negative : bool) (l : literal) : spec_float :=
  float_of_decimal negative (value_of 10 (before l ++ behind l) 0)
    (literal_power l - Z.of_nat (length (behind l))).

Lemma frac_part_app fs rest :
  decimal_digits fs -> no_digit rest -> (fs = [] -> frac_part rest = ([], rest)) ->
  frac_part (behind_codes fs ++ rest) = (behind_codes fs, rest).
Proof.
  intros Hfs Hr Hn. destruct fs as [|f fs]; [by apply Hn|]. apply Forall_cons in Hfs as [Hf Hfs].
  cbn [behind_codes map app frac_part]. rewrite digitb_code by done. cbn [Z.eqb Pos.eqb andb].
  by rewrite span_digits_app.
Qed.

Lemma exp_part_app power rest :
  value_ends rest -> match power with Some (_, es) => es <> [] /\ decimal_digits es | None => True end ->
  exp_part (power_codes power ++ rest) = (power_codes power, rest).
Proof.
  intros Hr Hp. destruct power as [[negative es]|]; [|by apply frac_exp_ends].
  destruct Hp as [Hn Hes]. destruct es as [|e es]; [done|]. cbn [power_codes app exp_part Z.eqb Pos.eqb orb].
  assert (((if negative then 0x2d else 0x2b) =? 0x2b)%Z = negb negative) as -> by by destruct negative.
  assert (((if negative then 0x2d else 0x2b) =? 0x2d)%Z = negative) as -> by by destruct negative.
  rewrite orb_negb_l, (span_digits_app (e :: es)) by auto using value_ends_no_digit. by destruct negative.
Qed.

Lemma power_codes_start power rest :
  value_ends rest -> no_digit (power_codes power ++ rest) /\ frac_part (power_codes power ++ rest) = ([], power_codes power ++ rest).
Proof.
  intros Hr. destruct power as [[negative es]|]; [by destruct negative|].
  split; [by apply value_ends_no_digit|by apply frac_exp_ends].
Qed.

Lemma exponent_value_codes l : exponent_value (power_codes (power l)) = literal_power l.
Proof.
  unfold literal_power. destruct (power l) as [[[] es]|]; [| |done]; cbn [power_codes exponent_value];
    by rewrite int_of_digits_value.
Qed.

Lemma match_number_float negative l rest :
  float_literal l -> value_ends rest ->
  match_number (ascii_text (minus negative) ++ literal_codes l ++ rest) = Ok (JFloat (literal_float negative l), rest).
Proof.
  intros (Hi & Hf & Hp) Hr. destruct (power_codes_start (power l) rest Hr) as [Hnp Hfp].
  assert (no_digit (behind_codes (behind l) ++ power_codes (power l) ++ rest)) as Hnb.
  { destruct (behind l); [done|reflexivity]. }
  assert (drop 1 (behind_codes (behind l)) = digit_codes (behind l)) as Hdrop by by destruct (behind l).
  assert (behind_codes (behind l) ++ power_codes (power l) <> []) as Hne.
  { destruct (behind l) as [|f fs]; [|done]. destruct (power l) as [[]|]; [done|]. by destruct Hp. }
  assert (forall sign, (let '(ds, s2) := (digit_codes (before l), behind_codes (behind l) ++ power_codes (power l) ++ rest) in
     let '(frac, s3) := frac_part s2 in
     let '(exp, s4) := exp_part s3 in
     match frac ++ exp with
     | [] => if int_max_str_digits <? length ds
             then Raise (ValueError "Exceeds the limit for integer string conversion")
             else Ok (JInt (match sign with [] => int_of_digits ds | _ => - int_of_digits ds end)%Z, s4)
     | _ => Ok (JFloat (float_of_literal sign ds frac exp), s4)
     end) = Ok (JFloat (float_of_literal sign (digit_codes (before l)) (behind_codes (behind l)) (power_codes (power l))), rest))
    as Hk.
  { intros sign. cbv iota beta. rewrite frac_part_app by done. cbv iota beta.
    rewrite exp_part_app by (try done; by destruct (power l)). cbv iota beta.
    by destruct (behind_codes (behind l) ++ power_codes (power l)). }
  assert (forall sign, float_of_literal sign (digit_codes (before l)) (behind_codes (behind l)) (power_codes (power l))
    = literal_float (match sign with [] => false | _ => true end) l) as Hv.
  { intros sign. unfold float_of_literal, literal_float. cbv zeta.
    by rewrite Hdrop, exponent_value_codes, length_map, <-map_app, int_of_digits_value. }
  pose proof (int_part_app (before l) _ Hi Hnb) as Hip. unfold literal_codes.
  unfold match_number. rewrite <-!app_assoc. destruct negative.
  - change (ascii_text (minus true)) with [0x2d%Z]. cbn [app]. change (0x2d =? 0x2d)%Z with true. cbv iota beta.
    rewrite Hip. etransitivity; [apply (Hk [0x2d%Z])|]. by rewrite Hv.
  - change (ascii_text (minus false)) with (@nil Z). cbn [app].
    destruct Hi as [Hds Hd]. destruct (before l) as [|d ds]; [done|]. cbn [map app] in *.
    apply Forall_cons in Hds as [Hd0 _]. rewrite (proj2 (Z.eqb_neq (0x30 + d) 0x2d)) by lia.
    rewrite Hip. etransitivity; [apply (Hk [])|]. by rewrite Hv.
Qed.

(** *** The format of [repr] *)

Lemma value_of_app a b v : value_of 10 (a ++ b) v = value_of 10 b (value_of 10 a v).
Proof. unfold value_of. by rewrite fold_left_app. Qed.

Lemma value_of_zeros n v : value_of 10 (replicate n 0%Z) v = (v * 10 ^ Z.of_nat n)%Z.
Proof.
  revert v. induction n as [|n IH]; intros v; unfold value_of in *; cbn [replicate fold_left]; [lia|].
  rewrite IH, Nat2Z.inj_succ, Z.pow_succ_r by lia. lia.
Qed.

Lemma decimal_digits_app a b : decimal_digits a -> decimal_digits b -> decimal_digits (a ++ b).
Proof. intros. by apply Forall_app. Qed.

Lemma zeros_codes n : ascii_text (zeros n) = digit_codes (replicate (Z.to_nat n) 0%Z).
Proof.
  unfold zeros, ascii_text. induction (Z.to_nat n) as [|m IH]; [done|]. cbn [replicate map]. by rewrite IH.
Qed.

Lemma ascii_text_app a b : ascii_text (a ++ b) = ascii_text a ++ ascii_text b.
Proof. apply map_app. Qed.

Lemma exponent_codes x :
  exists es, ascii_text (exponent_text x) = (if (x <? 0)%Z then 0x2d%Z else 0x2b%Z) :: digit_codes es
    /\ es <> [] /\ decimal_digits es /\ value_of 10 es 0 = Z.abs x.
Proof.
  set (ds := digits_of 10 (Z.abs x)).
  assert (decimal_digits ds) as Hb by (apply digits_of_bounded; lia).
  assert (value_of 10 ds 0 = Z.abs x) as Hv by (apply digits_of_value; lia).
  assert (ds <> []) as Hn by apply digits_of_nonnil.
  assert (forall b : bool, ascii_text (if b then str "-" else str "+") = [if b then 0x2d%Z else 0x2b%Z])
    as Hs by by intros [].
  exists ((if (Z.abs x <? 10)%Z then [0%Z] else []) ++ ds). split_and!.
  - unfold exponent_text, digits_text. rewrite !ascii_text_app, Hs, ascii_text_digits by done. fold ds.
    rewrite map_app. by destruct (Z.abs x <? 10)%Z.
  - by destruct (Z.abs x <? 10)%Z.
  - apply decimal_digits_app; [|done]. destruct (Z.abs x <? 10)%Z; by repeat constructor.
  - rewrite value_of_app. by destruct (Z.abs x <? 10)%Z.
Qed.

(** The value of a literal, up to zeros at its end. *)
Lemma literal_reads l d p n :
  (0 <= n)%Z -> value_of 10 (before l ++ behind l) 0 = (d * 10 ^ n)%Z ->
  (literal_power l - Z.of_nat (length (behind l)) = p - n)%Z ->
  forall negative, literal_float negative l = float_of_decimal negative d p.
Proof. intros Hn Hv Hp negative. unfold literal_float. rewrite Hv, Hp. by apply float_of_decimal_pad. Qed.

Section format.
Context (a : Z) (ds : list Z) (Ha : (0 < a)%Z) (Hb : decimal_digits (a :: ds)).

Lemma codes_of_digits : ascii_text (map digit_char (a :: ds)) = digit_codes (a :: ds).
Proof. by apply ascii_text_digits. Qed.

Lemma take_codes n : ascii_text (take n (map digit_char (a :: ds))) = digit_codes (take n (a :: ds)).
Proof. by rewrite firstn_map, ascii_text_digits by (by apply Forall_take). Qed.

Lemma drop_codes n : ascii_text (drop n (map digit_char (a :: ds))) = digit_codes (drop n (a :: ds)).
Proof. by rewrite skipn_map, ascii_text_digits by (by apply Forall_drop). Qed.

Lemma int_digits_app es : decimal_digits es -> int_digits (a :: ds ++ es).
Proof.
  intros He. split; [by apply (decimal_digits_app (a :: ds))|]. destruct (ds ++ es); [done|lia].
Qed.

Lemma int_digits_take n : (0 < n)%nat -> int_digits (take n (a :: ds)).
Proof.
  intros Hn. split; [by apply Forall_take|]. destruct n; [lia|]. cbn. destruct (take n ds); [done|lia].
Qed.
End format.

(** The text of a positive decimal is a literal with its value. *)
Lemma format_literal d p :
  (0 < d)%Z ->
  exists l, ascii_text (format_decimal d p) = literal_codes l /\ float_literal l
    /\ forall negative, literal_float negative l = float_of_decimal negative d p.
Proof.
  intros Hd. destruct (digits_of_head d Hd) as (a & ds & E & Ha).
  assert (decimal_digits (a :: ds)) as Hb by (rewrite <-E; apply digits_of_bounded; lia).
  assert (value_of 10 (a :: ds) 0 = d) as Hv by (rewrite <-E; apply digits_of_value; lia).
  unfold format_decimal, digits_text, digit_count. rewrite E. cbv zeta.
  set (count := Z.of_nat (length (a :: ds))). set (point := (count + p)%Z).
  assert (count = Z.of_nat (S (length ds))) as Hcount by done.
  destruct ((-4 <? point)%Z && (point <=? 16)%Z); [destruct (Z.leb_spec point 0); [|destruct (Z.leb_spec count point)]|].
  - exists (Build_literal [0%Z] (replicate (Z.to_nat (- point)) 0%Z ++ a :: ds) None). split_and!.
    + rewrite !ascii_text_app, zeros_codes, codes_of_digits by done. unfold literal_codes. cbn [before behind power].
      rewrite <-map_app. cbn [power_codes]. rewrite app_nil_r. by destruct (Z.to_nat (- point)).
    + split_and!; [by split; [repeat constructor|]| |by destruct (Z.to_nat (- point))].
      apply decimal_digits_app; [by apply Forall_replicate|done].
    + apply (literal_reads _ _ _ 0); [done| |]; cbn [before behind literal_power power].
      * change ([0%Z] ++ replicate (Z.to_nat (- point)) 0%Z ++ a :: ds)
          with (replicate (S (Z.to_nat (- point))) 0%Z ++ a :: ds).
        rewrite value_of_app, value_of_zeros, Z.mul_0_l, Hv. lia.
      * rewrite length_app, length_replicate. cbn [length]. lia.
  - exists (Build_literal ((a :: ds) ++ replicate (Z.to_nat (point - count)) 0%Z) [0%Z] None). split_and!.
    + rewrite !ascii_text_app, zeros_codes, codes_of_digits by done. unfold literal_codes. cbn [before behind power].
      cbn [power_codes]. rewrite app_nil_r, map_app, <-app_assoc. done.
    + split_and!; [|by repeat constructor|done]. apply int_digits_app; [done..|]. by apply Forall_replicate.
    + apply (literal_reads _ _ _ (p + 1)); [lia| |cbn; lia]. cbn [before behind].
      rewrite <-app_assoc. change [0%Z] with (replicate 1 0%Z).
      rewrite <-replicate_add, value_of_app, value_of_zeros, Hv. do 2 f_equal. lia.
  - exists (Build_literal (take (Z.to_nat point) (a :: ds)) (drop (Z.to_nat point) (a :: ds)) None).
    assert (length (drop (Z.to_nat point) (a :: ds)) = Z.to_nat (count - point)) as Hl
      by (rewrite length_drop; cbn [length]; lia).
    split_and!.
    + rewrite !ascii_text_app, take_codes, drop_codes by done. unfold literal_codes. cbn [before behind power].
      cbn [power_codes]. rewrite app_nil_r. by destruct (drop _ _); [cbn in Hl; lia|].
    + split_and!; [apply int_digits_take; [done..|lia]|by apply Forall_drop|]. cbn [power behind].
      intros Hn. rewrite Hn in Hl. cbn in Hl. lia.
    + apply (literal_reads _ _ _ 0); [done| |]; cbn [before behind literal_power power].
      * rewrite take_drop, Hv. lia.
      * rewrite Hl. lia.
  - destruct (exponent_codes (point - 1)) as (es & Ex & Hne & Hes & Hev).
    exists (Build_literal [a] ds (Some ((point - 1 <? 0)%Z, es))). split_and!.
    + rewrite !ascii_text_app, take_codes, Ex by done. unfold literal_codes. cbn [before behind power].
      apply f_equal2; [done|]. cbn [power_codes]. apply f_equal2; [|done].
      destruct (Z.eqb_spec count 1); [destruct ds; [done|cbn in Hcount; lia]|].
      rewrite ascii_text_app, drop_codes by done. by destruct ds; [cbn in Hcount; lia|].
    + apply Forall_cons in Hb as [? ?]. split_and!; try done. split; [by apply Forall_singleton|done].
    + apply (literal_reads _ _ _ 0); [done| |]; cbn [before behind].
      * cbn [app]. rewrite Hv. lia.
      * unfold literal_power. cbn [power]. rewrite Hev. destruct (Z.ltb_spec (point - 1) 0); lia.
Qed.

(** *** Floats read back *)

(** Not the constants, which are not numbers of the grammar. *)
Definition finite (x : spec_float) : bool :=
  match x with S754_infinity _ | S754_nan => false | _ => true end.

Lemma match_number_repr x rest :
  valid_binary 53 1024 x = true -> finite x = true -> value_ends rest ->
  match_number (ascii_text (float_repr x) ++ rest) = Ok (JFloat x, rest).
Proof.
  intros Hx Hfin Hr. destruct x as [s|s| |s m e]; try done; cbn [float_repr];
    rewrite ascii_text_app, <-app_assoc.
  - pose proof (match_number_float s (Build_literal [0%Z] [0%Z] None) rest) as H.
    unfold literal_float in H. cbn [before behind literal_power power app length] in H.
    rewrite float_of_decimal_zero in H. apply H; [|done].
    split_and!; [split|..]; by repeat constructor.
  - destruct (shortest_decimal m e) as [d p] eqn:E.
    destruct (shortest_decimal_reads m e d p s Hx E) as [Hd Hread].
    destruct (format_literal d p Hd) as (l & -> & Hl & Hval).
    by rewrite match_number_float, Hval, Hread.
Qed.

(** The text starts with a digit behind its sign, or is a constant. *)
Lemma format_head d p :
  (0 <= d)%Z -> exists c t, ascii_text (format_decimal d p) = c :: t /\ digitb c = true.
Proof.
  intros Hd. pose proof (digits_of_bounded 10 d ltac:(lia) Hd) as Hb.
  pose proof (digits_of_nonnil 10 d) as Hn. unfold format_decimal, digits_text, digit_count. cbv zeta.
  destruct (digits_of 10 d) as [|a ds]; [done|]. apply Forall_cons in Hb as [Ha _].
  assert (digitb (uchar (digit_char a)) = true) as Hc.
  { unfold digit_char. rewrite uchar_byte_of_Z, (proj2 (Z.ltb_lt _ _)), Z.mod_small by lia. unfold digitb. lia. }
  cbn [map]. set (point := (_ + p)%Z).
  destruct (_ && _); [destruct (Z.leb_spec point 0); [|destruct (_ <=? _)%Z]|];
    [by eexists _, _|by eexists _, _| |by eexists _, _].
  destruct (Z.to_nat point) eqn:E; [lia|]. by eexists _, _.
Qed.

Lemma float_repr_head x :
  finite x = true ->
  exists negative c t, ascii_text (float_repr x) = ascii_text (minus negative) ++ c :: t /\ digitb c = true.
Proof.
  intros Hx. destruct x as [s|s| |s m e]; try done; exists s; cbn [float_repr]; rewrite ascii_text_app.
  - by eexists _, _.
  - destruct (shortest_decimal m e) as [d p] eqn:E. apply shortest_decimal_nonneg in E.
    destruct (format_head d p E) as (c & t & -> & Hc). by exists c, t.
Qed.
