(* ===== verification/PyRoundTrip.v ===== *)
(** * Python's [json]: what is written is read back

    [loads] reads back every compact text: the text [json.dumps] writes with
    these separators, with whatever escapes the writer chose for the
    characters.  Python's own writer and the C++ writer are two instances. *)
From Stdlib Require Import SpecFloat.
From S2P Require Import Prelude Canonical Reader JsonRoundTrip Unicode PyText PyFloat PyJson PyLoads PyNumbers.

(** ** Compact text *)

(** How deep a value nests. *)
Fixpoint height (v : pyobj) : nat :=
  match v with
  | PList l => S (list_max (map height l))
  | PDict items => S (list_max (map (fun '(_, v) => height v) items))
  | _ => 0
  end.

(** The value [loads] reads: a dict keeps the order of the text. *)
Fixpoint json_of (v : pyobj) : json :=
  match v with
  | PNone => JNull
  | PBool b => JBool b
  | PInt z => JInt z
  | PFloat x => JFloat x
  | PStr s => JStr s
  | PList l => JArr (map json_of l)
  | PDict items => JObj (map (fun '(k, v) => (k, json_of v)) items)
  end.

(** All dicts sorted by their keys. *)
Fixpoint sort_obj (v : pyobj) : pyobj :=
  match v with
  | PList l => PList (map sort_obj l)
  | PDict items => PDict (sort_items (map (fun '(k, v) => (k, sort_obj v)) items))
  | _ => v
  end.

Section compact.
Context (esc : Z -> pystr).

Definition quoted (s : pystr) : pystr := 0x22%Z :: concat (map esc s) ++ [0x22%Z].

(** The members in the order the dict has them. *)
Fixpoint compact (v : pyobj) : pystr :=
  match v with
  | PNone => lit "null"
  | PBool b => if b then lit "true" else lit "false"
  | PInt z => ascii_text (ostream_dec z)
  | PFloat x => ascii_text (float_repr x)
  | PStr s => quoted s
  | PList l => lit "[" ++ join 0x2c%Z (map compact l) ++ lit "]"
  | PDict items =>
      lit "{" ++ join 0x2c%Z (map (fun '(k, v) => quoted k ++ 0x3a%Z :: compact v) items) ++ lit "}"
  end.
End compact.

(** ** Strings *)

(** A writer of characters that [scanstring] reads back. *)
Class Escapes (esc : Z -> pystr) : Prop := {
  scan_escaped cp s : scalar cp -> scanstring (esc cp ++ s) = cons_str cp (scanstring s);
}.

Lemma scanstring_quoted esc `{!Escapes esc} t rest :
  Forall scalar t -> scanstring (concat (map esc t) ++ 0x22%Z :: rest) = Ok (t, rest).
Proof.
  induction 1 as [|cp t Hcp _ IH]; [done|]. cbn [map concat].
  by rewrite <-app_assoc, scan_escaped, IH by done.
Qed.

(** A character that stands for itself. *)
Lemma scanstring_raw cp s :
  (0x20 <= cp)%Z -> cp <> 0x22%Z -> cp <> 0x5c%Z ->
  scanstring (cp :: s) = cons_str cp (scanstring s).
Proof. intros. cbn [scanstring]. by repeat (case_match; try lia). Qed.

Lemma hex_value_digit_char d : (0 <= d < 16)%Z -> hex_value (uchar (digit_char d)) = Ok d.
Proof.
  intros H. assert (Z.to_nat d < 16) as Hn by lia. rewrite <-(Z2Nat.id d) by lia.
  generalize dependent (Z.to_nat d). intros n Hn. do 16 (destruct n; [done|]). lia.
Qed.

Lemma hex_unit_hex4 n :
  (0 <= n < 0x10000)%Z ->
  hex_unit (uchar (digit_char (n / 4096))) (uchar (digit_char (n / 256 mod 16)))
    (uchar (digit_char (n / 16 mod 16))) (uchar (digit_char (n mod 16))) = Ok n.
Proof.
  intros Hn. unfold hex_unit. rewrite !hex_value_digit_char by zdiv.
  cbn [mbind presult_bind]. f_equal. zdiv.
Qed.

Lemma ascii_text_py_u n :
  ascii_text (py_u n)
  = 0x5c%Z :: 0x75%Z :: map uchar [digit_char (n / 4096); digit_char (n / 256 mod 16);
                                   digit_char (n / 16 mod 16); digit_char (n mod 16)]%Z.
Proof. reflexivity. Qed.

(** The escape of one code unit, in front of anything. *)
Lemma scanstring_u n s :
  (0 <= n < 0x10000)%Z ->
  scanstring (ascii_text (py_u n) ++ s)
  = match s with
    | b :: x :: l0 :: l1 :: l2 :: l3 :: s4 =>
        if high_surrogate n && (b =? 0x5c)%Z && (x =? 0x75)%Z then
          v ← hex_unit l0 l1 l2 l3;
          if low_surrogate v
          then cons_str (0x10000 + (n - 0xd800) * 1024 + (v - 0xdc00))%Z (scanstring s4)
          else cons_str n (scanstring s)
        else cons_str n (scanstring s)
    | _ => cons_str n (scanstring s)
    end.
Proof.
  intros Hn. rewrite ascii_text_py_u. cbn [map app]. cbn [scanstring].
  rewrite hex_unit_hex4 by done. reflexivity.
Qed.

Lemma scanstring_py_u n s :
  scalar n -> (n < 0x10000)%Z -> scanstring (ascii_text (py_u n) ++ s) = cons_str n (scanstring s).
Proof.
  intros Hn Hlt. unfold scalar in Hn. rewrite scanstring_u by lia.
  assert (high_surrogate n = false) as -> by (unfold high_surrogate; lia).
  cbn [andb]. by repeat case_match.
Qed.

Lemma scanstring_py_pair cp s :
  (0x10000 <= cp <= 0x10ffff)%Z ->
  scanstring (ascii_text (py_u (0xd800 + (cp - 0x10000) / 1024)
                          ++ py_u (0xdc00 + (cp - 0x10000) mod 1024)) ++ s)
  = cons_str cp (scanstring s).
Proof.
  intros Hcp. unfold ascii_text. rewrite map_app, <-app_assoc. fold (ascii_text (py_u (0xd800 + (cp - 0x10000) / 1024))).
  fold (ascii_text (py_u (0xdc00 + (cp - 0x10000) mod 1024))).
  rewrite scanstring_u by zdiv. rewrite ascii_text_py_u. cbn [map app].
  rewrite hex_unit_hex4 by zdiv.
  assert (high_surrogate (0xd800 + (cp - 0x10000) / 1024) = true) as ->
    by (unfold high_surrogate; zdiv).
  cbn [mbind presult_bind andb Z.eqb Pos.eqb].
  assert (low_surrogate (0xdc00 + (cp - 0x10000) mod 1024) = true) as ->
    by (unfold low_surrogate; zdiv).
  f_equal. zdiv.
Qed.

Definition py_escape (cp : Z) : pystr := ascii_text (py_escape_char cp).

(** The escapes of [json_string] in canonical.hpp, on decoded text. *)
Definition cpp_escape (cp : Z) : pystr :=
  if (cp <? 0x80)%Z then ascii_text (escape_char (byte_of_Z cp)) else [cp].

Lemma scanstring_py_escape cp s :
  scalar cp -> scanstring (ascii_text (py_escape_char cp) ++ s) = cons_str cp (scanstring s).
Proof.
  intros Hcp. destruct (Z.lt_ge_cases cp 0x10000).
  - unfold py_escape_char.
    repeat match goal with |- context [if (cp =? ?c)%Z then _ else _] =>
      destruct (Z.eqb_spec cp c) as [->|]; [reflexivity|] end.
    case_match; [|case_match; [by apply scanstring_py_u|lia]].
    unfold ascii_text. cbn [map app]. rewrite uchar_byte_of_Z, Z.mod_small by lia.
    apply scanstring_raw; lia.
  - rewrite py_escape_high by lia. rewrite (proj2 (Z.ltb_ge cp 0x10000)) by done.
    apply scanstring_py_pair. unfold scalar in Hcp. lia.
Qed.

#[export] Instance py_escapes : Escapes py_escape.
Proof. split. intros. by apply scanstring_py_escape. Qed.

#[export] Instance cpp_escapes : Escapes cpp_escape.
Proof.
  split. intros cp s Hcp. unfold cpp_escape. case_match.
  - destruct (decide (cp = 0x7f)%Z) as [->|]; [by apply scanstring_raw|].
    rewrite <-py_escape_ascii by (unfold scalar in Hcp; lia). by apply scanstring_py_escape.
  - apply scanstring_raw; lia.
Qed.

(** ** Values *)

Lemma starts_with_other x p c t : x <> c -> starts_with (x :: p) (c :: t) = None.
Proof. intros H. cbn. by rewrite (proj2 (Z.eqb_neq x c)). Qed.

Lemma match_constant_none cs s :
  Forall (fun '(text, _) => starts_with text s = None) cs -> match_constant cs s = None.
Proof. induction 1 as [|[text v] cs H _ IH]; [done|]. cbn. by rewrite H. Qed.

Lemma match_constant_digit c t : digitb c = true -> match_constant constants (c :: t) = None.
Proof.
  intros Hc. apply match_constant_none. unfold constants.
  repeat constructor; (eapply starts_with_other; intros <-; discriminate Hc).
Qed.

Lemma match_constant_minus c t :
  digitb c = true -> match_constant constants (0x2d%Z :: c :: t) = None.
Proof.
  intros Hc. apply match_constant_none. unfold constants.
  repeat constructor; try (by eapply starts_with_other).
  transitivity (starts_with (lit "Infinity") (c :: t)); [done|].
  eapply starts_with_other. intros <-. discriminate Hc.
Qed.

Lemma scan_once_number fuel depth c t :
  c = 0x2d%Z \/ digitb c = true -> match_constant constants (c :: t) = None ->
  scan_once (S fuel) depth (c :: t) = match_number (c :: t).
Proof.
  intros Hc Hm. cbn [scan_once]. rewrite Hm. unfold digitb in Hc.
  assert (c <> 0x22 /\ c <> 0x7b /\ c <> 0x5b)%Z as (H1 & H2 & H3) by lia.
  apply Z.eqb_neq in H1, H2, H3. by rewrite H1, H2, H3.
Qed.

Lemma scan_int z fuel depth rest :
  length (digits_of 10 (Z.abs z)) <= int_max_str_digits -> value_ends rest ->
  scan_once (S fuel) depth (ascii_text (ostream_dec z) ++ rest) = Ok (JInt z, rest).
Proof.
  intros Hl Hr. rewrite <-match_number_dec by done. rewrite ostream_dec_digits.
  pose proof (digits_of_bounded 10 (Z.abs z) ltac:(lia) ltac:(lia)) as Hb.
  pose proof (digits_of_nonnil 10 (Z.abs z)) as Hn. unfold ascii_text. rewrite map_app.
  fold (ascii_text (map digit_char (digits_of 10 (Z.abs z)))). rewrite ascii_text_digits by done.
  destruct (digits_of 10 (Z.abs z)) as [|d ds]; [done|]. inversion_clear Hb.
  assert (digitb (0x30 + d) = true) as Hd by (unfold digitb; lia).
  destruct (z <? 0)%Z; cbn [sign map app].
  - apply scan_once_number; [by left|]. by apply (match_constant_minus (0x30 + d)).
  - apply scan_once_number; [by right|]. by apply match_constant_digit.
Qed.

Lemma scan_float x fuel depth rest :
  valid_binary 53 1024 x = true -> value_ends rest ->
  scan_once (S fuel) depth (ascii_text (float_repr x) ++ rest) = Ok (JFloat x, rest).
Proof.
  intros Hx Hr. destruct (finite x) eqn:Hf; [|by destruct x as [|[]| |]].
  rewrite <-match_number_repr by done. destruct (float_repr_head x Hf) as (negative & c & t & -> & Hc).
  destruct negative; cbn [minus ascii_text map app str].
  - apply scan_once_number; [by left|]. by apply match_constant_minus.
  - apply scan_once_number; [by right|]. by apply match_constant_digit.
Qed.

Section scan.
Context (esc : Z -> pystr) `{!Escapes esc}.

(** The start of a value is no space and closes nothing. *)
Lemma compact_head v :
  exists c t, compact esc v = c :: t /\ is_space c = false /\ c <> 0x5d%Z /\ c <> 0x7d%Z
    /\ (c < 0x80)%Z.
Proof.
  destruct v as [|b|z|x|s|l|items]; try (eexists _, _; split; [reflexivity|done]);
    [destruct b; (eexists _, _; split; [reflexivity|done])| |].
  2: { cbn [compact]. destruct (finite x) eqn:Hf; [|by destruct x as [|[]| |]; try done; (eexists _, _; split; [reflexivity|done])].
       destruct (float_repr_head x Hf) as (negative & c & t & -> & Hc).
       destruct negative; eexists _, _; (split; [reflexivity|]); [done|]. unfold is_space, digitb in *. lia. }
  pose proof (digits_of_bounded 10 (Z.abs z) ltac:(lia) ltac:(lia)) as Hb.
  pose proof (digits_of_nonnil 10 (Z.abs z)) as Hn. cbn [compact]. rewrite ostream_dec_digits.
  destruct (z <? 0)%Z; [by eexists _, _|]. cbn [sign app]. rewrite ascii_text_digits by done.
  destruct (digits_of 10 (Z.abs z)) as [|d ds]; [done|]. inversion_clear Hb.
  eexists _, _. split; [reflexivity|]. unfold is_space. lia.
Qed.

Lemma skip_space_compact v rest : skip_space (compact esc v ++ rest) = compact esc v ++ rest.
Proof.
  destruct (compact_head v) as (c & t & -> & Hs & _). cbn [app skip_space]. by rewrite Hs.
Qed.

(** [scan_once] reads the text of [v] in front of anything that ends a value. *)
Definition scans (v : pyobj) : Prop :=
  forall fuel depth rest, length (compact esc v) < fuel -> height v <= depth -> value_ends rest ->
    scan_once fuel depth (compact esc v ++ rest) = Ok (json_of v, rest).

Definition item_text (item : pystr * pyobj) : pystr :=
  quoted esc (fst item) ++ 0x3a%Z :: compact esc (snd item).

Lemma compact_dict items :
  compact esc (PDict items)
  = 0x7b%Z :: join 0x2c%Z (map item_text items) ++ [0x7d%Z].
Proof.
  cbn [compact]. f_equal. f_equal. f_equal. apply map_ext. by intros [k v].
Qed.

Lemma join_cons {A} (sep : A) t texts :
  texts <> [] -> join sep (t :: texts) = t ++ sep :: join sep texts.
Proof. by destruct texts. Qed.

Lemma dict_set_fresh {A} k (v : A) items :
  k ∉ map fst items -> dict_set k v items = items ++ [(k, v)].
Proof.
  induction items as [|[k' v'] items IH]; [done|]. cbn [map fst dict_set app].
  rewrite not_elem_of_cons. intros [Hk Hin]. by rewrite decide_False, IH.
Qed.

Lemma skip_space_ends t : value_ends t -> skip_space t = t.
Proof. destruct t as [|c t]; [done|]. by intros [-> | [-> | ->]]. Qed.

(** One element, and one member, in front of what ends it. *)
Lemma scan_element v t fuel depth :
  scans v -> height v <= depth -> length (compact esc v) < fuel -> value_ends t ->
  scan_elements (S fuel) depth (compact esc v ++ t)
  = match t with
    | [] => Raise JSONDecodeError
    | c :: t =>
        if (c =? 0x5d)%Z then Ok ([json_of v], t)
        else if negb (c =? 0x2c)%Z then Raise JSONDecodeError
        else '(l, rest) ← scan_elements fuel depth (skip_space t); Ok (json_of v :: l, rest)
    end.
Proof.
  intros Hv Hh Hf Ht. cbn [scan_elements]. rewrite Hv by done. cbn [mbind presult_bind].
  by rewrite skip_space_ends.
Qed.

Lemma scan_member k v acc t fuel depth :
  scans v -> Forall scalar k -> k ∉ map fst acc ->
  height v <= depth -> length (compact esc v) < fuel -> value_ends t ->
  scan_members (S fuel) depth (item_text (k, v) ++ t) acc
  = match t with
    | [] => Raise JSONDecodeError
    | c :: t =>
        if (c =? 0x7d)%Z then Ok (acc ++ [(k, json_of v)], t)
        else if negb (c =? 0x2c)%Z then Raise JSONDecodeError
        else scan_members fuel depth (skip_space t) (acc ++ [(k, json_of v)])
    end.
Proof.
  intros Hv Hk Hfresh Hh Hf Ht. unfold item_text, quoted. cbn [fst snd app].
  rewrite <-!app_assoc. cbn [app scan_members Z.eqb Pos.eqb negb].
  rewrite scanstring_quoted by done.
  cbn [mbind presult_bind skip_space is_space Z.eqb Pos.eqb orb negb].
  rewrite skip_space_compact, Hv by done. cbn [mbind presult_bind].
  by rewrite dict_set_fresh, skip_space_ends.
Qed.

Lemma join_head (texts : list pystr) t :
  Forall (fun u => forall rest, skip_space (u ++ rest) = u ++ rest) texts -> texts <> [] ->
  skip_space (join 0x2c%Z texts ++ t) = join 0x2c%Z texts ++ t.
Proof.
  intros Hu Hn. destruct Hu as [|u us Hu _]; [done|]. destruct us; [apply Hu|].
  cbn [join]. rewrite <-app_assoc. apply Hu.
Qed.

Lemma scan_elements_compact l fuel depth rest :
  l <> [] -> Forall scans l -> list_max (map height l) <= depth ->
  S (length (join 0x2c%Z (map (compact esc) l))) < fuel ->
  scan_elements fuel depth (join 0x2c%Z (map (compact esc) l) ++ 0x5d%Z :: rest)
  = Ok (map json_of l, rest).
Proof.
  intros Hl H. revert fuel. induction H as [|v l Hv H IH]; intros fuel Hh Hf; [done|].
  clear Hl. cbn [map list_max fold_right] in *. destruct fuel as [|fuel]; [lia|].
  destruct (decide (l = [])) as [->|Hl].
  - cbn [map join] in *. rewrite scan_element by first [lia | done | cbn; tauto]. done.
  - rewrite join_cons in * by (by destruct l). rewrite length_app in Hf. cbn [length] in Hf.
    rewrite <-app_assoc. cbn [app]. rewrite scan_element by first [lia | done | cbn; tauto].
    cbn [Z.eqb Pos.eqb negb]. rewrite join_head.
    + rewrite IH by first [done | unfold list_max; lia]. done.
    + apply Forall_map, Forall_true. intros v'. apply skip_space_compact.
    + by destruct l.
Qed.

Lemma length_item_text item : length (compact esc (snd item)) <= length (item_text item).
Proof. unfold item_text, quoted. rewrite length_app. cbn [length]. lia. Qed.

Lemma scan_members_compact items acc fuel depth rest :
  items <> [] -> Forall (fun item => scans (snd item)) items ->
  Forall (fun item => Forall scalar (fst item)) items ->
  NoDup (map fst acc ++ map fst items) ->
  list_max (map (fun '(_, v) => height v) items) <= depth ->
  S (length (join 0x2c%Z (map item_text items))) < fuel ->
  scan_members fuel depth (join 0x2c%Z (map item_text items) ++ 0x7d%Z :: rest) acc
  = Ok (acc ++ map (fun '(k, v) => (k, json_of v)) items, rest).
Proof.
  intros Hl H Hk. revert acc fuel.
  induction H as [|[k v] items Hv H IH]; intros acc fuel Hd Hh Hf; [done|].
  clear Hl. inversion_clear Hk as [|? ? Hkk Hk']. cbn [map fst snd list_max fold_right] in *.
  destruct fuel as [|fuel]; [lia|]. pose proof (length_item_text (k, v)) as Hlen. cbn [snd] in Hlen.
  assert (k ∉ map fst acc) as Hfresh.
  { intros Hin. apply NoDup_app in Hd as (_ & Hd & _). apply (Hd k Hin). by left. }
  destruct (decide (items = [])) as [->|Hl].
  - cbn [map join] in *. rewrite scan_member by first [lia | done | cbn; tauto]. done.
  - rewrite join_cons in * by (by destruct items). rewrite length_app in Hf. cbn [length] in Hf.
    rewrite <-app_assoc. cbn [app]. rewrite scan_member by first [lia | done | cbn; tauto].
    cbn [Z.eqb Pos.eqb negb]. rewrite join_head.
    + rewrite IH; [by rewrite <-app_assoc|done|done| |unfold list_max; lia|lia].
      rewrite map_app, <-app_assoc. exact Hd.
    + apply Forall_map, Forall_true. intros item t. done.
    + by destruct items.
Qed.

(** Into a container that is not empty. *)
Lemma scan_open_list fuel depth s :
  skip_space s = s -> hd 0x5d%Z s <> 0x5d%Z ->
  scan_once (S fuel) (S depth) (0x5b%Z :: s)
  = ('(l, rest) ← scan_elements fuel depth s; Ok (JArr l, rest)).
Proof.
  intros Hs Hc. cbn [scan_once Z.eqb Pos.eqb]. rewrite Hs. destruct s as [|c s]; [done|].
  cbn in Hc. by rewrite (proj2 (Z.eqb_neq c 0x5d)).
Qed.

Lemma scan_open_dict fuel depth s :
  skip_space s = s -> hd 0x7d%Z s <> 0x7d%Z ->
  scan_once (S fuel) (S depth) (0x7b%Z :: s)
  = ('(items, rest) ← scan_members fuel depth s []; Ok (JObj items, rest)).
Proof.
  intros Hs Hc. cbn [scan_once Z.eqb Pos.eqb]. rewrite Hs. destruct s as [|c s]; [done|].
  cbn in Hc. by rewrite (proj2 (Z.eqb_neq c 0x7d)).
Qed.

Lemma hd_join d (texts : list pystr) t :
  Forall (fun u => exists c v, u = c :: v /\ c <> d) texts -> texts <> [] ->
  hd d (join 0x2c%Z texts ++ t) <> d.
Proof.
  intros Hu Hn. destruct Hu as [|u us (c & v & -> & Hc) _]; [done|]. by destruct us.
Qed.

Lemma scan_list l : Forall scans l -> scans (PList l).
Proof.
  intros Hl [|fuel] depth rest Hf Hh Hr; [lia|]. cbn [compact height json_of] in *.
  destruct depth as [|depth]; [lia|]. rewrite !length_app in Hf.
  change (lit "[") with [0x5b%Z] in *. change (lit "]") with [0x5d%Z] in *. cbn [length] in Hf.
  rewrite <-!app_assoc. cbn [app]. destruct (decide (l = [])) as [->|Hn]; [done|].
  rewrite scan_open_list.
  - rewrite scan_elements_compact by (done || lia). done.
  - apply join_head; [|by destruct l]. apply Forall_map, Forall_true. apply skip_space_compact.
  - apply hd_join; [|by destruct l]. apply Forall_map, Forall_true. intros v.
    destruct (compact_head v) as (c & t & -> & _ & H & _). eauto.
Qed.

Lemma scan_dict items :
  NoDup (map fst items) -> Forall (fun item => Forall scalar (fst item)) items ->
  Forall (fun item => scans (snd item)) items -> scans (PDict items).
Proof.
  intros Hd Hk Hi [|fuel] depth rest Hf Hh Hr; [lia|]. rewrite compact_dict in Hf |- *.
  cbn [height json_of length app] in *. destruct depth as [|depth]; [lia|].
  rewrite length_app in Hf. cbn [length] in Hf. rewrite <-app_assoc. cbn [app].
  destruct (decide (items = [])) as [->|Hn]; [done|]. rewrite scan_open_dict.
  - rewrite scan_members_compact by (done || lia). done.
  - apply join_head; [|by destruct items]. by apply Forall_map, Forall_true.
  - apply hd_join; [|by destruct items]. apply Forall_map, Forall_true. intros item.
    eexists _, _. split; [reflexivity|done].
Qed.

Lemma scan_compact v : writable v -> scans v.
Proof.
  induction v as [|b|z|x|s|l IH|items IH] using pyobj_nested_ind;
    inversion_clear 1 as [|?|? Hz|? Hx|? Hs|? Hl|? Hd Hk Hi].
  - intros [|fuel] depth rest Hf Hh Hr; [lia|done].
  - intros [|fuel] depth rest Hf Hh Hr; [lia|]. by destruct b.
  - intros [|fuel] depth rest Hf Hh Hr; [lia|]. by apply scan_int.
  - intros [|fuel] depth rest Hf Hh Hr; [lia|]. by apply scan_float.
  - intros [|fuel] depth rest Hf Hh Hr; [lia|]. cbn [compact]. unfold quoted. cbn [app].
    rewrite <-app_assoc. cbn [app scan_once Z.eqb Pos.eqb]. by rewrite scanstring_quoted.
  - apply scan_list. rewrite Forall_forall in *. auto.
  - apply scan_dict; [done|done|]. rewrite Forall_forall in *. auto.
Qed.

Lemma loads_compact depth v :
  writable v -> height v <= depth -> loads depth (compact esc v) = Ok (json_of v).
Proof.
  intros Hv Hh. unfold loads. destruct (compact_head v) as (c & t & E & _ & _ & _ & Hc).
  pose proof (scan_compact v Hv (2 * length (compact esc v) + 1) depth [] ltac:(lia) Hh I) as Hscan.
  rewrite app_nil_r in Hscan. pose proof (skip_space_compact v []) as Hskip.
  rewrite app_nil_r in Hskip. rewrite Hskip, Hscan. rewrite E.
  by repeat case_match.
Qed.
End scan.

(** ** What Python writes *)

Lemma map_join {A B} (f : A -> B) sep texts :
  map f (join sep texts) = join (f sep) (map (map f) texts).
Proof.
  induction texts as [|t texts IH]; [done|]. destruct texts as [|u texts]; [done|].
  cbn [map] in *.
  rewrite !join_cons, map_app by done.
  cbn [map]. by rewrite IH.
Qed.

Lemma sort_items_map {A B} (f : A -> B) l :
  sort_items (map (fun '(k, x) => (k, f x)) l) = map (fun '(k, x) => (k, f x)) (sort_items l).
Proof.
  assert (forall k x l, insert_item k (f x) (map (fun '(k, x) => (k, f x)) l)
    = map (fun '(k, x) => (k, f x)) (insert_item k x l)) as Hi.
  { intros k x l'. induction l' as [|[k' x'] l' IH]; [done|]. cbn [map insert_item].
    destruct (seq_lt k k'); [done|]. cbn [map]. by rewrite IH. }
  induction l as [|[k x] l IH]; [done|]. cbn [map sort_items]. by rewrite IH, Hi.
Qed.

Lemma py_json_string_quoted s : ascii_text (py_json_string s) = quoted py_escape s.
Proof.
  unfold py_json_string, quoted, ascii_text. rewrite !map_app. cbn [map app]. f_equal. f_equal.
  by rewrite concat_map, map_map.
Qed.

(** [json.dumps] writes the sorted value compactly. *)
Lemma dumps_compact v : ascii_text (dumps v) = compact py_escape (sort_obj v).
Proof.
  induction v as [|b|z|x|s|l IH|items IH] using pyobj_nested_ind; cbn [dumps sort_obj].
  - done.
  - by destruct b.
  - done.
  - done.
  - apply py_json_string_quoted.
  - cbn [compact]. unfold ascii_text. rewrite !map_app, map_join, !map_map.
    do 3 f_equal. apply map_ext_Forall. exact IH.
  - rewrite compact_dict. unfold ascii_text. rewrite !map_app, map_join, map_map.
    change (map uchar (str "{")) with [0x7b%Z]. cbn [app]. do 3 f_equal.
    rewrite (sort_items_map dumps), (sort_items_map sort_obj), !map_map.
    apply map_ext_Forall, Forall_sort_items. eapply Forall_impl; [exact IH|].
    intros [k v] Hv. unfold dump_item, item_text. cbn [fst snd] in *.
    rewrite <-Hv, <-py_json_string_quoted. unfold ascii_text. by rewrite !map_app.
Qed.

Lemma sort_items_perm {A} (l : list (pystr * A)) : sort_items l ≡ₚ l.
Proof.
  assert (forall k x (l : list (pystr * A)), insert_item k x l ≡ₚ (k, x) :: l) as Hi.
  { intros k x l'. induction l' as [|[k' x'] l' IH]; [done|]. cbn [insert_item].
    destruct (seq_lt k k'); [done|]. rewrite IH. constructor. }
  induction l as [|[k x] l IH]; [done|]. cbn [sort_items]. by rewrite Hi, IH.
Qed.

Lemma writable_sort v : writable v -> writable (sort_obj v).
Proof.
  induction v as [|b|z|x|s|l IH|items IH] using pyobj_nested_ind;
    inversion_clear 1 as [|?|? Hz|? Hx|? Hs|? Hl|? Hd Hk Hi]; cbn [sort_obj]; try by constructor.
  - constructor. apply Forall_map. rewrite Forall_forall in *. auto.
  - constructor.
    + rewrite sort_items_perm, map_map. erewrite map_ext; [exact Hd|]. by intros [k v].
    + apply Forall_sort_items, Forall_map. eapply Forall_impl; [exact Hk|]. by intros [k v].
    + apply Forall_sort_items, Forall_map. rewrite Forall_forall in *.
      intros [k v] Hin. apply (IH (k, v) Hin), (Hi (k, v) Hin).
Qed.

Lemma list_max_perm l l' : l ≡ₚ l' -> list_max l = list_max l'.
Proof. unfold list_max. induction 1; cbn; lia. Qed.

Lemma height_sort v : height (sort_obj v) = height v.
Proof.
  induction v as [|b|z|x|s|l IH|items IH] using pyobj_nested_ind; cbn [sort_obj height]; try done.
  - f_equal. f_equal. rewrite map_map. by apply map_ext_Forall.
  - f_equal. rewrite sort_items_perm. rewrite map_map. f_equal. apply map_ext_Forall.
    eapply Forall_impl; [exact IH|]. by intros [k v].
Qed.

Lemma loads_dumps depth v :
  writable v -> height v <= depth -> loads depth (ascii_text (dumps v)) = Ok (json_of (sort_obj v)).
Proof.
  intros Hv Hh. rewrite dumps_compact. apply loads_compact; [apply _|by apply writable_sort|].
  by rewrite height_sort.
Qed.

(** ** Text without surrogates *)

Lemma Forall_join {A} (P : A -> Prop) sep ts : P sep -> Forall (Forall P) ts -> Forall P (join sep ts).
Proof.
  intros Hs. induction 1 as [|t ts Ht _ IH]; [constructor|]. destruct ts as [|u ts]; [done|].
  rewrite join_cons by done. apply Forall_app; split; [done|]. by constructor.
Qed.

Section scalar_text.
Context (esc : Z -> pystr) (Hesc : forall cp, scalar cp -> Forall scalar (esc cp)).

Lemma quoted_scalar s : Forall scalar s -> Forall scalar (quoted esc s).
Proof.
  intros Hs. unfold quoted. constructor; [unfold scalar; lia|].
  apply Forall_app; split; [|apply Forall_singleton; unfold scalar; lia].
  apply Forall_concat, Forall_map. eapply Forall_impl; [exact Hs|]. apply Hesc.
Qed.

Lemma compact_scalar v : writable v -> Forall scalar (compact esc v).
Proof.
  assert (scalar 0x2c /\ scalar 0x3a /\ scalar 0x5b /\ scalar 0x5d /\ scalar 0x7b /\ scalar 0x7d)
    as (? & ? & ? & ? & ? & ?) by (unfold scalar; lia).
  induction v as [|b|z|x|s|l IH|items IH] using pyobj_nested_ind;
    inversion_clear 1 as [|?|? Hz|? Hx|? Hs|? Hl|? Hd Hk Hi].
  - by apply lit_scalar; ascii_lit.
  - destruct b; by apply lit_scalar; ascii_lit.
  - apply ascii_text_scalar, ostream_dec_ascii.
  - apply ascii_text_scalar, float_repr_ascii.
  - by apply quoted_scalar.
  - cbn [compact]. apply Forall_app; split; [by apply Forall_singleton|].
    apply Forall_app; split; [|by apply Forall_singleton].
    apply Forall_join, Forall_map; [done|]. rewrite Forall_forall in *. auto.
  - rewrite compact_dict. constructor; [done|]. apply Forall_app; split; [|by apply Forall_singleton].
    apply Forall_join, Forall_map; [done|]. rewrite Forall_forall in *. intros [k v] Hin.
    unfold item_text. cbn [fst snd]. apply Forall_app; split; [apply quoted_scalar, (Hk (k, v) Hin)|].
    constructor; [done|]. apply (IH (k, v) Hin), (Hi (k, v) Hin).
Qed.
End scalar_text.

(** Items with literal keys. *)
Definition lit_items (items : list (String.string * pyobj)) : list (pystr * pyobj) :=
  map (fun '(k, v) => (lit k, v)) items.

Lemma writable_lit_items items :
  NoDup (map fst items) -> Forall (fun item => Forall ascii (str (fst item))) items ->
  Forall (fun item => writable (snd item)) items -> writable (PDict (lit_items items)).
Proof.
  intros Hd Hk Hv. unfold lit_items. constructor.
  - rewrite map_map. rewrite (map_ext _ (fun item => lit (fst item))) by (by intros [k v]).
    clear Hv. induction Hk as [|[k v] items Hk Hks IH]; cbn [map fst] in *; [constructor|].
    apply NoDup_cons in Hd as [Hnin Hd]. constructor; [|auto].
    intros (item & E & Hin)%list_elem_of_fmap. apply Hnin, list_elem_of_fmap.
    exists item. split; [|done]. apply (f_equal utf8_text) in E. unfold lit in E.
    rewrite Forall_forall in Hks. rewrite !utf8_text_ascii in E by auto.
    apply (f_equal String.string_of_list_byte) in E. unfold str in E.
    by rewrite !String.string_of_list_byte_of_string in E.
  - apply Forall_map. eapply Forall_impl; [exact Hk|]. intros [k v] H. by apply lit_scalar.
  - apply Forall_map. eapply Forall_impl; [exact Hv|]. by intros [k v].
Qed.

(** A dict of literals. *)
Ltac writable_dict :=
  constructor;
  [apply (bool_decide_unpack _); vm_compute; exact I
  |repeat (constructor; [apply lit_scalar; ascii_lit|]); constructor
  |repeat (constructor; [constructor; first [by apply forallb_scalar
      | apply Nat.leb_le; vm_compute; reflexivity]|]); constructor].
