(* ===== verification/PyJob.v ===== *)
(** * The Python peer's messages (reference/python/ma2a/job.py and the failure
    notices of reference/python/ma2a/capability.py)

    One Module per Python module and one per dataclass inside it.  The members
    hold values of their declared types.  [cryptography] is not part of the
    repository: the class [Ed25519] lists what the code uses of it. *)
From S2P Require Import Prelude Unicode PyText PyJson.

(** [cryptography.hazmat.primitives.asymmetric.ed25519] *)
Class Ed25519 : Type := {
  Ed25519PrivateKey : Type;
  Ed25519PublicKey : Type;
  sign : Ed25519PrivateKey -> bytes -> bytes;
  (** Signature, then data; raises when it is not valid. *)
  verify : Ed25519PublicKey -> bytes -> bytes -> presult unit;
  from_public_bytes : bytes -> presult Ed25519PublicKey;
  public_bytes_raw : Ed25519PublicKey -> bytes;
}.

(** What [asdict] returns: the members in the order of their declaration. *)
Abbreviation pydict := (list (pystr * pyobj)).

(** [value.pop(k)] *)
Definition pop (k : pystr) (items : pydict) : pydict :=
  filter (fun item => fst item <> k) items.

(** The truth value of a [str]. *)
Definition truthy (s : pystr) : bool := negb (bool_decide (s = [])).

(** A member declared [str | None]. *)
Definition optional (s : option pystr) : pyobj :=
  match s with Some s => PStr s | None => PNone end.

Definition is_lit (s : pystr) (k : String.string) : bool := bool_decide (s = lit k).
Arguments is_lit s k%_string_scope.

Module job.

Module JobRequest.
Record t : Type := mk {
  protocol_version : pystr;
  message_id : pystr;
  request_id : pystr;
  sender_node_id : pystr;
  target_node_id : pystr;
  organization_id : option pystr;
  operation : pystr;
  payload : pystr;
  issued_at : Z;
  expires_at : Z;
  signature_algorithm : pystr;
  signature : pystr;
}.

Definition set_signature (v : pystr) (r : t) : t :=
  mk (protocol_version r) (message_id r) (request_id r) (sender_node_id r) (target_node_id r)
     (organization_id r) (operation r) (payload r) (issued_at r) (expires_at r)
     (signature_algorithm r) v.

Definition asdict (self : t) : pydict :=
  [(lit "protocol_version", PStr (protocol_version self));
   (lit "message_id", PStr (message_id self));
   (lit "request_id", PStr (request_id self));
   (lit "sender_node_id", PStr (sender_node_id self));
   (lit "target_node_id", PStr (target_node_id self));
   (lit "organization_id", optional (organization_id self));
   (lit "operation", PStr (operation self));
   (lit "payload", PStr (payload self));
   (lit "issued_at", PInt (issued_at self));
   (lit "expires_at", PInt (expires_at self));
   (lit "signature_algorithm", PStr (signature_algorithm self));
   (lit "signature", PStr (signature self))].

Definition unsigned_payload (self : t) : pyobj := PDict (pop (lit "signature") (asdict self)).

(** [now=None] is [None]. *)
Definition validate (self : t) (now : option Z) : presult unit :=
  raise_if (negb (forallb truthy [protocol_version self; message_id self; request_id self;
                                  sender_node_id self; target_node_id self; operation self]))
    (ValueError "missing job request field");;
  raise_if (negb (is_lit (operation self) "PING" || is_lit (operation self) "ECHO"))
    (ValueError "unsupported job operation");;
  raise_if ((issued_at self <? 0) || (expires_at self <=? issued_at self))%Z
    (ValueError "invalid job validity window");;
  raise_if (match now with
            | Some now => negb ((issued_at self <=? now) && (now <=? expires_at self))%Z
            | None => false
            end)
    (ValueError "job request expired or not yet valid");;
  raise_if (negb (is_lit (signature_algorithm self) "Ed25519"))
    (ValueError "unsupported signature algorithm").
End JobRequest.

Module JobResult.
Record t : Type := mk {
  protocol_version : pystr;
  message_id : pystr;
  request_id : pystr;
  responder_node_id : pystr;
  recipient_node_id : pystr;
  status : pystr;
  payload : pystr;
  completed_at : Z;
  signature_algorithm : pystr;
  signature : pystr;
}.

Definition set_signature (v : pystr) (r : t) : t :=
  mk (protocol_version r) (message_id r) (request_id r) (responder_node_id r)
     (recipient_node_id r) (status r) (payload r) (completed_at r) (signature_algorithm r) v.

Definition asdict (self : t) : pydict :=
  [(lit "protocol_version", PStr (protocol_version self));
   (lit "message_id", PStr (message_id self));
   (lit "request_id", PStr (request_id self));
   (lit "responder_node_id", PStr (responder_node_id self));
   (lit "recipient_node_id", PStr (recipient_node_id self));
   (lit "status", PStr (status self));
   (lit "payload", PStr (payload self));
   (lit "completed_at", PInt (completed_at self));
   (lit "signature_algorithm", PStr (signature_algorithm self));
   (lit "signature", PStr (signature self))].

Definition unsigned_payload (self : t) : pyobj := PDict (pop (lit "signature") (asdict self)).

Definition validate (self : t) : presult unit :=
  raise_if (negb (forallb truthy [protocol_version self; message_id self; request_id self;
                                  responder_node_id self; recipient_node_id self; status self]))
    (ValueError "missing job result field");;
  raise_if (negb (is_lit (status self) "OK" || is_lit (status self) "ERROR"))
    (ValueError "invalid job result status");;
  raise_if (completed_at self <? 0)%Z (ValueError "negative completion time");;
  raise_if (negb (is_lit (signature_algorithm self) "Ed25519"))
    (ValueError "unsupported signature algorithm").
End JobResult.

Definition execute_reference_job (request : JobRequest.t) : pystr * pystr :=
  if is_lit (JobRequest.operation request) "PING" then (lit "OK", lit "PONG")
  else if is_lit (JobRequest.operation request) "ECHO"
  then (lit "OK", JobRequest.payload request)
  else (lit "ERROR", lit "unsupported_operation").

Section signed.
Context `{Ed25519}.

Definition sign_job_request (request : JobRequest.t) (private_key : Ed25519PrivateKey)
    : presult JobRequest.t :=
  JobRequest.validate request None;;
  let unsigned := JobRequest.set_signature [] request in
  let signature := sign private_key (canonical_json (JobRequest.unsigned_payload unsigned)) in
  Ok (JobRequest.set_signature (_b64 signature) unsigned).

Definition verify_job_request (request : JobRequest.t) (public_key : Ed25519PublicKey)
    (now : option Z) : presult bool :=
  false_if_rejected
    (JobRequest.validate request now;;
     if negb (truthy (JobRequest.signature request)) then Ok false else
     signature ← _unb64 (JobRequest.signature request);
     verify public_key signature (canonical_json (JobRequest.unsigned_payload request));;
     Ok true).

Definition sign_job_result (result : JobResult.t) (private_key : Ed25519PrivateKey)
    : presult JobResult.t :=
  JobResult.validate result;;
  let unsigned := JobResult.set_signature [] result in
  let signature := sign private_key (canonical_json (JobResult.unsigned_payload unsigned)) in
  Ok (JobResult.set_signature (_b64 signature) unsigned).

Definition verify_job_result (result : JobResult.t) (public_key : Ed25519PublicKey)
    : presult bool :=
  false_if_rejected
    (JobResult.validate result;;
     if negb (truthy (JobResult.signature result)) then Ok false else
     signature ← _unb64 (JobResult.signature result);
     verify public_key signature (canonical_json (JobResult.unsigned_payload result));;
     Ok true).
End signed.
End job.

Module capability.

Module FailureNotice.
Record t : Type := mk {
  protocol_version : pystr;
  message_id : pystr;
  request_id : pystr;
  reporting_node_id : pystr;
  failed_node_id : pystr;
  reason : pystr;
  observed_at : Z;
  signature_algorithm : pystr;
  signature : pystr;
}.

Definition set_signature (v : pystr) (n : t) : t :=
  mk (protocol_version n) (message_id n) (request_id n) (reporting_node_id n)
     (failed_node_id n) (reason n) (observed_at n) (signature_algorithm n) v.

Definition asdict (self : t) : pydict :=
  [(lit "protocol_version", PStr (protocol_version self));
   (lit "message_id", PStr (message_id self));
   (lit "request_id", PStr (request_id self));
   (lit "reporting_node_id", PStr (reporting_node_id self));
   (lit "failed_node_id", PStr (failed_node_id self));
   (lit "reason", PStr (reason self));
   (lit "observed_at", PInt (observed_at self));
   (lit "signature_algorithm", PStr (signature_algorithm self));
   (lit "signature", PStr (signature self))].

Definition unsigned_payload (self : t) : pyobj := PDict (pop (lit "signature") (asdict self)).

Definition validate (self : t) : presult unit :=
  raise_if (negb (forallb truthy [protocol_version self; message_id self; request_id self;
                                  reporting_node_id self; failed_node_id self; reason self]))
    (ValueError "missing failure notice field");;
  raise_if (observed_at self <? 0)%Z (ValueError "negative observation time");;
  raise_if (negb (is_lit (signature_algorithm self) "Ed25519"))
    (ValueError "unsupported signature algorithm").
End FailureNotice.

Section signed.
Context `{Ed25519}.

Definition sign_failure_notice (notice : FailureNotice.t) (private_key : Ed25519PrivateKey)
    : presult FailureNotice.t :=
  FailureNotice.validate notice;;
  let unsigned := FailureNotice.set_signature [] notice in
  let signature := sign private_key (canonical_json (FailureNotice.unsigned_payload unsigned)) in
  Ok (FailureNotice.set_signature (_b64 signature) unsigned).

Definition verify_failure_notice (notice : FailureNotice.t) (public_key : Ed25519PublicKey)
    : presult bool :=
  false_if_rejected
    (FailureNotice.validate notice;;
     if negb (truthy (FailureNotice.signature notice)) then Ok false else
     signature ← _unb64 (FailureNotice.signature notice);
     verify public_key signature (canonical_json (FailureNotice.unsigned_payload notice));;
     Ok true).
End signed.
End capability.
