(* ===== verification/PyTransport.v ===== *)
(** * The Python peer's transport (reference/python/ma2a/transport.py)

    A connected socket is what the peer has sent, cut into the segments the
    network delivers, and what has been sent to the peer.  A receive past the
    last segment finds the connection closed or runs into the timeout. *)
From Equations Require Import Equations.
From S2P Require Import Prelude Unicode PyText PyJson PyLoads PyJob.

Record conn : Type := {
  inbox : list bytes;
  peer_closed : bool;
  (** How much the peer still takes before it resets the connection. *)
  room : option nat;
  sent : bytes;
}.

Definition set_inbox (segments : list bytes) (c : conn) : conn :=
  {| inbox := segments; peer_closed := peer_closed c; room := room c; sent := sent c |}.

(** ** Calls that use a socket *)

Definition PyM (A : Type) : Type := conn -> presult A * conn.

#[global] Instance PyM_ret : MRet PyM := fun A a c => (Ok a, c).
#[global] Instance PyM_bind : MBind PyM := fun A B f m c =>
  match m c with
  | (Ok a, c') => f a c'
  | (Raise e, c') => (Raise e, c')
  end.
Definition pure {A} (r : presult A) : PyM A := fun c => (r, c).

(** [sock.recv(n)], for a positive [n] *)
Definition recv (n : nat) : PyM bytes := fun c =>
  match inbox c with
  | [] => (if peer_closed c then Ok [] else Raise OSError, c)
  | s :: segments =>
      (Ok (take n s), set_inbox (if decide (drop n s = []) then segments else drop n s :: segments) c)
  end.

(** [sock.sendall(data)] *)
Definition sendall (data : bytes) : PyM unit := fun c =>
  match room c with
  | Some n =>
      if n <? length data
      then (Raise OSError, {| inbox := inbox c; peer_closed := peer_closed c; room := Some 0;
                              sent := sent c ++ take n data |})
      else (Ok tt, {| inbox := inbox c; peer_closed := peer_closed c; room := Some (n - length data);
                      sent := sent c ++ data |})
  | None =>
      (Ok tt, {| inbox := inbox c; peer_closed := peer_closed c; room := None;
                 sent := sent c ++ data |})
  end.

(** ** Frames *)

Definition MAX_FRAME_BYTES : Z := 1024 * 1024.

(** The loop of [_recv_exact] and the [join] of its chunks. *)
Equations _recv_exact (remaining : nat) (c : conn) : presult bytes * conn by wf remaining lt :=
  _recv_exact 0 c := (Ok [], c);
  _recv_exact (S n) c with recv (S n) c => {
    | (Raise e, c') => (Raise e, c')
    | (Ok [], c') => (Raise (ConnectionError "connection closed before frame completed"), c')
    | (Ok (b :: chunk), c') with _recv_exact (n - length chunk) c' => {
        | (Ok rest, c'') => (Ok ((b :: chunk) ++ rest), c'')
        | (Raise e, c'') => (Raise e, c'') } }.
Next Obligation. lia. Qed.

(** [struct.pack("!I", n)] and [struct.unpack("!I", b)] *)
Definition pack_I (n : Z) : bytes :=
  map byte_of_Z [n / 16777216; n / 65536; n / 256; n]%Z.
Definition unpack_I (b : bytes) : Z := fold_left (fun n b => n * 256 + uchar b)%Z b 0%Z.

Definition frame_obj (message_type : pystr) (payload : pydict) : pyobj :=
  PDict [(lit "type", PStr message_type); (lit "payload", PDict payload)].

Definition send_frame (message_type : pystr) (payload : pydict) : PyM unit :=
  let body := dumps (frame_obj message_type payload) in
  pure (raise_if (MAX_FRAME_BYTES <? Z.of_nat (length body))%Z (ValueError "frame too large"));;
  sendall (pack_I (Z.of_nat (length body)) ++ body).

(** [raw[k]] of a dict that was read. *)
Fixpoint lookup_key (k : pystr) (items : list (pystr * json)) : option json :=
  match items with
  | [] => None
  | (k', v) :: items => if decide (k = k') then Some v else lookup_key k items
  end.

(** [set(items) == {...}] *)
Definition same_keys (items : list (pystr * json)) (keys : list pystr) : bool :=
  forallb (fun item => bool_decide (fst item ∈ keys)) items
  && forallb (fun k => bool_decide (k ∈ map fst items)) keys.

(** The checks on what was read from a frame. *)
Definition open_envelope (raw : json) : presult (pystr * list (pystr * json)) :=
  match raw with
  | JObj items =>
      if negb (same_keys items [lit "type"; lit "payload"])
      then Raise (ValueError "invalid frame envelope") else
      match lookup_key (lit "type") items, lookup_key (lit "payload") items with
      | Some (JStr message_type), Some (JObj payload) => Ok (message_type, payload)
      | _, _ => Raise (ValueError "invalid frame fields")
      end
  | _ => Raise (ValueError "invalid frame envelope")
  end.

Section transport.
(** What is left of the recursion limit when [json.loads] is called. *)
Context (recursion_left : nat).

Definition recv_frame : PyM (pystr * list (pystr * json)) :=
  header ← _recv_exact 4;
  let length := unpack_I header in
  pure (raise_if ((length <=? 0) || (MAX_FRAME_BYTES <? length))%Z
          (ValueError "invalid frame length"));;
  body ← _recv_exact (Z.to_nat length);
  text ← pure (decode_utf8 body);
  raw ← pure (loads recursion_left text);
  pure (open_envelope raw).

(** ** Dataclasses from keyword arguments *)

(** The members with and without a default: a missing or an unexpected keyword
    is a [TypeError]. *)
Definition check_keywords (required optional : list pystr) (payload : list (pystr * json))
    : presult unit :=
  raise_if
    (negb (forallb (fun item => bool_decide (fst item ∈ required ++ optional)) payload
           && forallb (fun k => bool_decide (k ∈ map fst payload)) required)) TypeError.

Definition str_member (k : String.string) (default : pystr) (payload : list (pystr * json))
    : presult pystr :=
  match lookup_key (lit k) payload with
  | Some (JStr s) => Ok s
  | Some _ => Raise IllTyped
  | None => Ok default
  end.
Definition optional_str_member (k : String.string) (payload : list (pystr * json))
    : presult (option pystr) :=
  match lookup_key (lit k) payload with
  | Some (JStr s) => Ok (Some s)
  | Some JNull => Ok None
  | _ => Raise IllTyped
  end.
Definition int_member (k : String.string) (payload : list (pystr * json)) : presult Z :=
  match lookup_key (lit k) payload with
  | Some (JInt z) => Ok z
  | _ => Raise IllTyped
  end.

(** [JobRequest] called with the items of [payload] as keyword arguments. *)
Definition make_job_request (payload : list (pystr * json)) : presult job.JobRequest.t :=
  check_keywords
    [lit "protocol_version"; lit "message_id"; lit "request_id"; lit "sender_node_id";
     lit "target_node_id"; lit "organization_id"; lit "operation"; lit "payload";
     lit "issued_at"; lit "expires_at"]
    [lit "signature_algorithm"; lit "signature"] payload;;
  protocol_version ← str_member "protocol_version" [] payload;
  message_id ← str_member "message_id" [] payload;
  request_id ← str_member "request_id" [] payload;
  sender_node_id ← str_member "sender_node_id" [] payload;
  target_node_id ← str_member "target_node_id" [] payload;
  organization_id ← optional_str_member "organization_id" payload;
  operation ← str_member "operation" [] payload;
  payload_ ← str_member "payload" [] payload;
  issued_at ← int_member "issued_at" payload;
  expires_at ← int_member "expires_at" payload;
  signature_algorithm ← str_member "signature_algorithm" (lit "Ed25519") payload;
  signature ← str_member "signature" [] payload;
  Ok (job.JobRequest.mk protocol_version message_id request_id sender_node_id target_node_id
        organization_id operation payload_ issued_at expires_at signature_algorithm signature).

(** [JobResult] likewise. *)
Definition make_job_result (payload : list (pystr * json)) : presult job.JobResult.t :=
  check_keywords
    [lit "protocol_version"; lit "message_id"; lit "request_id"; lit "responder_node_id";
     lit "recipient_node_id"; lit "status"; lit "payload"; lit "completed_at"]
    [lit "signature_algorithm"; lit "signature"] payload;;
  protocol_version ← str_member "protocol_version" [] payload;
  message_id ← str_member "message_id" [] payload;
  request_id ← str_member "request_id" [] payload;
  responder_node_id ← str_member "responder_node_id" [] payload;
  recipient_node_id ← str_member "recipient_node_id" [] payload;
  status ← str_member "status" [] payload;
  payload_ ← str_member "payload" [] payload;
  completed_at ← int_member "completed_at" payload;
  signature_algorithm ← str_member "signature_algorithm" (lit "Ed25519") payload;
  signature ← str_member "signature" [] payload;
  Ok (job.JobResult.mk protocol_version message_id request_id responder_node_id recipient_node_id
        status payload_ completed_at signature_algorithm signature).

(** ** Clients and servers *)

(** With the connection [socket.create_connection] returns. *)
Definition send_job (request : job.JobRequest.t) : PyM job.JobResult.t :=
  send_frame (lit "JOB_REQUEST") (job.JobRequest.asdict request);;
  response ← recv_frame;
  let '(message_type, payload) := response in
  pure (raise_if (negb (is_lit message_type "JOB_RESULT")) (ValueError "unexpected response type"));;
  pure (make_job_result payload).

(** With the connection [listener.accept()] returns. *)
Definition serve_one_job (handler : job.JobRequest.t -> presult job.JobResult.t) : PyM unit :=
  message ← recv_frame;
  let '(message_type, payload) := message in
  pure (raise_if (negb (is_lit message_type "JOB_REQUEST")) (ValueError "unexpected request type"));;
  request ← pure (make_job_request payload);
  result ← pure (handler request);
  send_frame (lit "JOB_RESULT") (job.JobResult.asdict result).
End transport.

(** ** Receiving *)

(** The peer never delivers an empty segment. *)
Definition segmented (c : conn) : Prop := Forall (fun s => s <> []) (inbox c).

(** What [recv] returns comes from the front of the stream. *)
Lemma recv_ok n c data c' :
  0 < n -> segmented c -> recv n c = (Ok data, c') ->
  concat (inbox c) = data ++ concat (inbox c') /\ length data <= n /\ segmented c'
  /\ sent c' = sent c /\ room c' = room c /\ peer_closed c' = peer_closed c
  /\ (data = [] -> inbox c = []).
Proof.
  unfold recv, segmented. intros Hn Hc H. destruct (inbox c) as [|s segments] eqn:E.
  - destruct (peer_closed c) eqn:Ec; [|done]. injection H as <- <-. rewrite E. cbn.
    split_and!; auto with lia.
  - injection H as <- <-. inversion_clear Hc as [|? ? Hs Hss]. cbn [set_inbox inbox sent room peer_closed].
    split_and!; try done.
    + case_decide as Hd; cbn [concat].
      * rewrite <-(take_drop n s) at 1. by rewrite Hd, app_nil_r.
      * by rewrite app_assoc, take_drop.
    + rewrite length_take. lia.
    + case_decide; [done|]. by constructor.
    + intros Ht. apply (f_equal length) in Ht. rewrite length_take in Ht. cbn in Ht.
      destruct s; [done|cbn in Ht; lia].
Qed.

Lemma recv_exact_ok n c data c' :
  segmented c -> _recv_exact n c = (Ok data, c') ->
  concat (inbox c) = data ++ concat (inbox c') /\ segmented c'
  /\ sent c' = sent c /\ room c' = room c /\ peer_closed c' = peer_closed c.
Proof.
  revert data c'. funelim (_recv_exact n c); intros data d Hc He; try congruence.
  - by injection He as <- <-.
  - injection He as <- <-.
    apply recv_ok in Heq0 as (Hin & _ & Hc' & Hs & Hr & Hp & _); [|lia|done].
    destruct (Hind rest c'' Hc' Heq) as (Hin' & ? & ? & ? & ?).
    split_and!; try congruence. by rewrite Hin, Hin', app_assoc.
Qed.

(** What ends a receive that finds the stream too short. *)
Definition short_read (c : conn) : pyexn :=
  if peer_closed c then ConnectionError "connection closed before frame completed" else OSError.

(** However the stream is cut into segments, [_recv_exact] takes the bytes asked
    for, or fails when the stream has fewer. *)
Lemma recv_exact_spec n c :
  segmented c ->
  fst (_recv_exact n c)
  = if length (concat (inbox c)) <? n then Raise (short_read c) else Ok (take n (concat (inbox c))).
Proof.
  funelim (_recv_exact n c); intros Hc.
  - by rewrite take_0.
  - pose proof (recv_ok (S n) _ _ _ ltac:(lia) Hc Heq) as (_ & _ & _ & _ & _ & _ & He).
    rewrite He by done. unfold recv in Heq. rewrite He in Heq by done.
    destruct (peer_closed c) eqn:E; [|done]. unfold short_read. by rewrite E.
  - unfold recv in Heq. destruct (inbox c); [|done].
    destruct (peer_closed c) eqn:E; [done|]. injection Heq as <- _. unfold short_read. by rewrite E.
  - apply recv_ok in Heq0 as (Hin & Hl & Hc' & _ & _ & Hp & _); [|lia|done].
    specialize (Hind Hc'). rewrite Heq in Hind. cbn [fst] in Hind. rewrite Hin, length_app. cbn [length] in *.
    destruct (Nat.ltb_spec (length (concat (inbox c'))) (n - length chunk)); [done|].
    injection Hind as ->. rewrite (proj2 (Nat.ltb_ge _ _)) by lia. cbn [fst].
    f_equal. rewrite take_app_ge by (cbn; lia). done.
  - apply recv_ok in Heq0 as (Hin & Hl & Hc' & _ & _ & Hp & _); [|lia|done].
    specialize (Hind Hc'). rewrite Heq in Hind. cbn [fst] in Hind. rewrite Hin, length_app. cbn [length] in *.
    destruct (Nat.ltb_spec (length (concat (inbox c'))) (n - length chunk)); [|done].
    injection Hind as ->. rewrite (proj2 (Nat.ltb_lt _ _)) by lia. cbn [fst]. unfold short_read.
    by rewrite Hp.
Qed.

Lemma recv_exact_returns n c data rest :
  segmented c -> concat (inbox c) = data ++ rest -> length data = n ->
  exists c', _recv_exact n c = (Ok data, c') /\ segmented c' /\ concat (inbox c') = rest
    /\ sent c' = sent c /\ room c' = room c.
Proof.
  intros Hc Hin Hl. pose proof (recv_exact_spec n c Hc) as Hs. rewrite Hin, length_app in Hs.
  rewrite (proj2 (Nat.ltb_ge _ _)), <-Hl, take_app_length, Hl in Hs by lia.
  destruct (_recv_exact n c) as [r c'] eqn:E. cbn in Hs. subst r. exists c'.
  apply recv_exact_ok in E as (Hin' & ? & ? & ? & _); [|done]. rewrite Hin in Hin'.
  apply app_inv_head in Hin'. done.
Qed.
