(* ===== verification/PyConflict.v ===== *)
(** * Conflict resolution (reference/python/ma2a/conflict.py)

    [resolve] and what it makes of a replica that keeps what it accepts.
    spec/conflict-resolution.md names convergence as a property to test and
    leaves it unproven: here it is proved for deltas that advance the version
    by one, and refuted for the others. *)
From S2P Require Import Prelude Unicode PyText.

Module conflict.

Inductive Resolution : Type :=
| ACCEPT_INCOMING
| KEEP_LOCAL
| REJECT_REPLAY
| REJECT_STALE
| REJECT_SCOPE
| REJECT_UNRESOLVED.

#[global] Instance Resolution_eq_dec : EqDecision Resolution.
Proof. solve_decision. Defined.

Module DeltaMeta.
Record t : Type := mk {
  base_version : Z;
  new_version : Z;
  logical_clock : Z;
  organization_id : pystr;
  sender_id : pystr;
  message_id : pystr;
  scope_allowed : bool;
  replay : bool;
}.

#[global] Instance t_eq_dec : EqDecision t.
Proof. solve_decision. Defined.

(** A tuple is the list of its components, an [int] the list of it alone. *)
Definition ordering_key (self : t) : presult (list (list Z)) :=
  organization_id ← encode_utf8 (organization_id self);
  sender_id ← encode_utf8 (sender_id self);
  message_id ← encode_utf8 (message_id self);
  Ok [[new_version self]; [logical_clock self]; ascii_text organization_id; ascii_text sender_id;
      ascii_text message_id].
End DeltaMeta.

(** [a < b] on tuples: the first components that differ decide. *)
Fixpoint tuple_lt (a b : list (list Z)) : bool :=
  match a, b with
  | _, [] => false
  | [], _ :: _ => true
  | x :: a, y :: b => if decide (x = y) then tuple_lt a b else seq_lt x y
  end.

Definition resolve (local incoming : DeltaMeta.t) : presult Resolution :=
  if DeltaMeta.replay incoming then Ok REJECT_REPLAY else
  if negb (DeltaMeta.scope_allowed incoming) then Ok REJECT_SCOPE else
  if (DeltaMeta.base_version incoming =? DeltaMeta.new_version local)%Z then Ok ACCEPT_INCOMING else
  if (DeltaMeta.base_version incoming <? DeltaMeta.new_version local)%Z then
    if (DeltaMeta.new_version incoming =? DeltaMeta.new_version local)%Z then
      incoming_key ← DeltaMeta.ordering_key incoming;
      local_key ← DeltaMeta.ordering_key local;
      Ok (if tuple_lt local_key incoming_key then ACCEPT_INCOMING else KEEP_LOCAL)
    else Ok REJECT_STALE
  else Ok REJECT_UNRESOLVED.
End conflict.
Import conflict.

(** ** The order of the keys *)

Lemma tuple_lt_irrefl a : tuple_lt a a = false.
Proof. induction a as [|x a IH]; [done|]. cbn. by rewrite decide_True. Qed.

Lemma tuple_lt_trans a b c : tuple_lt a b = true -> tuple_lt b c = true -> tuple_lt a c = true.
Proof.
  revert b c. induction a as [|x a IH]; intros [|y b] [|z c]; try done. cbn.
  destruct (decide (x = y)) as [->|Hxy], (decide (y = z)) as [->|Hyz]; eauto.
  - by rewrite decide_False.
  - intros H1 H2. destruct (decide (x = z)) as [->|]; [|by eapply seq_lt_trans].
    by rewrite (seq_lt_asym _ _ H1) in H2.
Qed.

Lemma tuple_lt_total a b : tuple_lt a b = false -> tuple_lt b a = false -> a = b.
Proof.
  revert b. induction a as [|x a IH]; intros [|y b]; try done. cbn.
  destruct (decide (x = y)) as [->|Hxy].
  - rewrite decide_True by done. intros. f_equal. auto.
  - rewrite decide_False by congruence. intros H1 H2. destruct Hxy. by apply seq_lt_total.
Qed.

(** ** Replicas *)

(** The delta a replica holds after one more arrives. *)
Definition receive (local incoming : DeltaMeta.t) : DeltaMeta.t :=
  match resolve local incoming with
  | Ok ACCEPT_INCOMING => incoming
  | _ => local
  end.

(** A delta that is authorized, is no replay, can be encoded, and advances the
    version by one. *)
Record admissible (d : DeltaMeta.t) : Prop := {
  ad_replay : DeltaMeta.replay d = false;
  ad_scope : DeltaMeta.scope_allowed d = true;
  ad_step : DeltaMeta.new_version d = (DeltaMeta.base_version d + 1)%Z;
  ad_texts : Forall scalar (DeltaMeta.organization_id d) /\ Forall scalar (DeltaMeta.sender_id d)
             /\ Forall scalar (DeltaMeta.message_id d);
}.

(** The key of such a delta. *)
Definition key (d : DeltaMeta.t) : list (list Z) :=
  [[DeltaMeta.new_version d]; [DeltaMeta.logical_clock d];
   ascii_text (utf8_text (DeltaMeta.organization_id d)); ascii_text (utf8_text (DeltaMeta.sender_id d));
   ascii_text (utf8_text (DeltaMeta.message_id d))].

Lemma ordering_key_key d : admissible d -> DeltaMeta.ordering_key d = Ok (key d).
Proof.
  intros [_ _ _ (Ho & Hs & Hm)]. unfold DeltaMeta.ordering_key, encode_utf8.
  rewrite !(proj2 (forallb_scalar _)) by done. done.
Qed.

Lemma ascii_text_inj t u : ascii_text t = ascii_text u -> t = u.
Proof.
  revert u. induction t as [|b t IH]; intros [|c u]; try done. cbn.
  intros [= E1%uchar_inj E2%IH]. by subst.
Qed.

(** The key determines the delta. *)
Lemma key_inj d1 d2 : admissible d1 -> admissible d2 -> key d1 = key d2 -> d1 = d2.
Proof.
  intros [Hr1 Hs1 Hv1 (? & ? & ?)] [Hr2 Hs2 Hv2 (? & ? & ?)] E. unfold key in E.
  injection E as En Ec Eo%ascii_text_inj Es%ascii_text_inj Em%ascii_text_inj.
  apply utf8_text_inj in Eo, Es, Em; [|done..]. destruct d1, d2. cbn in *. subst. f_equal; first [congruence | lia].
Qed.

Definition key_lt (d1 d2 : DeltaMeta.t) : bool := tuple_lt (key d1) (key d2).

(** The later of two deltas. *)
Definition later (d1 d2 : DeltaMeta.t) : DeltaMeta.t := if key_lt d1 d2 then d2 else d1.

Lemma key_lt_version d1 d2 :
  (DeltaMeta.new_version d1 < DeltaMeta.new_version d2)%Z -> key_lt d1 d2 = true.
Proof.
  intros H. unfold key_lt, key. cbn. rewrite decide_False by (intros [=]; lia).
  by rewrite (proj2 (Z.eqb_neq _ _)), (proj2 (Z.ltb_lt _ _)) by lia.
Qed.

Lemma key_lt_asym d1 d2 : key_lt d1 d2 = true -> key_lt d2 d1 = false.
Proof.
  unfold key_lt. intros H. destruct (tuple_lt (key d2) (key d1)) eqn:E; [|done].
  pose proof (tuple_lt_trans _ _ _ H E) as C. by rewrite tuple_lt_irrefl in C.
Qed.

(** A delta whose base the replica has reached is merged. *)
Lemma receive_later local incoming :
  admissible local -> admissible incoming ->
  (DeltaMeta.base_version incoming <= DeltaMeta.new_version local)%Z ->
  receive local incoming = later local incoming.
Proof.
  intros Hl Hi Hb. unfold receive, resolve. pose proof (ad_step _ Hi) as Hstep.
  rewrite (ad_replay _ Hi), (ad_scope _ Hi). cbn [negb].
  destruct (Z.eqb_spec (DeltaMeta.base_version incoming) (DeltaMeta.new_version local)).
  - unfold later. by rewrite key_lt_version by lia.
  - rewrite (proj2 (Z.ltb_lt _ _)) by lia.
    destruct (Z.eqb_spec (DeltaMeta.new_version incoming) (DeltaMeta.new_version local)).
    + rewrite !ordering_key_key by done. cbn [mbind presult_bind].
      unfold later. fold (key_lt local incoming). by destruct (key_lt local incoming).
    + unfold later. by rewrite (key_lt_asym incoming local) by (apply key_lt_version; lia).
Qed.

(** Merging is a semilattice on admissible deltas. *)
Lemma later_admissible d1 d2 : admissible d1 -> admissible d2 -> admissible (later d1 d2).
Proof. unfold later. by destruct (key_lt d1 d2). Qed.

Lemma later_comm d1 d2 : admissible d1 -> admissible d2 -> later d1 d2 = later d2 d1.
Proof.
  intros H1 H2. unfold later. destruct (key_lt d1 d2) eqn:E1, (key_lt d2 d1) eqn:E2; try done.
  - by rewrite (key_lt_asym _ _ E1) in E2.
  - apply key_inj; [done|done|]. by apply tuple_lt_total.
Qed.

Lemma key_lt_total d1 d2 :
  admissible d1 -> admissible d2 -> key_lt d1 d2 = true \/ d1 = d2 \/ key_lt d2 d1 = true.
Proof.
  intros H1 H2. destruct (key_lt d1 d2) eqn:E1; [by left|]. destruct (key_lt d2 d1) eqn:E2; [by right; right|].
  right; left. apply key_inj; [done|done|]. by apply tuple_lt_total.
Qed.

Lemma later_assoc d1 d2 d3 :
  admissible d1 -> admissible d2 -> admissible d3 ->
  later (later d1 d2) d3 = later d1 (later d2 d3).
Proof.
  intros H1 H2 H3. unfold later.
  destruct (key_lt d1 d2) eqn:E12, (key_lt d2 d3) eqn:E23; rewrite ?E12, ?E23; try done.
  - by rewrite (tuple_lt_trans _ _ _ E12 E23 : key_lt d1 d3 = true).
  - destruct (key_lt d1 d3) eqn:E13; [|done].
    destruct (key_lt_total d2 d1) as [E|[->|E]]; [done|done| | |congruence].
    + pose proof (tuple_lt_trans _ _ _ E E13) as C. unfold key_lt in E23. congruence.
    + congruence.
Qed.

(** ** Delivery *)

(** Deltas as they arrive: each finds its base reached. *)
Inductive delivered : DeltaMeta.t -> list DeltaMeta.t -> DeltaMeta.t -> Prop :=
| delivered_nil s : delivered s [] s
| delivered_cons s d ds s' :
    (DeltaMeta.base_version d <= DeltaMeta.new_version s)%Z ->
    delivered (receive s d) ds s' -> delivered s (d :: ds) s'.

Lemma delivered_fold s ds s' :
  admissible s -> Forall admissible ds -> delivered s ds s' -> s' = fold_left later ds s.
Proof.
  intros Hs Hds H. revert Hs Hds. induction H as [s|s d ds s' Hb _ IH]; intros Hs Hds; [done|].
  inversion_clear Hds. rewrite IH; [by rewrite receive_later| |done].
  rewrite receive_later by done. by apply later_admissible.
Qed.

Lemma fold_later_perm ds ds' s :
  ds ≡ₚ ds' -> admissible s -> Forall admissible ds -> fold_left later ds s = fold_left later ds' s.
Proof.
  intros Hp. revert s. induction Hp as [|d ds ds' _ IH|d d' ds|ds1 ds2 ds3 Hp1 IH1 _ IH2];
    intros s Hs Hds; cbn [fold_left].
  - done.
  - inversion_clear Hds. apply IH; [by apply later_admissible|done].
  - inversion_clear Hds as [|? ? Hd' Hds']. inversion_clear Hds' as [|? ? Hd _].
    by rewrite !later_assoc, (later_comm d d') by done.
  - rewrite IH1, IH2; [done|done| |done|done]. by rewrite <-Hp1.
Qed.

(** The merged delta is one of them, and none is later. *)
Lemma fold_later_max ds s :
  admissible s -> Forall admissible ds ->
  fold_left later ds s ∈ s :: ds
  /\ Forall (fun d => key_lt (fold_left later ds s) d = false) (s :: ds).
Proof.
  revert s. induction ds as [|d ds IH]; intros s Hs Hds; cbn [fold_left].
  - split; [by left|]. apply Forall_singleton, tuple_lt_irrefl.
  - inversion_clear Hds as [|? ? Hd Hds']. destruct (IH (later s d)) as [Hin Hmax];
      [by apply later_admissible|done|]. split.
    + apply elem_of_cons in Hin as [->|Hin]; [|by right; right].
      unfold later. destruct (key_lt s d); [by right; left|by left].
    + inversion_clear Hmax as [|? ? Hl Hmax']. set (m := fold_left later ds (later s d)) in *.
      assert (forall x, admissible x -> key_lt (later s d) x = false -> key_lt m x = false) as Ht.
      { intros x Hx Hlx. destruct (key_lt m x) eqn:E; [|done].
        destruct (key_lt_total (later s d) m) as [E'|[E'|E']];
          [by apply later_admissible| | | |].
        - apply elem_of_cons in Hin as [->|Hin]; [by apply later_admissible|].
          by eapply Forall_forall in Hds'.
        - pose proof (tuple_lt_trans _ _ _ E' E). unfold key_lt in Hlx. congruence.
        - congruence.
        - congruence. }
      constructor; [|constructor; [|done]]; apply Ht; try done; unfold later;
        destruct (key_lt s d) eqn:E; try apply tuple_lt_irrefl; try done. by apply key_lt_asym.
Qed.

(** ** Properties *)

(** C34: Replicas converge.  Two replicas in the same state that receive the same
    admissible deltas (authorised, no replays, advancing the version by one) in
    any two orders in which each finds its base reached end in the same state:
    one of the deltas, or the first state, that none of the others exceeds in
    the ordering tuple of the specification. *)
Theorem replicas_converge (s : DeltaMeta.t) (ds ds' : list DeltaMeta.t) (s1 s2 : DeltaMeta.t)
    (Hs : admissible s) (Hds : Forall admissible ds) (Hp : ds ≡ₚ ds')
    (H1 : delivered s ds s1) (H2 : delivered s ds' s2) :
  s1 = s2 /\ s1 ∈ s :: ds /\ Forall (fun d => key_lt s1 d = false) (s :: ds).
Proof.
  apply delivered_fold in H1 as ->; [|done|done].
  apply delivered_fold in H2 as ->; [|done|by rewrite <-Hp].
  split; [by apply fold_later_perm|]. by apply fold_later_max.
Qed.

(** Convergence needs the unit steps: of two deltas with the same base, the one
    that arrives first is kept when their new versions differ, so the
    comparison of new versions in the ordering tuple never decides; and a delta
    may move the version back. *)
Lemma skipped_versions_diverge :
  let delta base new := DeltaMeta.mk base new 1 (lit "org") (lit "agent") (lit "m") true false in
  let s := delta 0%Z 1%Z in
  let two := delta 1%Z 2%Z in
  let three := delta 1%Z 3%Z in
  delivered s [two; three] two /\ delivered s [three; two] three
  /\ receive s (delta 1%Z (-7)%Z) = delta 1%Z (-7)%Z.
Proof.
  split_and!; [| |reflexivity]; repeat (apply delivered_cons; [cbn; lia|]); apply delivered_nil.
Qed.
