(* ===== verification/PyDelta.v ===== *)
(** * The reference delta (reference/python/ma2a/wire.py)

    A delta that was decoded holds whatever JSON values its members had,
    because a dataclass does not check the types it declares; the members are
    therefore JSON values here.  One run leaves the model, as [IllTyped]: the
    encoding of a delta with a list or a dict for a member. *)
From Stdlib Require Import SpecFloat.
From S2P Require Import Prelude Canonical Unicode PyText PyFloat PyJson PyLoads PyRoundTrip PyJob PyTransport.

(** [json.dumps(value, sort_keys=True, separators=(",", ":"), ensure_ascii=False)] *)
Definition raw_escape (cp : Z) : pystr :=
  if (cp <? 0x7f)%Z then ascii_text (py_escape_char cp) else [cp].
Definition dumps_raw (v : pyobj) : pystr := compact raw_escape (sort_obj v).

Module wire.

Definition _ALLOWED_OPERATIONS : list pystr :=
  [lit "SET"; lit "PATCH"; lit "DELETE"; lit "LINK"; lit "TOMBSTONE"].
Definition _ALLOWED_SCOPES : list pystr := [lit "private"; lit "user"; lit "shared"; lit "global"].
Definition MAX_REFERENCE_DELTA_BYTES : Z := 64 * 1024.

(** [v not in names], for a set of strings. *)
Definition not_in (v : json) (names : list pystr) : presult bool :=
  match v with
  | JStr s => Ok (negb (bool_decide (s ∈ names)))
  | JArr _ | JObj _ => Raise TypeError
  | _ => Ok true
  end.

(** [v < 0] *)
Definition negative (v : json) : presult bool :=
  match v with
  | JInt z => Ok (z <? 0)%Z
  | JBool _ => Ok false
  | JFloat x => Ok (float_negative x)
  | _ => Raise TypeError
  end.

(** [not v] *)
Definition falsy (v : json) : presult bool :=
  match v with
  | JNull => Ok true
  | JBool b => Ok (negb b)
  | JInt z => Ok (z =? 0)%Z
  | JFloat x => Ok (match x with S754_zero _ => true | _ => false end)
  | JStr s => Ok (bool_decide (s = []))
  | JArr l => Ok (match l with [] => true | _ => false end)
  | JObj items => Ok (match items with [] => true | _ => false end)
  end.

(** [a or b] *)
Definition or_else (a b : presult bool) : presult bool := x ← a; if (x : bool) then Ok true else b.

(** [if c: raise e] *)
Definition raise_when (c : presult bool) (e : pyexn) : presult unit := b ← c; raise_if b e.

Module ReferenceDelta.
Record t : Type := mk {
  protocol_version : json;
  message_id : json;
  sender_id : json;
  organization_id : json;
  trajectory_address : json;
  base_version : json;
  new_version : json;
  operation : json;
  scope : json;
  payload_or_reference : json;
  integrity_digest : json;
  logical_clock : json;
  signature : json;
}.

Definition validate (self : t) : presult unit :=
  raise_when (not_in (operation self) _ALLOWED_OPERATIONS) (ValueError "invalid operation");;
  raise_when (not_in (scope self) _ALLOWED_SCOPES) (ValueError "invalid scope");;
  raise_when (or_else (negative (base_version self)) (negative (new_version self)))
    (ValueError "negative version");;
  raise_when (negative (logical_clock self)) (ValueError "negative logical clock");;
  raise_when (or_else (falsy (message_id self))
                (or_else (falsy (sender_id self)) (falsy (organization_id self))))
    (ValueError "missing identity field");;
  raise_when (falsy (trajectory_address self)) (ValueError "missing trajectory address").

(** [asdict(self)] *)
Definition asdict (self : t) : list (String.string * json) :=
  [("protocol_version", protocol_version self); ("message_id", message_id self);
   ("sender_id", sender_id self); ("organization_id", organization_id self);
   ("trajectory_address", trajectory_address self); ("base_version", base_version self);
   ("new_version", new_version self); ("operation", operation self); ("scope", scope self);
   ("payload_or_reference", payload_or_reference self);
   ("integrity_digest", integrity_digest self); ("logical_clock", logical_clock self);
   ("signature", signature self)]%string.
End ReferenceDelta.

(** A member that is no list or dict. *)
Definition flat_member (v : json) : presult pyobj :=
  match v with
  | JNull => Ok PNone
  | JBool b => Ok (PBool b)
  | JFloat x => Ok (PFloat x)
  | JStr s => Ok (PStr s)
  | JInt z =>
      if int_max_str_digits <? length (digits_of 10 (Z.abs z))
      then Raise (ValueError "Exceeds the limit for integer string conversion") else Ok (PInt z)
  | _ => Raise IllTyped
  end.

Fixpoint flat_items (items : list (String.string * json)) : presult (list (String.string * pyobj)) :=
  match items with
  | [] => Ok []
  | (k, v) :: items => v ← flat_member v; items ← flat_items items; Ok ((k, v) :: items)
  end.

Definition encode_reference_delta (delta : ReferenceDelta.t) : presult bytes :=
  ReferenceDelta.validate delta;;
  items ← flat_items (ReferenceDelta.asdict delta);
  encoded ← encode_utf8 (dumps_raw (PDict (lit_items items)));
  raise_if (MAX_REFERENCE_DELTA_BYTES <? Z.of_nat (length encoded))%Z
    (ValueError "reference delta too large");;
  Ok encoded.

(** [except (...) as exc: raise ValueError(msg) from exc] *)
Definition reraise {A} (caught : pyexn -> bool) (msg : String.string) (r : presult A) : presult A :=
  match r with
  | Raise e => if caught e then Raise (ValueError msg) else Raise e
  | Ok a => Ok a
  end.

(** [(UnicodeDecodeError, json.JSONDecodeError, TypeError)] and
    [(TypeError, AttributeError)] *)
Definition malformed (e : pyexn) : bool :=
  match e with
  | UnicodeDecodeError | TypeError => true
  | _ => bool_decide (e = JSONDecodeError)
  end.
Definition bad_field (e : pyexn) : bool :=
  match e with TypeError | AttributeError => true | _ => false end.

Definition required : list pystr :=
  [lit "protocol_version"; lit "message_id"; lit "sender_id"; lit "organization_id";
   lit "trajectory_address"; lit "base_version"; lit "new_version"; lit "operation"; lit "scope";
   lit "payload_or_reference"; lit "integrity_digest"; lit "logical_clock"; lit "signature"].

(** [raw[k]] of a key that is there. *)
Definition member (raw : list (pystr * json)) (k : String.string) : json :=
  match lookup_key (lit k) raw with Some v => v | None => JNull end.

(** [ReferenceDelta] called with the items of [raw] as keyword arguments. *)
Definition make_reference_delta (raw : list (pystr * json)) : ReferenceDelta.t :=
  let m := member raw in
  ReferenceDelta.mk (m "protocol_version") (m "message_id") (m "sender_id") (m "organization_id")
    (m "trajectory_address") (m "base_version") (m "new_version") (m "operation") (m "scope")
    (m "payload_or_reference") (m "integrity_digest") (m "logical_clock") (m "signature").

(** Called with a [bytes]. *)
Definition decode_reference_delta (recursion_left : nat) (data : bytes) : presult ReferenceDelta.t :=
  raise_if (MAX_REFERENCE_DELTA_BYTES <? Z.of_nat (length data))%Z
    (ValueError "reference delta too large");;
  raw ← reraise malformed "malformed reference delta" (text ← decode_utf8 data; loads recursion_left text);
  match raw with
  | JObj raw =>
      raise_if (negb (same_keys raw required)) (ValueError "unexpected or missing fields");;
      let delta := make_reference_delta raw in
      reraise bad_field "invalid reference delta fields" (ReferenceDelta.validate delta);;
      Ok delta
  | _ => Raise (ValueError "reference delta must be an object")
  end.
End wire.
Import wire.

(** ** The writer *)

Lemma raw_escape_scalar cp : scalar cp -> Forall scalar (raw_escape cp).
Proof.
  intros Hcp. unfold raw_escape. destruct (Z.ltb_spec cp 0x7f); [|by apply Forall_singleton].
  apply ascii_text_scalar. eapply Forall_impl; [by apply printable_py_escape|apply printable_ascii].
Qed.

#[export] Instance raw_escapes : Escapes raw_escape.
Proof.
  split. intros cp s Hcp. unfold raw_escape. destruct (Z.ltb_spec cp 0x7f).
  - by apply scanstring_py_escape.
  - apply scanstring_raw; lia.
Qed.

Lemma dumps_raw_scalar v : writable v -> Forall scalar (dumps_raw v).
Proof. intros Hv. apply compact_scalar, writable_sort, Hv. apply raw_escape_scalar. Qed.

Lemma loads_dumps_raw depth v :
  writable v -> height v <= depth -> loads depth (dumps_raw v) = Ok (json_of (sort_obj v)).
Proof.
  intros Hv Hh. apply loads_compact; [apply _|by apply writable_sort|by rewrite height_sort].
Qed.

(** ** Typed deltas *)

(** A string that can be encoded, an integer Python writes, and a delta whose
    members are of their declared types. *)
Definition text (v : json) : Prop := match v with JStr s => Forall scalar s | _ => False end.
Definition number (v : json) : Prop :=
  match v with
  | JInt z => length (digits_of 10 (Z.abs z)) <= int_max_str_digits
  | _ => False
  end.
Definition typed (v : json) : Prop := text v \/ number v.

Record typed_delta (d : ReferenceDelta.t) : Prop := {
  td_texts : Forall text
    [ReferenceDelta.protocol_version d; ReferenceDelta.message_id d; ReferenceDelta.sender_id d;
     ReferenceDelta.organization_id d; ReferenceDelta.trajectory_address d;
     ReferenceDelta.operation d; ReferenceDelta.scope d; ReferenceDelta.payload_or_reference d;
     ReferenceDelta.integrity_digest d; ReferenceDelta.signature d];
  td_numbers : Forall number
    [ReferenceDelta.base_version d; ReferenceDelta.new_version d; ReferenceDelta.logical_clock d];
}.

Lemma flat_member_ok v :
  typed v -> exists o, flat_member v = Ok o /\ writable o /\ json_of (sort_obj o) = v /\ height o = 0.
Proof.
  destruct v as [| |z| |s| |]; intros [Hv|Hv]; try done; cbn [text number flat_member] in *.
  - rewrite (proj2 (Nat.ltb_ge _ _)) by done. exists (PInt z). split_and!; [done|by apply writable_int|done|done].
  - exists (PStr s). split_and!; [done|by apply writable_str|done|done].
Qed.

(** Reads the members of a delta that is written out. *)
Ltac delta_members :=
  cbn [ReferenceDelta.protocol_version ReferenceDelta.message_id ReferenceDelta.sender_id
    ReferenceDelta.organization_id ReferenceDelta.trajectory_address ReferenceDelta.base_version
    ReferenceDelta.new_version ReferenceDelta.operation ReferenceDelta.scope
    ReferenceDelta.payload_or_reference ReferenceDelta.integrity_digest
    ReferenceDelta.logical_clock ReferenceDelta.signature].

(** The items of a delta, in the order of the class. *)
Definition delta_items (o1 o2 o3 o4 o5 o6 o7 o8 o9 o10 o11 o12 o13 : pyobj) : list (String.string * pyobj) :=
  [("protocol_version", o1); ("message_id", o2); ("sender_id", o3); ("organization_id", o4);
   ("trajectory_address", o5); ("base_version", o6); ("new_version", o7); ("operation", o8);
   ("scope", o9); ("payload_or_reference", o10); ("integrity_digest", o11); ("logical_clock", o12);
   ("signature", o13)]%string.

Lemma delta_items_read o1 o2 o3 o4 o5 o6 o7 o8 o9 o10 o11 o12 o13 :
  exists raw,
    json_of (sort_obj (PDict (lit_items (delta_items o1 o2 o3 o4 o5 o6 o7 o8 o9 o10 o11 o12 o13)))) = JObj raw
    /\ same_keys raw required = true
    /\ make_reference_delta raw
       = ReferenceDelta.mk (json_of (sort_obj o1)) (json_of (sort_obj o2)) (json_of (sort_obj o3))
           (json_of (sort_obj o4)) (json_of (sort_obj o5)) (json_of (sort_obj o6))
           (json_of (sort_obj o7)) (json_of (sort_obj o8)) (json_of (sort_obj o9))
           (json_of (sort_obj o10)) (json_of (sort_obj o11)) (json_of (sort_obj o12))
           (json_of (sort_obj o13)).
Proof. eexists. split; [vm_compute; reflexivity|]. split; vm_compute; reflexivity. Qed.

(** What is written of a typed delta is read as it. *)
Lemma flat_items_read d :
  typed_delta d ->
  exists items raw, flat_items (ReferenceDelta.asdict d) = Ok items
    /\ writable (PDict (lit_items items)) /\ height (PDict (lit_items items)) = 1
    /\ json_of (sort_obj (PDict (lit_items items))) = JObj raw
    /\ same_keys raw required = true /\ make_reference_delta raw = d.
Proof.
  intros [Ht Hn]. assert (Forall (fun item => typed (snd item)) (ReferenceDelta.asdict d)) as H.
  { revert Ht Hn. unfold ReferenceDelta.asdict. rewrite !Forall_cons, !Forall_nil. cbn [snd]. unfold typed. tauto. }
  clear Ht Hn. revert H. destruct d as [v1 v2 v3 v4 v5 v6 v7 v8 v9 v10 v11 v12 v13].
  unfold ReferenceDelta.asdict. rewrite !Forall_cons. cbn.
  intros ((o1 & E1 & W1 & J1 & H1)%flat_member_ok & (o2 & E2 & W2 & J2 & H2)%flat_member_ok
    & (o3 & E3 & W3 & J3 & H3)%flat_member_ok & (o4 & E4 & W4 & J4 & H4)%flat_member_ok
    & (o5 & E5 & W5 & J5 & H5)%flat_member_ok & (o6 & E6 & W6 & J6 & H6)%flat_member_ok
    & (o7 & E7 & W7 & J7 & H7)%flat_member_ok & (o8 & E8 & W8 & J8 & H8)%flat_member_ok
    & (o9 & E9 & W9 & J9 & H9)%flat_member_ok & (o10 & E10 & W10 & J10 & H10)%flat_member_ok
    & (o11 & E11 & W11 & J11 & H11)%flat_member_ok & (o12 & E12 & W12 & J12 & H12)%flat_member_ok
    & (o13 & E13 & W13 & J13 & H13)%flat_member_ok & _).
  destruct (delta_items_read o1 o2 o3 o4 o5 o6 o7 o8 o9 o10 o11 o12 o13) as (raw & Ej & Ek & Em).
  exists (delta_items o1 o2 o3 o4 o5 o6 o7 o8 o9 o10 o11 o12 o13), raw. split_and!.
  - cbn [flat_items]. rewrite E1, E2, E3, E4, E5, E6, E7, E8, E9, E10, E11, E12, E13. done.
  - apply writable_lit_items.
    + apply (bool_decide_unpack _). vm_compute. exact I.
    + repeat (constructor; [cbn [fst]; ascii_lit|]). done.
    + by repeat (constructor; [done|]).
  - cbn. by rewrite H1, H2, H3, H4, H5, H6, H7, H8, H9, H10, H11, H12, H13.
  - done.
  - done.
  - by rewrite Em, J1, J2, J3, J4, J5, J6, J7, J8, J9, J10, J11, J12, J13.
Qed.

(** Encoding a typed delta. *)
Lemma encode_typed d :
  typed_delta d ->
  exists items raw, writable (PDict (lit_items items)) /\ height (PDict (lit_items items)) = 1
    /\ json_of (sort_obj (PDict (lit_items items))) = JObj raw
    /\ same_keys raw required = true /\ make_reference_delta raw = d
    /\ encode_reference_delta d
       = (ReferenceDelta.validate d;;
          raise_if (MAX_REFERENCE_DELTA_BYTES
                    <? Z.of_nat (length (utf8_text (dumps_raw (PDict (lit_items items))))))%Z
            (ValueError "reference delta too large");;
          Ok (utf8_text (dumps_raw (PDict (lit_items items))))).
Proof.
  intros (items & raw & E & Hw & Hh & Hj & Hk & Hm)%flat_items_read. exists items, raw.
  split_and!; [done..|]. unfold encode_reference_delta. rewrite E. cbn [mbind presult_bind].
  unfold encode_utf8. by rewrite (proj2 (forallb_scalar _)) by (by apply dumps_raw_scalar).
Qed.

(** Validating a typed delta raises nothing but [ValueError]. *)
Lemma raise_when_ok b e : raise_when (Ok b) e = raise_if b e.
Proof. done. Qed.

Lemma text_falsy v : text v -> exists b, falsy v = Ok b.
Proof. destruct v; try done. by eexists. Qed.
Lemma text_not_in v names : text v -> exists b, not_in v names = Ok b.
Proof. destruct v; try done. by eexists. Qed.
Lemma number_negative v : number v -> exists b, negative v = Ok b.
Proof. destruct v; try done. by eexists. Qed.

Lemma validate_typed d e :
  typed_delta d -> ReferenceDelta.validate d = Raise e -> exists msg, e = ValueError msg.
Proof.
  intros [Ht Hn]. unfold ReferenceDelta.validate. revert Ht Hn. rewrite !Forall_cons.
  intros (_ & Hmsg & Hsend & Horg & Htraj & Hop & Hsc & _) (Hb & Hnew & Hclock & _).
  apply text_falsy in Hmsg as (b1 & ->), Hsend as (b2 & ->), Horg as (b3 & ->), Htraj as (b4 & ->).
  apply (text_not_in _ _ALLOWED_OPERATIONS) in Hop as (b5 & ->).
  apply (text_not_in _ _ALLOWED_SCOPES) in Hsc as (b6 & ->).
  apply number_negative in Hb as (b7 & ->), Hnew as (b8 & ->), Hclock as (b9 & ->).
  destruct b5; [intros [= <-]; eauto|]. destruct b6; [intros [= <-]; eauto|].
  destruct b7; [intros [= <-]; eauto|]. destruct b8; [intros [= <-]; eauto|].
  destruct b9; [intros [= <-]; eauto|]. destruct b1; [intros [= <-]; eauto|].
  destruct b2; [intros [= <-]; eauto|]. destruct b3; [intros [= <-]; eauto|].
  destruct b4; [intros [= <-]; eauto|]. done.
Qed.

(** ** What decoding raises *)

Definition json_error (e : pyexn) : Prop := (exists msg, e = ValueError msg) \/ e = RecursionError.

Definition raises_only {A} (P : pyexn -> Prop) (r : presult A) : Prop :=
  match r with Ok _ => True | Raise e => P e end.

Lemma raises_bind {A B} P (r : presult A) (k : A -> presult B) :
  raises_only P r -> (forall a, raises_only P (k a)) -> raises_only P (x ← r; k x).
Proof. intros Hr Hk. destruct r as [a|e]; [apply Hk|exact Hr]. Qed.

Lemma json_error_value msg : json_error (ValueError msg).
Proof. left. by exists msg. Qed.
Lemma json_error_decode : json_error JSONDecodeError.
Proof. apply json_error_value. Qed.
Lemma json_error_recursion : json_error RecursionError.
Proof. by right. Qed.

Create HintDb json_error discriminated.
#[export] Hint Resolve json_error_value json_error_decode json_error_recursion : json_error.

(** Follows the branches of a reader to what each raises. *)
Ltac json_errors :=
  repeat match goal with
  | |- raises_only _ (mbind _ _) => apply raises_bind; [|intros ?]
  | |- raises_only _ (match ?x with _ => _ end) => destruct x
  | |- raises_only _ (Ok _) => exact I
  | |- raises_only _ (Raise _) => cbn [raises_only]; auto with json_error nocore
  end.

Lemma hex_unit_errors a b c d : raises_only json_error (hex_unit a b c d).
Proof. unfold hex_unit, hex_value. json_errors. Qed.

Lemma cons_str_errors c r : raises_only json_error r -> raises_only json_error (cons_str c r).
Proof. intros Hr. unfold cons_str. by json_errors. Qed.

Lemma scanstring_errors s : raises_only json_error (scanstring s).
Proof.
  assert (forall n s, length s <= n -> raises_only json_error (scanstring s)) as H; [|by eapply H].
  clear. induction n as [|n IH]; intros [|c s] Hn; cbn [length] in Hn; try (cbn; auto with json_error nocore; lia).
  assert (forall c s1, length s1 <= n -> raises_only json_error (cons_str c (scanstring s1))) as Hc
    by (intros; by apply cons_str_errors, IH).
  cbn [scanstring]. json_errors; try (apply hex_unit_errors); apply Hc; cbn [length] in *; lia.
Qed.

Lemma match_number_errors s : raises_only json_error (match_number s).
Proof. unfold match_number. json_errors. Qed.

Lemma scan_errors fuel :
  (forall depth s, raises_only json_error (scan_once fuel depth s))
  /\ (forall depth s items, raises_only json_error (scan_members fuel depth s items))
  /\ (forall depth s, raises_only json_error (scan_elements fuel depth s)).
Proof.
  induction fuel as [|fuel (IHo & IHm & IHe)].
  { split_and!; intros; cbn; auto with json_error nocore. }
  split_and!; intros; cbn [scan_once scan_members scan_elements]; cbv zeta; json_errors;
    first [apply scanstring_errors | apply match_number_errors | apply IHo | apply IHm | apply IHe].
Qed.

Lemma loads_errors depth text : raises_only json_error (loads depth text).
Proof.
  unfold loads. assert (raises_only json_error ('(v, rest) ← scan_once (2 * length text + 1) depth (skip_space text);
    match skip_space rest with [] => Ok v | _ => Raise JSONDecodeError end)).
  { json_errors. apply scan_errors. }
  destruct text as [|c text]; [done|]. destruct (decide (c = 0xfeff%Z)) as [->|].
  - cbn. auto with json_error nocore.
  - by repeat case_match.
Qed.

Lemma decode_utf8_errors b : raises_only (fun e => e = UnicodeDecodeError) (decode_utf8 b).
Proof.
  unfold decode_utf8. generalize (length b). intros n. revert b.
  induction n as [|n IH]; intros [|c b]; cbn [decode_utf8_loop]; try done.
  destruct (utf8_decode (c :: b)) as [[cp rest]|]; [|done].
  apply raises_bind; [apply IH|done].
Qed.

(** A delta is a dict of values that were read. *)
Lemma validate_errors d :
  raises_only (fun e => (exists msg, e = ValueError msg) \/ e = TypeError)
    (ReferenceDelta.validate d).
Proof.
  unfold ReferenceDelta.validate, raise_when, or_else, not_in, negative, falsy, raise_if.
  repeat (apply raises_bind; [|intros ?]); json_errors; cbn; eauto.
Qed.

(** *** Nesting *)

Lemma scan_nested n fuel t :
  2 * n < fuel -> scan_once fuel n (replicate (S n) 0x5b%Z ++ t) = Raise RecursionError.
Proof.
  revert fuel. induction n as [|n IH]; intros [|fuel] Hf; try lia; [done|].
  cbn [replicate app scan_once Z.eqb Pos.eqb skip_space]. destruct fuel as [|fuel]; [lia|].
  cbn [scan_elements]. change (0x5b%Z :: replicate n 0x5b%Z ++ t) with (replicate (S n) 0x5b%Z ++ t).
  change (is_space 0x5b) with false. cbv match. cbn [replicate app Z.eqb Pos.eqb].
  change (0x5b%Z :: replicate n 0x5b%Z ++ t) with (replicate (S n) 0x5b%Z ++ t).
  by rewrite IH by lia.
Qed.

Lemma loads_nested n : loads n (replicate (S n) 0x5b%Z) = Raise RecursionError.
Proof.
  assert (loads n (replicate (S n) 0x5b%Z)
    = ('(v, rest) ← scan_once (2 * length (replicate (S n) 0x5b%Z) + 1) n (replicate (S n) 0x5b%Z);
       match skip_space rest with [] => Ok v | _ => Raise JSONDecodeError end)) as -> by done.
  pose proof (scan_nested n (2 * length (replicate (S n) 0x5b%Z) + 1) []) as H.
  rewrite app_nil_r in H. rewrite H; [done|]. rewrite length_replicate. lia.
Qed.

Lemma decode_nested n : decode_utf8 (replicate n x5b) = Ok (replicate n 0x5b%Z).
Proof.
  assert (Forall ascii (replicate n x5b)) as Ha by (by apply Forall_replicate).
  rewrite <-(utf8_text_ascii _ Ha), decode_utf8_text by (by apply ascii_text_scalar).
  unfold ascii_text. by rewrite (fmap_replicate uchar n x5b : map uchar (replicate n x5b) = _).
Qed.

(** What was encoded decodes. *)
Lemma decode_encoded limit d data :
  typed_delta d -> 1 <= limit -> encode_reference_delta d = Ok data ->
  decode_reference_delta limit data = Ok d /\ (Z.of_nat (length data) <= MAX_REFERENCE_DELTA_BYTES)%Z.
Proof.
  intros Ht Hl. destruct (encode_typed d Ht) as (items & raw & Hw & Hh & Hj & Hk & Hm & ->).
  destruct (ReferenceDelta.validate d) as [[]|e] eqn:Hv; [|done]. cbn [mbind presult_bind].
  destruct (Z.ltb_spec MAX_REFERENCE_DELTA_BYTES
    (Z.of_nat (length (utf8_text (dumps_raw (PDict (lit_items items))))))) as [|Hle]; [done|].
  cbn [raise_if mbind presult_bind]. intros [= <-]. split; [|done].
  unfold decode_reference_delta. rewrite (proj2 (Z.ltb_ge _ _)) by done.
  rewrite decode_utf8_text by (by apply dumps_raw_scalar). cbn [raise_if mbind presult_bind].
  rewrite loads_dumps_raw, Hj by (done || lia). cbn [reraise mbind presult_bind].
  rewrite Hk, Hm. cbn [negb raise_if mbind presult_bind]. by rewrite Hv.
Qed.

(** The integers of a delta that was encoded have few enough digits. *)
Lemma flat_items_numbers l items k z :
  flat_items l = Ok items -> (k, JInt z) ∈ l -> number (JInt z).
Proof.
  revert items. induction l as [|[k' v] l IH]; intros items; cbn [flat_items]; [by intros _ ?%not_elem_of_nil|].
  intros (o & Ho & H)%presult_bind_ok. apply presult_bind_ok in H as (items' & Hi & _).
  intros [[= <- <-]|Hin]%elem_of_cons; [|by eapply IH]. cbn [flat_member] in Ho.
  destruct (Nat.ltb_spec int_max_str_digits (length (digits_of 10 (Z.abs z)))); [done|]. done.
Qed.

Lemma encoded_numbers d data k z :
  encode_reference_delta d = Ok data -> (k, JInt z) ∈ ReferenceDelta.asdict d -> number (JInt z).
Proof.
  unfold encode_reference_delta. intros (_ & _ & H)%presult_bind_ok.
  apply presult_bind_ok in H as (items & Hi & _). by eapply flat_items_numbers.
Qed.

(** ** Properties *)

(** C37: The reference delta round trip.  A delta whose members are of their
    declared types (strings without surrogates, integers of at most 4300
    digits) is either encoded, in at most 64 KiB, to bytes that decode to the
    same delta, or refused with [ValueError]; so two such deltas are never
    encoded to the same bytes. *)
Theorem reference_delta_round_trip (limit : nat) (d : ReferenceDelta.t)
    (Ht : typed_delta d) (Hl : 1 <= limit) :
  match encode_reference_delta d with
  | Ok data =>
      decode_reference_delta limit data = Ok d
      /\ (Z.of_nat (length data) <= MAX_REFERENCE_DELTA_BYTES)%Z
  | Raise e => exists msg, e = ValueError msg
  end.
Proof.
  destruct (encode_reference_delta d) as [data|e] eqn:E.
  - by apply decode_encoded.
  - destruct (encode_typed d Ht) as (items & raw & _ & _ & _ & _ & _ & Ee). rewrite E in Ee.
    destruct (ReferenceDelta.validate d) as [[]|e'] eqn:Hv; cbn [mbind presult_bind] in Ee;
      [|injection Ee as ->; by eapply validate_typed].
    destruct (raise_if _ _) as [|e'] eqn:Hr; [done|]. injection Ee as ->.
    unfold raise_if in Hr. case_match; [|done]. injection Hr as <-. by eexists.
Qed.

(** What decoding a delta ends in.  Decoding any bytes returns a delta that
    passes validation, or raises [ValueError]; but it does not catch the
    [RecursionError] of [json.loads]: with [limit] levels left, [limit + 1]
    opening brackets escape as one. *)
Theorem decoding_a_delta_ends (limit : nat) (data : bytes) :
  match decode_reference_delta limit data with
  | Ok d => ReferenceDelta.validate d = Ok tt
            /\ (Z.of_nat (length data) <= MAX_REFERENCE_DELTA_BYTES)%Z
  | Raise e => (exists msg, e = ValueError msg) \/ e = RecursionError
  end
  /\ ((Z.of_nat limit < MAX_REFERENCE_DELTA_BYTES)%Z ->
      decode_reference_delta limit (replicate (S limit) x5b) = Raise RecursionError).
Proof.
  split.
  - unfold decode_reference_delta.
    destruct (Z.ltb_spec MAX_REFERENCE_DELTA_BYTES (Z.of_nat (length data))); [cbn; eauto|].
    cbn [raise_if mbind presult_bind]. pose proof (decode_utf8_errors data) as Hd.
    destruct (decode_utf8 data) as [t|e]; cbn [mbind presult_bind raises_only] in *; [|subst; cbn; eauto].
    pose proof (loads_errors limit t) as Hj.
    destruct (loads limit t) as [v|e]; cbn [reraise mbind presult_bind raises_only] in *.
    + destruct v as [| | | | | |raw]; try by eauto. destruct (same_keys raw required); [|cbn; eauto].
      cbn [negb raise_if mbind presult_bind]. pose proof (validate_errors (make_reference_delta raw)) as Hv.
      destruct (ReferenceDelta.validate (make_reference_delta raw)) as [[]|e] eqn:E;
        cbn [reraise mbind presult_bind raises_only] in *; [done|].
      destruct Hv as [(msg & ->)| ->]; cbn; eauto.
    + destruct Hj as [(msg & ->)| ->]; cbn [malformed]; case_bool_decide; cbn; eauto.
  - intros Hl. unfold decode_reference_delta. rewrite length_replicate, (proj2 (Z.ltb_ge _ _)) by lia.
    cbn [raise_if mbind presult_bind]. rewrite decode_nested. cbn [mbind presult_bind].
    by rewrite loads_nested.
Qed.

(** A delta that decodes need not encode: a member may hold a lone surrogate,
    which JSON can escape and UTF-8 cannot encode. *)
Definition surrogate_delta : bytes :=
  map (fun b => if decide (b = x27) then x22 else b) (str
    "{'base_version':0,'integrity_digest':'d','logical_clock':1,'message_id':'m','new_version':1,'operation':'SET','organization_id':'o','payload_or_reference':'\ud800','protocol_version':'0.1','scope':'shared','sender_id':'s','signature':'x','trajectory_address':'t'}").

Lemma decoded_delta_not_encodable :
  match decode_reference_delta 10 surrogate_delta with
  | Ok d => encode_reference_delta d = Raise UnicodeEncodeError
  | Raise _ => False
  end.
Proof. vm_compute. reflexivity. Qed.
