(* ===== verification/PySha256.v ===== *)
(** * [hashlib.sha256] (FIPS 180-4)

    The digest rm_bridge.py identifies routes by, over 32-bit words. *)
From S2P Require Import Prelude Canonical Reader Unicode PyText.

Module hashlib.

Definition w32 (x : Z) : Z := Z.land x 0xffffffff.
Definition rotr (n x : Z) : Z := Z.lor (Z.shiftr x n) (w32 (Z.shiftl x (32 - n))).

Definition Ch (x y z : Z) : Z := Z.lxor (Z.land x y) (Z.land (Z.lxor x 0xffffffff) z).
Definition Maj (x y z : Z) : Z := Z.lxor (Z.lxor (Z.land x y) (Z.land x z)) (Z.land y z).
Definition Sigma0 (x : Z) : Z := Z.lxor (Z.lxor (rotr 2 x) (rotr 13 x)) (rotr 22 x).
Definition Sigma1 (x : Z) : Z := Z.lxor (Z.lxor (rotr 6 x) (rotr 11 x)) (rotr 25 x).
Definition sigma0 (x : Z) : Z := Z.lxor (Z.lxor (rotr 7 x) (rotr 18 x)) (Z.shiftr x 3).
Definition sigma1 (x : Z) : Z := Z.lxor (Z.lxor (rotr 17 x) (rotr 19 x)) (Z.shiftr x 10).

(** *** The constants: fractional parts of roots of the first primes *)

Definition primes : list Z :=
  filter (fun n => forallb (fun d => negb (n mod d =? 0)%Z) (map Z.of_nat (seq 2 (Z.to_nat n - 2))))
    (map Z.of_nat (seq 2 310)).

(** The greatest [r] of this many bits above [r0] whose power is not above [n]. *)
Fixpoint root (bits : nat) (power r0 n : Z) : Z :=
  match bits with
  | O => r0
  | S bits =>
      let r := (r0 + 2 ^ Z.of_nat bits)%Z in
      root bits power (if (r ^ power <=? n)%Z then r else r0) n
  end.

Definition fraction (power p : Z) : Z := w32 (root 37 power 0 (p * 2 ^ (32 * power))).
Definition K : list Z := Eval vm_compute in map (fraction 3) primes.

Example K_ends : length K = 64 /\ hd_error K = Some 0x428a2f98%Z /\ last K = Some 0xc67178f2%Z.
Proof. split_and!; reflexivity. Qed.

(** The eight working variables, and the digest's words. *)
Record state : Type := mk { a : Z; b : Z; c : Z; d : Z; e : Z; f : Z; g : Z; h : Z }.

Definition H0 : state := Eval vm_compute in
  match map (fraction 2) (take 8 primes) with
  | [a0; b0; c0; d0; e0; f0; g0; h0] => mk a0 b0 c0 d0 e0 f0 g0 h0
  | _ => mk 0 0 0 0 0 0 0 0
  end.

(** ** Padding: a one bit, zeros up to 8 bytes before a block's end, the length. *)
Definition be_word (x : Z) : bytes := map byte_of_Z [x / 16777216; x / 65536; x / 256; x]%Z.
Definition padding (n : nat) : bytes :=
  x80 :: replicate (Z.to_nat ((55 - Z.of_nat n) mod 64)) x00
  ++ be_word (8 * Z.of_nat n / 4294967296) ++ be_word (8 * Z.of_nat n).

Fixpoint words (bs : bytes) : list Z :=
  match bs with
  | b0 :: b1 :: b2 :: b3 :: bs =>
      (((uchar b0 * 256 + uchar b1) * 256 + uchar b2) * 256 + uchar b3)%Z :: words bs
  | _ => []
  end.

(** ** The message schedule, its last word first *)
Fixpoint schedule (n : nat) (w : list Z) : list Z :=
  match n with
  | O => w
  | S n =>
      schedule n
        (w32 (sigma1 (nth 1 w 0) + nth 6 w 0 + sigma0 (nth 14 w 0) + nth 15 w 0) :: w)%Z
  end.

Definition round (s : state) (kw : Z * Z) : state :=
  let T1 := (h s + Sigma1 (e s) + Ch (e s) (f s) (g s) + fst kw + snd kw)%Z in
  let T2 := (Sigma0 (a s) + Maj (a s) (b s) (c s))%Z in
  mk (w32 (T1 + T2)) (a s) (b s) (c s) (w32 (d s + T1)) (e s) (f s) (g s).

Definition compress (s : state) (block : list Z) : state :=
  let t := fold_left round (combine K (rev (schedule 48 (rev block)))) s in
  mk (w32 (a s + a t)) (w32 (b s + b t)) (w32 (c s + c t)) (w32 (d s + d t))
     (w32 (e s + e t)) (w32 (f s + f t)) (w32 (g s + g t)) (w32 (h s + h t)).

(** [fuel] bounds the blocks. *)
Fixpoint digest_words (fuel : nat) (s : state) (ws : list Z) : state :=
  match fuel, ws with
  | S fuel, _ :: _ => digest_words fuel (compress s (take 16 ws)) (drop 16 ws)
  | _, _ => s
  end.

Definition sha256 (message : bytes) : bytes :=
  let ws := words (message ++ padding (length message)) in
  let s := digest_words (length ws) H0 ws in
  concat (map be_word [a s; b s; c s; d s; e s; f s; g s; h s]).

(** [hashlib.sha256(message).hexdigest()] *)
Definition hex_byte (x : byte) : bytes := [digit_char (uchar x / 16); digit_char (uchar x mod 16)]%Z.
Definition hexdigest (message : bytes) : pystr := ascii_text (concat (map hex_byte (sha256 message))).

Example sha256_empty :
  hexdigest [] = lit "e3b0c44298fc1c149afbf4c8996fb92427ae41e4649b934ca495991b7852b855".
Proof. vm_compute. reflexivity. Qed.

Example sha256_abc :
  hexdigest (str "abc") = lit "ba7816bf8f01cfea414140de5dae2223b00361a396177a9cb410ff61f20015ad".
Proof. vm_compute. reflexivity. Qed.

(** Two blocks. *)
Example sha256_two_blocks :
  hexdigest (str "abcdbcdecdefdefgefghfghighijhijkijkljklmklmnlmnomnopnopq")
  = lit "248d6a61d20638b8e5c026930c3e6039a33ce45964ff2167f6ecedd419db06c1".
Proof. vm_compute. reflexivity. Qed.

(** ** The text of a digest *)

Lemma length_sha256 message : length (sha256 message) = 32.
Proof. reflexivity. Qed.

Definition hex_char (c : Z) : Prop := (0x30 <= c <= 0x39)%Z \/ (0x61 <= c <= 0x66)%Z.

Lemma hex_digit_ok x : (0 <= x < 16)%Z -> hex_char (uchar (digit_char x)).
Proof.
  intros H. unfold hex_char, digit_char. rewrite uchar_byte_of_Z.
  destruct (Z.ltb_spec x 10); rewrite Z.mod_small by lia; lia.
Qed.

Lemma hexdigest_hex message : length (hexdigest message) = 64 /\ Forall hex_char (hexdigest message).
Proof.
  unfold hexdigest, ascii_text. split.
  - reflexivity.
  - apply Forall_map, Forall_concat, Forall_map, Forall_true. intros x.
    pose proof (uchar_range x). unfold hex_byte.
    constructor; [apply hex_digit_ok; zdiv|]. constructor; [apply hex_digit_ok; zdiv|constructor].
Qed.

Lemma hex_char_scalar s : Forall hex_char s -> Forall scalar s.
Proof. intros H. eapply Forall_impl; [exact H|]. unfold hex_char, scalar. lia. Qed.
End hashlib.
