(* ===== verification/PyRoutes.v ===== *)
(** * The route memory (reference/python/ma2a/rm_bridge.py)

    [ResolutiveRouteMemory]: two dicts and a counter.  The callbacks are pure
    functions of their argument.  [str.lower] is a parameter: its Unicode
    tables are data of the interpreter. *)
From stdpp Require Import gmap.
From S2P Require Import Prelude Canonical Unicode PyText PyFloat PyJson PyLoads PyRoundTrip PyJob PyTransport PyDelta PySha256.

(** ** [str.strip], [str.split] and [str.join] *)

(** [c.isspace()] as far as [strip] and [split] go by it. *)
Definition py_space (c : Z) : bool :=
  ((9 <=? c) && (c <=? 13) || (28 <=? c) && (c <=? 32) || (c =? 0x85) || (c =? 0xa0)
   || (c =? 0x1680) || (0x2000 <=? c) && (c <=? 0x200a) || (c =? 0x2028) || (c =? 0x2029)
   || (c =? 0x202f) || (c =? 0x205f) || (c =? 0x3000))%Z.

Fixpoint lstrip (s : pystr) : pystr :=
  match s with
  | c :: s' => if py_space c then lstrip s' else s
  | [] => []
  end.
Definition strip (s : pystr) : pystr := rev (lstrip (rev (lstrip s))).

(** The words of [s] behind the characters [word] of the one begun. *)
Fixpoint split_from (word s : pystr) : list pystr :=
  match s with
  | [] => match word with [] => [] | _ => [word] end
  | c :: s =>
      if py_space c
      then match word with [] => split_from [] s | _ => word :: split_from [] s end
      else split_from (word ++ [c]) s
  end.
Definition split (s : pystr) : list pystr := split_from [] s.

Import wire.

Module rm_bridge.

Module RouteRecord.
Record t : Type := mk {
  trajectory_address : pystr;
  condition_key : pystr;
  result : pystr;
  version : Z;
  scope : pystr;
}.
End RouteRecord.

Record memory : Type := {
  _by_condition : gmap pystr pystr;
  _by_address : gmap pystr RouteRecord.t;
  external_resolution_calls : Z;
}.

(** [ResolutiveRouteMemory()] *)
Definition new : memory :=
  {| _by_condition := ∅; _by_address := ∅; external_resolution_calls := 0 |}.

(** ** Calls that use a memory *)

Definition RM (A : Type) : Type := memory -> presult A * memory.
#[global] Instance RM_ret : MRet RM := fun A a m => (Ok a, m).
#[global] Instance RM_bind : MBind RM := fun A B k c m =>
  match c m with
  | (Ok a, m') => k a m'
  | (Raise e, m') => (Raise e, m')
  end.
Definition run {A} (r : presult A) : RM A := fun m => (r, m).
Definition self : RM memory := fun m => (Ok m, m).

(** [d[k]] *)
Definition get_item {A} (d : gmap pystr A) (k : pystr) : presult A :=
  match d !! k with Some v => Ok v | None => Raise KeyError end.

(** [self.external_resolution_calls += 1] *)
Definition count_call : RM unit := fun m =>
  (Ok tt, {| _by_condition := _by_condition m; _by_address := _by_address m;
             external_resolution_calls := external_resolution_calls m + 1 |}).

(** [self._by_condition[key] = record.trajectory_address] and
    [self._by_address[record.trajectory_address] = record] *)
Definition store_record (key : pystr) (record : RouteRecord.t) : RM unit := fun m =>
  (Ok tt, {| _by_condition := <[key := RouteRecord.trajectory_address record]> (_by_condition m);
             _by_address := <[RouteRecord.trajectory_address record := record]> (_by_address m);
             external_resolution_calls := external_resolution_calls m |}).

(** [f"rm-route-v1|{condition_key}|{result}"] *)
Definition derive_address (condition_key result : pystr) : presult pystr :=
  material ← encode_utf8 (lit "rm-route-v1|" ++ condition_key ++ lit "|" ++ result);
  Ok (lit "rm:" ++ hashlib.hexdigest material).

(** The JSON of a record. *)
Definition payload_obj (record : RouteRecord.t) : pyobj :=
  PDict (lit_items
    [("condition_key", PStr (RouteRecord.condition_key record));
     ("result", PStr (RouteRecord.result record));
     ("version", PInt (RouteRecord.version record))]%string).

Definition export_delta (trajectory_address sender_id organization_id message_id : pystr)
    (logical_clock : Z) : RM bytes :=
  m ← self;
  record ← run (get_item (_by_address m) trajectory_address);
  let payload := ascii_text (dumps (payload_obj record)) in
  payload_bytes ← run (encode_utf8 payload);
  let digest := hashlib.hexdigest payload_bytes in
  let delta := wire.ReferenceDelta.mk (JStr (lit "0.1")) (JStr message_id) (JStr sender_id)
                 (JStr organization_id) (JStr (RouteRecord.trajectory_address record)) (JInt 0)
                 (JInt (RouteRecord.version record)) (JStr (lit "SET"))
                 (JStr (RouteRecord.scope record)) (JStr payload) (JStr digest)
                 (JInt logical_clock) (JStr (lit "reference-test-signature")) in
  run (encode_reference_delta delta).

(** [v == s] and [v.encode("utf-8")], for any value and a string. *)
Definition equals (v : json) (s : pystr) : bool :=
  match v with JStr t => bool_decide (t = s) | _ => false end.
Definition encode_member (v : json) : presult bytes :=
  match v with JStr s => encode_utf8 s | _ => Raise AttributeError end.

(** [raw[k]] *)
Definition subscript (raw : json) (k : String.string) : presult json :=
  match raw with
  | JObj items => match lookup_key (lit k) items with Some v => Ok v | None => Raise KeyError end
  | _ => Raise TypeError
  end.

(** [int(v)]; of a text it is outside of the model. *)
Definition to_int (v : json) : presult Z :=
  match v with
  | JInt z => Ok z
  | JBool b => Ok (if b then 1 else 0)%Z
  | JFloat x => int_of_float x
  | JStr _ => Raise IllTyped
  | _ => Raise TypeError
  end.

(** The members of a route; others than strings are outside of the model. *)
Definition route_member (v : json) : presult pystr :=
  match v with JStr s => Ok s | _ => Raise IllTyped end.

Section memory.
(** What is left of the recursion limit, and [str.lower]. *)
Context (recursion_left : nat) (lower : pystr -> pystr).

Definition condition_key (condition : pystr) : presult pystr :=
  let normalized := join 0x20%Z (split (lower (strip condition))) in
  text ← encode_utf8 normalized;
  Ok (hashlib.hexdigest text).

(** Absent callbacks are [None]. *)
Definition resolve (condition : pystr) (external_resolver : option (pystr -> presult pystr))
    (validator : option (pystr -> presult bool)) : RM (pystr * bool * pystr) :=
  key ← run (condition_key condition);
  m ← self;
  match _by_condition m !! key with
  | Some address =>
      record ← run (get_item (_by_address m) address);
      mret (RouteRecord.result record, true, RouteRecord.trajectory_address record)
  | None =>
      match external_resolver with
      | None => run (Raise KeyError)
      | Some external_resolver =>
          count_call;;
          result ← run (external_resolver condition);
          valid ← run (match validator with Some validator => validator result | None => Ok true end);
          run (raise_if (negb valid) (ValueError "external result rejected by validator"));;
          address ← run (derive_address key result);
          store_record key (RouteRecord.mk address key result 1 (lit "shared"));;
          mret (result, false, address)
      end
  end.

Definition import_delta (encoded : bytes) : RM RouteRecord.t :=
  delta ← run (decode_reference_delta recursion_left encoded);
  payload_bytes ← run (encode_member (wire.ReferenceDelta.payload_or_reference delta));
  run (raise_if (negb (equals (wire.ReferenceDelta.integrity_digest delta) (hashlib.hexdigest payload_bytes)))
         (ValueError "integrity mismatch"));;
  ineligible ← run (not_in (wire.ReferenceDelta.scope delta) [lit "shared"; lit "global"]);
  run (raise_if ineligible (ValueError "route is not eligible for cross-agent import"));;
  payload ← run (route_member (wire.ReferenceDelta.payload_or_reference delta));
  raw ← run (loads recursion_left payload);
  condition_key ← run (subscript raw "condition_key");
  result ← run (subscript raw "result");
  version ← run (subscript raw "version");
  version ← run (to_int version);
  condition_key ← run (route_member condition_key);
  result ← run (route_member result);
  expected_address ← run (derive_address condition_key result);
  run (raise_if (negb (equals (wire.ReferenceDelta.trajectory_address delta) expected_address))
         (ValueError "route identity mismatch"));;
  trajectory_address ← run (route_member (wire.ReferenceDelta.trajectory_address delta));
  scope ← run (route_member (wire.ReferenceDelta.scope delta));
  let record := RouteRecord.mk trajectory_address condition_key result version scope in
  store_record condition_key record;;
  mret record.
End memory.
End rm_bridge.
Import rm_bridge.

(** ** Calls that return *)

Lemma rm_bind_ok {A B} (c : RM A) (k : A -> RM B) m b m' :
  (x ← c; k x) m = (Ok b, m') -> exists a m1, c m = (Ok a, m1) /\ k a m1 = (Ok b, m').
Proof. unfold mbind, RM_bind. destruct (c m) as [[a|e] m1]; [eauto|done]. Qed.

Lemma rm_run_ok {A B} (r : presult A) (k : A -> RM B) m b m' :
  (x ← run r; k x) m = (Ok b, m') -> exists a, r = Ok a /\ k a m = (Ok b, m').
Proof. unfold mbind, RM_bind, run. destruct r as [a|e]; [eauto|done]. Qed.

Lemma run_ok {A} (r : presult A) m a m' : run r m = (Ok a, m') -> r = Ok a.
Proof. by intros [= -> _]. Qed.

Lemma rm_run {A B} (r : presult A) (k : A -> RM B) m a :
  r = Ok a -> (x ← run r; k x) m = k a m.
Proof. by intros ->. Qed.

(** ** Addresses *)

Lemma derive_address_ok k r a :
  derive_address k r = Ok a -> Forall scalar k /\ Forall scalar r /\ Forall scalar a /\ a <> [].
Proof.
  unfold derive_address. intros (t & [Hs _]%encode_utf8_ok & E)%presult_bind_ok.
  assert (a = lit "rm:" ++ hashlib.hexdigest t) as -> by congruence.
  rewrite !Forall_app in Hs. destruct Hs as (_ & ? & _ & ?). split_and!; [done|done| |done].
  apply Forall_app; split; [apply lit_scalar; ascii_lit|].
  apply hashlib.hex_char_scalar, hashlib.hexdigest_hex.
Qed.

(** ** The invariant *)

(** Every condition leads to a record, and every record sits at the address
    its members derive, open to other agents. *)
Definition shareable (scope : pystr) : Prop := scope ∈ [lit "shared"; lit "global"].

Record coherent (m : memory) : Prop := {
  co_condition k a : _by_condition m !! k = Some a -> is_Some (_by_address m !! a);
  co_address a r : _by_address m !! a = Some r ->
    RouteRecord.trajectory_address r = a
    /\ derive_address (RouteRecord.condition_key r) (RouteRecord.result r) = Ok a
    /\ shareable (RouteRecord.scope r);
}.

Lemma coherent_new : coherent new.
Proof. split; intros ? ?; cbn; by rewrite lookup_empty. Qed.

(** Storing a record that is filed under the address it derives. *)
Definition filed (r : RouteRecord.t) : Prop :=
  derive_address (RouteRecord.condition_key r) (RouteRecord.result r)
  = Ok (RouteRecord.trajectory_address r) /\ shareable (RouteRecord.scope r).

Lemma coherent_store key r m u m' :
  filed r -> store_record key r m = (Ok u, m') -> coherent m -> coherent m'.
Proof.
  intros [Hd Hs] [= _ <-] [Hc Ha]. split; cbn.
  - intros k a H. destruct (decide (a = RouteRecord.trajectory_address r)) as [->|Hne];
      [by rewrite lookup_insert_eq; eexists|]. rewrite lookup_insert_ne by done.
    apply lookup_insert_Some in H as [[_ E]|[_ H]]; [by rewrite E in Hne|by eapply Hc].
  - intros a r' [[<- <-]|[_ H]]%lookup_insert_Some; [by split_and!|by apply Ha].
Qed.

Lemma coherent_count m u m' : count_call m = (Ok u, m') -> coherent m -> coherent m'.
Proof. by intros [= _ <-] [Hc Ha]; split. Qed.

Section memory.
Context (limit : nat) (lower : pystr -> pystr).
Context (condition_key := condition_key lower) (resolve := resolve lower)
        (import_delta := import_delta limit).

(** What an import that returns has checked and stored. *)
Lemma import_delta_ok data r m m' :
  import_delta data m = (Ok r, m') ->
  filed r /\ store_record (RouteRecord.condition_key r) r m = (Ok tt, m').
Proof.
  unfold import_delta, rm_bridge.import_delta. intros H.
  apply rm_run_ok in H as (d & _ & H). apply rm_run_ok in H as (pb & _ & H).
  apply rm_run_ok in H as (_ & _ & H). apply rm_run_ok in H as (inel & Hi & H).
  apply rm_run_ok in H as ([] & Hi2 & H). apply rm_run_ok in H as (payload & _ & H).
  apply rm_run_ok in H as (raw & _ & H). do 3 (apply rm_run_ok in H as (? & _ & H)).
  apply rm_run_ok in H as (v & _ & H). apply rm_run_ok in H as (ck & _ & H).
  apply rm_run_ok in H as (res & _ & H). apply rm_run_ok in H as (a & Ha & H).
  apply rm_run_ok in H as ([] & Heq & H). apply rm_run_ok in H as (ta & Hta & H).
  apply rm_run_ok in H as (sc & Hsc & H). cbv zeta in H. apply rm_bind_ok in H as ([] & m1 & Hst & H). injection H as <- <-.
  split; [split|done]; cbn.
  { destruct (ReferenceDelta.trajectory_address d); try done. injection Hta as ->. cbn [equals] in Heq.
    case_bool_decide; [by subst|done]. }
  destruct (ReferenceDelta.scope d) as [| | | |s| |]; try done. injection Hsc as <-.
  injection Hi as <-. unfold shareable. by case_bool_decide.
Qed.

(** A condition that is known resolves to its record. *)
Lemma resolve_known condition ext val m k a r :
  condition_key condition = Ok k -> _by_condition m !! k = Some a -> _by_address m !! a = Some r ->
  resolve condition ext val m = (Ok (RouteRecord.result r, true, RouteRecord.trajectory_address r), m).
Proof.
  intros Hk Hc Ha. unfold resolve, rm_bridge.resolve. erewrite rm_run by exact Hk.
  unfold mbind at 1, RM_bind at 1, self. rewrite Hc. unfold get_item. rewrite Ha. done.
Qed.

Lemma resolve_coherent condition ext val m o m' :
  resolve condition ext val m = (o, m') -> coherent m -> coherent m'.
Proof.
  unfold resolve, rm_bridge.resolve. intros H Hm.
  unfold mbind at 1, RM_bind at 1, run at 1 in H.
  destruct (rm_bridge.condition_key lower condition) as [k|e]; [|by injection H as _ <-].
  unfold mbind at 1, RM_bind at 1, self in H.
  destruct (_by_condition m !! k) as [a|].
  { unfold mbind, RM_bind, run in H. destruct (get_item _ _); by injection H as _ <-. }
  destruct ext as [ext|]; [|by injection H as _ <-].
  unfold mbind at 1, RM_bind at 1 in H. cbn [count_call] in H.
  pose proof (coherent_count m tt _ eq_refl Hm) as Hm1. revert H Hm1.
  generalize {| _by_condition := _by_condition m; _by_address := _by_address m;
    external_resolution_calls := external_resolution_calls m + 1 |}. intros m1 H Hm1.
  unfold run, mbind, RM_bind in H. destruct (ext condition) as [res|e]; [|by injection H as _ <-].
  destruct (match val with Some v => v res | None => Ok true end) as [valid|e]; [|by injection H as _ <-].
  destruct (raise_if (negb valid) _) as [[]|?]; [|by injection H as _ <-].
  destruct (derive_address k res) as [a|e] eqn:Ha; [|by injection H as _ <-].
  injection H as _ <-.
  apply (coherent_store k (RouteRecord.mk a k res 1 (lit "shared")) m1 tt); [|reflexivity|done].
  split; [done|by left].
Qed.

Lemma import_coherent data m o m' :
  import_delta data m = (o, m') -> coherent m -> coherent m'.
Proof.
  intros H Hm. destruct o as [r|e].
  - apply import_delta_ok in H as [Hf Hs]. by eapply coherent_store.
  - enough (m' = m) as -> by done. revert H. unfold import_delta, rm_bridge.import_delta.
    unfold mbind, RM_bind, run. repeat (case_match; simplify_eq; try (by injection 1); try done).
Qed.

(** The memories that calls lead to. *)
Inductive reachable : memory -> Prop :=
| reachable_new : reachable new
| reachable_resolve m condition ext val o m' :
    reachable m -> resolve condition ext val m = (o, m') -> reachable m'
| reachable_import m data o m' :
    reachable m -> import_delta data m = (o, m') -> reachable m'.

Lemma reachable_coherent m : reachable m -> coherent m.
Proof.
  induction 1; [apply coherent_new|by eapply resolve_coherent|by eapply import_coherent].
Qed.

(** ** A route from one agent to another *)

Definition payload_json (r : RouteRecord.t) : json :=
  JObj [(lit "condition_key", JStr (RouteRecord.condition_key r));
        (lit "result", JStr (RouteRecord.result r));
        (lit "version", JInt (RouteRecord.version r))].

Lemma payload_read r : json_of (sort_obj (payload_obj r)) = payload_json r.
Proof. vm_compute. reflexivity. Qed.

Lemma payload_members r :
  subscript (payload_json r) "condition_key" = Ok (JStr (RouteRecord.condition_key r))
  /\ subscript (payload_json r) "result" = Ok (JStr (RouteRecord.result r))
  /\ subscript (payload_json r) "version" = Ok (JInt (RouteRecord.version r)).
Proof. split_and!; vm_compute; reflexivity. Qed.

Lemma payload_writable r :
  Forall scalar (RouteRecord.condition_key r) -> Forall scalar (RouteRecord.result r) ->
  number (JInt (RouteRecord.version r)) -> writable (payload_obj r).
Proof.
  intros Hk Hr Hv. apply writable_lit_items.
  - apply (bool_decide_unpack _). vm_compute. exact I.
  - repeat (constructor; [cbn [fst]; ascii_lit|]). done.
  - constructor; [by constructor|]. constructor; [by constructor|]. constructor; [by constructor|done].
Qed.

Lemma shareable_scalar s : shareable s -> Forall scalar s.
Proof.
  intros H. unfold shareable in H. rewrite !elem_of_cons in H.
  destruct H as [->|[->|H]]; [apply lit_scalar; ascii_lit..|by apply not_elem_of_nil in H].
Qed.

(** Whatever record is exported, importing it stores it. *)
Lemma import_exported m1 m1' m2 address r sender org message clock data :
  1 <= limit -> Forall scalar sender -> Forall scalar org -> Forall scalar message ->
  _by_address m1 !! address = Some r -> filed r ->
  export_delta address sender org message clock m1 = (Ok data, m1') ->
  import_delta data m2 = (Ok r, snd (store_record (RouteRecord.condition_key r) r m2)).
Proof.
  intros Hl Hs Ho Hm Ha [Hd Hsc] H. unfold export_delta in H.
  unfold mbind at 1, RM_bind at 1, self in H. unfold get_item in H. rewrite Ha in H.
  unfold mbind at 1, RM_bind at 1, run at 1 in H. cbv zeta in H.
  apply rm_run_ok in H as (pb & Hpb & H). apply run_ok in H.
  pose proof (derive_address_ok _ _ _ Hd) as (Hck & Hres & Hta & _).
  assert (number (JInt (RouteRecord.version r))) as Hver
    by (eapply (encoded_numbers _ _ "new_version"); [exact H|]; do 6 right; by left).
  assert (number (JInt clock)) as Hclock
    by (eapply (encoded_numbers _ _ "logical_clock"); [exact H|]; do 11 right; by left).
  pose proof (payload_writable r Hck Hres Hver) as Hw.
  pose proof (loads_dumps limit (payload_obj r) Hw Hl) as Hload.
  pose proof (ascii_text_scalar _ (dumps_ascii _ Hw)) as Hpay.
  set (payload := ascii_text (dumps (payload_obj r))) in *. clearbody payload.
  eapply decode_encoded in H as [Hdec _]; [|split|exact Hl].
  2: { delta_members. repeat (constructor; [cbn [text]; first [done | by apply lit_scalar; ascii_lit | by apply shareable_scalar
         | by apply hashlib.hex_char_scalar, hashlib.hexdigest_hex]|]). done. }
  2: { delta_members. constructor; [apply Nat.leb_le; vm_compute; reflexivity|].
    constructor; [exact Hver|]. constructor; [exact Hclock|constructor]. }
  unfold import_delta, rm_bridge.import_delta. erewrite rm_run by exact Hdec.
  delta_members.
  erewrite rm_run by exact Hpb. unfold equals. rewrite !bool_decide_eq_true_2 by done.
  cbn [negb raise_if]. erewrite rm_run by reflexivity. cbn [not_in].
  erewrite rm_run by (rewrite bool_decide_eq_true_2 by exact Hsc; reflexivity).
  erewrite rm_run by reflexivity. cbn [route_member]. erewrite rm_run by reflexivity.
  erewrite rm_run by exact Hload.
  rewrite payload_read. destruct (payload_members r) as (Ek & Er & Ev).
  erewrite rm_run by exact Ek. erewrite rm_run by exact Er. erewrite rm_run by exact Ev.
  cbn [to_int route_member]. do 3 (erewrite rm_run by reflexivity). erewrite rm_run by exact Hd.
  rewrite bool_decide_eq_true_2 by done. cbn [negb raise_if]. do 3 (erewrite rm_run by reflexivity).
  by destruct r.
Qed.
End memory.

(** ** Properties *)

Section properties.
Context (limit : nat) (lower : pystr -> pystr).

(** A condition resolved for the first time. *)
Lemma resolve_fresh condition ext val m k res hit a m' :
  condition_key lower condition = Ok k -> _by_condition m !! k = None ->
  resolve lower condition (Some ext) val m = (Ok (res, hit, a), m') ->
  hit = false /\ external_resolution_calls m' = (external_resolution_calls m + 1)%Z
  /\ derive_address k res = Ok a
  /\ _by_condition m' !! k = Some a
  /\ _by_address m' !! a = Some (RouteRecord.mk a k res 1 (lit "shared")).
Proof.
  intros Hk Hc H. unfold resolve in H. erewrite rm_run in H by exact Hk.
  unfold mbind at 1, RM_bind at 1, self in H. rewrite Hc in H.
  apply rm_bind_ok in H as (u & m1 & [= _ <-] & H).
  apply rm_run_ok in H as (res' & _ & H). apply rm_run_ok in H as (v & _ & H).
  apply rm_run_ok in H as (u' & _ & H). apply rm_run_ok in H as (a' & Ha & H).
  apply rm_bind_ok in H as (u'' & m2 & [= _ <-] & H). injection H as <- <- <- <-.
  split_and!; [done|done|done|cbn; by rewrite lookup_insert_eq|cbn; by rewrite lookup_insert_eq].
Qed.

(** What is stored is what resolves. *)
Lemma resolve_stored condition ext val m k r :
  condition_key lower condition = Ok k -> RouteRecord.condition_key r = k ->
  resolve lower condition ext val (snd (store_record k r m))
  = (Ok (RouteRecord.result r, true, RouteRecord.trajectory_address r), snd (store_record k r m)).
Proof.
  intros Hk Hr. eapply resolve_known; [exact Hk|cbn; by rewrite lookup_insert_eq..].
Qed.

(** C38: The route memory stays coherent.  In every memory that any sequence of
    calls leads to, whatever they were given and however they ended, a known
    condition resolves without a fallback call and without a change, to the
    address that the record found derives from its own members; and every
    record is open to other agents and filed under that address. *)
Theorem route_memory_stays_coherent (m : memory) (H : reachable limit lower m) :
  (forall condition key address ext val,
     condition_key lower condition = Ok key -> _by_condition m !! key = Some address ->
     exists r, resolve lower condition ext val m = (Ok (RouteRecord.result r, true, address), m)
     /\ derive_address (RouteRecord.condition_key r) (RouteRecord.result r) = Ok address)
  /\ (forall address r, _by_address m !! address = Some r ->
      derive_address (RouteRecord.condition_key r) (RouteRecord.result r) = Ok address
      /\ RouteRecord.trajectory_address r = address /\ shareable (RouteRecord.scope r)).
Proof.
  apply reachable_coherent in H as [Hc Ha]. split.
  - intros condition key address ext val Hk Hl. destruct (Hc _ _ Hl) as (r & Hr).
    destruct (Ha _ _ Hr) as (Ht & Hd & _). exists r. split; [|done].
    rewrite <-Ht at 1. by eapply resolve_known.
  - intros address r Hr. destruct (Ha _ _ Hr) as (? & ? & ?). done.
Qed.

(** C39: A route learned by one agent serves another.  When agent A resolves a
    new condition through its fallback and exports the route, agent B, whatever
    it knows, imports it, and from then on both resolve the condition to the
    same result and address without a fallback call. *)
Theorem learned_route_serves_another_agent (condition key res address : pystr) (hit : bool)
    (ext : pystr -> presult pystr) (val : option (pystr -> presult bool)) (a a' a'' b : memory)
    (sender organization message : pystr) (clock : Z) (data : bytes)
    (Hlimit : 1 <= limit) (Hkey : condition_key lower condition = Ok key)
    (Hnew : _by_condition a !! key = None)
    (Hlearn : resolve lower condition (Some ext) val a = (Ok (res, hit, address), a'))
    (Hs : Forall scalar sender) (Ho : Forall scalar organization) (Hm : Forall scalar message)
    (Hexport : export_delta address sender organization message clock a' = (Ok data, a'')) :
  hit = false /\ external_resolution_calls a' = (external_resolution_calls a + 1)%Z
  /\ exists record b', import_delta limit data b = (Ok record, b')
     /\ external_resolution_calls b' = external_resolution_calls b
     /\ forall ext' val',
          resolve lower condition ext' val' b' = (Ok (res, true, address), b')
          /\ resolve lower condition ext' val' a' = (Ok (res, true, address), a').
Proof.
  destruct (resolve_fresh _ _ _ _ _ _ _ _ _ Hkey Hnew Hlearn) as (-> & Hcalls & Hd & Hc & Ha).
  split; [done|]. split; [done|]. eexists _, _. split.
  - eapply (import_exported limit a' a'' b); [exact Hlimit|exact Hs|exact Ho|exact Hm|exact Ha| |exact Hexport].
    split; [exact Hd|by left].
  - split; [done|]. intros ext' val'. split.
    + by apply (resolve_stored _ _ _ _ _ (RouteRecord.mk address key res 1 (lit "shared"))).
    + by apply (resolve_known _ _ _ _ _ _ _ _ Hkey Hc Ha).
Qed.

(** C40: A route's address does not identify it.  Because the material that is
    hashed separates the condition key and the result by a bar that either may
    hold, moving the text up to a bar of the result into the key leaves the
    address: a peer that exports such a record makes another agent resolve a
    condition it knew, at the address it knew, to a part of the result. *)
Theorem route_address_is_ambiguous (condition key x y address : pystr) (record : RouteRecord.t)
    (a a' b : memory) (sender organization message : pystr) (clock : Z) (data : bytes)
    (Hlimit : 1 <= limit) (Hkey : condition_key lower condition = Ok key)
    (Hb : coherent b) (Hknown : _by_condition b !! key = Some address)
    (Hrecord : _by_address b !! address = Some record)
    (Hk : RouteRecord.condition_key record = key)
    (Hresult : RouteRecord.result record = x ++ lit "|" ++ y)
    (Ha : _by_address a !! address = Some (RouteRecord.mk address (key ++ lit "|" ++ x) y 1 (lit "shared")))
    (Hs : Forall scalar sender) (Ho : Forall scalar organization) (Hm : Forall scalar message)
    (Hexport : export_delta address sender organization message clock a = (Ok data, a')) :
  resolve lower condition None None b = (Ok (x ++ lit "|" ++ y, true, address), b)
  /\ exists r b', import_delta limit data b = (Ok r, b')
     /\ resolve lower condition None None b' = (Ok (y, true, address), b').
Proof.
  destruct (co_address _ Hb _ _ Hrecord) as (Ht & Hd & _). split.
  { rewrite <-Hresult, <-Ht at 1. by eapply resolve_known. }
  eexists _, _. split.
  - eapply (import_exported limit a a' b); [exact Hlimit|exact Hs|exact Ho|exact Hm|exact Ha| |exact Hexport].
    split; [|by left].
    rewrite Hk, Hresult in Hd. cbn [RouteRecord.condition_key RouteRecord.result RouteRecord.trajectory_address].
    rewrite <-Hd. unfold derive_address. by rewrite <-!app_assoc.
  - assert (key ++ lit "|" ++ x <> key) as Hne.
    { intros C. apply (f_equal length) in C. rewrite !length_app in C. cbn in C. lia. }
    eapply (resolve_known _ _ _ _ _ key address (RouteRecord.mk address (key ++ lit "|" ++ x) y 1 (lit "shared")));
      [exact Hkey| |]; cbn [store_record snd _by_condition _by_address RouteRecord.condition_key
        RouteRecord.trajectory_address].
    + by rewrite lookup_insert_ne by done.
    + by rewrite lookup_insert_eq.
Qed.
End properties.
