(* ===== verification/PyAuth.v ===== *)
(** * The admission handshake (reference/python/ma2a/auth.py)

    Certificates, challenges and the verifier that consumes a challenge once.
    The clock and [secrets] are arguments. *)
From S2P Require Import Prelude Unicode CryptoSpec PyText PyJson PyLoads PyRoundTrip PyJob.
From stdpp Require Import gmap.

(** A block of Python that goes on with a value or returns [False, reason]. *)
Definition check (A : Type) : Type := presult (String.string + A).
#[global] Instance check_bind : MBind check := fun A B k r =>
  match r with
  | Ok (inl reason) => Ok (inl reason)
  | Ok (inr a) => k a
  | Raise e => Raise e
  end.
(** [if b: return False, reason] *)
Definition deny_if (b : bool) (reason : String.string) : check unit :=
  Ok (if b then inl reason else inr tt).

Module auth.

(** [sorted(set(items))] *)
Fixpoint insert_set (s : pystr) (l : list pystr) : list pystr :=
  match l with
  | [] => [s]
  | t :: l' => if decide (s = t) then l else if seq_lt s t then s :: l else t :: insert_set s l'
  end.
Definition sorted_set (items : list pystr) : list pystr := foldr insert_set [] items.

Module Certificate.
Record t : Type := mk {
  version : Z;
  serial : pystr;
  subject_id : pystr;
  subject_kind : pystr;
  subject_public_key : pystr;
  issuer_id : pystr;
  not_before : Z;
  not_after : Z;
  capabilities : list pystr;
  signature_algorithm : pystr;
  issuer_signature : pystr;
}.

Definition unsigned_payload (self : t) : pyobj :=
  PDict [(lit "version", PInt (version self)); (lit "serial", PStr (serial self));
         (lit "subject_id", PStr (subject_id self)); (lit "subject_kind", PStr (subject_kind self));
         (lit "subject_public_key", PStr (subject_public_key self));
         (lit "issuer_id", PStr (issuer_id self)); (lit "not_before", PInt (not_before self));
         (lit "not_after", PInt (not_after self));
         (lit "capabilities", PList (map PStr (capabilities self)));
         (lit "signature_algorithm", PStr (signature_algorithm self))].
End Certificate.

Module Challenge.
Record t : Type := mk {
  challenge_id : pystr;
  client_nonce : pystr;
  server_nonce : pystr;
  organization_id : pystr;
  agent_or_device_id : pystr;
  protocol_version : pystr;
  selected_capabilities : list pystr;
  issued_at : Z;
  expires_at : Z;
}.

Definition transcript_obj (self : t) : pyobj :=
  PDict [(lit "challenge_id", PStr (challenge_id self)); (lit "client_nonce", PStr (client_nonce self));
         (lit "server_nonce", PStr (server_nonce self));
         (lit "organization_id", PStr (organization_id self));
         (lit "agent_or_device_id", PStr (agent_or_device_id self));
         (lit "protocol_version", PStr (protocol_version self));
         (lit "selected_capabilities", PList (map PStr (selected_capabilities self)))].
Definition transcript (self : t) : bytes := canonical_json (transcript_obj self).
End Challenge.

(** The members of [HandshakeVerifier]: the challenges consumed so far. *)
Abbreviation consumed := (gset pystr).

Section auth.
Context `{Ed25519}.

(** [serial] is what [secrets.token_hex(16)] returned. *)
Definition issue_certificate (serial issuer_id : pystr) (issuer_private_key : Ed25519PrivateKey)
    (subject_id subject_kind : pystr) (subject_public_key : Ed25519PublicKey)
    (not_before not_after : Z) (capabilities : list pystr) : Certificate.t :=
  let public_raw := public_bytes_raw subject_public_key in
  let unsigned := Certificate.mk 1 serial subject_id subject_kind (_b64 public_raw) issuer_id
                    not_before not_after (sorted_set capabilities) (lit "Ed25519") [] in
  let signature := sign issuer_private_key (canonical_json (Certificate.unsigned_payload unsigned)) in
  Certificate.mk 1 serial subject_id subject_kind (_b64 public_raw) issuer_id
    not_before not_after (sorted_set capabilities) (lit "Ed25519") (_b64 signature).

(** [clock] is the time [datetime.now] would give. *)
Definition verify_certificate (clock : Z) (cert : Certificate.t)
    (issuer_public_key : Ed25519PublicKey) (now : option Z) : presult bool :=
  let now := default clock now in
  if negb (Certificate.version cert =? 1)%Z then Ok false else
  if negb (is_lit (Certificate.signature_algorithm cert) "Ed25519") then Ok false else
  if negb ((Certificate.not_before cert <=? now) && (now <=? Certificate.not_after cert))%Z
  then Ok false else
  false_if_rejected
    (signature ← _unb64 (Certificate.issuer_signature cert);
     verify issuer_public_key signature (canonical_json (Certificate.unsigned_payload cert));;
     Ok true).

(** [challenge_id] and [server_nonce] are what [secrets] returned. *)
Definition make_challenge (challenge_id server_nonce organization_id agent_or_device_id client_nonce
    protocol_version : pystr) (selected_capabilities : list pystr) (now ttl_seconds : Z)
    : presult Challenge.t :=
  if (ttl_seconds <=? 0)%Z then Raise (ValueError "ttl_seconds must be positive") else
  Ok (Challenge.mk challenge_id client_nonce server_nonce organization_id agent_or_device_id
        protocol_version (sorted_set selected_capabilities) now (now + ttl_seconds)).

Definition sign_challenge (challenge : Challenge.t) (private_key : Ed25519PrivateKey) : pystr :=
  _b64 (sign private_key (Challenge.transcript challenge)).

(** The keyword arguments of [HandshakeVerifier.verify]. *)
Record attempt : Type := {
  challenge : Challenge.t;
  signature : pystr;
  device_certificate : Certificate.t;
  organization_certificate : Certificate.t;
  root_public_key : Ed25519PublicKey;
  organization_status : pystr;
  required_capability : option pystr;
  now : Z;
  device_status : pystr;
}.

(** [try: ... except (...): return False, reason].  The first of the two lists
    lacks [InvalidSignature], which loading a key does not raise. *)
Definition or_deny {A} (r : presult A) (reason : String.string) : check A :=
  match r with
  | Ok a => Ok (inr a)
  | Raise e => if rejected e then Ok (inl reason) else Raise e
  end.

(** [Ed25519PublicKey.from_public_bytes(_unb64(text))] *)
Definition load_key (text : pystr) : presult Ed25519PublicKey :=
  raw ← _unb64 text; from_public_bytes raw.

(** [if not verify_certificate(...): return False, reason] *)
Definition check_certificate (cert : Certificate.t) (key : Ed25519PublicKey) (now : Z)
    (reason : String.string) : check unit :=
  match verify_certificate now cert key (Some now) with
  | Ok valid => deny_if (negb valid) reason
  | Raise e => Raise e
  end.

(** The body of [HandshakeVerifier.verify] up to the consumption. *)
Definition checks (a : attempt) (used : consumed) : check unit :=
  let org := organization_certificate a in
  let device := device_certificate a in
  deny_if (bool_decide (Challenge.challenge_id (challenge a) ∈ used)) "replay";;
  deny_if (negb ((Challenge.issued_at (challenge a) <=? now a)%Z
                 && (now a <=? Challenge.expires_at (challenge a))%Z)) "expired_challenge";;
  deny_if (negb (is_lit (organization_status a) "ACTIVE")) "inactive_organization";;
  deny_if (negb (is_lit (device_status a) "ACTIVE")) "inactive_device";;
  deny_if (negb (is_lit (Certificate.subject_kind org) "organization"))
    "invalid_organization_certificate";;
  deny_if (negb (is_lit (Certificate.subject_kind device) "device"
                 || is_lit (Certificate.subject_kind device) "agent"))
    "invalid_device_certificate";;
  deny_if (bool_decide (Certificate.subject_id org <> Challenge.organization_id (challenge a)))
    "organization_mismatch";;
  deny_if (bool_decide (Certificate.subject_id device <> Challenge.agent_or_device_id (challenge a)))
    "subject_mismatch";;
  check_certificate org (root_public_key a) (now a) "invalid_organization_certificate";;
  organization_public_key ← or_deny (load_key (Certificate.subject_public_key org))
                              "invalid_organization_certificate";
  deny_if (bool_decide (Certificate.issuer_id device <> Certificate.subject_id org))
    "invalid_delegation";;
  check_certificate device organization_public_key (now a) "invalid_device_certificate";;
  deny_if (match required_capability a with
           | Some c => truthy c && negb (bool_decide (c ∈ Certificate.capabilities device))
           | None => false
           end) "unauthorized_capability";;
  or_deny
    (device_public_key ← load_key (Certificate.subject_public_key device);
     raw ← _unb64 (signature a);
     verify device_public_key raw (Challenge.transcript (challenge a)))
    "invalid_signature".

(** [HandshakeVerifier.verify] *)
Definition verify_handshake (a : attempt) (used : consumed)
    : presult (bool * String.string) * consumed :=
  match checks a used with
  | Ok (inr _) => (Ok (true, "ok"%string), {[Challenge.challenge_id (challenge a)]} ∪ used)
  | Ok (inl reason) => (Ok (false, reason), used)
  | Raise e => (Raise e, used)
  end.
End auth.
End auth.
Import auth.

(** ** Denials *)

Lemma then_check {A} (m : check unit) (k : check A) a :
  (m;; k) = Ok (inr a) <-> m = Ok (inr tt) /\ k = Ok (inr a).
Proof. destruct m as [[r|[]]|e]; cbn; intuition congruence. Qed.

Lemma bind_check {A B} (m : check A) (k : A -> check B) b :
  (x ← m; k x) = Ok (inr b) <-> exists a, m = Ok (inr a) /\ k a = Ok (inr b).
Proof. destruct m as [[r|a]|e]; cbn; split; try (by intros (? & [=] & _)); try done; [eauto|]. by intros (? & [= ->] & ?). Qed.

Lemma deny_if_passes b reason : deny_if b reason = Ok (inr tt) <-> b = false.
Proof. unfold deny_if. destruct b; split; congruence. Qed.

Lemma or_deny_passes {A} (r : presult A) reason a : or_deny r reason = Ok (inr a) <-> r = Ok a.
Proof. destruct r as [x|e]; cbn; [split; congruence|]. destruct (rejected e); split; congruence. Qed.

Section facts.
Context `{E : Ed25519}.

(** ** Certificates *)

(** A certificate of a key, valid at a time and signed over all its members. *)
Record certified (key : Ed25519PublicKey) (now : Z) (cert : Certificate.t) : Prop := {
  cert_version : Certificate.version cert = 1%Z;
  cert_algorithm : Certificate.signature_algorithm cert = lit "Ed25519";
  cert_window : (Certificate.not_before cert <= now <= Certificate.not_after cert)%Z;
  cert_signature : exists sg, _unb64 (Certificate.issuer_signature cert) = Ok sg
    /\ verify key sg (canonical_json (Certificate.unsigned_payload cert)) = Ok tt;
}.

Lemma is_lit_spec s k : is_lit s k = true <-> s = lit k.
Proof. apply bool_decide_eq_true. Qed.

Lemma presult_bind_iff {A B} (r : presult A) (k : A -> presult B) b :
  (x ← r; k x) = Ok b <-> exists a, r = Ok a /\ k a = Ok b.
Proof. destruct r as [a|e]; cbn; [split; [eauto|by intros (? & [= <-] & ?)]|]. by split; [|intros (? & [=] & _)]. Qed.

Lemma false_if_rejected_true (r : presult bool) : false_if_rejected r = Ok true <-> r = Ok true.
Proof. destruct r as [b|e]; cbn; [done|]. destruct (rejected e); split; congruence. Qed.

Lemma verify_certificate_true clock cert key now :
  verify_certificate clock cert key (Some now) = Ok true <-> certified key now cert.
Proof.
  unfold verify_certificate. cbn [default from_option id]. cbv zeta.
  destruct (Z.eqb_spec (Certificate.version cert) 1); cbn [negb];
    [|split; [done|by intros [? _ _ _]]].
  destruct (is_lit (Certificate.signature_algorithm cert) "Ed25519") eqn:Ha; cbn [negb].
  2: { split; [done|]. intros [_ Hl _ _]. apply is_lit_spec in Hl. congruence. }
  apply is_lit_spec in Ha.
  destruct (Z.leb_spec (Certificate.not_before cert) now), (Z.leb_spec now (Certificate.not_after cert));
    cbn [andb negb]; try (split; [done|intros [_ _ Hw _]; lia]).
  rewrite false_if_rejected_true, presult_bind_iff. split.
  - intros (sg & Hsg & ([] & Hv & _)%presult_bind_iff). split; eauto.
  - intros [_ _ _ (sg & Hsg & Hv)]. exists sg. split; [done|]. by rewrite Hv.
Qed.

Lemma check_certificate_passes cert key now reason :
  check_certificate cert key now reason = Ok (inr tt) <-> certified key now cert.
Proof.
  unfold check_certificate. rewrite <-(verify_certificate_true now).
  unfold deny_if. destruct (verify_certificate now cert key (Some now)) as [[]|e]; cbn [negb]; split; congruence.
Qed.

(** ** What the verifier accepts *)

(** A handshake that is fresh, in time, between active parties, and certified
    from the root over the organization to the device that signed it. *)
Record authorised (a : attempt) (used : consumed) : Prop := {
  au_fresh : Challenge.challenge_id (challenge a) ∉ used;
  au_window : (Challenge.issued_at (challenge a) <= now a <= Challenge.expires_at (challenge a))%Z;
  au_organization_active : organization_status a = lit "ACTIVE";
  au_device_active : device_status a = lit "ACTIVE";
  au_organization_kind : Certificate.subject_kind (organization_certificate a) = lit "organization";
  au_device_kind : Certificate.subject_kind (device_certificate a) = lit "device"
                   \/ Certificate.subject_kind (device_certificate a) = lit "agent";
  au_organization_id : Certificate.subject_id (organization_certificate a)
                       = Challenge.organization_id (challenge a);
  au_device_id : Certificate.subject_id (device_certificate a)
                 = Challenge.agent_or_device_id (challenge a);
  au_organization : certified (root_public_key a) (now a) (organization_certificate a);
  au_delegation : Certificate.issuer_id (device_certificate a)
                  = Certificate.subject_id (organization_certificate a);
  au_device : exists key, load_key (Certificate.subject_public_key (organization_certificate a)) = Ok key
    /\ certified key (now a) (device_certificate a);
  au_capability : forall c, required_capability a = Some c -> c <> [] ->
    c ∈ Certificate.capabilities (device_certificate a);
  au_signature : exists key sg,
    load_key (Certificate.subject_public_key (device_certificate a)) = Ok key
    /\ _unb64 (signature a) = Ok sg /\ verify key sg (Challenge.transcript (challenge a)) = Ok tt;
}.

Lemma capability_check (c : option pystr) (caps : list pystr) :
  match c with Some c => truthy c && negb (bool_decide (c ∈ caps)) | None => false end = false
  <-> forall x, c = Some x -> x <> [] -> x ∈ caps.
Proof.
  destruct c as [c|]; [|by split]. unfold truthy. split.
  - intros H x [= <-] Hx. apply andb_false_iff in H as [H|H].
    + apply negb_false_iff, bool_decide_eq_true in H. done.
    + by apply negb_false_iff, bool_decide_eq_true in H.
  - intros H. destruct (decide (c = [])) as [->|Hc]; [done|].
    rewrite (bool_decide_eq_true_2 (c ∈ caps)) by auto. by rewrite andb_false_r.
Qed.

Lemma signature_check public text m :
  (device_public_key ← load_key public; raw ← _unb64 text; verify device_public_key raw m) = Ok tt
  <-> exists key sg, load_key public = Ok key /\ _unb64 text = Ok sg /\ verify key sg m = Ok tt.
Proof.
  rewrite presult_bind_iff. split.
  - intros (key & Hk & (sg & Hsg & Hv)%presult_bind_iff). eauto.
  - intros (key & sg & Hk & Hsg & Hv). exists key. split; [done|]. by rewrite Hsg.
Qed.

Lemma checks_pass a used : checks a used = Ok (inr tt) <-> authorised a used.
Proof.
  unfold checks. cbv zeta. rewrite !then_check, bind_check. repeat setoid_rewrite then_check.
  repeat setoid_rewrite or_deny_passes. setoid_rewrite signature_check.
  repeat setoid_rewrite deny_if_passes. repeat setoid_rewrite check_certificate_passes.
  setoid_rewrite capability_check. setoid_rewrite bool_decide_eq_false.
  rewrite !negb_false_iff, andb_true_iff, !Z.leb_le, !is_lit_spec, orb_true_iff, !is_lit_spec.
  split.
  - intros (? & ? & ? & ? & ? & ? & Ho%dec_stable & Hd%dec_stable & ? & key & Hk & Hi%dec_stable & ? & ?
      & dk & sg & Hdk & Hsg & Hv). split; eauto 10.
  - intros [? ? ? ? ? ? ? ? ? ? (key & ? & ?) ? (dk & sg & ? & ? & ?)].
    split_and!; try tauto. exists key. split_and!; try tauto. eauto.
Qed.

Lemma verify_accepts a used used' :
  verify_handshake a used = (Ok (true, "ok"%string), used')
  <-> authorised a used /\ used' = {[Challenge.challenge_id (challenge a)]} ∪ used.
Proof.
  rewrite <-checks_pass. unfold verify_handshake. destruct (checks a used) as [[r|[]]|e].
  - split; [done|by intros [[=] _]].
  - split; [by intros [= <-]|by intros [_ ->]].
  - split; [done|by intros [[=] _]].
Qed.

Lemma verify_verdict a used r used' :
  verify_handshake a used = (r, used') -> r = Ok (true, "ok"%string) \/ used' = used.
Proof.
  unfold verify_handshake. destruct (checks a used) as [[x|[]]|e]; intros [= <- <-]; auto.
Qed.

(** ** Sessions *)

(** The verifier of a server over the attempts it is given: the challenges
    accepted, in order, and the challenges consumed. *)
Fixpoint session (attempts : list attempt) (used : consumed) : list pystr * consumed :=
  match attempts with
  | [] => ([], used)
  | a :: attempts =>
      let '(r, used1) := verify_handshake a used in
      let '(accepted, used2) := session attempts used1 in
      (match r with
       | Ok (true, _) => Challenge.challenge_id (challenge a) :: accepted
       | _ => accepted
       end, used2)
  end.

Lemma session_spec attempts used accepted used' :
  session attempts used = (accepted, used') ->
  NoDup accepted /\ (forall id, id ∈ accepted -> id ∉ used) /\ used' = list_to_set accepted ∪ used.
Proof.
  revert used accepted used'. induction attempts as [|a attempts IH]; intros used accepted used' H;
    cbn [session] in H.
  - injection H as <- <-. split_and!; [apply NoDup_nil_2|by intros ? ?%not_elem_of_nil|cbn; by rewrite union_empty_l_L].
  - destruct (verify_handshake a used) as [r used1] eqn:Ev.
    destruct (session attempts used1) as [acc used2] eqn:Es.
    destruct (IH _ _ _ Es) as (Hn & Hf & ->). unfold verify_handshake in Ev.
    destruct (checks a used) as [[x|[]]|e] eqn:Ec; injection Ev as <- <-; injection H as <- <-; try done.
    apply checks_pass in Ec as [Hfresh _ _ _ _ _ _ _ _ _ _ _ _]. split_and!.
    + constructor; [|done]. intros Hin. by apply (Hf _ Hin), elem_of_union_l, elem_of_singleton.
    + intros id [->|Hin]%elem_of_cons; [done|]. intros Hu. by apply (Hf _ Hin), elem_of_union_r.
    + cbn [list_to_set foldr]. by rewrite union_assoc_L, (union_comm_L (list_to_set acc)).
Qed.
End facts.

(** What the documentation of [cryptography] says of the library. *)
Class Ed25519Laws `{E : Ed25519} : Type := {
  public_key : Ed25519PrivateKey -> Ed25519PublicKey;
  verify_sign k m : verify (public_key k) (sign k m) m = Ok tt;
  sign_length k m : length (sign k m) = 64;
  load_public_bytes p : from_public_bytes (public_bytes_raw p) = Ok p;
  verify_raises p sg m e : verify p sg m = Raise e -> e = InvalidSignature;
  load_raises b e : from_public_bytes b = Raise e -> exists what, e = ValueError what;
}.

Section laws.
Context `{L : Ed25519Laws}.

(** *** No exception escapes *)

Definition tame {A} (r : presult A) : Prop :=
  match r with Ok _ => True | Raise e => rejected e = true end.

Lemma tame_bind {A B} (r : presult A) (k : A -> presult B) :
  tame r -> (forall a, tame (k a)) -> tame (x ← r; k x).
Proof. destruct r; cbn; auto. Qed.

Lemma tame_a2b_loop s quad left pads padding : tame (a2b_loop s quad left pads padding).
Proof.
  revert quad left pads padding. induction s as [|c s IH]; intros quad left pads padding.
  - cbn. by case_decide.
  - cbn [a2b_loop]. destruct (decide (c = x3d)) as [->|Hc].
    + destruct (_ && _); [by destruct s|apply IH].
    + destruct (table_a2b c) as [v|] eqn:Ev; [|by destruct c].
      assert (tame (if padding then Raise BinasciiError else
        match quad with
        | 0 => a2b_loop s 1 v 0 false
        | 1 => out ← a2b_loop s 2 (Z.land v 0x0f) 0 false;
               Ok (byte_of_Z (Z.lor (Z.shiftl left 2) (Z.shiftr v 4)) :: out)
        | 2 => out ← a2b_loop s 3 (Z.land v 0x03) 0 false;
               Ok (byte_of_Z (Z.lor (Z.shiftl left 4) (Z.shiftr v 2)) :: out)
        | _ => out ← a2b_loop s 0 0 0 false;
               Ok (byte_of_Z (Z.lor (Z.shiftl left 6) v) :: out)
        end)) as H.
      { destruct padding; [done|]. destruct quad as [|[|[|quad]]]; [apply IH|..];
          (apply tame_bind; [apply IH|done]). }
      destruct c; done.
Qed.

Lemma tame_unb64 text : tame (_unb64 text).
Proof.
  unfold _unb64, encode_ascii. apply tame_bind; [by destruct (forallb _ _)|].
  intros s. unfold a2b_base64. destruct (of_url s) as [|c t]; [apply tame_a2b_loop|].
  pose proof (tame_a2b_loop (c :: t) 0 0 0 false). by destruct c.
Qed.

Lemma tame_verify p sg m : tame (verify p sg m).
Proof. destruct (verify p sg m) eqn:Ev; [done|]. by apply verify_raises in Ev as ->. Qed.

Lemma tame_load_key text : tame (load_key text).
Proof.
  apply tame_bind; [apply tame_unb64|]. intros b. destruct (from_public_bytes b) eqn:Eb; [done|].
  by apply load_raises in Eb as (what & ->).
Qed.

Lemma or_deny_returns {A} (r : presult A) reason : tame r -> exists x, or_deny r reason = Ok x.
Proof. destruct r as [a|e]; cbn; [eauto|]. intros ->. eauto. Qed.

Lemma verify_certificate_returns clock cert key now :
  exists b, verify_certificate clock cert key now = Ok b.
Proof.
  unfold verify_certificate. cbv zeta. repeat case_match; eauto.
  match goal with |- context [false_if_rejected ?r] => assert (tame r) as Ht end.
  { apply tame_bind; [apply tame_unb64|]. intros sg. apply tame_bind; [apply tame_verify|done]. }
  unfold false_if_rejected. destruct (x ← _; _) as [b|e]; [eauto|]. cbn in Ht. rewrite Ht. eauto.
Qed.

Lemma check_bind_returns {A B} (m : check A) (k : A -> check B) :
  (exists x, m = Ok x) -> (forall a, exists y, k a = Ok y) -> exists y, (x ← m; k x) = Ok y.
Proof. intros ([r|a] & ->) Hk; [by exists (inl r)|apply Hk]. Qed.

Lemma checks_return a used : exists x, checks a used = Ok x.
Proof.
  assert (forall cert key now reason, exists x, check_certificate cert key now reason = Ok x) as Hc.
  { intros cert key now reason. unfold check_certificate, deny_if.
    destruct (verify_certificate_returns now cert key (Some now)) as (b & ->). eauto. }
  unfold checks. cbv zeta.
  repeat (apply check_bind_returns; [first [by eexists | apply Hc
           | apply or_deny_returns, tame_load_key]|intros ?]).
  apply or_deny_returns, tame_bind; [apply tame_load_key|]. intros key.
  apply tame_bind; [apply tame_unb64|]. intros raw. apply tame_verify.
Qed.

(** *** An honest device *)

Lemma elem_of_insert_set x s l : x ∈ insert_set s l <-> x = s \/ x ∈ l.
Proof.
  induction l as [|t l IH]; cbn [insert_set].
  - rewrite list_elem_of_singleton. split; [by left|]. intros [->|H]; [done|]. by apply not_elem_of_nil in H.
  - destruct (decide (s = t)) as [->|]; [rewrite elem_of_cons; tauto|].
    destruct (seq_lt s t); rewrite !elem_of_cons; [done|]. rewrite IH. tauto.
Qed.

Lemma elem_of_sorted_set x l : x ∈ sorted_set l <-> x ∈ l.
Proof.
  induction l as [|s l IH]; [done|]. cbn [sorted_set foldr].
  rewrite elem_of_insert_set, elem_of_cons. fold (sorted_set l). by rewrite IH.
Qed.

Lemma issued_certified serial issuer_id k subject_id subject_kind p not_before not_after caps now :
  (not_before <= now <= not_after)%Z ->
  certified (public_key k) now
    (issue_certificate serial issuer_id k subject_id subject_kind p not_before not_after caps).
Proof. intros Hw. split; [done|done|done|]. eexists. split; [apply _unb64_b64|apply verify_sign]. Qed.

Lemma load_issued p : load_key (_b64 (public_bytes_raw p)) = Ok p.
Proof. unfold load_key. rewrite _unb64_b64. apply load_public_bytes. Qed.

(** The handshake of a device: certificates from the root and the organization
    and a signature of the challenge. *)
Definition honest_attempt (root org device : Ed25519PrivateKey) (serial1 serial2 : pystr)
    (challenge_id server_nonce client_nonce organization_id device_id protocol_version : pystr)
    (selected granted : list pystr) (required : option pystr)
    (not_before not_after issued ttl now : Z) : attempt :=
  let c := Challenge.mk challenge_id client_nonce server_nonce organization_id device_id
             protocol_version (sorted_set selected) issued (issued + ttl) in
  {| challenge := c; signature := sign_challenge c device;
     device_certificate := issue_certificate serial2 organization_id org device_id (lit "device")
                             (public_key device) not_before not_after granted;
     organization_certificate := issue_certificate serial1 (lit "ma2a-root") root organization_id
                                   (lit "organization") (public_key org) not_before not_after
                                   [lit "delegate"];
     root_public_key := public_key root; organization_status := lit "ACTIVE";
     required_capability := required; now := now; device_status := lit "ACTIVE" |}.

Lemma honest_authorised root org device s1 s2 cid sn cn oid did pv sel granted required nb na
    issued ttl t used :
  cid ∉ used -> (issued <= t <= issued + ttl)%Z -> (nb <= t <= na)%Z ->
  (forall c, required = Some c -> c ∈ granted) ->
  authorised (honest_attempt root org device s1 s2 cid sn cn oid did pv sel granted required nb na
                issued ttl t) used.
Proof.
  intros Hf Hw Hv Hc. split; try done.
  - by left.
  - by apply issued_certified.
  - exists (public_key org). split; [apply load_issued|by apply issued_certified].
  - intros c Hr _. apply elem_of_sorted_set. by apply Hc.
  - exists (public_key device). eexists. split; [apply load_issued|].
    split; [apply _unb64_b64|apply verify_sign].
Qed.
End laws.

(** ** What the signatures bind *)

Lemma dumps_inj v1 v2 :
  writable v1 -> writable v2 -> dumps v1 = dumps v2 -> json_of (sort_obj v1) = json_of (sort_obj v2).
Proof.
  intros H1 H2 E. pose proof (loads_dumps (height v1 + height v2) v1 H1 ltac:(lia)) as E1.
  pose proof (loads_dumps (height v1 + height v2) v2 H2 ltac:(lia)) as E2.
  rewrite E, E2 in E1. by injection E1.
Qed.

Lemma strings_inj l1 l2 :
  map json_of (map sort_obj (map PStr l1)) = map json_of (map sort_obj (map PStr l2)) -> l1 = l2.
Proof.
  revert l2. induction l1 as [|s l1 IH]; intros [|t l2]; try done. cbn.
  intros [= -> E]. f_equal. by apply IH.
Qed.

(** Texts Python can encode. *)
Definition challenge_texts (c : Challenge.t) : list pystr :=
  Challenge.challenge_id c :: Challenge.client_nonce c :: Challenge.server_nonce c
  :: Challenge.organization_id c :: Challenge.agent_or_device_id c :: Challenge.protocol_version c
  :: Challenge.selected_capabilities c.

Lemma writable_strings l : Forall (Forall scalar) l -> writable (PList (map PStr l)).
Proof. intros H. constructor. apply Forall_map. eapply Forall_impl; [exact H|]. by constructor. Qed.

Lemma writable_transcript c :
  Forall (Forall scalar) (challenge_texts c) -> writable (Challenge.transcript_obj c).
Proof.
  unfold challenge_texts. rewrite !Forall_cons. intros (? & ? & ? & ? & ? & ? & Hc).
  constructor.
  - apply (bool_decide_unpack _). vm_compute. exact I.
  - repeat (constructor; [apply ascii_text_scalar; repeat constructor|]). constructor.
  - repeat (constructor; [by constructor|]). constructor; [|constructor]. by apply writable_strings.
Qed.

Lemma transcript_members c1 c2 :
  json_of (sort_obj (Challenge.transcript_obj c1)) = json_of (sort_obj (Challenge.transcript_obj c2)) ->
  c2 = Challenge.mk (Challenge.challenge_id c1) (Challenge.client_nonce c1) (Challenge.server_nonce c1)
         (Challenge.organization_id c1) (Challenge.agent_or_device_id c1)
         (Challenge.protocol_version c1) (Challenge.selected_capabilities c1)
         (Challenge.issued_at c2) (Challenge.expires_at c2).
Proof.
  destruct c1, c2. intros E.
  assert (forall a1 a2 a3 a4 a5 a6 l, json_of (sort_obj (PDict
    [(lit "challenge_id", PStr a1); (lit "client_nonce", PStr a2); (lit "server_nonce", PStr a3);
     (lit "organization_id", PStr a4); (lit "agent_or_device_id", PStr a5);
     (lit "protocol_version", PStr a6); (lit "selected_capabilities", PList l)]))
    = JObj [(lit "agent_or_device_id", JStr a5); (lit "challenge_id", JStr a1);
            (lit "client_nonce", JStr a2); (lit "organization_id", JStr a4);
            (lit "protocol_version", JStr a6);
            (lit "selected_capabilities", JArr (map json_of (map sort_obj l)));
            (lit "server_nonce", JStr a3)]) as Hj by (intros; vm_compute; reflexivity).
  unfold Challenge.transcript_obj in E. rewrite !Hj in E.
  injection E as -> -> -> -> -> El ->. by apply strings_inj in El as ->.
Qed.

Lemma certificate_members c1 c2 :
  json_of (sort_obj (Certificate.unsigned_payload c1))
  = json_of (sort_obj (Certificate.unsigned_payload c2)) ->
  c2 = Certificate.mk (Certificate.version c1) (Certificate.serial c1) (Certificate.subject_id c1)
         (Certificate.subject_kind c1) (Certificate.subject_public_key c1) (Certificate.issuer_id c1)
         (Certificate.not_before c1) (Certificate.not_after c1) (Certificate.capabilities c1)
         (Certificate.signature_algorithm c1) (Certificate.issuer_signature c2).
Proof.
  destruct c1, c2. intros E.
  assert (forall z1 a1 a2 a3 a4 a5 z2 z3 l a6, json_of (sort_obj (PDict
    [(lit "version", PInt z1); (lit "serial", PStr a1); (lit "subject_id", PStr a2);
     (lit "subject_kind", PStr a3); (lit "subject_public_key", PStr a4); (lit "issuer_id", PStr a5);
     (lit "not_before", PInt z2); (lit "not_after", PInt z3); (lit "capabilities", PList l);
     (lit "signature_algorithm", PStr a6)]))
    = JObj [(lit "capabilities", JArr (map json_of (map sort_obj l))); (lit "issuer_id", JStr a5);
            (lit "not_after", JInt z3); (lit "not_before", JInt z2); (lit "serial", JStr a1);
            (lit "signature_algorithm", JStr a6); (lit "subject_id", JStr a2);
            (lit "subject_kind", JStr a3); (lit "subject_public_key", JStr a4);
            (lit "version", JInt z1)]) as Hj by (intros; vm_compute; reflexivity).
  unfold Certificate.unsigned_payload in E. rewrite !Hj in E.
  injection E as El -> -> -> -> -> -> -> -> ->. by apply strings_inj in El as ->.
Qed.

(** ** Properties *)

Section properties.
Context {E : Ed25519} {L : Ed25519Laws}.

(** C30: The verifier admits exactly the authorised.  [HandshakeVerifier.verify]
    never raises; its verdict is positive exactly for a challenge that is not
    consumed and in time, between an active organization and an active device
    whose certificate descends from the root over the organization's, with the
    required capability granted if one is required, and whose key signed the
    transcript; and it consumes the challenge exactly when the verdict is
    positive.  These are the conditions the code checks: of those of
    security/handshake.md it leaves the existence of the challenge (in 1), the
    nonces of the session (9) and the negotiation (10) to its caller. *)
Theorem verifier_admits_exactly_the_authorised (a : attempt) (used : consumed) :
  exists b reason used', verify_handshake a used = (Ok (b, reason), used')
    /\ (b = true <-> authorised a used)
    /\ used' = (if b then {[Challenge.challenge_id (challenge a)]} ∪ used else used).
Proof.
  pose proof (checks_pass a used) as Hp. unfold verify_handshake.
  destruct (checks_return a used) as ([r|[]] & Hc); rewrite Hc in Hp |- *.
  - exists false, r, used. split_and!; [done| |done]. split; [done|]. by intros H%Hp.
  - eexists true, _, _. split_and!; [done| |done]. split; [|done]. intros _. by apply Hp.
Qed.

(** C31: A challenge admits once.  Over any sequence of attempts, whoever makes
    them, the challenges admitted are pairwise distinct and none was consumed
    before, and afterwards exactly they have been added to the consumed ones. *)
Theorem challenge_admits_once (attempts : list attempt) (used : consumed) :
  let '(admitted, used') := session attempts used in
  NoDup admitted /\ (forall id, id ∈ admitted -> id ∉ used) /\ used' = list_to_set admitted ∪ used.
Proof. destruct (session attempts used) as [admitted used'] eqn:Es. by apply session_spec in Es. Qed.

(** C32: An honest device is admitted, once.  With certificates issued down the
    chain, a challenge that [make_challenge] made and the device signed is
    accepted within both validity windows, whenever its id is fresh and the
    required capability was granted; presenting it again is a replay. *)
Theorem honest_device_is_admitted (root org device : Ed25519PrivateKey)
    (s1 s2 cid sn cn oid did pv : pystr) (selected granted : list pystr) (required : option pystr)
    (nb na issued ttl t : Z) (used : consumed) (c : Challenge.t)
    (Hc : make_challenge cid sn oid did cn pv selected issued ttl = Ok c)
    (Hf : cid ∉ used) (Hw : (issued <= t <= issued + ttl)%Z) (Hv : (nb <= t <= na)%Z)
    (Hr : forall x, required = Some x -> x ∈ granted) :
  let a := honest_attempt root org device s1 s2 cid sn cn oid did pv selected granted required nb na
             issued ttl t in
  challenge a = c
  /\ verify_handshake a used = (Ok (true, "ok"%string), {[cid]} ∪ used)
  /\ verify_handshake a ({[cid]} ∪ used) = (Ok (false, "replay"%string), {[cid]} ∪ used).
Proof.
  cbv zeta. split; [|split].
  - unfold make_challenge in Hc. destruct (ttl <=? 0)%Z; [done|]. by injection Hc as <-.
  - apply verify_accepts. split; [by apply honest_authorised|done].
  - unfold verify_handshake, checks. cbv zeta.
    rewrite (bool_decide_eq_true_2 (Challenge.challenge_id _ ∈ _)); [done|].
    apply elem_of_union_l. by apply elem_of_singleton.
Qed.
End properties.

(** What the two signatures bind.  For texts that can be encoded, two
    challenges have the same transcript exactly when they agree on every
    member but the validity window, which the device therefore does not sign;
    and two certificates with the same signed text agree on every member but
    the signature. *)
Theorem signatures_bind_the_handshake (c1 c2 : Challenge.t) (d1 d2 : Certificate.t)
    (H1 : Forall (Forall scalar) (challenge_texts c1)) (H2 : Forall (Forall scalar) (challenge_texts c2))
    (W1 : writable (Certificate.unsigned_payload d1)) (W2 : writable (Certificate.unsigned_payload d2)) :
  (Challenge.transcript c1 = Challenge.transcript c2
   <-> exists issued_at expires_at,
       c2 = Challenge.mk (Challenge.challenge_id c1) (Challenge.client_nonce c1)
              (Challenge.server_nonce c1) (Challenge.organization_id c1)
              (Challenge.agent_or_device_id c1) (Challenge.protocol_version c1)
              (Challenge.selected_capabilities c1) issued_at expires_at)
  /\ (canonical_json (Certificate.unsigned_payload d1) = canonical_json (Certificate.unsigned_payload d2)
      -> exists signature,
         d2 = Certificate.mk (Certificate.version d1) (Certificate.serial d1)
                (Certificate.subject_id d1) (Certificate.subject_kind d1)
                (Certificate.subject_public_key d1) (Certificate.issuer_id d1)
                (Certificate.not_before d1) (Certificate.not_after d1) (Certificate.capabilities d1)
                (Certificate.signature_algorithm d1) signature).
Proof.
  split; [split|].
  - intros E%dumps_inj; [|by apply writable_transcript..]. apply transcript_members in E. eauto.
  - by intros (i & e & ->).
  - intros E%dumps_inj; [|done..]. apply certificate_members in E. eauto.
Qed.
