(* ===== verification/PyCapability.v ===== *)
(** * Capability advertisements (reference/python/ma2a/capability.py)

    What a node tells of itself to those who route to it: validation, signing
    (which sorts the sets of the advertisement) and verification.  Failure
    notices, of the same file, are in PyJob.v. *)
From Stdlib Require Import SpecFloat.
From S2P Require Import Prelude Canonical Reader Unicode CryptoSpec PyText PyFloat PyJson PyLoads PyRoundTrip PyJob PyAuth.
From stdpp Require Import sorting.
Import auth.

Module advertisement.

Definition _ALLOWED_SCOPES : list pystr := map lit ["LOCAL_ONLY"; "PRIVATE"; "ORGANIZATION"; "PUBLIC"]%string.

(** [0.0 <= x <= 1.0] *)
Definition float_one : spec_float := S754_finite false (2 ^ 52) (-52).
Definition unit_interval (x : spec_float) : bool := SFleb (S754_zero false) x && SFleb x float_one.

Module CapabilityAdvertisement.
Record t : Type := mk {
  protocol_version : pystr;
  message_id : pystr;
  node_id : pystr;
  organization_id : option pystr;
  sequence : Z;
  issued_at : Z;
  expires_at : Z;
  available : bool;
  compute_capacity : spec_float;
  current_load : spec_float;
  models : list pystr;
  memory_domains : list pystr;
  supported_scopes : list pystr;
  signature_algorithm : pystr;
  signature : pystr;
}.

Definition set_signature (v : pystr) (a : t) : t :=
  mk (protocol_version a) (message_id a) (node_id a) (organization_id a) (sequence a) (issued_at a)
     (expires_at a) (available a) (compute_capacity a) (current_load a) (models a)
     (memory_domains a) (supported_scopes a) (signature_algorithm a) v.

(** [asdict(self)], with the three tuples as the lists they are replaced by. *)
Definition asdict (self : t) : pydict :=
  [(lit "protocol_version", PStr (protocol_version self));
   (lit "message_id", PStr (message_id self));
   (lit "node_id", PStr (node_id self));
   (lit "organization_id", match organization_id self with Some s => PStr s | None => PNone end);
   (lit "sequence", PInt (sequence self));
   (lit "issued_at", PInt (issued_at self));
   (lit "expires_at", PInt (expires_at self));
   (lit "available", PBool (available self));
   (lit "compute_capacity", PFloat (compute_capacity self));
   (lit "current_load", PFloat (current_load self));
   (lit "models", PList (map PStr (models self)));
   (lit "memory_domains", PList (map PStr (memory_domains self)));
   (lit "supported_scopes", PList (map PStr (supported_scopes self)));
   (lit "signature_algorithm", PStr (signature_algorithm self));
   (lit "signature", PStr (signature self))].

Definition unsigned_payload (self : t) : pyobj := PDict (pop (lit "signature") (asdict self)).

Definition validate (self : t) (now : option Z) : presult unit :=
  raise_if (negb (truthy (protocol_version self)) || negb (truthy (message_id self))
            || negb (truthy (node_id self)))
    (ValueError "missing capability identity field");;
  raise_if (sequence self <? 0)%Z (ValueError "negative capability sequence");;
  raise_if ((issued_at self <? 0)%Z || (expires_at self <=? issued_at self)%Z)
    (ValueError "invalid capability validity window");;
  raise_if (match now with
            | Some now => negb ((issued_at self <=? now)%Z && (now <=? expires_at self)%Z)
            | None => false
            end) (ValueError "capability advertisement expired or not yet valid");;
  raise_if (float_negative (compute_capacity self)) (ValueError "negative compute capacity");;
  raise_if (negb (unit_interval (current_load self)))
    (ValueError "current_load must be between 0 and 1");;
  raise_if (bool_decide (supported_scopes self = []))
    (ValueError "supported_scopes must not be empty");;
  raise_if (existsb (fun scope => negb (bool_decide (scope ∈ _ALLOWED_SCOPES))) (supported_scopes self))
    (ValueError "invalid supported scope");;
  raise_if (negb (is_lit (signature_algorithm self) "Ed25519"))
    (ValueError "unsupported signature algorithm").
End CapabilityAdvertisement.
Import CapabilityAdvertisement.

Section signed.
Context `{Ed25519}.

Definition sign_capability_advertisement (advertisement : CapabilityAdvertisement.t)
    (private_key : Ed25519PrivateKey) : presult CapabilityAdvertisement.t :=
  validate advertisement None;;
  let unsigned :=
    CapabilityAdvertisement.mk (protocol_version advertisement) (message_id advertisement)
      (node_id advertisement) (organization_id advertisement) (sequence advertisement)
      (issued_at advertisement) (expires_at advertisement) (available advertisement)
      (compute_capacity advertisement) (current_load advertisement)
      (sorted_set (models advertisement)) (sorted_set (memory_domains advertisement))
      (sorted_set (supported_scopes advertisement)) (lit "Ed25519") [] in
  let signature := sign private_key (canonical_json (unsigned_payload unsigned)) in
  Ok (set_signature (_b64 signature) unsigned).

Definition verify_capability_advertisement (advertisement : CapabilityAdvertisement.t)
    (public_key : Ed25519PublicKey) (now : option Z) : presult bool :=
  false_if_rejected
    (validate advertisement now;;
     if negb (truthy (signature advertisement)) then Ok false else
     raw ← _unb64 (signature advertisement);
     verify public_key raw (canonical_json (unsigned_payload advertisement));;
     Ok true).
End signed.
End advertisement.
Import advertisement.
Import CapabilityAdvertisement.

(** ** What is valid *)

(** An advertisement [validate] accepts, at a time or at any. *)
Record valid (now : option Z) (a : CapabilityAdvertisement.t) : Prop := {
  va_identity : protocol_version a <> [] /\ message_id a <> [] /\ node_id a <> [];
  va_sequence : (0 <= sequence a)%Z;
  va_window : (0 <= issued_at a < expires_at a)%Z;
  va_now : forall t, now = Some t -> (issued_at a <= t <= expires_at a)%Z;
  va_capacity : float_negative (compute_capacity a) = false;
  va_load : unit_interval (current_load a) = true;
  va_scopes : supported_scopes a <> [] /\ Forall (.∈ _ALLOWED_SCOPES) (supported_scopes a);
  va_algorithm : signature_algorithm a = lit "Ed25519";
}.

Lemma truthy_false s : negb (truthy s) = false <-> s <> [].
Proof. unfold truthy. by rewrite negb_involutive, bool_decide_eq_false. Qed.

Lemma now_check (now : option Z) lo hi :
  match now with Some now => negb ((lo <=? now)%Z && (now <=? hi)%Z) | None => false end = false
  <-> forall t, now = Some t -> (lo <= t <= hi)%Z.
Proof.
  destruct now as [n|]; [|by split]. rewrite negb_false_iff, andb_true_iff, !Z.leb_le. split.
  - by intros H t [= <-].
  - auto.
Qed.

Lemma scopes_check scopes (allowed : list pystr) :
  existsb (fun scope : pystr => negb (bool_decide (scope ∈ allowed))) scopes = false
  <-> Forall (.∈ allowed) scopes.
Proof.
  induction scopes as [|s scopes IH]; [by split|]. cbn [existsb].
  by rewrite Forall_cons, orb_false_iff, negb_false_iff, bool_decide_eq_true, IH.
Qed.

Lemma validate_ok a now u : validate a now = Ok u <-> valid now a.
Proof.
  unfold validate. rewrite !raise_if_then, raise_if_ok, !orb_false_iff, !truthy_false, now_check,
    scopes_check, !negb_false_iff, is_lit_spec, bool_decide_eq_false, !Z.ltb_ge, Z.leb_gt.
  split; [intros; split; tauto || lia|intros []; tauto].
Qed.

Lemma validate_raises a now e : validate a now = Raise e -> exists what, e = ValueError what.
Proof.
  unfold validate, raise_if.
  repeat match goal with |- context [if ?b then Raise _ else Ok tt] =>
    destruct b; cbn [mbind presult_bind]; [intros [= <-]; eauto|] end. done.
Qed.

(** ** Sorted sets *)

Abbreviation ascending := (StronglySorted (fun s t => seq_lt s t = true)).

Lemma ascending_insert_set s l : ascending l -> ascending (insert_set s l).
Proof.
  induction 1 as [|t l Hl IH Ht]; cbn [insert_set]; [by repeat constructor|].
  case_decide as Hst; [by constructor|]. destruct (seq_lt s t) eqn:E.
  - constructor; [by constructor|]. constructor; [done|]. eapply Forall_impl; [exact Ht|].
    intros x Hx. by eapply seq_lt_trans.
  - constructor; [done|]. apply Forall_forall. intros x [->|Hx]%elem_of_insert_set.
    + destruct (seq_lt t s) eqn:E'; [done|]. by destruct Hst, (seq_lt_total s t).
    + rewrite Forall_forall in Ht. by apply Ht.
Qed.

Lemma ascending_sorted_set l : ascending (sorted_set l).
Proof. induction l as [|s l IH]; [constructor|]. by apply ascending_insert_set. Qed.

Lemma ascending_NoDup l : ascending l -> NoDup l.
Proof.
  induction 1 as [|s l Hl IH Hs]; constructor; [|done]. intros Hin.
  rewrite Forall_forall in Hs. apply Hs in Hin. by rewrite seq_lt_irrefl in Hin.
Qed.

(** An ascending list is the canonical form of the set of its members. *)
Lemma ascending_ext l1 l2 : ascending l1 -> ascending l2 -> (forall s, s ∈ l1 <-> s ∈ l2) -> l1 = l2.
Proof.
  intros H1 H2 Hm. apply (StronglySorted_unique_strong (fun s t => seq_lt s t = true)); [|done|done|].
  - intros s t _ _ Hst Hts. by rewrite (seq_lt_asym _ _ Hst) in Hts.
  - apply NoDup_Permutation; [by apply ascending_NoDup..|done].
Qed.

Lemma sorted_set_ext l1 l2 : (forall s, s ∈ l1 <-> s ∈ l2) -> sorted_set l1 = sorted_set l2.
Proof.
  intros Hm. apply ascending_ext; [apply ascending_sorted_set..|]. intros s. by rewrite !elem_of_sorted_set.
Qed.

Lemma sorted_set_idem l : sorted_set (sorted_set l) = sorted_set l.
Proof. apply sorted_set_ext. intros s. apply elem_of_sorted_set. Qed.

(** ** Signing and verifying *)

(** What is signed: the sets sorted, nothing else changed. *)
Definition normalised (a : CapabilityAdvertisement.t) : CapabilityAdvertisement.t :=
  CapabilityAdvertisement.mk (protocol_version a) (message_id a) (node_id a) (organization_id a)
    (sequence a) (issued_at a) (expires_at a) (available a) (compute_capacity a) (current_load a)
    (sorted_set (models a)) (sorted_set (memory_domains a)) (sorted_set (supported_scopes a))
    (lit "Ed25519") [].

Lemma sorted_set_nil l : sorted_set l = [] <-> l = [].
Proof.
  split; [|by intros ->]. destruct l as [|s l]; [done|]. intros E.
  assert (s ∈ sorted_set (s :: l)) as Hin by (apply elem_of_sorted_set; by left).
  rewrite E in Hin. by apply not_elem_of_nil in Hin.
Qed.

Lemma Forall_sorted_set (P : pystr -> Prop) l : Forall P (sorted_set l) <-> Forall P l.
Proof. rewrite !Forall_forall. by setoid_rewrite elem_of_sorted_set. Qed.

Lemma valid_signed now a v :
  signature_algorithm a = lit "Ed25519" -> valid now (set_signature v (normalised a)) <-> valid now a.
Proof.
  intros Ha. split; intros []; split; try done; cbn in *.
  - by rewrite sorted_set_nil, Forall_sorted_set in *.
  - by rewrite sorted_set_nil, Forall_sorted_set.
Qed.

(** The window is all that depends on the time. *)
Lemma valid_at now a :
  valid now a <-> valid None a /\ forall t, now = Some t -> (issued_at a <= t <= expires_at a)%Z.
Proof. split; [intros []; split; [by split|done]|by intros [[] ?]]. Qed.

(** The same advertisement with its sets listed in another way. *)
Record relisted (a a' : CapabilityAdvertisement.t) : Prop := {
  rl_same : a' = CapabilityAdvertisement.mk (protocol_version a) (message_id a) (node_id a)
      (organization_id a) (sequence a) (issued_at a) (expires_at a) (available a)
      (compute_capacity a) (current_load a) (models a') (memory_domains a') (supported_scopes a')
      (signature_algorithm a) (signature a');
  rl_models s : s ∈ models a' <-> s ∈ models a;
  rl_domains s : s ∈ memory_domains a' <-> s ∈ memory_domains a;
  rl_scopes s : s ∈ supported_scopes a' <-> s ∈ supported_scopes a;
}.

Lemma normalised_relisted a a' : relisted a a' -> normalised a' = normalised a.
Proof.
  intros [Ha Hm Hd Hs]. destruct a, a'. cbn in *. injection Ha as -> -> -> -> -> -> -> -> -> -> ->.
  unfold normalised. cbn -[sorted_set].
  by rewrite (sorted_set_ext _ _ Hm), (sorted_set_ext _ _ Hd), (sorted_set_ext _ _ Hs).
Qed.

Lemma valid_relisted now a a' : relisted a a' -> valid now a -> valid now a'.
Proof.
  intros Hr Hv. apply (valid_signed now a' []); [rewrite (rl_same _ _ Hr); apply Hv|].
  rewrite (normalised_relisted a a') by done. by apply valid_signed; [apply Hv|].
Qed.

Section laws.
Context {E : Ed25519} {L : Ed25519Laws}.

(** An advertisement the node of the key made, as it is. *)
Definition authentic (key : Ed25519PublicKey) (now : option Z) (a : CapabilityAdvertisement.t) : Prop :=
  valid now a /\ signature a <> [] /\ exists sg, _unb64 (signature a) = Ok sg
  /\ verify key sg (canonical_json (unsigned_payload a)) = Ok tt.

Lemma verify_capability_true a key now :
  verify_capability_advertisement a key now = Ok true <-> authentic key now a.
Proof.
  unfold verify_capability_advertisement, authentic. rewrite false_if_rejected_true, presult_bind_iff.
  split.
  - intros (u & Hv%validate_ok & Hk). split; [done|]. destruct (negb (truthy (signature a))) eqn:Et; [done|].
    apply truthy_false in Et. split; [done|].
    apply presult_bind_iff in Hk as (sg & Hsg & ([] & Hver & _)%presult_bind_iff). eauto.
  - intros (Hv & Hs & sg & Hsg & Hver). exists tt. split; [by apply validate_ok|].
    rewrite (proj2 (truthy_false (signature a)) Hs), Hsg. cbn [mbind presult_bind]. by rewrite Hver.
Qed.

Lemma tame_validate a now : tame (validate a now).
Proof. destruct (validate a now) eqn:Ev; [done|]. by apply validate_raises in Ev as (what & ->). Qed.

Lemma verify_capability_returns a key now :
  exists b, verify_capability_advertisement a key now = Ok b.
Proof.
  unfold verify_capability_advertisement.
  match goal with |- context [false_if_rejected ?r] => assert (tame r) as Ht end.
  { apply tame_bind; [apply tame_validate|]. intros []. destruct (negb _); [done|].
    apply tame_bind; [apply tame_unb64|]. intros raw. apply tame_bind; [apply tame_verify|done]. }
  unfold false_if_rejected. destruct (validate a now;; _) as [b|e]; [eauto|]. cbn in Ht. rewrite Ht. eauto.
Qed.

Lemma sign_capability_spec a k :
  sign_capability_advertisement a k
  = match validate a None with
    | Ok _ => Ok (set_signature (_b64 (sign k (canonical_json (unsigned_payload (normalised a)))))
                    (normalised a))
    | Raise e => Raise e
    end.
Proof. unfold sign_capability_advertisement. by destruct (validate a None). Qed.

Lemma truthy_b64 d : length d = 64 -> _b64 d <> [].
Proof.
  intros Hd C. pose proof (_unb64_b64 d) as Ed. rewrite C in Ed.
  change (Ok (A := bytes) [] = Ok d) in Ed. injection Ed as <-. done.
Qed.

Lemma signed_authentic a k now :
  valid None a ->
  let s := set_signature (_b64 (sign k (canonical_json (unsigned_payload (normalised a))))) (normalised a) in
  authentic (public_key k) now s <-> forall t, now = Some t -> (issued_at a <= t <= expires_at a)%Z.
Proof.
  intros Hv. cbv zeta. unfold authentic. rewrite valid_signed by apply Hv. rewrite valid_at. split.
  - by intros ((_ & H) & _).
  - intros Hn. split_and!; [done|done|apply truthy_b64, sign_length|].
    eexists. split; [apply _unb64_b64|apply verify_sign].
Qed.

(** C33: Advertisements are authentic.  [verify_capability_advertisement] never
    raises: its verdict is true exactly for an advertisement that is valid at
    the time and whose text the key signed.  [sign_capability_advertisement]
    raises the error of [validate], or returns the advertisement with its sets
    sorted, its other members unchanged and a signature; that one verifies
    under the public key at exactly the times of its validity window, and
    depends on the sets only, not on how they were listed. *)
Theorem advertisements_are_authentic (a : CapabilityAdvertisement.t) (k : Ed25519PrivateKey) :
  (forall key now, exists b, verify_capability_advertisement a key now = Ok b
     /\ (b = true <-> authentic key now a))
  /\ match sign_capability_advertisement a k with
     | Ok s => valid None a /\ s = set_signature (signature s) (normalised a)
         /\ (forall t, verify_capability_advertisement s (public_key k) (Some t) = Ok true
               <-> (issued_at a <= t <= expires_at a)%Z)
         /\ (forall a', relisted a a' -> sign_capability_advertisement a' k = Ok s)
     | Raise e => validate a None = Raise e /\ exists what, e = ValueError what
     end.
Proof.
  split.
  - intros key now. destruct (verify_capability_returns a key now) as (b & Hb). exists b.
    split; [done|]. rewrite <-verify_capability_true, Hb. split; congruence.
  - rewrite sign_capability_spec. destruct (validate a None) as [u|e] eqn:Ev.
    + apply validate_ok in Ev. split_and!; [done|done| |].
      * intros t. rewrite verify_capability_true, signed_authentic by done. split; [by auto|].
        by intros Ht ? [= <-].
      * intros a' Hr. rewrite sign_capability_spec, (normalised_relisted a a') by done.
        by rewrite (proj2 (validate_ok a' None tt)) by by eapply valid_relisted.
    + split; [done|]. by eapply validate_raises.
Qed.
End laws.

(** ** What the signature binds *)

Definition texts (a : CapabilityAdvertisement.t) : list pystr :=
  protocol_version a :: message_id a :: node_id a :: signature_algorithm a
  :: option_list (organization_id a) ++ models a ++ memory_domains a ++ supported_scopes a.

(** Members [json] writes and reads back: texts without surrogates, integers
    that are not huge, binary64 numbers. *)
Record encodable (a : CapabilityAdvertisement.t) : Prop := {
  en_texts : Forall (Forall scalar) (texts a);
  en_integers : Forall (fun z => length (digits_of 10 (Z.abs z)) <= int_max_str_digits)
                  [sequence a; issued_at a; expires_at a];
  en_floats : Forall (fun x => valid_binary 53 1024 x = true) [compute_capacity a; current_load a];
}.

Lemma writable_organization (o : option pystr) :
  Forall (Forall scalar) (option_list o) -> writable (match o with Some s => PStr s | None => PNone end).
Proof. destruct o; [|by constructor]. cbn. rewrite Forall_singleton. by constructor. Qed.

Lemma writable_payload a : encodable a -> writable (unsigned_payload a).
Proof.
  intros [Ht Hz Hf]. unfold texts in Ht. rewrite !Forall_cons, !Forall_app in Ht.
  destruct Ht as (? & ? & ? & ? & Ho & ? & ? & ?).
  rewrite !Forall_cons in Hz. rewrite !Forall_cons in Hf. destruct Hz as (? & ? & ? & _), Hf as (? & ? & _).
  constructor.
  - apply (bool_decide_unpack _). vm_compute. exact I.
  - repeat (constructor; [apply ascii_text_scalar; repeat constructor|]). constructor.
  - repeat (constructor; [first [by constructor | by apply writable_strings
      | by apply writable_organization]|]). constructor.
Qed.

Definition organization_json (o : option pystr) : json :=
  match o with Some s => JStr s | None => JNull end.

Lemma advertisement_members a1 a2 :
  json_of (sort_obj (unsigned_payload a1)) = json_of (sort_obj (unsigned_payload a2)) ->
  a2 = set_signature (signature a2) a1.
Proof.
  assert (forall s1 s2 s3 o z1 z2 z3 b x1 x2 l1 l2 l3 s4 s5, json_of (sort_obj (unsigned_payload
    (CapabilityAdvertisement.mk s1 s2 s3 o z1 z2 z3 b x1 x2 l1 l2 l3 s4 s5)))
    = JObj [(lit "available", JBool b); (lit "compute_capacity", JFloat x1);
            (lit "current_load", JFloat x2); (lit "expires_at", JInt z3); (lit "issued_at", JInt z2);
            (lit "memory_domains", JArr (map json_of (map sort_obj (map PStr l2))));
            (lit "message_id", JStr s2);
            (lit "models", JArr (map json_of (map sort_obj (map PStr l1)))); (lit "node_id", JStr s3);
            (lit "organization_id", organization_json o);
            (lit "protocol_version", JStr s1); (lit "sequence", JInt z1);
            (lit "signature_algorithm", JStr s4);
            (lit "supported_scopes", JArr (map json_of (map sort_obj (map PStr l3))))]) as Hj
    by (intros ? ? ? [] **; vm_compute; reflexivity).
  destruct a1, a2. rewrite !Hj. intros E.
  injection E as -> -> -> -> -> El2 -> El1 -> Eo -> -> -> El3.
  apply strings_inj in El1 as ->, El2 as ->, El3 as ->. unfold set_signature. cbn.
  f_equal; destruct organization_id0, organization_id1; by inversion Eo.
Qed.

(** Two advertisements with the same signed text agree on every member but the
    signature: one that was changed after it was signed has another text. *)
Theorem signed_text_binds_the_advertisement (a1 a2 : CapabilityAdvertisement.t)
    (H1 : encodable a1) (H2 : encodable a2) :
  canonical_json (unsigned_payload a1) = canonical_json (unsigned_payload a2)
  <-> a2 = set_signature (signature a2) a1.
Proof.
  split; [|by intros ->]. intros E%dumps_inj; [|by apply writable_payload..]. by apply advertisement_members.
Qed.
