(* ===== verification/JobAuth.v ===== *)
(** * Signed messages (cpp/include/ma2a/job_auth.hpp and the signing part of
    cpp/include/ma2a/failure_notice.hpp)

    A function that updates its argument through a reference returns the
    updated message. *)
From S2P Require Import Prelude Contracts Canonical Wire CanonicalBinding Crypto CryptoSpec.

Section job_auth.
Context {W : Type} `{O : OpenSSL W}.

Definition sign_job_request (request : JobRequest.t) (private_key : option EVP_PKEY)
    : M W JobRequest.t :=
  if decide (private_key = None) then throw (invalid_argument "private key is required") else
  let request := JobRequest.set_signature_algorithm (str "Ed25519") request in
  let request := JobRequest.set_signature [] request in
  signature ← ed25519_sign private_key (canonical_job_request_json request);
  text ← lift (base64url_encode signature);
  mret (JobRequest.set_signature text request).

Definition sign_job_result (result : JobResult.t) (private_key : option EVP_PKEY)
    : M W JobResult.t :=
  if decide (private_key = None) then throw (invalid_argument "private key is required") else
  let result := JobResult.set_signature_algorithm (str "Ed25519") result in
  let result := JobResult.set_signature [] result in
  signature ← ed25519_sign private_key (canonical_job_result_json result);
  text ← lift (base64url_encode signature);
  mret (JobResult.set_signature text result).

Definition verify_job_result (result : JobResult.t) (public_key : option EVP_PKEY) : M W bool :=
  if decide (public_key = None \/ JobResult.signature_algorithm result <> str "Ed25519"
             \/ JobResult.signature result = [])
  then mret false else
  try_catch_all
    (signature ← lift (base64url_decode (JobResult.signature result));
     ed25519_verify public_key (canonical_job_result_json result) signature)
    (mret false).

Definition sign_failure_notice (notice : FailureNotice.t) (private_key : option EVP_PKEY)
    : M W FailureNotice.t :=
  let notice := FailureNotice.set_signature_algorithm (str "Ed25519") notice in
  signature ← ed25519_sign private_key (canonical_failure_notice_json notice);
  text ← lift (base64url_encode signature);
  mret (FailureNotice.set_signature text notice).

Definition verify_failure_notice (notice : FailureNotice.t) (public_key : option EVP_PKEY)
    : M W bool :=
  if decide (FailureNotice.signature_algorithm notice <> str "Ed25519"
             \/ FailureNotice.signature notice = [])
  then mret false else
  try_catch_all
    (signature ← lift (base64url_decode (FailureNotice.signature notice));
     ed25519_verify public_key (canonical_failure_notice_json notice) signature)
    (mret false).
End job_auth.

(** ** Signing and verifying *)

Section job_auth_facts.
Context {W : Type} {O : OpenSSL W} {OS : OpenSSLSpec W}.

Lemma encodable_signature k m : encodable (ed25519_signature k m).
Proof. unfold encodable. rewrite length_base64, ed25519_signature_length. done. Qed.

(** The text of a signature. *)
Definition signature_text (k : EVP_PKEY) (m : bytes) : bytes :=
  to_url (base64 (ed25519_signature k m)).

Lemma signature_text_nonnil k m : signature_text k m <> [].
Proof.
  intros E. apply (f_equal length) in E. unfold signature_text, to_url, replace_char in E.
  rewrite !length_map, length_base64, ed25519_signature_length in E. done.
Qed.

Lemma decode_signature_text k m : base64url_decode (signature_text k m) = Ret (ed25519_signature k m).
Proof. apply base64url_decode_spec, encodable_signature. Qed.

(** The message after signing. *)
Definition signed_request (k : EVP_PKEY) (q : JobRequest.t) : JobRequest.t :=
  let q := JobRequest.set_signature [] (JobRequest.set_signature_algorithm (str "Ed25519") q) in
  JobRequest.set_signature (signature_text k (canonical_job_request_json q)) q.
Definition signed_result (k : EVP_PKEY) (r : JobResult.t) : JobResult.t :=
  let r := JobResult.set_signature [] (JobResult.set_signature_algorithm (str "Ed25519") r) in
  JobResult.set_signature (signature_text k (canonical_job_result_json r)) r.
Definition signed_notice (k : EVP_PKEY) (n : FailureNotice.t) : FailureNotice.t :=
  let n := FailureNotice.set_signature_algorithm (str "Ed25519") n in
  FailureNotice.set_signature (signature_text k (canonical_failure_notice_json n)) n.

(** What a signing function returns, it signed. *)
Lemma sign_text_inv key m w w' (text : bytes) :
  (signature ← ed25519_sign key m; lift (base64url_encode signature)) w = (Ret text, w') ->
  exists k, key = Some k /\ text = signature_text k m.
Proof.
  intros (sg & w1 & E & Hk)%run_bind_inv. apply ed25519_sign_sound in E as (k & -> & ->).
  exists k. split; [done|]. injection Hk as Hk _.
  rewrite base64url_encode_spec in Hk by apply encodable_signature. by injection Hk as <-.
Qed.

Lemma sign_job_request_sound q key w q' w' :
  sign_job_request q key w = (Ret q', w') ->
  exists k, key = Some k /\ q' = signed_request k q.
Proof.
  unfold sign_job_request. case_decide; [done|]. intros (sg & w1 & E & Hk)%run_bind_inv.
  apply run_bind_inv in Hk as (text & w2 & Ht & Hk). injection Hk as <- <-.
  destruct (sign_text_inv key _ w w2 text ltac:(erewrite run_bind; eauto)) as (k & -> & ->).
  by exists k.
Qed.

Lemma sign_job_result_sound r key w r' w' :
  sign_job_result r key w = (Ret r', w') ->
  exists k, key = Some k /\ r' = signed_result k r.
Proof.
  unfold sign_job_result. case_decide; [done|]. intros (sg & w1 & E & Hk)%run_bind_inv.
  apply run_bind_inv in Hk as (text & w2 & Ht & Hk). injection Hk as <- <-.
  destruct (sign_text_inv key _ w w2 text ltac:(erewrite run_bind; eauto)) as (k & -> & ->).
  by exists k.
Qed.

Lemma sign_failure_notice_sound n key w n' w' :
  sign_failure_notice n key w = (Ret n', w') ->
  exists k, key = Some k /\ n' = signed_notice k n.
Proof.
  unfold sign_failure_notice. intros (sg & w1 & E & Hk)%run_bind_inv.
  apply run_bind_inv in Hk as (text & w2 & Ht & Hk). injection Hk as <- <-.
  destruct (sign_text_inv key _ w w2 text ltac:(erewrite run_bind; eauto)) as (k & -> & ->).
  by exists k.
Qed.

(** A [true] from a verifier is a valid signature over the canonical text. *)
Definition result_authentic (r : JobResult.t) (key : option EVP_PKEY) : Prop :=
  exists k sg, key = Some k /\ JobResult.signature_algorithm r = str "Ed25519"
    /\ base64url_decode (JobResult.signature r) = Ret sg
    /\ ed25519_valid k (canonical_job_result_json r) sg = true.
Definition notice_authentic (n : FailureNotice.t) (key : option EVP_PKEY) : Prop :=
  exists k sg, key = Some k /\ FailureNotice.signature_algorithm n = str "Ed25519"
    /\ base64url_decode (FailureNotice.signature n) = Ret sg
    /\ ed25519_valid k (canonical_failure_notice_json n) sg = true.

Lemma try_false_true (m : M W bool) w w' :
  try_catch_all m (mret false) w = (Ret true, w') -> m w = (Ret true, w').
Proof. unfold try_catch_all. by destruct (m w) as [[[]| | |] ?]. Qed.

Lemma verify_job_result_sound r key w w' :
  verify_job_result r key w = (Ret true, w') ->
  JobResult.signature r <> [] /\ result_authentic r key.
Proof.
  unfold verify_job_result. case_decide as Hd; [done|]. intros E%try_false_true.
  apply run_bind_inv in E as (sg & w1 & Hsg & E). injection Hsg as Hsg <-.
  apply ed25519_verify_sound in E as (k & -> & Hv).
  split; [tauto|]. exists k, sg. split_and!; try done.
  destruct (decide (JobResult.signature_algorithm r = str "Ed25519")); tauto.
Qed.

Lemma verify_failure_notice_sound n key w w' :
  verify_failure_notice n key w = (Ret true, w') ->
  FailureNotice.signature n <> [] /\ notice_authentic n key.
Proof.
  unfold verify_failure_notice. case_decide as Hd; [done|]. intros E%try_false_true.
  apply run_bind_inv in E as (sg & w1 & Hsg & E). injection Hsg as Hsg <-.
  apply ed25519_verify_sound in E as (k & -> & Hv).
  split; [tauto|]. exists k, sg. split_and!; try done.
  destruct (decide (FailureNotice.signature_algorithm n = str "Ed25519")); tauto.
Qed.

(** A verifier returns a truth value, whatever it is given. *)
Lemma try_false_returns (m : M W bool) w :
  defined (fst (m w)) -> exists b w', try_catch_all m (mret false) w = (Ret b, w').
Proof. unfold try_catch_all. destruct (m w) as [[] ?]; intros []; by eexists _, _. Qed.

Lemma verify_text_defined key m s w :
  (Z.of_nat (length s) <= INT_MAX)%Z ->
  defined (fst ((signature ← lift (base64url_decode s); ed25519_verify key m signature) w)).
Proof.
  intros Hs. apply base64url_decode_defined in Hs. unfold mbind, M_bind, lift.
  destruct (base64url_decode s); try done. apply ed25519_verify_defined.
Qed.
End job_auth_facts.

(** ** Properties *)

Section job_auth_properties.
Context {W : Type} {O : OpenSSL W} {OS : OpenSSLSpec W}.

(** C14: The verifiers are total and sound, whatever the world does.  For any
    message with a signature text below 2 GiB, any key and any behaviour of
    the OpenSSL calls, both verifiers return a truth value (they never throw
    and never reach undefined behaviour), and [true] means that the key is
    not null, the algorithm is Ed25519 and the decoded signature is valid
    over the canonical text of the message. *)
Theorem verification_total_and_sound (key : option EVP_PKEY) (r : JobResult.t)
    (n : FailureNotice.t) (w : W)
    (Hr : (Z.of_nat (length (JobResult.signature r)) <= INT_MAX)%Z)
    (Hn : (Z.of_nat (length (FailureNotice.signature n)) <= INT_MAX)%Z) :
  (exists b w', verify_job_result r key w = (Ret b, w') /\ (b = true -> result_authentic r key))
  /\ (exists b w', verify_failure_notice n key w = (Ret b, w')
                   /\ (b = true -> notice_authentic n key)).
Proof.
  split.
  - destruct (decide (key = None \/ JobResult.signature_algorithm r <> str "Ed25519"
                      \/ JobResult.signature r = [])) as [Hd|Hd].
    { exists false, w. unfold verify_job_result. by rewrite decide_True. }
    destruct (try_false_returns _ w
                (verify_text_defined key (canonical_job_result_json r) _ w Hr)) as (b & w' & E).
    exists b, w'. assert (verify_job_result r key w = (Ret b, w')) as Hv
      by (unfold verify_job_result; by rewrite decide_False).
    split; [done|]. intros ->. by apply verify_job_result_sound in Hv as [_ ?].
  - destruct (decide (FailureNotice.signature_algorithm n <> str "Ed25519"
                      \/ FailureNotice.signature n = [])) as [Hd|Hd].
    { exists false, w. unfold verify_failure_notice. by rewrite decide_True. }
    destruct (try_false_returns _ w
                (verify_text_defined key (canonical_failure_notice_json n) _ w Hn)) as (b & w' & E).
    exists b, w'. assert (verify_failure_notice n key w = (Ret b, w')) as Hv
      by (unfold verify_failure_notice; by rewrite decide_False).
    split; [done|]. intros ->. by apply verify_failure_notice_sound in Hv as [_ ?].
Qed.

Context {OA : OpenSSLAvailable W}.

(** The signers return when OpenSSL has the resources. *)
Lemma sign_text_returns k m w :
  exists w', ed25519_sign (Some k) m w = (Ret (ed25519_signature k m), w')
             /\ base64url_encode (ed25519_signature k m) = Ret (signature_text k m).
Proof.
  destruct (ed25519_sign_returns k m w) as (w' & E). exists w'. split; [done|].
  by rewrite base64url_encode_spec by apply encodable_signature.
Qed.

Lemma sign_job_request_returns q k w :
  exists w', sign_job_request q (Some k) w = (Ret (signed_request k q), w').
Proof.
  unfold sign_job_request. rewrite decide_False by done.
  destruct (sign_text_returns k (canonical_job_request_json (JobRequest.set_signature []
    (JobRequest.set_signature_algorithm (str "Ed25519") q))) w) as (w' & E & Ht).
  exists w'. erewrite run_bind by exact E. erewrite run_bind by (unfold lift; by rewrite Ht). done.
Qed.

Lemma sign_job_result_returns r k w :
  exists w', sign_job_result r (Some k) w = (Ret (signed_result k r), w').
Proof.
  unfold sign_job_result. rewrite decide_False by done.
  destruct (sign_text_returns k (canonical_job_result_json (JobResult.set_signature []
    (JobResult.set_signature_algorithm (str "Ed25519") r))) w) as (w' & E & Ht).
  exists w'. erewrite run_bind by exact E. erewrite run_bind by (unfold lift; by rewrite Ht). done.
Qed.

Lemma sign_failure_notice_returns n k w :
  exists w', sign_failure_notice n (Some k) w = (Ret (signed_notice k n), w').
Proof.
  unfold sign_failure_notice.
  destruct (sign_text_returns k (canonical_failure_notice_json
    (FailureNotice.set_signature_algorithm (str "Ed25519") n)) w) as (w' & E & Ht).
  exists w'. erewrite run_bind by exact E. erewrite run_bind by (unfold lift; by rewrite Ht). done.
Qed.

Lemma verify_signed_result r k w :
  exists w', verify_job_result (signed_result k r) (Some (public_key_of k)) w = (Ret true, w').
Proof.
  unfold verify_job_result. rewrite decide_False
    by (intros [|[|E]]; [done|done|by apply signature_text_nonnil in E]).
  destruct (ed25519_verify_returns (public_key_of k)
    (canonical_job_result_json (signed_result k r))
    (ed25519_signature k (canonical_job_result_json (signed_result k r))) w) as (w' & E).
  exists w'. rewrite ed25519_correct in E. unfold try_catch_all.
  erewrite run_bind; [by rewrite E|]. unfold lift. cbn. by rewrite decode_signature_text.
Qed.

Lemma verify_signed_notice n k w :
  exists w', verify_failure_notice (signed_notice k n) (Some (public_key_of k)) w = (Ret true, w').
Proof.
  unfold verify_failure_notice. rewrite decide_False
    by (intros [|E]; [done|by apply signature_text_nonnil in E]).
  destruct (ed25519_verify_returns (public_key_of k)
    (canonical_failure_notice_json (signed_notice k n))
    (ed25519_signature k (canonical_failure_notice_json (signed_notice k n))) w) as (w' & E).
  exists w'. rewrite ed25519_correct in E. unfold try_catch_all.
  erewrite run_bind; [by rewrite E|]. unfold lift. cbn. by rewrite decode_signature_text.
Qed.

(** Signing and verifying fit together.  When OpenSSL has the resources,
    signing any result (or notice) with a key returns it with the algorithm
    and signature set and every other member unchanged, and verifying that
    message with the public half of the key returns [true], in any later
    world. *)
Theorem sign_verify_round_trip (k : EVP_PKEY) (r : JobResult.t) (n : FailureNotice.t) (w1 w2 : W) :
  (exists r' w1' w2', sign_job_result r (Some k) w1 = (Ret r', w1')
     /\ JobResult.set_signature [] r'
        = JobResult.set_signature [] (JobResult.set_signature_algorithm (str "Ed25519") r)
     /\ verify_job_result r' (Some (public_key_of k)) w2 = (Ret true, w2'))
  /\ (exists n' w1' w2', sign_failure_notice n (Some k) w1 = (Ret n', w1')
     /\ FailureNotice.set_signature [] n'
        = FailureNotice.set_signature [] (FailureNotice.set_signature_algorithm (str "Ed25519") n)
     /\ verify_failure_notice n' (Some (public_key_of k)) w2 = (Ret true, w2')).
Proof.
  split.
  - destruct (sign_job_result_returns r k w1) as (w1' & E1).
    destruct (verify_signed_result r k w2) as (w2' & E2). by eexists _, _, _.
  - destruct (sign_failure_notice_returns n k w1) as (w1' & E1).
    destruct (verify_signed_notice n k w2) as (w2' & E2). by eexists _, _, _.
Qed.
End job_auth_properties.
