(* ===== verification/Interop.v ===== *)
(** * The C++ and the Python peer agree

    Python's messages against the C++ ones they become on the other side, with
    every text encoded in UTF-8 and an absent organization as the empty
    string: the signed texts, the validators and the reference executor. *)
From S2P Require Import Prelude Contracts Canonical Reader JsonRoundTrip Unicode Wire Job PyText PyJson PyJob.

(** ** Messages on the other side *)

Definition cpp_request (r : job.JobRequest.t) : JobRequest.t := {|
  JobRequest.protocol_version := utf8_text (job.JobRequest.protocol_version r);
  JobRequest.message_id := utf8_text (job.JobRequest.message_id r);
  JobRequest.request_id := utf8_text (job.JobRequest.request_id r);
  JobRequest.sender_node_id := utf8_text (job.JobRequest.sender_node_id r);
  JobRequest.target_node_id := utf8_text (job.JobRequest.target_node_id r);
  JobRequest.organization_id :=
    match job.JobRequest.organization_id r with Some s => utf8_text s | None => [] end;
  JobRequest.operation := utf8_text (job.JobRequest.operation r);
  JobRequest.payload := utf8_text (job.JobRequest.payload r);
  JobRequest.issued_at := job.JobRequest.issued_at r;
  JobRequest.expires_at := job.JobRequest.expires_at r;
  JobRequest.signature_algorithm := utf8_text (job.JobRequest.signature_algorithm r);
  JobRequest.signature := utf8_text (job.JobRequest.signature r) |}.

Definition cpp_result (r : job.JobResult.t) : JobResult.t := {|
  JobResult.protocol_version := utf8_text (job.JobResult.protocol_version r);
  JobResult.message_id := utf8_text (job.JobResult.message_id r);
  JobResult.request_id := utf8_text (job.JobResult.request_id r);
  JobResult.responder_node_id := utf8_text (job.JobResult.responder_node_id r);
  JobResult.recipient_node_id := utf8_text (job.JobResult.recipient_node_id r);
  JobResult.status := utf8_text (job.JobResult.status r);
  JobResult.payload := utf8_text (job.JobResult.payload r);
  JobResult.completed_at := job.JobResult.completed_at r;
  JobResult.signature_algorithm := utf8_text (job.JobResult.signature_algorithm r);
  JobResult.signature := utf8_text (job.JobResult.signature r) |}.

Definition cpp_notice (n : capability.FailureNotice.t) : FailureNotice.t := {|
  FailureNotice.protocol_version := utf8_text (capability.FailureNotice.protocol_version n);
  FailureNotice.message_id := utf8_text (capability.FailureNotice.message_id n);
  FailureNotice.request_id := utf8_text (capability.FailureNotice.request_id n);
  FailureNotice.reporting_node_id := utf8_text (capability.FailureNotice.reporting_node_id n);
  FailureNotice.failed_node_id := utf8_text (capability.FailureNotice.failed_node_id n);
  FailureNotice.reason := utf8_text (capability.FailureNotice.reason n);
  FailureNotice.observed_at := capability.FailureNotice.observed_at n;
  FailureNotice.signature_algorithm := utf8_text (capability.FailureNotice.signature_algorithm n);
  FailureNotice.signature := utf8_text (capability.FailureNotice.signature n) |}.

(** The texts of a message that are signed. *)
Definition request_texts (r : job.JobRequest.t) : list pystr :=
  [job.JobRequest.message_id r; job.JobRequest.operation r;
   match job.JobRequest.organization_id r with Some s => s | None => [] end;
   job.JobRequest.payload r; job.JobRequest.protocol_version r; job.JobRequest.request_id r;
   job.JobRequest.sender_node_id r; job.JobRequest.signature_algorithm r;
   job.JobRequest.target_node_id r].
Definition result_texts (r : job.JobResult.t) : list pystr :=
  [job.JobResult.message_id r; job.JobResult.payload r; job.JobResult.protocol_version r;
   job.JobResult.recipient_node_id r; job.JobResult.request_id r;
   job.JobResult.responder_node_id r; job.JobResult.signature_algorithm r; job.JobResult.status r].
Definition notice_texts (n : capability.FailureNotice.t) : list pystr :=
  [capability.FailureNotice.failed_node_id n; capability.FailureNotice.message_id n;
   capability.FailureNotice.protocol_version n; capability.FailureNotice.reason n;
   capability.FailureNotice.reporting_node_id n; capability.FailureNotice.request_id n;
   capability.FailureNotice.signature_algorithm n].

(** Texts without surrogates, and texts of characters below DEL. *)
Definition valid_texts : list pystr -> Prop := Forall (Forall scalar).
Definition plain_texts : list pystr -> Prop := Forall (Forall (fun cp => cp < 0x7f)%Z).

(** ** The signed texts *)

(** The dict of the members of a message, sorted and joined, for any texts of
    their values. *)
Definition members_text (items : list (pystr * bytes)) : bytes :=
  str "{" ++ join x2c (map dump_item (sort_items items)) ++ str "}".

Fixpoint join_onto (texts : list bytes) (t : bytes) : bytes :=
  match texts with
  | [] => t
  | [u] => u ++ t
  | u :: texts => u ++ str "," ++ join_onto texts t
  end.

Lemma join_onto_spec texts t : join x2c texts ++ t = join_onto texts t.
Proof.
  induction texts as [|u texts IH]; [done|]. destruct texts; [done|].
  cbn [join join_onto] in *. by rewrite <-app_assoc, <-IH.
Qed.

Lemma request_members x1 x2 x3 x4 x5 x6 x7 x8 x9 x10 x11 :
  members_text [(lit "protocol_version", x1);
    (lit "message_id", x2);
    (lit "request_id", x3);
    (lit "sender_node_id", x4);
    (lit "target_node_id", x5);
    (lit "organization_id", x6);
    (lit "operation", x7);
    (lit "payload", x8);
    (lit "issued_at", x9);
    (lit "expires_at", x10);
    (lit "signature_algorithm", x11)]
  = str "{"
    ++ lit_key "expires_at" ++ x10 ++ str ","
    ++ lit_key "issued_at" ++ x9 ++ str ","
    ++ lit_key "message_id" ++ x2 ++ str ","
    ++ lit_key "operation" ++ x7 ++ str ","
    ++ lit_key "organization_id" ++ x6 ++ str ","
    ++ lit_key "payload" ++ x8 ++ str ","
    ++ lit_key "protocol_version" ++ x1 ++ str ","
    ++ lit_key "request_id" ++ x3 ++ str ","
    ++ lit_key "sender_node_id" ++ x4 ++ str ","
    ++ lit_key "signature_algorithm" ++ x11 ++ str ","
    ++ lit_key "target_node_id" ++ x5 ++ str "}".
Proof. unfold members_text. rewrite join_onto_spec. vm_compute. reflexivity. Qed.

Lemma result_members x1 x2 x3 x4 x5 x6 x7 x8 x9 :
  members_text [(lit "protocol_version", x1);
    (lit "message_id", x2);
    (lit "request_id", x3);
    (lit "responder_node_id", x4);
    (lit "recipient_node_id", x5);
    (lit "status", x6);
    (lit "payload", x7);
    (lit "completed_at", x8);
    (lit "signature_algorithm", x9)]
  = str "{"
    ++ lit_key "completed_at" ++ x8 ++ str ","
    ++ lit_key "message_id" ++ x2 ++ str ","
    ++ lit_key "payload" ++ x7 ++ str ","
    ++ lit_key "protocol_version" ++ x1 ++ str ","
    ++ lit_key "recipient_node_id" ++ x5 ++ str ","
    ++ lit_key "request_id" ++ x3 ++ str ","
    ++ lit_key "responder_node_id" ++ x4 ++ str ","
    ++ lit_key "signature_algorithm" ++ x9 ++ str ","
    ++ lit_key "status" ++ x6 ++ str "}".
Proof. unfold members_text. rewrite join_onto_spec. vm_compute. reflexivity. Qed.

Lemma notice_members x1 x2 x3 x4 x5 x6 x7 x8 :
  members_text [(lit "protocol_version", x1);
    (lit "message_id", x2);
    (lit "request_id", x3);
    (lit "reporting_node_id", x4);
    (lit "failed_node_id", x5);
    (lit "reason", x6);
    (lit "observed_at", x7);
    (lit "signature_algorithm", x8)]
  = str "{"
    ++ lit_key "failed_node_id" ++ x5 ++ str ","
    ++ lit_key "message_id" ++ x2 ++ str ","
    ++ lit_key "observed_at" ++ x7 ++ str ","
    ++ lit_key "protocol_version" ++ x1 ++ str ","
    ++ lit_key "reason" ++ x6 ++ str ","
    ++ lit_key "reporting_node_id" ++ x4 ++ str ","
    ++ lit_key "request_id" ++ x3 ++ str ","
    ++ lit_key "signature_algorithm" ++ x8 ++ str "}".
Proof. unfold members_text. rewrite join_onto_spec. vm_compute. reflexivity. Qed.

(** What Python signs, member by member. *)
Lemma py_request_text r :
  canonical_json (job.JobRequest.unsigned_payload r)
  = str "{"
    ++ lit_key "expires_at" ++ ostream_dec (job.JobRequest.expires_at r) ++ str ","
    ++ lit_key "issued_at" ++ ostream_dec (job.JobRequest.issued_at r) ++ str ","
    ++ lit_key "message_id" ++ py_json_string (job.JobRequest.message_id r) ++ str ","
    ++ lit_key "operation" ++ py_json_string (job.JobRequest.operation r) ++ str ","
    ++ lit_key "organization_id" ++ dumps (optional (job.JobRequest.organization_id r)) ++ str ","
    ++ lit_key "payload" ++ py_json_string (job.JobRequest.payload r) ++ str ","
    ++ lit_key "protocol_version" ++ py_json_string (job.JobRequest.protocol_version r) ++ str ","
    ++ lit_key "request_id" ++ py_json_string (job.JobRequest.request_id r) ++ str ","
    ++ lit_key "sender_node_id" ++ py_json_string (job.JobRequest.sender_node_id r) ++ str ","
    ++ lit_key "signature_algorithm"
    ++ py_json_string (job.JobRequest.signature_algorithm r) ++ str ","
    ++ lit_key "target_node_id" ++ py_json_string (job.JobRequest.target_node_id r) ++ str "}".
Proof. apply request_members. Qed.

Lemma py_result_text r :
  canonical_json (job.JobResult.unsigned_payload r)
  = str "{"
    ++ lit_key "completed_at" ++ ostream_dec (job.JobResult.completed_at r) ++ str ","
    ++ lit_key "message_id" ++ py_json_string (job.JobResult.message_id r) ++ str ","
    ++ lit_key "payload" ++ py_json_string (job.JobResult.payload r) ++ str ","
    ++ lit_key "protocol_version" ++ py_json_string (job.JobResult.protocol_version r) ++ str ","
    ++ lit_key "recipient_node_id" ++ py_json_string (job.JobResult.recipient_node_id r) ++ str ","
    ++ lit_key "request_id" ++ py_json_string (job.JobResult.request_id r) ++ str ","
    ++ lit_key "responder_node_id" ++ py_json_string (job.JobResult.responder_node_id r) ++ str ","
    ++ lit_key "signature_algorithm"
    ++ py_json_string (job.JobResult.signature_algorithm r) ++ str ","
    ++ lit_key "status" ++ py_json_string (job.JobResult.status r) ++ str "}".
Proof. apply result_members. Qed.

Lemma py_notice_text n :
  canonical_json (capability.FailureNotice.unsigned_payload n)
  = str "{"
    ++ lit_key "failed_node_id"
    ++ py_json_string (capability.FailureNotice.failed_node_id n) ++ str ","
    ++ lit_key "message_id" ++ py_json_string (capability.FailureNotice.message_id n) ++ str ","
    ++ lit_key "observed_at" ++ ostream_dec (capability.FailureNotice.observed_at n) ++ str ","
    ++ lit_key "protocol_version"
    ++ py_json_string (capability.FailureNotice.protocol_version n) ++ str ","
    ++ lit_key "reason" ++ py_json_string (capability.FailureNotice.reason n) ++ str ","
    ++ lit_key "reporting_node_id"
    ++ py_json_string (capability.FailureNotice.reporting_node_id n) ++ str ","
    ++ lit_key "request_id" ++ py_json_string (capability.FailureNotice.request_id n) ++ str ","
    ++ lit_key "signature_algorithm"
    ++ py_json_string (capability.FailureNotice.signature_algorithm n) ++ str "}".
Proof. apply notice_members. Qed.

(** *** Peeling *)

Lemma peel_string s t t' :
  Forall scalar s ->
  (json_string (utf8_text s) ++ t = py_json_string s ++ t'
   <-> Forall (fun cp => cp < 0x7f)%Z s /\ t = t').
Proof.
  intros Hs. split.
  - intros E. pose proof (string_json_string [] (utf8_text s) t) as H1.
    pose proof (string_py_json_string s [] t' Hs) as H2. rewrite E in H1. rewrite H2 in H1.
    injection H1 as _ Hl. apply app_inj_1 in E as [E ->];
      [|unfold json_string, py_json_string; cbn [length app]; by rewrite Hl].
    split; [by apply canonical_text_ascii|done].
  - intros [Ha ->]. by rewrite ascii_canonical_text.
Qed.

Lemma peel_organization o t t' :
  Forall scalar (match o with Some s => s | None => [] end) ->
  ((if bool_decide (match o with Some s => utf8_text s | None => [] end = []) then str "null"
    else json_string (match o with Some s => utf8_text s | None => [] end)) ++ t
   = dumps (optional o) ++ t'
   <-> (Forall (fun cp => cp < 0x7f)%Z (match o with Some s => s | None => [] end) /\ o <> Some [])
       /\ t = t').
Proof.
  intros Hs. destruct o as [s|]; cbn [optional dumps].
  - case_bool_decide as E.
    + apply utf8_text_nil in E as ->; [|done]. split; [done|]. by intros [[_ []] _].
    + rewrite peel_string by done. split; [|tauto]. intros [? ->]. split_and!; try done.
      intros [= ->]. done.
  - rewrite bool_decide_eq_true_2, app_inv_head_iff by done.
    split; [by intros ->|by intros [_ ->]].
Qed.

Ltac peel :=
  repeat first [rewrite app_inv_head_iff | rewrite peel_string by done
               | rewrite peel_organization by done].

Lemma request_text_agrees r :
  valid_texts (request_texts r) ->
  canonical_job_request_json (cpp_request r) = canonical_json (job.JobRequest.unsigned_payload r)
  <-> plain_texts (request_texts r) /\ job.JobRequest.organization_id r <> Some [].
Proof.
  unfold valid_texts, plain_texts, request_texts. rewrite !Forall_cons.
  intros (? & ? & ? & ? & ? & ? & ? & ? & ? & _).
  rewrite py_request_text. unfold canonical_job_request_json, cpp_request. cbn -[str lit_key dumps json_string py_json_string utf8_text app].
  peel. rewrite !Forall_nil. tauto.
Qed.

Lemma result_text_agrees r :
  valid_texts (result_texts r) ->
  canonical_job_result_json (cpp_result r) = canonical_json (job.JobResult.unsigned_payload r)
  <-> plain_texts (result_texts r).
Proof.
  unfold valid_texts, plain_texts, result_texts. rewrite !Forall_cons.
  intros (? & ? & ? & ? & ? & ? & ? & ? & _).
  rewrite py_result_text. unfold canonical_job_result_json, cpp_result. cbn -[str lit_key json_string py_json_string utf8_text app].
  peel. rewrite !Forall_nil. tauto.
Qed.

Lemma notice_text_agrees n :
  valid_texts (notice_texts n) ->
  canonical_failure_notice_json (cpp_notice n) = canonical_json (capability.FailureNotice.unsigned_payload n)
  <-> plain_texts (notice_texts n).
Proof.
  unfold valid_texts, plain_texts, notice_texts. rewrite !Forall_cons.
  intros (? & ? & ? & ? & ? & ? & ? & _).
  rewrite py_notice_text. unfold canonical_failure_notice_json, cpp_notice. cbn -[str lit_key json_string py_json_string utf8_text app].
  peel. rewrite !Forall_nil. tauto.
Qed.

(** ** The validators and the reference executor *)

(** A Python result as the C++ outcome it corresponds to. *)
Definition cpp_outcome (r : presult unit) : outcome unit :=
  match r with
  | Ok _ => Ret tt
  | Raise (ValueError what) => Throw (invalid_argument what)
  | Raise _ => Throw (runtime_error "")
  end.

(** An absent clock is the default argument of the C++ validator. *)
Definition cpp_now (now : option Z) : Z :=
  match now with Some now => now | None => now_unchecked end.

Lemma utf8_truthy s : Forall scalar s -> truthy s = negb (empty (utf8_text s)).
Proof.
  intros H. unfold truthy, empty. f_equal. apply bool_decide_ext. by rewrite utf8_text_nil.
Qed.

Lemma utf8_is_lit s k :
  Forall scalar s -> Forall ascii (str k) -> is_lit s k = bool_decide (utf8_text s = str k).
Proof.
  intros Hs Hk. apply bool_decide_ext. rewrite <-(utf8_text_ascii (str k)) by done.
  split; [by intros ->|]. intros E. apply utf8_text_inj in E; [done|done|by apply lit_scalar].
Qed.

(** One guard on both sides. *)
Lemma guard_agrees b b' what (k : presult unit) k' :
  b = b' -> cpp_outcome k = k' ->
  cpp_outcome (raise_if b (ValueError what);; k)
  = if b' then Throw (invalid_argument what) else k'.
Proof. by intros -> <-; destruct b'. Qed.

Lemma last_guard_agrees b b' what :
  b = b' ->
  cpp_outcome (raise_if b (ValueError what))
  = if b' then Throw (invalid_argument what) else Ret tt.
Proof. by intros ->; destruct b'. Qed.

Lemma validate_request_agrees r now :
  valid_texts (request_texts r) -> (forall n, now = Some n -> 0 <= n)%Z ->
  validate_job_request (cpp_request r) (cpp_now now) = cpp_outcome (job.JobRequest.validate r now).
Proof.
  unfold valid_texts, request_texts. rewrite !Forall_cons.
  intros (? & ? & ? & ? & ? & ? & ? & ? & ? & _) Hn. symmetry.
  unfold job.JobRequest.validate, validate_job_request, cpp_request.
  cbn -[str utf8_text Z.leb Z.ltb is_lit raise_if mbind cpp_now forallb].
  repeat apply guard_agrees; try apply last_guard_agrees.
  - cbn [forallb]. rewrite !utf8_truthy by done. by rewrite !negb_andb, !negb_involutive, orb_false_r, !orb_assoc.
  - rewrite !utf8_is_lit by (done || ascii_lit). by rewrite !bool_decide_not, negb_orb.
  - done.
  - destruct now as [n|]; [|done]. cbn. by rewrite (proj2 (Z.leb_le 0 n)) by auto.
  - rewrite utf8_is_lit by (done || ascii_lit). by rewrite bool_decide_not.
Qed.

Lemma validate_result_agrees r :
  valid_texts (result_texts r) ->
  validate_job_result (cpp_result r) = cpp_outcome (job.JobResult.validate r).
Proof.
  unfold valid_texts, result_texts. rewrite !Forall_cons.
  intros (? & ? & ? & ? & ? & ? & ? & ? & _). symmetry.
  unfold job.JobResult.validate, validate_job_result, cpp_result.
  cbn -[str utf8_text Z.leb Z.ltb is_lit raise_if mbind forallb].
  repeat apply guard_agrees; try apply last_guard_agrees.
  - cbn [forallb]. rewrite !utf8_truthy by done. by rewrite !negb_andb, !negb_involutive, orb_false_r, !orb_assoc.
  - rewrite !utf8_is_lit by (done || ascii_lit). by rewrite !bool_decide_not, negb_orb.
  - done.
  - rewrite utf8_is_lit by (done || ascii_lit). by rewrite bool_decide_not.
Qed.

Lemma execute_agrees r :
  valid_texts (request_texts r) ->
  execute_reference_job (cpp_request r)
  = prod_map utf8_text utf8_text (job.execute_reference_job r).
Proof.
  unfold valid_texts, request_texts. rewrite !Forall_cons. intros (? & ? & _).
  unfold execute_reference_job, job.execute_reference_job.
  rewrite !utf8_is_lit by (done || ascii_lit).
  change (JobRequest.operation (cpp_request r)) with (utf8_text (job.JobRequest.operation r)).
  repeat case_bool_decide; cbn [prod_map fst snd]; by rewrite ?utf8_text_ascii by ascii_lit.
Qed.

(** ** Properties *)

(** C16: Where the signed texts of the two languages coincide.  For messages
    whose texts hold no surrogates, the C++ canonical text of the message as
    C++ reads it is the text Python signs, exactly when every signed text is
    made of characters below U+007F and, for a request, the organization is
    not the empty string (which C++ cannot tell from an absent one).  A DEL, a
    character outside of ASCII or an empty organization gives the two
    languages different texts. *)
Theorem canonical_texts_agree (q : job.JobRequest.t) (r : job.JobResult.t)
    (n : capability.FailureNotice.t)
    (Hq : valid_texts (request_texts q)) (Hr : valid_texts (result_texts r))
    (Hn : valid_texts (notice_texts n)) :
  (canonical_job_request_json (cpp_request q) = canonical_json (job.JobRequest.unsigned_payload q)
   <-> plain_texts (request_texts q) /\ job.JobRequest.organization_id q <> Some [])
  /\ (canonical_job_result_json (cpp_result r) = canonical_json (job.JobResult.unsigned_payload r)
      <-> plain_texts (result_texts r))
  /\ (canonical_failure_notice_json (cpp_notice n)
      = canonical_json (capability.FailureNotice.unsigned_payload n)
      <-> plain_texts (notice_texts n)).
Proof.
  split; [by apply request_text_agrees|]. split; [by apply result_text_agrees|].
  by apply notice_text_agrees.
Qed.

(** A clock before the epoch: C++ takes it, like its default argument, for no
    clock at all. *)
Definition python_clock (now : Z) : option Z := if (now <? 0)%Z then None else Some now.

Lemma validate_request_at_any_clock r now :
  valid_texts (request_texts r) ->
  validate_job_request (cpp_request r) now = cpp_outcome (job.JobRequest.validate r (python_clock now)).
Proof.
  intros Hr. unfold python_clock. destruct (Z.ltb_spec now 0).
  - rewrite <-(validate_request_agrees r None) by done. unfold validate_job_request.
    by rewrite (proj2 (Z.leb_gt 0 now)) by done.
  - by rewrite <-(validate_request_agrees r (Some now)) by (done || by intros n [= <-]).
Qed.

Lemma validate_request_before_epoch r now :
  (now < 0)%Z -> exists e, job.JobRequest.validate r (Some now) = Raise e.
Proof.
  intros Hn. destruct (job.JobRequest.validate r (Some now)) as [[]|e] eqn:E; [|by exists e].
  unfold job.JobRequest.validate in E. apply then_ok in E as [_ E]. apply then_ok in E as [_ E].
  apply then_ok in E as [Hw E]. apply then_ok in E as [Hc _]. apply raise_if_ok in Hw, Hc.
  apply negb_false_iff, andb_true_iff in Hc as [Hi%Z.leb_le _].
  apply orb_false_iff in Hw as [Hw%Z.ltb_ge _]. lia.
Qed.

(** C17: The C++ validators and executor against the Python ones.
    - At every clock reading, C++ accepts and refuses a request as Python does,
      with the same text, except that a reading before the epoch is no reading
      for C++ (as its default argument is): it then decides as Python does
      without a clock.
    - Python refuses every request at a clock before the epoch, so there the
      two differ on each request that is valid but for the clock.
    - C++ accepts and refuses a result as Python does, with the same text, and
      the reference executors compute the same status and payload. *)
Theorem validators_agree (q : job.JobRequest.t) (r : job.JobResult.t)
    (Hq : valid_texts (request_texts q)) (Hr : valid_texts (result_texts r)) :
  (forall now, validate_job_request (cpp_request q) now
               = cpp_outcome (job.JobRequest.validate q (python_clock now)))
  /\ (forall now, (now < 0)%Z -> exists e, job.JobRequest.validate q (Some now) = Raise e)
  /\ validate_job_result (cpp_result r) = cpp_outcome (job.JobResult.validate r)
  /\ execute_reference_job (cpp_request q)
     = prod_map utf8_text utf8_text (job.execute_reference_job q).
Proof.
  split; [intros now; by apply validate_request_at_any_clock|].
  split; [intros now; apply validate_request_before_epoch|].
  split; [by apply validate_result_agrees|by apply execute_agrees].
Qed.

(** *** Witnesses *)

Lemma valid_texts_unpack texts : forallb (forallb scalarb) texts = true -> valid_texts texts.
Proof.
  rewrite forallb_forall. intros H. apply Forall_forall. intros s Hin%list_elem_of_In.
  by apply forallb_scalar, H.
Qed.

Lemma plain_texts_unpack texts :
  forallb (forallb (fun cp => cp <? 0x7f)%Z) texts = true -> plain_texts texts.
Proof.
  rewrite forallb_forall. intros H. apply Forall_forall. intros s Hin%list_elem_of_In.
  apply H in Hin. rewrite forallb_forall in Hin. apply Forall_forall.
  intros cp Hcp%list_elem_of_In. apply Hin in Hcp. lia.
Qed.

(** An [ECHO] whose payload is this text, its result, and a notice about it. *)
Definition py_sample_request (payload : pystr) : job.JobRequest.t := {|
  job.JobRequest.protocol_version := lit "0.2";
  job.JobRequest.message_id := lit "msg-adversarial-1";
  job.JobRequest.request_id := lit "job-adversarial-1";
  job.JobRequest.sender_node_id := lit "node-a"; job.JobRequest.target_node_id := lit "node-b";
  job.JobRequest.organization_id := Some (lit "org-1"); job.JobRequest.operation := lit "ECHO";
  job.JobRequest.payload := payload; job.JobRequest.issued_at := 1800000000;
  job.JobRequest.expires_at := 1800000060; job.JobRequest.signature_algorithm := lit "Ed25519";
  job.JobRequest.signature := [] |}.

Definition py_sample_result (payload : pystr) : job.JobResult.t := {|
  job.JobResult.protocol_version := lit "0.2"; job.JobResult.message_id := lit "msg-result-1";
  job.JobResult.request_id := lit "job-adversarial-1";
  job.JobResult.responder_node_id := lit "node-b"; job.JobResult.recipient_node_id := lit "node-a";
  job.JobResult.status := lit "OK"; job.JobResult.payload := payload;
  job.JobResult.completed_at := 1800000001; job.JobResult.signature_algorithm := lit "Ed25519";
  job.JobResult.signature := [] |}.

Definition py_sample_notice (reason : pystr) : capability.FailureNotice.t := {|
  capability.FailureNotice.protocol_version := lit "0.2";
  capability.FailureNotice.message_id := lit "msg-failure-1";
  capability.FailureNotice.request_id := lit "job-adversarial-1";
  capability.FailureNotice.reporting_node_id := lit "node-b";
  capability.FailureNotice.failed_node_id := lit "node-b"; capability.FailureNotice.reason := reason;
  capability.FailureNotice.observed_at := 1800000001;
  capability.FailureNotice.signature_algorithm := lit "Ed25519";
  capability.FailureNotice.signature := [] |}.

Lemma canonical_texts_agree_witness :
  canonical_job_request_json (cpp_request (py_sample_request (lit "payload")))
  = canonical_json (job.JobRequest.unsigned_payload (py_sample_request (lit "payload")))
  /\ canonical_job_result_json (cpp_result (py_sample_result [0x7f%Z]))
     <> canonical_json (job.JobResult.unsigned_payload (py_sample_result [0x7f%Z])).
Proof.
  destruct (canonical_texts_agree (py_sample_request (lit "payload")) (py_sample_result [0x7f%Z])
    (py_sample_notice sample_text)) as (Hq & Hr & _); [by apply valid_texts_unpack..|]. split.
  - apply Hq. split; [by apply plain_texts_unpack|done].
  - intros C%Hr. unfold plain_texts, result_texts, py_sample_result in C.
    rewrite !Forall_cons in C. destruct C as (_ & (C & _)%Forall_cons & _). lia.
Defined.

Lemma validators_agree_witness :
  validate_job_request (cpp_request (py_sample_request sample_text)) 1900000000
  = Throw (invalid_argument "job request expired or not yet valid")
  /\ validate_job_request (cpp_request (py_sample_request sample_text)) (-5) = Ret tt
  /\ (exists e, job.JobRequest.validate (py_sample_request sample_text) (Some (-5)%Z) = Raise e)
  /\ validate_job_result (cpp_result (py_sample_result sample_text)) = Ret tt.
Proof.
  destruct (validators_agree (py_sample_request sample_text) (py_sample_result sample_text))
    as (Hq & Hp & Hr & _); [by apply valid_texts_unpack..|].
  split; [exact (Hq 1900000000%Z)|]. split; [exact (Hq (-5)%Z)|]. split; [by apply Hp|exact Hr].
Defined.
