(* ===== verification/SignedInterop.v ===== *)
(** * Signatures across the languages

    A node may run either implementation: the key pair of a node is the same
    32 bytes on both sides, and Ed25519 is deterministic (RFC 8032), so both
    libraries compute the same signatures and the same verdicts. *)
From S2P Require Import Prelude Contracts Canonical Reader JsonRoundTrip Unicode Wire Job Crypto.
From S2P Require Import CryptoSpec PyText PyJson PyJob Interop JobAuth.

(** One key pair as both libraries hold it. *)
Class SameScheme (W : Type) `{OS : OpenSSLSpec W} `{E : Ed25519} : Type := {
  py_private : EVP_PKEY -> Ed25519PrivateKey;
  py_public : EVP_PKEY -> Ed25519PublicKey;
  py_sign_same k m : sign (py_private k) m = ed25519_signature k m;
  py_verify_same p sg m :
    verify (py_public p) sg m = if ed25519_valid p m sg then Ok tt else Raise InvalidSignature;
}.

Section signed_interop.
Context {W : Type} {O : OpenSSL W} {OS : OpenSSLSpec W} {E : Ed25519} {SS : SameScheme W}.

Lemma signature_text_ascii k m : Forall ascii (signature_text k m).
Proof. apply to_url_ascii. Qed.

Lemma py_signature k m : _b64 (sign (py_private k) m) = ascii_text (signature_text k m).
Proof. unfold _b64. by rewrite py_sign_same. Qed.

Lemma utf8_py_signature k m : utf8_text (_b64 (sign (py_private k) m)) = signature_text k m.
Proof. rewrite py_signature. apply utf8_text_ascii, signature_text_ascii. Qed.

Lemma truthy_signature k m : truthy (_b64 (sign (py_private k) m)) = true.
Proof.
  unfold truthy. rewrite bool_decide_eq_false_2; [done|]. rewrite py_signature.
  intros H%map_eq_nil. by apply signature_text_nonnil in H.
Qed.

(** The message Python's signer returns. *)
Definition py_signed_request (k : EVP_PKEY) (r : job.JobRequest.t) : job.JobRequest.t :=
  let r := job.JobRequest.set_signature [] r in
  job.JobRequest.set_signature
    (_b64 (sign (py_private k) (canonical_json (job.JobRequest.unsigned_payload r)))) r.
Definition py_signed_result (k : EVP_PKEY) (r : job.JobResult.t) : job.JobResult.t :=
  let r := job.JobResult.set_signature [] r in
  job.JobResult.set_signature
    (_b64 (sign (py_private k) (canonical_json (job.JobResult.unsigned_payload r)))) r.
Definition py_signed_notice (k : EVP_PKEY) (n : capability.FailureNotice.t) : capability.FailureNotice.t :=
  let n := capability.FailureNotice.set_signature [] n in
  capability.FailureNotice.set_signature
    (_b64 (sign (py_private k) (canonical_json (capability.FailureNotice.unsigned_payload n)))) n.

(** A passing validator names the algorithm. *)

Lemma is_lit_true s k : is_lit s k = true -> s = lit k.
Proof. apply bool_decide_eq_true_1. Qed.

Lemma validate_request_algorithm r now :
  job.JobRequest.validate r now = Ok tt -> job.JobRequest.signature_algorithm r = lit "Ed25519".
Proof.
  unfold job.JobRequest.validate. do 4 (intros [_ H]%then_ok; revert H).
  intros H%raise_if_ok%negb_false_iff. by apply is_lit_true.
Qed.
Lemma validate_result_algorithm r :
  job.JobResult.validate r = Ok tt -> job.JobResult.signature_algorithm r = lit "Ed25519".
Proof.
  unfold job.JobResult.validate. do 3 (intros [_ H]%then_ok; revert H).
  intros H%raise_if_ok%negb_false_iff. by apply is_lit_true.
Qed.
Lemma validate_notice_algorithm n :
  capability.FailureNotice.validate n = Ok tt ->
  capability.FailureNotice.signature_algorithm n = lit "Ed25519".
Proof.
  unfold capability.FailureNotice.validate. do 2 (intros [_ H]%then_ok; revert H).
  intros H%raise_if_ok%negb_false_iff. by apply is_lit_true.
Qed.

(** *** Members *)

Lemma cpp_request_set_signature v r :
  cpp_request (job.JobRequest.set_signature v r) = JobRequest.set_signature (utf8_text v) (cpp_request r).
Proof. reflexivity. Qed.

Lemma cpp_request_algorithm r :
  job.JobRequest.signature_algorithm r = lit "Ed25519" ->
  JobRequest.set_signature_algorithm (str "Ed25519") (cpp_request r) = cpp_request r.
Proof. destruct r. cbn [job.JobRequest.signature_algorithm]. by intros ->. Qed.

Lemma unsigned_request v r :
  job.JobRequest.unsigned_payload (job.JobRequest.set_signature v r)
  = job.JobRequest.unsigned_payload r.
Proof. reflexivity. Qed.

Lemma cpp_result_set_signature v r :
  cpp_result (job.JobResult.set_signature v r) = JobResult.set_signature (utf8_text v) (cpp_result r).
Proof. reflexivity. Qed.

Lemma cpp_result_algorithm r :
  job.JobResult.signature_algorithm r = lit "Ed25519" ->
  JobResult.set_signature_algorithm (str "Ed25519") (cpp_result r) = cpp_result r.
Proof. destruct r. cbn [job.JobResult.signature_algorithm]. by intros ->. Qed.

Lemma unsigned_result v r :
  job.JobResult.unsigned_payload (job.JobResult.set_signature v r)
  = job.JobResult.unsigned_payload r.
Proof. reflexivity. Qed.

Lemma cpp_notice_set_signature v n :
  cpp_notice (capability.FailureNotice.set_signature v n) = FailureNotice.set_signature (utf8_text v) (cpp_notice n).
Proof. reflexivity. Qed.

Lemma cpp_notice_algorithm n :
  capability.FailureNotice.signature_algorithm n = lit "Ed25519" ->
  FailureNotice.set_signature_algorithm (str "Ed25519") (cpp_notice n) = cpp_notice n.
Proof. destruct n. cbn [capability.FailureNotice.signature_algorithm]. by intros ->. Qed.

Lemma unsigned_notice v n :
  capability.FailureNotice.unsigned_payload (capability.FailureNotice.set_signature v n)
  = capability.FailureNotice.unsigned_payload n.
Proof. reflexivity. Qed.

(** *** Signing on either side gives the same message *)

Lemma signed_request_same k r :
  valid_texts (request_texts r) -> plain_texts (request_texts r) ->
  job.JobRequest.organization_id r <> Some [] ->
  job.JobRequest.signature_algorithm r = lit "Ed25519" ->
  signed_request k (cpp_request r) = cpp_request (py_signed_request k r).
Proof.
  intros Hv Hp Ho Ha. unfold signed_request, py_signed_request. cbv zeta.
  rewrite cpp_request_algorithm by done. change [] with (utf8_text []) at 1 2.
  rewrite !cpp_request_set_signature, utf8_py_signature, <-cpp_request_set_signature.
  by rewrite (proj2 (request_text_agrees (job.JobRequest.set_signature [] r) Hv)).
Qed.

Lemma signed_result_same k r :
  valid_texts (result_texts r) -> plain_texts (result_texts r) ->
  job.JobResult.signature_algorithm r = lit "Ed25519" ->
  signed_result k (cpp_result r) = cpp_result (py_signed_result k r).
Proof.
  intros Hv Hp Ha. unfold signed_result, py_signed_result. cbv zeta.
  rewrite cpp_result_algorithm by done. change [] with (utf8_text []) at 1 2.
  rewrite !cpp_result_set_signature, utf8_py_signature, <-cpp_result_set_signature.
  by rewrite (proj2 (result_text_agrees (job.JobResult.set_signature [] r) Hv)).
Qed.

Lemma signed_notice_same k n :
  valid_texts (notice_texts n) -> plain_texts (notice_texts n) ->
  capability.FailureNotice.signature_algorithm n = lit "Ed25519" ->
  signed_notice k (cpp_notice n) = cpp_notice (py_signed_notice k n).
Proof.
  intros Hv Hp Ha. unfold signed_notice, py_signed_notice. cbv zeta.
  rewrite cpp_notice_algorithm, !cpp_notice_set_signature, utf8_py_signature, unsigned_notice by done.
  by rewrite (proj2 (notice_text_agrees n Hv)).
Qed.

(** *** Python's signers and verifiers *)

Lemma py_sign_request r k :
  job.JobRequest.validate r None = Ok tt -> job.sign_job_request r (py_private k) = Ok (py_signed_request k r).
Proof. intros H. unfold job.sign_job_request. by rewrite H. Qed.

Lemma py_sign_result r k :
  job.JobResult.validate r = Ok tt -> job.sign_job_result r (py_private k) = Ok (py_signed_result k r).
Proof. intros H. unfold job.sign_job_result. by rewrite H. Qed.

Lemma py_sign_notice n k :
  capability.FailureNotice.validate n = Ok tt -> capability.sign_failure_notice n (py_private k) = Ok (py_signed_notice k n).
Proof. intros H. unfold capability.sign_failure_notice. by rewrite H. Qed.

Lemma py_verifies (V : presult unit) k m :
  V = Ok tt ->
  false_if_rejected
    (V;; if negb (truthy (_b64 (sign (py_private k) m))) then Ok false else
     signature ← _unb64 (_b64 (sign (py_private k) m));
     verify (py_public (public_key_of k)) signature m;; Ok true) = Ok true.
Proof.
  intros ->. cbn [mbind presult_bind]. rewrite truthy_signature, _unb64_b64. cbn [negb mbind presult_bind].
  by rewrite py_sign_same, py_verify_same, ed25519_correct.
Qed.

Lemma py_verify_request r k now :
  job.JobRequest.validate r now = Ok tt ->
  job.verify_job_request (py_signed_request k r) (py_public (public_key_of k)) now = Ok true.
Proof.
  intros H. unfold job.verify_job_request, py_signed_request. cbv zeta. rewrite !unsigned_request.
  by apply (py_verifies _ k _ H).
Qed.

Lemma py_verify_result r k :
  job.JobResult.validate r = Ok tt ->
  job.verify_job_result (py_signed_result k r) (py_public (public_key_of k)) = Ok true.
Proof.
  intros H. unfold job.verify_job_result, py_signed_result. cbv zeta. rewrite !unsigned_result.
  by apply (py_verifies _ k _ H).
Qed.

Lemma py_verify_notice n k :
  capability.FailureNotice.validate n = Ok tt ->
  capability.verify_failure_notice (py_signed_notice k n) (py_public (public_key_of k)) = Ok true.
Proof.
  intros H. unfold capability.verify_failure_notice, py_signed_notice. cbv zeta. rewrite !unsigned_notice.
  by apply (py_verifies _ k _ H).
Qed.

(** ** The property *)

Context {OA : OpenSSLAvailable W}.

(** C15: Signatures cross the languages.  For messages that pass Python's
    validation and whose signed texts are plain (made of characters below
    U+007F, no empty organization), the two signers return the same message
    from the same key, whichever language signs; Python verifies the request,
    the result and the notice so signed, and so does C++ for the two messages
    it verifies. *)
Theorem signatures_interoperate (k : EVP_PKEY) (q : job.JobRequest.t) (r : job.JobResult.t)
    (n : capability.FailureNotice.t) (w : W)
    (Hq : valid_texts (request_texts q)) (Hqp : plain_texts (request_texts q))
    (Hqo : job.JobRequest.organization_id q <> Some [])
    (Hqv : job.JobRequest.validate q None = Ok tt)
    (Hr : valid_texts (result_texts r)) (Hrp : plain_texts (result_texts r))
    (Hrv : job.JobResult.validate r = Ok tt)
    (Hn : valid_texts (notice_texts n)) (Hnp : plain_texts (notice_texts n))
    (Hnv : capability.FailureNotice.validate n = Ok tt) :
  (exists q' w', job.sign_job_request q (py_private k) = Ok q'
     /\ sign_job_request (cpp_request q) (Some k) w = (Ret (cpp_request q'), w')
     /\ forall now, job.JobRequest.validate q now = Ok tt ->
          job.verify_job_request q' (py_public (public_key_of k)) now = Ok true)
  /\ (exists r' w', job.sign_job_result r (py_private k) = Ok r'
      /\ sign_job_result (cpp_result r) (Some k) w = (Ret (cpp_result r'), w')
      /\ job.verify_job_result r' (py_public (public_key_of k)) = Ok true
      /\ exists w2, verify_job_result (cpp_result r') (Some (public_key_of k)) w = (Ret true, w2))
  /\ (exists n' w', capability.sign_failure_notice n (py_private k) = Ok n'
      /\ sign_failure_notice (cpp_notice n) (Some k) w = (Ret (cpp_notice n'), w')
      /\ capability.verify_failure_notice n' (py_public (public_key_of k)) = Ok true
      /\ exists w2, verify_failure_notice (cpp_notice n') (Some (public_key_of k)) w = (Ret true, w2)).
Proof.
  pose proof (validate_request_algorithm q None Hqv). pose proof (validate_result_algorithm r Hrv).
  pose proof (validate_notice_algorithm n Hnv). split; [|split].
  - destruct (sign_job_request_returns (cpp_request q) k w) as (w' & E1).
    rewrite signed_request_same in E1 by done. eexists _, w'.
    split; [by apply py_sign_request|]. split; [done|]. intros now. apply py_verify_request.
  - destruct (sign_job_result_returns (cpp_result r) k w) as (w' & E1).
    destruct (verify_signed_result (cpp_result r) k w) as (w2 & E2).
    rewrite signed_result_same in E1, E2 by done. eexists _, w'.
    split; [by apply py_sign_result|]. split; [done|]. split; [by apply py_verify_result|by exists w2].
  - destruct (sign_failure_notice_returns (cpp_notice n) k w) as (w' & E1).
    destruct (verify_signed_notice (cpp_notice n) k w) as (w2 & E2).
    rewrite signed_notice_same in E1, E2 by done. eexists _, w'.
    split; [by apply py_sign_notice|]. split; [done|]. split; [by apply py_verify_notice|by exists w2].
Qed.
End signed_interop.
