(* ===== verification/WireInterop.v ===== *)
(** * Frames across the languages

    What [send_frame] of the Python peer writes against what the C++ parser
    reads, and what the C++ envelopes hold against what [recv_frame] reads. *)
From S2P Require Import Prelude Contracts Canonical Reader JsonRoundTrip Unicode Wire Envelope WireParse.
From S2P Require Import Framing PyText PyJson PyLoads PyRoundTrip PyJob PyTransport Interop.
Import FlatJsonReader.

(** ** From Python to C++ *)

(** *** The envelope scan passes over Python's strings *)

Lemma scan_py_u n rest i depth :
  (0 <= n < 0x10000)%Z ->
  scan_payload (py_u n ++ rest) i true false depth
  = scan_payload rest (length (py_u n) + i) true false depth.
Proof.
  intros Hn. assert (forall d, (0 <= d < 16)%Z -> digit_char d <> x5c /\ digit_char d <> x22) as Hd.
  { intros d H. pose proof (hex_digit_char d H) as E. destruct (digit_char d); vm_compute in E |- *;
      intuition congruence. }
  unfold py_u, py_hex4. change (str "\u") with [x5c; x75]. cbn [map app scan_payload length Nat.add].
  rewrite decide_True by done.
  destruct (Hd (n / 4096)%Z), (Hd (n / 256 mod 16)%Z), (Hd (n / 16 mod 16)%Z), (Hd (n mod 16)%Z);
    try zdiv.
  by rewrite !decide_False.
Qed.

Lemma scan_py_escape_char cp rest i depth :
  scalar cp ->
  scan_payload (py_escape_char cp ++ rest) i true false depth
  = scan_payload rest (length (py_escape_char cp) + i) true false depth.
Proof.
  intros Hcp. unfold scalar in Hcp. destruct (Z.lt_ge_cases cp 0x7f).
  - rewrite py_escape_ascii by lia. apply scan_escape_char.
  - rewrite py_escape_high by done. case_match; [apply scan_py_u; lia|].
    by rewrite <-app_assoc, !scan_py_u, length_app by zdiv.
Qed.

Lemma flat_py_json_string s : Forall scalar s -> flat (py_json_string s).
Proof.
  intros Hs rest i depth. unfold py_json_string. rewrite <-!app_assoc. cbn [app scan_payload].
  rewrite decide_True by done.
  assert (forall rest i, scan_payload (concat (map py_escape_char s) ++ rest) i true false depth
    = scan_payload rest (length (concat (map py_escape_char s)) + i) true false depth) as ->.
  { clear rest i. induction Hs as [|cp s Hcp _ IH]; intros rest i; cbn [map concat]; [done|].
    rewrite <-app_assoc, scan_py_escape_char, IH, length_app by done. f_equal. lia. }
  cbn [scan_payload]. rewrite decide_False, decide_True by done. f_equal.
  cbn [length]. rewrite length_app. cbn [length]. lia.
Qed.
#[export] Hint Resolve flat_py_json_string : flat.

(** *** What Python sends *)

Lemma envelope_members x1 x2 :
  members_text [(lit "type", x1); (lit "payload", x2)]
  = envelope_prefix ++ x2 ++ str "," ++ lit_key "type" ++ x1 ++ str "}".
Proof. unfold members_text. rewrite join_onto_spec. vm_compute. reflexivity. Qed.

Lemma py_frame_text k payload :
  py_json_string (lit k) = [dquote] ++ str k ++ [dquote] ->
  dumps (frame_obj (lit k) payload)
  = envelope_prefix ++ dumps (PDict payload) ++ envelope_suffix (str k).
Proof.
  intros Hk. transitivity (members_text [(lit "type", py_json_string (lit k));
                                         (lit "payload", dumps (PDict payload))]); [done|].
  rewrite envelope_members, Hk. unfold envelope_suffix. by rewrite <-!app_assoc.
Qed.

Lemma signed_result_members x1 x2 x3 x4 x5 x6 x7 x8 x9 x10 :
  members_text [(lit "protocol_version", x1);
    (lit "message_id", x2);
    (lit "request_id", x3);
    (lit "responder_node_id", x4);
    (lit "recipient_node_id", x5);
    (lit "status", x6);
    (lit "payload", x7);
    (lit "completed_at", x8);
    (lit "signature_algorithm", x9);
    (lit "signature", x10)]
  = str "{"
    ++ lit_key "completed_at" ++ x8 ++ str ","
    ++ lit_key "message_id" ++ x2 ++ str ","
    ++ lit_key "payload" ++ x7 ++ str ","
    ++ lit_key "protocol_version" ++ x1 ++ str ","
    ++ lit_key "recipient_node_id" ++ x5 ++ str ","
    ++ lit_key "request_id" ++ x3 ++ str ","
    ++ lit_key "responder_node_id" ++ x4 ++ str ","
    ++ lit_key "signature" ++ x10 ++ str ","
    ++ lit_key "signature_algorithm" ++ x9 ++ str ","
    ++ lit_key "status" ++ x6 ++ str "}".
Proof. unfold members_text. rewrite join_onto_spec. vm_compute. reflexivity. Qed.

Lemma signed_notice_members x1 x2 x3 x4 x5 x6 x7 x8 x9 :
  members_text [(lit "protocol_version", x1);
    (lit "message_id", x2);
    (lit "request_id", x3);
    (lit "reporting_node_id", x4);
    (lit "failed_node_id", x5);
    (lit "reason", x6);
    (lit "observed_at", x7);
    (lit "signature_algorithm", x8);
    (lit "signature", x9)]
  = str "{"
    ++ lit_key "failed_node_id" ++ x5 ++ str ","
    ++ lit_key "message_id" ++ x2 ++ str ","
    ++ lit_key "observed_at" ++ x7 ++ str ","
    ++ lit_key "protocol_version" ++ x1 ++ str ","
    ++ lit_key "reason" ++ x6 ++ str ","
    ++ lit_key "reporting_node_id" ++ x4 ++ str ","
    ++ lit_key "request_id" ++ x3 ++ str ","
    ++ lit_key "signature" ++ x9 ++ str ","
    ++ lit_key "signature_algorithm" ++ x8 ++ str "}".
Proof. unfold members_text. rewrite join_onto_spec. vm_compute. reflexivity. Qed.

Lemma py_signed_result_text r :
  dumps (PDict (job.JobResult.asdict r))
  = str "{"
    ++ lit_key "completed_at" ++ ostream_dec (job.JobResult.completed_at r) ++ str ","
    ++ lit_key "message_id" ++ py_json_string (job.JobResult.message_id r) ++ str ","
    ++ lit_key "payload" ++ py_json_string (job.JobResult.payload r) ++ str ","
    ++ lit_key "protocol_version" ++ py_json_string (job.JobResult.protocol_version r) ++ str ","
    ++ lit_key "recipient_node_id" ++ py_json_string (job.JobResult.recipient_node_id r) ++ str ","
    ++ lit_key "request_id" ++ py_json_string (job.JobResult.request_id r) ++ str ","
    ++ lit_key "responder_node_id" ++ py_json_string (job.JobResult.responder_node_id r) ++ str ","
    ++ lit_key "signature" ++ py_json_string (job.JobResult.signature r) ++ str ","
    ++ lit_key "signature_algorithm"
    ++ py_json_string (job.JobResult.signature_algorithm r) ++ str ","
    ++ lit_key "status" ++ py_json_string (job.JobResult.status r) ++ str "}".
Proof. apply signed_result_members. Qed.

Lemma py_signed_notice_text n :
  dumps (PDict (capability.FailureNotice.asdict n))
  = str "{"
    ++ lit_key "failed_node_id"
    ++ py_json_string (capability.FailureNotice.failed_node_id n) ++ str ","
    ++ lit_key "message_id" ++ py_json_string (capability.FailureNotice.message_id n) ++ str ","
    ++ lit_key "observed_at" ++ ostream_dec (capability.FailureNotice.observed_at n) ++ str ","
    ++ lit_key "protocol_version"
    ++ py_json_string (capability.FailureNotice.protocol_version n) ++ str ","
    ++ lit_key "reason" ++ py_json_string (capability.FailureNotice.reason n) ++ str ","
    ++ lit_key "reporting_node_id"
    ++ py_json_string (capability.FailureNotice.reporting_node_id n) ++ str ","
    ++ lit_key "request_id" ++ py_json_string (capability.FailureNotice.request_id n) ++ str ","
    ++ lit_key "signature" ++ py_json_string (capability.FailureNotice.signature n) ++ str ","
    ++ lit_key "signature_algorithm"
    ++ py_json_string (capability.FailureNotice.signature_algorithm n) ++ str "}".
Proof. apply signed_notice_members. Qed.

(** *** What the C++ parser reads *)

#[local] Hint Resolve string_py_json_string : ma2a.

Lemma split_py_result r :
  valid_texts (job.JobResult.signature r :: result_texts r) ->
  split_envelope (dumps (frame_obj (lit "JOB_RESULT") (job.JobResult.asdict r)))
  = Ret (dumps (PDict (job.JobResult.asdict r)), str "JOB_RESULT").
Proof.
  unfold valid_texts, result_texts. rewrite !Forall_cons.
  intros (? & ? & ? & ? & ? & ? & ? & ? & ? & _). rewrite py_frame_text by done.
  apply split_envelope_object; [|auto with flat].
  rewrite py_signed_result_text. auto 100 with flat nocore.
Qed.

Lemma split_py_notice n :
  valid_texts (capability.FailureNotice.signature n :: notice_texts n) ->
  split_envelope (dumps (frame_obj (lit "FAILURE_NOTICE") (capability.FailureNotice.asdict n)))
  = Ret (dumps (PDict (capability.FailureNotice.asdict n)), str "FAILURE_NOTICE").
Proof.
  unfold valid_texts, notice_texts. rewrite !Forall_cons.
  intros (? & ? & ? & ? & ? & ? & ? & ? & _). rewrite py_frame_text by done.
  apply split_envelope_object; [|auto with flat].
  rewrite py_signed_notice_text. auto 100 with flat nocore.
Qed.

Lemma py_result_type r :
  valid_texts (job.JobResult.signature r :: result_texts r) ->
  wire_envelope_type (dumps (frame_obj (lit "JOB_RESULT") (job.JobResult.asdict r)))
  = Ret (str "JOB_RESULT").
Proof. intros Hv. unfold wire_envelope_type. by rewrite split_py_result. Qed.

Lemma py_notice_type n :
  valid_texts (capability.FailureNotice.signature n :: notice_texts n) ->
  wire_envelope_type (dumps (frame_obj (lit "FAILURE_NOTICE") (capability.FailureNotice.asdict n)))
  = Ret (str "FAILURE_NOTICE").
Proof. intros Hv. unfold wire_envelope_type. by rewrite split_py_notice. Qed.

Lemma parse_py_result r :
  valid_texts (job.JobResult.signature r :: result_texts r) ->
  is_int64 (job.JobResult.completed_at r) -> job.JobResult.completed_at r <> INT64_MIN ->
  parse_job_result_envelope_json (dumps (frame_obj (lit "JOB_RESULT") (job.JobResult.asdict r)))
  = Ret (cpp_result r).
Proof.
  intros Hv Hr Hm. unfold parse_job_result_envelope_json. rewrite split_py_result by done.
  unfold valid_texts, result_texts in Hv. rewrite !Forall_cons in Hv.
  destruct Hv as (? & ? & ? & ? & ? & ? & ? & ? & ? & _).
  cbn [mbind outcome_bind]. rewrite decide_False by auto. rewrite py_signed_result_text.
  unfold read_job_result. rewrite init_rd. m_steps. by rewrite done_rd_nil.
Qed.

Lemma parse_py_notice n :
  valid_texts (capability.FailureNotice.signature n :: notice_texts n) ->
  is_int64 (capability.FailureNotice.observed_at n) ->
  capability.FailureNotice.observed_at n <> INT64_MIN ->
  parse_failure_notice_envelope_json
    (dumps (frame_obj (lit "FAILURE_NOTICE") (capability.FailureNotice.asdict n)))
  = Ret (cpp_notice n).
Proof.
  intros Hv Hr Hm. unfold parse_failure_notice_envelope_json. rewrite split_py_notice by done.
  unfold valid_texts, notice_texts in Hv. rewrite !Forall_cons in Hv.
  destruct Hv as (? & ? & ? & ? & ? & ? & ? & ? & _).
  cbn [mbind outcome_bind]. rewrite decide_False by auto. rewrite py_signed_notice_text.
  unfold read_failure_notice. rewrite init_rd. m_steps. by rewrite done_rd_nil.
Qed.

(** *** The frame *)

Lemma pack_header n : (0 <= n < 2 ^ 32)%Z -> pack_I n = header_bytes (header_of n).
Proof.
  intros Hn. unfold pack_I, header_of, header_byte. cbn [header_bytes map].
  rewrite !Z.shiftr_div_pow2 by lia. change 0xff%Z with (Z.ones 8). rewrite !Z.land_ones by lia.
  repeat (apply f_equal2; [apply uchar_inj; rewrite !uchar_byte_of_Z; zdiv|]). done.
Qed.

(** A reader of the header recovers the length. *)
Lemma unpack_header h : unpack_I (header_bytes h) = big_endian h.
Proof. by destruct h as [[[h0 h1] h2] h3]. Qed.

(** What [send_frame] sends is the C++ frame of its body. *)
Lemma send_frame_writes k payload c :
  room c = None -> frameable (dumps (frame_obj k payload)) ->
  exists frame c', encode_frame (dumps (frame_obj k payload)) = Ret frame
    /\ send_frame k payload c = (Ok tt, c') /\ sent c' = sent c ++ frame /\ inbox c' = inbox c.
Proof.
  intros Hr Hf. rewrite (encode_frame_ok _ Hf). destruct Hf as [_ Hl]. eexists _, _.
  split; [reflexivity|]. unfold send_frame, mbind, PyM_bind, pure. cbv zeta.
  change MAX_FRAME_BYTES with kMaxFrameBytes. rewrite (proj2 (Z.ltb_ge _ _)) by done. cbn [raise_if].
  unfold sendall. rewrite Hr. split; [reflexivity|]. cbn [sent inbox].
  rewrite pack_header; [done|]. unfold kMaxFrameBytes in Hl. lia.
Qed.

(** A frame that was sent whole is a C++ frame. *)
Lemma send_frame_returns k payload c c' :
  room c = None -> send_frame k payload c = (Ok tt, c') ->
  exists frame, encode_frame (dumps (frame_obj k payload)) = Ret frame /\ sent c' = sent c ++ frame.
Proof.
  intros Hr H. assert (frameable (dumps (frame_obj k payload))) as Hf.
  { split; [done|]. unfold send_frame, mbind, PyM_bind, pure in H. cbv zeta in H.
    change MAX_FRAME_BYTES with kMaxFrameBytes in H. unfold raise_if in H.
    by destruct (Z.ltb_spec kMaxFrameBytes (Z.of_nat (length (dumps (frame_obj k payload))))). }
  destruct (send_frame_writes k payload c Hr Hf) as (frame & c1 & Ha & E & Hs & _).
  rewrite H in E. injection E as <-. eauto.
Qed.

(** Receiving a frame whose body is UTF-8. *)
Lemma recv_frame_reads limit text frame rest c :
  segmented c -> Forall scalar text -> encode_frame (utf8_text text) = Ret frame ->
  concat (inbox c) = frame ++ rest ->
  exists c', recv_frame limit c
    = (raw ← loads limit text; open_envelope raw, c')
    /\ segmented c' /\ concat (inbox c') = rest /\ sent c' = sent c /\ room c' = room c.
Proof.
  intros Hc Ht Hframe Hin. apply encode_frame_ret in Hframe as [[Hn Hl] ->].
  rewrite <-app_assoc in Hin.
  assert (0 <= Z.of_nat (length (utf8_text text)) < 2 ^ 32)%Z as Hrange
    by (unfold kMaxFrameBytes in Hl; lia).
  destruct (recv_exact_returns 4 c _ _ Hc Hin) as (c1 & E1 & Hc1 & Hin1 & Hs1 & Hr1).
  { by destruct (header_of _) as [[[? ?] ?] ?]. }
  destruct (recv_exact_returns (length (utf8_text text)) c1 _ _ Hc1 Hin1 eq_refl)
    as (c2 & E2 & Hc2 & Hin2 & Hs2 & Hr2).
  exists c2. split_and!; [|done|done|congruence|congruence].
  unfold recv_frame. unfold mbind at 1, PyM_bind at 1. rewrite E1.
  rewrite unpack_header, big_endian_header_of by done.
  assert (0 < Z.of_nat (length (utf8_text text)))%Z by (destruct (utf8_text text); [done|cbn; lia]).
  unfold mbind, PyM_bind, pure. change MAX_FRAME_BYTES with kMaxFrameBytes.
  rewrite (proj2 (Z.leb_gt _ _)), (proj2 (Z.ltb_ge _ _)) by done. cbn [orb raise_if].
  rewrite Nat2Z.id, E2, decode_utf8_text by done. by destruct (loads limit text).
Qed.

(** ** From C++ to Python *)

Lemma utf8_text_app s t : utf8_text (s ++ t) = utf8_text s ++ utf8_text t.
Proof. unfold utf8_text. by rewrite map_app, concat_app. Qed.

Lemma utf8_text_concat ss : utf8_text (concat ss) = concat (map utf8_text ss).
Proof. induction ss as [|s ss IH]; [done|]. cbn [concat map]. by rewrite utf8_text_app, IH. Qed.

Lemma utf8_text_join sep ss :
  (0 <= sep < 0x80)%Z -> utf8_text (join sep ss) = join (byte_of_Z sep) (map utf8_text ss).
Proof.
  intros Hs. induction ss as [|s ss IH]; [done|]. destruct ss as [|s' ss]; [done|].
  cbn [map] in *. rewrite (join_cons sep), (join_cons (byte_of_Z sep)), utf8_text_app, <-IH by done.
  f_equal.
  unfold utf8_text at 1. cbn [map concat]. by rewrite utf8_ascii.
Qed.

(** Every byte of an encoding past ASCII has its high bit set. *)
Lemma utf8_high cp : scalar cp -> (0x80 <= cp)%Z -> Forall (fun b => ~ printable b) (utf8 cp).
Proof.
  unfold scalar. intros Hcp Hge. unfold utf8, append_utf8.
  assert (forall x, ~ printable (byte_of_Z (Z.lor 0x80 (Z.land x 0x3f)))) as Hc.
  { intros x. unfold printable. rewrite land_3f. pose proof (Z.mod_pos_bound x 64 ltac:(lia)).
    rewrite (uchar_lor _ 2 6); lia. }
  repeat (case_match; try lia); simplify_eq; cbn [app]; repeat (constructor; [|]); try done;
    unfold printable; rewrite Z.shiftr_div_pow2 by lia.
  - rewrite (uchar_lor _ 6 5); zdiv.
  - rewrite (uchar_lor _ 14 4); zdiv.
  - rewrite (uchar_lor _ 30 3); zdiv.
Qed.

Lemma escape_ascii cp : (0 <= cp < 0x80)%Z -> Forall ascii (escape_char (byte_of_Z cp)).
Proof.
  intros H. destruct (decide (cp = 0x7f)%Z) as [->|]; [by repeat constructor|].
  rewrite <-py_escape_ascii by lia. eapply Forall_impl; [apply printable_py_escape|apply printable_ascii].
  unfold scalar. lia.
Qed.

(** A character as [json_string] of its encoding writes it. *)
Lemma utf8_cpp_escape cp :
  scalar cp -> utf8_text (cpp_escape cp) = concat (map escape_char (utf8 cp)).
Proof.
  intros Hcp. unfold cpp_escape. destruct (Z.ltb_spec cp 0x80).
  - unfold scalar in Hcp. rewrite utf8_ascii by lia. cbn [map concat]. rewrite app_nil_r.
    apply utf8_text_ascii, escape_ascii. lia.
  - unfold utf8_text. cbn [map concat]. rewrite app_nil_r.
    assert (Forall (fun b => ~ printable b) (utf8 cp)) as Hb by (by apply utf8_high).
    induction Hb as [|b t Hb _ IH]; [done|]. cbn [map concat].
    rewrite escape_char_unprintable by done. cbn [app]. by rewrite <-IH.
Qed.

Lemma utf8_quoted s :
  Forall scalar s -> utf8_text (quoted cpp_escape s) = json_string (utf8_text s).
Proof.
  intros Hs. unfold quoted, json_string.
  change (0x22%Z :: concat (map cpp_escape s) ++ [0x22%Z])
    with ([0x22%Z] ++ concat (map cpp_escape s) ++ [0x22%Z]).
  rewrite !utf8_text_app, utf8_text_concat. change (utf8_text [0x22%Z]) with [dquote].
  f_equal. f_equal. induction Hs as [|cp s Hcp _ IH]; [done|].
  unfold utf8_text at 2. cbn [map concat]. rewrite escaped_app, utf8_cpp_escape by done.
  by rewrite IH.
Qed.

(** The text of an object written by C++, from the texts of its values. *)
Definition cpp_members_text (items : list (bytes * bytes)) : bytes :=
  str "{" ++ join x2c (map (fun '(k, x) => json_string k ++ str ":" ++ x) items) ++ str "}".

Lemma utf8_compact_dict items :
  Forall (fun item => Forall scalar (fst item)) items ->
  utf8_text (compact cpp_escape (PDict items))
  = cpp_members_text (map (fun '(k, v) => (utf8_text k, utf8_text (compact cpp_escape v))) items).
Proof.
  intros Hk. rewrite compact_dict. unfold cpp_members_text.
  change (0x7b%Z :: ?t) with ([0x7b%Z] ++ t). rewrite !utf8_text_app, utf8_text_join, !map_map by lia.
  f_equal. f_equal. f_equal. apply map_ext_Forall. eapply Forall_impl; [exact Hk|].
  intros [k v] Hs. cbn [fst] in Hs. unfold item_text. cbn [fst snd].
  change (0x3a%Z :: ?t) with ([0x3a%Z] ++ t). by rewrite !utf8_text_app, utf8_quoted.
Qed.

Lemma cpp_request_members x1 x2 x3 x4 x5 x6 x7 x8 x9 x10 x11 x12 :
  cpp_members_text [(str "expires_at", x10);
    (str "issued_at", x9);
    (str "message_id", x2);
    (str "operation", x7);
    (str "organization_id", x6);
    (str "payload", x8);
    (str "protocol_version", x1);
    (str "request_id", x3);
    (str "sender_node_id", x4);
    (str "signature", x12);
    (str "signature_algorithm", x11);
    (str "target_node_id", x5)]
  = str "{"
    ++ lit_key "expires_at" ++ x10 ++ str ","
    ++ lit_key "issued_at" ++ x9 ++ str ","
    ++ lit_key "message_id" ++ x2 ++ str ","
    ++ lit_key "operation" ++ x7 ++ str ","
    ++ lit_key "organization_id" ++ x6 ++ str ","
    ++ lit_key "payload" ++ x8 ++ str ","
    ++ lit_key "protocol_version" ++ x1 ++ str ","
    ++ lit_key "request_id" ++ x3 ++ str ","
    ++ lit_key "sender_node_id" ++ x4 ++ str ","
    ++ lit_key "signature" ++ x12 ++ str ","
    ++ lit_key "signature_algorithm" ++ x11 ++ str ","
    ++ lit_key "target_node_id" ++ x5 ++ str "}".
Proof. unfold cpp_members_text. rewrite join_onto_spec. vm_compute. reflexivity. Qed.

Lemma cpp_envelope_members x1 x2 :
  cpp_members_text [(str "payload", x1); (str "type", x2)]
  = envelope_prefix ++ x1 ++ str "," ++ lit_key "type" ++ x2 ++ str "}".
Proof. unfold cpp_members_text. rewrite join_onto_spec. vm_compute. reflexivity. Qed.

Lemma utf8_compact_int z : utf8_text (compact cpp_escape (PInt z)) = ostream_dec z.
Proof. apply utf8_text_ascii, ostream_dec_ascii. Qed.

Lemma utf8_compact_optional o :
  Forall scalar (match o with Some s => s | None => [] end) -> o <> Some [] ->
  utf8_text (compact cpp_escape (optional o))
  = if bool_decide (match o with Some s => utf8_text s | None => [] end = []) then str "null"
    else json_string (match o with Some s => utf8_text s | None => [] end).
Proof.
  intros Hs Ho. destruct o as [s|]; [|done]. rewrite bool_decide_eq_false_2.
  - by apply utf8_quoted.
  - rewrite utf8_text_nil by done. congruence.
Qed.

Lemma utf8_compact_lit_items items :
  Forall (fun item => Forall ascii (str (fst item))) items ->
  utf8_text (compact cpp_escape (PDict (lit_items items)))
  = cpp_members_text (map (fun '(k, v) => (str k, utf8_text (compact cpp_escape v))) items).
Proof.
  intros H. rewrite utf8_compact_dict; unfold lit_items.
  - rewrite map_map. f_equal. apply map_ext_Forall. eapply Forall_impl; [exact H|].
    intros [k v] Hk. cbn [fst] in Hk. unfold lit. by rewrite utf8_text_ascii.
  - apply Forall_map. eapply Forall_impl; [exact H|]. intros [k v] Hk. by apply lit_scalar.
Qed.

(** The members in the wire order. *)
Definition request_items (r : job.JobRequest.t) : list (String.string * pyobj) :=
  [("expires_at", PInt (job.JobRequest.expires_at r));
   ("issued_at", PInt (job.JobRequest.issued_at r));
   ("message_id", PStr (job.JobRequest.message_id r));
   ("operation", PStr (job.JobRequest.operation r));
   ("organization_id", optional (job.JobRequest.organization_id r));
   ("payload", PStr (job.JobRequest.payload r));
   ("protocol_version", PStr (job.JobRequest.protocol_version r));
   ("request_id", PStr (job.JobRequest.request_id r));
   ("sender_node_id", PStr (job.JobRequest.sender_node_id r));
   ("signature", PStr (job.JobRequest.signature r));
   ("signature_algorithm", PStr (job.JobRequest.signature_algorithm r));
   ("target_node_id", PStr (job.JobRequest.target_node_id r))]%string.

Definition request_frame (r : job.JobRequest.t) : pyobj :=
  PDict (lit_items [("payload", PDict (lit_items (request_items r)));
                    ("type", PStr (lit "JOB_REQUEST"))]%string).

Lemma signed_request_wire r :
  valid_texts (job.JobRequest.signature r :: request_texts r) ->
  job.JobRequest.organization_id r <> Some [] ->
  utf8_text (compact cpp_escape (PDict (lit_items (request_items r))))
  = signed_job_request_json (cpp_request r).
Proof.
  unfold valid_texts, request_texts. rewrite !Forall_cons.
  intros (? & ? & ? & ? & ? & ? & ? & ? & ? & ? & _) Ho.
  rewrite utf8_compact_lit_items by (repeat (constructor; [cbn [fst]; ascii_lit|]); done).
  unfold request_items. cbn [map]. rewrite cpp_request_members. unfold signed_job_request_json.
  rewrite !utf8_compact_int, utf8_compact_optional by done. cbn [compact].
  by rewrite !utf8_quoted by done.
Qed.

Lemma request_frame_wire r :
  valid_texts (job.JobRequest.signature r :: request_texts r) ->
  job.JobRequest.organization_id r <> Some [] ->
  utf8_text (compact cpp_escape (request_frame r)) = job_request_envelope_json (cpp_request r).
Proof.
  intros Hv Ho. unfold request_frame.
  rewrite utf8_compact_lit_items by (repeat (constructor; [cbn [fst]; ascii_lit|]); done).
  cbn [map]. rewrite cpp_envelope_members, signed_request_wire by done.
  unfold job_request_envelope_json, envelope_suffix. cbn [compact].
  rewrite utf8_quoted by (apply lit_scalar; ascii_lit). done.
Qed.

(** *** The text is what Python can decode and read *)

Lemma length_digits fuel b n acc : length (digits fuel b n acc) <= fuel + length acc.
Proof.
  revert n acc. induction fuel as [|fuel IH]; intros n acc; cbn [digits]; [lia|].
  case_match; cbn [length]; [lia|]. etransitivity; [apply IH|]. cbn [length]. lia.
Qed.

Lemma int64_digits z : is_int64 z -> length (digits_of 10 (Z.abs z)) <= 65.
Proof.
  unfold is_int64, INT64_MIN, INT64_MAX. intros Hz. unfold digits_of.
  etransitivity; [apply length_digits|]. cbn [length].
  assert (Z.log2 (Z.abs z) < 64)%Z.
  { destruct (decide (z = 0)%Z) as [->|]; [done|]. apply Z.log2_lt_pow2; lia. }
  pose proof (Z.log2_nonneg (Z.abs z)). lia.
Qed.

Lemma writable_int64 z : is_int64 z -> writable (PInt z).
Proof.
  intros Hz. constructor. etransitivity; [by apply int64_digits|]. apply Nat.leb_le. reflexivity.
Qed.

Lemma cpp_escape_scalar cp : scalar cp -> Forall scalar (cpp_escape cp).
Proof.
  intros Hcp. unfold cpp_escape. destruct (Z.ltb_spec cp 0x80); [|by apply Forall_singleton].
  unfold scalar in Hcp. apply ascii_text_scalar, escape_ascii. lia.
Qed.

(** *** Python receives the request *)

Lemma request_frame_writable r :
  valid_texts (job.JobRequest.signature r :: request_texts r) ->
  is_int64 (job.JobRequest.issued_at r) -> is_int64 (job.JobRequest.expires_at r) ->
  writable (request_frame r).
Proof.
  unfold valid_texts, request_texts. rewrite !Forall_cons.
  intros (? & ? & ? & ? & ? & ? & ? & ? & ? & ? & _) Hi He.
  assert (writable (optional (job.JobRequest.organization_id r))) as Ho
    by (destruct (job.JobRequest.organization_id r); by constructor).
  apply writable_lit_items.
  - apply (bool_decide_unpack _). vm_compute. exact I.
  - repeat (constructor; [cbn [fst]; ascii_lit|]). done.
  - constructor; [|constructor; [|done]]; cbn [snd].
    2: { constructor. apply lit_scalar. ascii_lit. }
    apply writable_lit_items.
    + apply (bool_decide_unpack _). vm_compute. exact I.
    + repeat (constructor; [cbn [fst]; ascii_lit|]). done.
    + unfold request_items. repeat (constructor; [cbn [snd]; first [done | by apply writable_int64 | by constructor]|]).
      done.
Qed.

Lemma make_job_request_items r :
  make_job_request (map (fun '(k, v) => (k, json_of v)) (lit_items (request_items r))) = Ok r.
Proof. destruct r as [? ? ? ? ? [org|] ? ? ? ? ? ?]; reflexivity. Qed.

Lemma python_receives_request limit r frame rest c :
  valid_texts (job.JobRequest.signature r :: request_texts r) ->
  job.JobRequest.organization_id r <> Some [] ->
  is_int64 (job.JobRequest.issued_at r) -> is_int64 (job.JobRequest.expires_at r) ->
  2 <= limit -> segmented c ->
  encode_frame (job_request_envelope_json (cpp_request r)) = Ret frame ->
  concat (inbox c) = frame ++ rest ->
  exists payload c', recv_frame limit c = (Ok (lit "JOB_REQUEST", payload), c')
    /\ make_job_request payload = Ok r /\ segmented c' /\ concat (inbox c') = rest
    /\ sent c' = sent c /\ room c' = room c.
Proof.
  intros Hv Ho Hi He Hl Hc Hf Hin.
  pose proof (request_frame_writable r Hv Hi He) as Hw.
  rewrite <-request_frame_wire in Hf by done.
  destruct (recv_frame_reads limit _ _ _ c Hc (compact_scalar cpp_escape cpp_escape_scalar _ Hw) Hf Hin)
    as (c' & E & ? & ? & ? & ?).
  rewrite (loads_compact cpp_escape limit (request_frame r)) in E; [|done|].
  2: { destruct r as [? ? ? ? ? [org|] ? ? ? ? ? ?]; cbn; lia. }
  eexists _, c'. split; [exact E|]. split; [apply make_job_request_items|]. done.
Qed.

(** ** The property *)

(** C18: Frames cross the languages.  Whatever Unicode their texts hold, the
    result and the notice that Python's [send_frame] writes are whole C++
    frames, which the C++ parser reads as the message sent (timestamps are in
    the 64-bit range, its least value apart); and a request that C++ sends
    (with no empty organization) is received by Python in whatever segments it
    arrives, its dataclass holding every member of the request, and nothing
    read past the frame. *)
Theorem frames_cross_languages (limit : nat) (q : job.JobRequest.t) (r : job.JobResult.t)
    (n : capability.FailureNotice.t) (c : conn) (frame rest : bytes)
    (Hr : valid_texts (job.JobResult.signature r :: result_texts r))
    (Hrt : is_int64 (job.JobResult.completed_at r)) (Hrm : job.JobResult.completed_at r <> INT64_MIN)
    (Hn : valid_texts (capability.FailureNotice.signature n :: notice_texts n))
    (Hnt : is_int64 (capability.FailureNotice.observed_at n))
    (Hnm : capability.FailureNotice.observed_at n <> INT64_MIN)
    (Hq : valid_texts (job.JobRequest.signature q :: request_texts q))
    (Hqo : job.JobRequest.organization_id q <> Some [])
    (Hqi : is_int64 (job.JobRequest.issued_at q)) (Hqe : is_int64 (job.JobRequest.expires_at q))
    (Hlimit : 2 <= limit) (Hc : segmented c) (Hroom : room c = None)
    (Hframe : encode_frame (job_request_envelope_json (cpp_request q)) = Ret frame)
    (Hin : concat (inbox c) = frame ++ rest) :
  (forall c1, send_frame (lit "JOB_RESULT") (job.JobResult.asdict r) c = (Ok tt, c1) ->
     exists body out, encode_frame body = Ret out /\ sent c1 = sent c ++ out
     /\ wire_envelope_type body = Ret (str "JOB_RESULT")
     /\ parse_job_result_envelope_json body = Ret (cpp_result r))
  /\ (forall c1, send_frame (lit "FAILURE_NOTICE") (capability.FailureNotice.asdict n) c = (Ok tt, c1) ->
      exists body out, encode_frame body = Ret out /\ sent c1 = sent c ++ out
      /\ wire_envelope_type body = Ret (str "FAILURE_NOTICE")
      /\ parse_failure_notice_envelope_json body = Ret (cpp_notice n))
  /\ (exists payload c', recv_frame limit c = (Ok (lit "JOB_REQUEST", payload), c')
      /\ make_job_request payload = Ok q /\ concat (inbox c') = rest /\ sent c' = sent c).
Proof.
  split; [|split].
  - intros c1 (out & E & Hs)%send_frame_returns; [|done]. eexists _, out.
    split; [exact E|]. split; [exact Hs|]. split; [by apply py_result_type|by apply parse_py_result].
  - intros c1 (out & E & Hs)%send_frame_returns; [|done]. eexists _, out.
    split; [exact E|]. split; [exact Hs|]. split; [by apply py_notice_type|by apply parse_py_notice].
  - destruct (python_receives_request limit q frame rest c)
      as (payload & c' & E & Em & _ & Hin' & Hs & _); [done..|].
    by exists payload, c'.
Qed.

(** Python's receiver accepts envelopes that C++ refuses: any order of the
    members, and white space between the tokens. *)
Definition wider_envelope : bytes :=
  map (fun b => if decide (b = x27) then dquote else b)
    (str "{ 'type' : 'JOB_RESULT', 'payload' : {} }").

Lemma python_accepts_wider_envelope :
  (raw ← loads 10 (ascii_text wider_envelope); open_envelope raw) = Ok (lit "JOB_RESULT", [])
  /\ wire_envelope_type wider_envelope = Throw (invalid_argument "invalid MA2A envelope").
Proof. split; vm_compute; reflexivity. Qed.
