(* ===== verification/PyExchange.v ===== *)
(** * A job between two Python nodes

    [send_job] against [serve_one_job] of transport.py: each end reads the
    frames the other wrote. *)
From S2P Require Import Prelude Contracts Canonical Unicode Framing PyText PyJson PyLoads PyRoundTrip PyJob PyTransport.
From S2P Require Import Interop WireInterop.

(** A frame that was written is read back, its members sorted. *)
Lemma recv_sent limit k payload frame rest c :
  writable (frame_obj k payload) -> height (frame_obj k payload) <= limit -> segmented c ->
  encode_frame (dumps (frame_obj k payload)) = Ret frame -> concat (inbox c) = frame ++ rest ->
  exists c', recv_frame limit c = (open_envelope (json_of (sort_obj (frame_obj k payload))), c')
    /\ segmented c' /\ concat (inbox c') = rest /\ sent c' = sent c /\ room c' = room c.
Proof.
  intros Hw Hh Hc Hf Hin. pose proof (dumps_ascii (frame_obj k payload) Hw) as Ha.
  rewrite <-(utf8_text_ascii _ Ha) in Hf.
  destruct (recv_frame_reads limit _ frame rest c Hc (ascii_text_scalar _ Ha) Hf Hin)
    as (c' & E & ? & ? & ? & ?).
  rewrite loads_dumps in E by done. by exists c'.
Qed.

(** *** The two messages *)

Lemma request_envelope r :
  open_envelope (json_of (sort_obj (frame_obj (lit "JOB_REQUEST") (job.JobRequest.asdict r))))
  = Ok (lit "JOB_REQUEST", map (fun '(k, v) => (k, json_of v)) (lit_items (request_items r))).
Proof. destruct r as [? ? ? ? ? [org|] ? ? ? ? ? ?]; vm_compute; reflexivity. Qed.

Lemma result_envelope r :
  exists items,
    open_envelope (json_of (sort_obj (frame_obj (lit "JOB_RESULT") (job.JobResult.asdict r))))
    = Ok (lit "JOB_RESULT", items) /\ make_job_result items = Ok r.
Proof. destruct r. eexists. split; vm_compute; reflexivity. Qed.

Lemma request_height r : height (frame_obj (lit "JOB_REQUEST") (job.JobRequest.asdict r)) = 2.
Proof. destruct r as [? ? ? ? ? [org|] ? ? ? ? ? ?]; reflexivity. Qed.

Lemma result_height r : height (frame_obj (lit "JOB_RESULT") (job.JobResult.asdict r)) = 2.
Proof. by destruct r. Qed.

Lemma writable_frame k payload :
  Forall scalar k -> writable (PDict payload) -> writable (frame_obj k payload).
Proof.
  intros Hk Hp. change (frame_obj k payload)
    with (PDict (lit_items [("type", PStr k); ("payload", PDict payload)]%string)).
  apply writable_lit_items.
  - apply (bool_decide_unpack _). vm_compute. exact I.
  - repeat (constructor; [cbn [fst]; ascii_lit|]). done.
  - constructor; [by constructor|]. by constructor.
Qed.

(** *** The two ends *)

Section exchange.
Context (limit : nat) (handler : job.JobRequest.t -> presult job.JobResult.t).

(** Both frames fit, and the recursion limit leaves room for two objects. *)
Context (r : job.JobRequest.t) (question : bytes).
Context (Hlimit : 2 <= limit) (Hr : writable (PDict (job.JobRequest.asdict r))).
Context (Hq : encode_frame (dumps (frame_obj (lit "JOB_REQUEST") (job.JobRequest.asdict r)))
              = Ret question).

(** The server, up to its handler. *)
Lemma serve_reads c :
  segmented c -> concat (inbox c) = question -> room c = None ->
  exists c1, sent c1 = sent c /\ room c1 = None
  /\ serve_one_job limit handler c
     = match handler r with
       | Ok res => send_frame (lit "JOB_RESULT") (job.JobResult.asdict res) c1
       | Raise e => (Raise e, c1)
       end.
Proof.
  intros Hc Hin Hroom. rewrite <-(app_nil_r question) in Hin.
  destruct (recv_sent limit (lit "JOB_REQUEST") (job.JobRequest.asdict r) question [] c)
    as (c1 & E & _ & _ & Hs & Hr1); [|by rewrite request_height|done..|].
  { apply writable_frame; [apply lit_scalar; ascii_lit|done]. }
  exists c1. split; [done|]. split; [congruence|].
  unfold serve_one_job, mbind, PyM_bind. rewrite E, request_envelope. unfold pure.
  change (is_lit (lit "JOB_REQUEST") "JOB_REQUEST") with true. cbn [negb raise_if].
  rewrite make_job_request_items. by destruct (handler r).
Qed.

(** The client, up to its reading of the answer. *)
Lemma send_job_reads c :
  room c = None ->
  exists c1, sent c1 = sent c ++ question /\ inbox c1 = inbox c /\ peer_closed c1 = peer_closed c
  /\ send_job limit r c
     = (response ← recv_frame limit;
        let '(message_type, payload) := response in
        pure (raise_if (negb (is_lit message_type "JOB_RESULT")) (ValueError "unexpected response type"));;
        pure (make_job_result payload)) c1.
Proof.
  intros Hroom. pose proof (encode_frame_ret _ _ Hq) as [Hf _].
  destruct (send_frame_writes (lit "JOB_REQUEST") (job.JobRequest.asdict r) c Hroom Hf)
    as (frame & c1 & E & Es & Hs & Hi).
  rewrite Hq in E. injection E as <-. exists c1. split_and!; [done|done| |].
  - unfold send_frame, mbind, PyM_bind, pure in Es.
    destruct (raise_if _ _); [|done]. unfold sendall in Es. rewrite Hroom in Es.
    by injection Es as <-.
  - unfold send_job, mbind at 1, PyM_bind at 1. by rewrite Es.
Qed.

Lemma send_job_answered res answer c :
  writable (PDict (job.JobResult.asdict res)) ->
  encode_frame (dumps (frame_obj (lit "JOB_RESULT") (job.JobResult.asdict res))) = Ret answer ->
  segmented c -> room c = None -> concat (inbox c) = answer ->
  exists c', send_job limit r c = (Ok res, c') /\ sent c' = sent c ++ question.
Proof.
  intros Hw Ha Hc Hroom Hin. destruct (send_job_reads c Hroom) as (c1 & Hs1 & Hi1 & _ & ->).
  rewrite <-(app_nil_r answer), <-Hi1 in Hin.
  destruct (recv_sent limit (lit "JOB_RESULT") (job.JobResult.asdict res) answer [] c1)
    as (c2 & E & _ & _ & Hs2 & _); [|by rewrite result_height|..]; try done.
  { apply writable_frame; [apply lit_scalar; ascii_lit|done]. }
  { unfold segmented. by rewrite Hi1. }
  exists c2. split; [|by rewrite Hs2]. unfold mbind, PyM_bind. rewrite E.
  destruct (result_envelope res) as (items & -> & Em). unfold pure.
  change (is_lit (lit "JOB_RESULT") "JOB_RESULT") with true. cbn [negb raise_if]. by rewrite Em.
Qed.

(** A peer that closes inside its answer. *)
Lemma recv_frame_cut answer n c :
  (exists text, encode_frame text = Ret answer) -> n < length answer ->
  segmented c -> concat (inbox c) = take n answer ->
  fst (recv_frame limit c) = Raise (short_read c).
Proof.
  intros (text & [[Hn Hl] ->]%encode_frame_ret) Hlt Hc Hin. unfold recv_frame.
  assert (length (header_bytes (header_of (Z.of_nat (length text)))) = 4) as H4
    by (by destruct (header_of _) as [[[? ?] ?] ?]).
  assert (0 <= Z.of_nat (length text) < 2 ^ 32)%Z as Hrange
    by (unfold kMaxFrameBytes in Hl; lia).
  pose proof (recv_exact_spec 4 c Hc) as Hs. unfold mbind at 1, PyM_bind at 1.
  destruct (_recv_exact 4 c) as [h c1] eqn:E. cbn [fst] in Hs. rewrite length_app in Hlt.
  rewrite Hin, length_take, length_app in Hs.
  destruct (Nat.ltb_spec (n `min` (4 + length text)) 4) as [Hsmall|Hbig]; rewrite H4 in Hs.
  { rewrite (proj2 (Nat.ltb_lt _ _)) in Hs by lia. by subst. }
  rewrite (proj2 (Nat.ltb_ge _ _)) in Hs by lia. subst h.
  pose proof (recv_exact_ok _ _ _ _ Hc E) as (Hin1 & Hc1 & _ & _ & Hp1).
  rewrite take_take, Nat.min_l, <-H4, take_app_length in Hin1 by lia.
  rewrite take_take, Nat.min_l, <-H4, take_app_length, unpack_header, big_endian_header_of by (done || lia).
  rewrite Hin, take_app_ge in Hin1 by lia. apply app_inv_head in Hin1.
  assert (0 < Z.of_nat (length text))%Z by (destruct text; [done|cbn; lia]).
  unfold mbind, PyM_bind, pure. change MAX_FRAME_BYTES with kMaxFrameBytes.
  rewrite (proj2 (Z.leb_gt _ _)), (proj2 (Z.ltb_ge _ _)) by done. cbn [orb raise_if].
  rewrite Nat2Z.id. pose proof (recv_exact_spec (length text) c1 Hc1) as Hs.
  rewrite <-Hin1, length_take, H4, (proj2 (Nat.ltb_lt _ _)) in Hs by lia.
  destruct (_recv_exact (length text) c1) as [? c2]. cbn [fst] in Hs. subst.
  unfold short_read. by rewrite Hp1.
Qed.

(** ** The property *)

(** A job round trip between Python nodes.  A request and a result whose
    texts can be encoded, whose integers have at most 4300 digits and whose
    frames fit are exchanged whole: the server calls its handler on the very
    request and sends the answer's frame, and a client that receives that
    frame, however segmented, returns the very result.  When the handler
    raises, the server raises the same and sends nothing; when the peer closes
    the connection anywhere inside the answer, the client raises
    [ConnectionError] and returns no result. *)
Theorem python_job_round_trip (res : job.JobResult.t) (answer : bytes) (c cs : conn) (n : nat)
    (Hres : writable (PDict (job.JobResult.asdict res)))
    (Ha : encode_frame (dumps (frame_obj (lit "JOB_RESULT") (job.JobResult.asdict res))) = Ret answer)
    (Hcs : segmented cs) (Hrs : room cs = None) (Hins : concat (inbox cs) = question)
    (Hc : segmented c) (Hrc : room c = None) (Hclosed : peer_closed c = true) (Hn : n < length answer) :
  (handler r = Ok res ->
   exists cs', serve_one_job limit handler cs = (Ok tt, cs') /\ sent cs' = sent cs ++ answer)
  /\ (concat (inbox c) = answer ->
      exists c', send_job limit r c = (Ok res, c') /\ sent c' = sent c ++ question)
  /\ (forall e, handler r = Raise e ->
      exists cs', serve_one_job limit handler cs = (Raise e, cs') /\ sent cs' = sent cs)
  /\ (concat (inbox c) = take n answer ->
      fst (send_job limit r c) = Raise (ConnectionError "connection closed before frame completed")).
Proof.
  destruct (serve_reads cs Hcs Hins Hrs) as (c1 & Hs1 & Hr1 & Hserve). split; [|split; [|split]].
  - intros Hh. rewrite Hh in Hserve. rewrite Hserve. pose proof (encode_frame_ret _ _ Ha) as [Hf _].
    destruct (send_frame_writes (lit "JOB_RESULT") (job.JobResult.asdict res) c1 Hr1 Hf)
      as (out & c2 & E & Es & Hs2 & _).
    rewrite Ha in E. injection E as <-. exists c2. split; [done|]. by rewrite Hs2, Hs1.
  - intros Hin. by apply (send_job_answered res answer).
  - intros e He. rewrite He in Hserve. by exists c1.
  - intros Hin. destruct (send_job_reads c Hrc) as (c2 & _ & Hi2 & Hp2 & ->).
    pose proof (recv_frame_cut answer n c2) as Hcut. unfold segmented in Hcut. rewrite Hi2 in Hcut.
    specialize (Hcut ltac:(eauto) Hn Hc Hin). unfold mbind, PyM_bind.
    destruct (recv_frame limit c2) as [x c3]. cbn [fst] in Hcut. subst.
    unfold short_read. by rewrite Hp2, Hclosed.
Qed.
End exchange.
