(* ===== verification/Threads.v ===== *)
(** * Two threads around a connection

    A Python client and a Python server run at the same time: each is a program
    ([thread]) of receives, sends and notes in a shared list, and the system
    takes the next step of either.  A send moves some bytes into the buffer of
    its direction, which holds at most [capacity]; a receive takes some of the
    bytes that arrived; a thread that ended has closed its end.  Timeouts are
    not modelled: a thread waits as long as it must.

    [interleavings_agree]: when what each thread does, seen alone, is to send,
    receive and note in an order in which neither waits for the other in vain,
    then every interleaving ends, with the results and notes of that order. *)
From stdpp Require Import relations sorting.
From Stdlib Require Import Relation_Operators Lexicographic_Product.
From S2P Require Import Prelude PyText.

(** ** Programs *)

Inductive thread (A : Type) : Type :=
| Ended (r : presult A)
| Sending (data : bytes) (k : thread A)        (* [sock.sendall], with what is left to send *)
| Receiving (n : nat) (k : bytes -> thread A)  (* [sock.recv(n)] *)
| Noting (note : String.string) (k : thread A). (* [trace.append(note)] *)
Arguments Ended {A} r.
Arguments Sending {A} data k.
Arguments Receiving {A} n k.
Arguments Noting {A} note k.

Fixpoint thread_then {A B} (f : A -> thread B) (t : thread A) : thread B :=
  match t with
  | Ended (Ok a) => f a
  | Ended (Raise e) => Ended (Raise e)
  | Sending data k => Sending data (thread_then f k)
  | Receiving n k => Receiving n (fun chunk => thread_then f (k chunk))
  | Noting note k => Noting note (thread_then f k)
  end.
#[global] Instance thread_ret : MRet thread := fun A a => Ended (Ok a).
#[global] Instance thread_bind : MBind thread := @thread_then.

(** What needs no connection. *)
Definition compute {A} (r : presult A) : thread A := Ended r.
Definition sendall_ (data : bytes) : thread unit := Sending data (Ended (Ok tt)).
Definition note (s : String.string) : thread unit := Noting s (Ended (Ok tt)).
Arguments note s%_string_scope.

Definition ended {A} (t : thread A) : bool := match t with Ended _ => true | _ => false end.

(** ** The system *)

Section system.
Context (capacity : nat).

(** One thread: what has arrived for it, what is on the way to its peer, the
    notes; and whether the peer has closed its end.  What is sent to a peer that
    closed is lost or refused, and a peer that left bytes unread resets the
    connection. *)
Inductive acts {A} : bool -> thread A -> bytes -> bytes -> list String.string ->
    thread A -> bytes -> bytes -> list String.string -> Prop :=
| acts_send c d k arrived under_way notes :
    c <> [] -> length under_way + length c <= capacity ->
    acts false (Sending (c ++ d) k) arrived under_way notes
         (Sending d k) arrived (under_way ++ c) notes
| acts_sent closed k arrived under_way notes :
    acts closed (Sending [] k) arrived under_way notes k arrived under_way notes
| acts_send_lost c d k arrived under_way notes :
    c <> [] ->
    acts true (Sending (c ++ d) k) arrived under_way notes (Sending d k) arrived (under_way ++ c) notes
| acts_send_refused d k arrived under_way notes :
    d <> [] ->
    acts true (Sending d k) arrived under_way notes (Ended (Raise OSError)) arrived under_way notes
| acts_recv closed n k c arrived under_way notes :
    c <> [] -> length c <= n ->
    acts closed (Receiving n k) (c ++ arrived) under_way notes (k c) arrived under_way notes
| acts_recv_end n k under_way notes :
    acts true (Receiving n k) [] under_way notes (k []) [] under_way notes
| acts_recv_reset n k arrived under_way notes :
    under_way <> [] ->
    acts true (Receiving n k) arrived under_way notes (Ended (Raise OSError)) [] under_way notes
| acts_recv_none closed k arrived under_way notes :
    acts closed (Receiving 0 k) arrived under_way notes (k []) arrived under_way notes
| acts_note closed s k arrived under_way notes :
    acts closed (Noting s k) arrived under_way notes k arrived under_way (notes ++ [s]).

Record session (A B : Type) : Type := mk_session {
  client : thread A;
  server : thread B;
  to_server : bytes;
  to_client : bytes;
  trace : list String.string;
}.
#[global] Arguments mk_session {A B} client server to_server to_client trace.
#[global] Arguments client {A B} s.
#[global] Arguments server {A B} s.
#[global] Arguments to_server {A B} s.
#[global] Arguments to_client {A B} s.
#[global] Arguments trace {A B} s.

(** The scheduler takes a step of one of the two. *)
Inductive step {A B} : session A B -> session A B -> Prop :=
| step_client p q in_q in_p tr p' in_p' in_q' tr' :
    acts (ended q) p in_p in_q tr p' in_p' in_q' tr' ->
    step (mk_session p q in_q in_p tr) (mk_session p' q in_q' in_p' tr')
| step_server p q in_q in_p tr q' in_q' in_p' tr' :
    acts (ended p) q in_q in_p tr q' in_q' in_p' tr' ->
    step (mk_session p q in_q in_p tr) (mk_session p q' in_q' in_p' tr').

(** The connection was made, nothing is under way. *)
Definition connected {A B} (noted : list String.string) (p : thread A) (q : thread B) : session A B :=
  mk_session p q [] [] noted.
End system.

(** ** Every interleaving ends *)

(** A thread a step later. *)
Inductive later {A} : thread A -> thread A -> Prop :=
| later_send c d k : c <> [] -> later (Sending (c ++ d) k) (Sending d k)
| later_sent k : later (Sending [] k) k
| later_refused d k : later (Sending d k) (Ended (Raise OSError))
| later_recv n k c : later (Receiving n k) (k c)
| later_reset n k : later (Receiving n k) (Ended (Raise OSError))
| later_note s k : later (Noting s k) k.

Lemma acts_later {A} capacity closed (t t' : thread A) i o tr i' o' tr' :
  acts capacity closed t i o tr t' i' o' tr' -> later t t'.
Proof. destruct 1; by constructor. Qed.

Lemma later_ends {A} (t : thread A) : sn later t.
Proof.
  assert (forall r : presult A, sn later (Ended r)) as He by (intros r; constructor; intros t' H; inversion H).
  induction t as [r|data k IH|n k IH|s k IH]; [done|..].
  - remember (length data) as m eqn:Em. revert data Em.
    induction (lt_wf m) as [m _ IHm]. intros data ->. constructor. intros t' H.
    inversion H as [c d k' Hc|k'|d k'| | |]; subst; [|done|done].
    apply (IHm (length d)); [|reflexivity]. rewrite length_app.
    assert (length c <> 0) by (by destruct c). lia.
  - constructor. intros t' H. inversion H; subst; [apply IH|apply He].
  - constructor. intros t' H. inversion H; subst. exact IH.
Qed.

Lemma step_ends {A B} capacity (s : session A B) : sn (step capacity) s.
Proof.
  destruct s as [p q in_q in_p tr]. revert q in_q in_p tr.
  induction (later_ends p) as [p _ IHp]. intros q. pose proof (later_ends q) as Hq.
  induction Hq as [q _ IHq]. intros in_q in_p tr. constructor. intros s' H.
  inversion H as [? ? ? ? ? p' in_p' in_q' tr' Ha|? ? ? ? ? q' in_q' in_p' tr' Ha]; subst.
  - apply IHp. by eapply acts_later.
  - apply IHq. by eapply acts_later.
Qed.

(** ** What a thread does, seen alone *)

Inductive event : Type :=
| Sent (b : byte)
| Received (b : byte)
| Closed
| Noted (s : String.string).

(** [behaves t evs r]: against a peer that delivers the bytes of [evs], in
    whatever chunks, and closes its end at [Closed], [t] does [evs] and ends with
    [r].  A receive asks for no more than [evs] has next. *)
Inductive behaves {A} : thread A -> list event -> presult A -> Prop :=
| behaves_ended r : behaves (Ended r) [] r
| behaves_sending data k evs r : behaves k evs r -> behaves (Sending data k) (map Sent data ++ evs) r
| behaves_receiving n k data evs r :
    length data = n -> data <> [] ->
    (forall c d, data = c ++ d -> c <> [] -> behaves (k c) (map Received d ++ evs) r) ->
    behaves (Receiving n k) (map Received data ++ evs) r
| behaves_closed n k evs r : 0 < n -> behaves (k []) evs r -> behaves (Receiving n k) (Closed :: evs) r
| behaves_noting s k evs r : behaves k evs r -> behaves (Noting s k) (Noted s :: evs) r.

Lemma behaves_then {A B} (t : thread A) (f : A -> thread B) evs1 evs2 a r :
  behaves t evs1 (Ok a) -> behaves (f a) evs2 r -> behaves (x ← t; f x) (evs1 ++ evs2) r.
Proof.
  intros H Hf. remember (Ok a) as ra eqn:Er. revert Er.
  induction H as [ra|data k evs ra H IH|n k data evs ra Hl Hn H IH|n k evs ra Hn H IH|s k evs ra H IH]; intros ->;
    cbn [mbind thread_bind thread_then app].
  - done.
  - rewrite <-app_assoc. constructor. by apply IH.
  - rewrite <-app_assoc. constructor; [done|done|]. intros c d Hd Hc. rewrite app_assoc. by apply IH.
  - constructor; [done|]. by apply IH.
  - constructor. by apply IH.
Qed.

Lemma behaves_raises {A B} (t : thread A) (f : A -> thread B) evs e :
  behaves t evs (Raise e) -> behaves (x ← t; f x) evs (Raise e).
Proof.
  intros H. remember (Raise e) as ra eqn:Er. revert Er.
  induction H as [ra|data k evs ra H IH|n k data evs ra Hl Hn H IH|n k evs ra Hn H IH|s k evs ra H IH]; intros ->;
    cbn [mbind thread_bind thread_then]; constructor; auto.
Qed.

Lemma behaves_compute {A B} (r : presult A) a (f : A -> thread B) evs rb :
  r = Ok a -> behaves (f a) evs rb -> behaves (x ← compute r; f x) evs rb.
Proof. by intros ->. Qed.

Lemma behaves_sendall data : behaves (sendall_ data) (map Sent data) (Ok tt).
Proof. unfold sendall_. rewrite <-(app_nil_r (map Sent data)). constructor. constructor. Qed.

Lemma behaves_note s : behaves (note s) [Noted s] (Ok tt).
Proof. constructor. constructor. Qed.

(** *** Where a thread stands *)

Definition sends (evs : list event) : bytes := omap (fun e => match e with Sent b => Some b | _ => None end) evs.
Definition receives (evs : list event) : bytes :=
  omap (fun e => match e with Received b => Some b | _ => None end) evs.
Definition notes_of (evs : list event) : list String.string :=
  omap (fun e => match e with Noted s => Some s | _ => None end) evs.

Lemma sends_app e1 e2 : sends (e1 ++ e2) = sends e1 ++ sends e2.
Proof. apply omap_app. Qed.
Lemma receives_app e1 e2 : receives (e1 ++ e2) = receives e1 ++ receives e2.
Proof. apply omap_app. Qed.
Lemma notes_app e1 e2 : notes_of (e1 ++ e2) = notes_of e1 ++ notes_of e2.
Proof. apply omap_app. Qed.

Lemma of_sent d : sends (map Sent d) = d /\ receives (map Sent d) = [] /\ notes_of (map Sent d) = [].
Proof. induction d as [|b d (IH1 & IH2 & IH3)]; [done|]. cbn. unfold sends, receives, notes_of in *. by rewrite IH1, IH2, IH3. Qed.
Lemma of_received d :
  sends (map Received d) = [] /\ receives (map Received d) = d /\ notes_of (map Received d) = [].
Proof. induction d as [|b d (IH1 & IH2 & IH3)]; [done|]. cbn. unfold sends, receives, notes_of in *. by rewrite IH1, IH2, IH3. Qed.
Lemma of_noted l : sends (map Noted l) = [] /\ receives (map Noted l) = [] /\ notes_of (map Noted l) = l.
Proof. induction l as [|b d (IH1 & IH2 & IH3)]; [done|]. cbn. unfold sends, receives, notes_of in *. by rewrite IH1, IH2, IH3. Qed.

(** *** Phases *)

(** A client sends, then receives, then sees its peer close or notes; a server
    receives, then notes, then sends. *)
Definition client_phase (e : event) : nat := match e with Sent _ => 0 | Received _ => 1 | _ => 2 end.
Definition server_phase (e : event) : nat := match e with Sent _ => 2 | Noted _ => 1 | _ => 0 end.
Definition in_phases (phase : event -> nat) : list event -> Prop := StronglySorted (fun e e' => phase e <= phase e').

Lemma in_phases_rest phase done evs : in_phases phase (done ++ evs) -> in_phases phase evs.
Proof. apply StronglySorted_app_1_r. Qed.

(** What comes before the phase of the first event is over. *)
Lemma phase_over {A} phase e evs (f : event -> option A) :
  in_phases phase (e :: evs) -> (forall e', phase e <= phase e' -> f e' = None) -> omap f (e :: evs) = [].
Proof.
  intros [H _]%StronglySorted_cons Hf.
  assert (Forall (fun e' => f e' = None) (e :: evs)) as Hn.
  { constructor; [by apply Hf|]. eapply Forall_impl; [exact H|]. intros e'. apply Hf. }
  clear H Hf. induction Hn as [|x l Hx Hl IH]; [done|]. cbn. by rewrite Hx.
Qed.

Lemma client_receiving b evs : in_phases client_phase (Received b :: evs) -> sends (Received b :: evs) = [].
Proof. intros H. eapply phase_over; [exact H|]. intros [] Hp; [cbn in Hp; lia|done..]. Qed.
Lemma client_ending e evs :
  client_phase e = 2 -> in_phases client_phase (e :: evs) ->
  sends (e :: evs) = [] /\ receives (e :: evs) = [].
Proof. intros He H. split; (eapply phase_over; [exact H|]; intros [] Hp; cbn in *; (done || lia)). Qed.
Lemma server_sending b evs :
  in_phases server_phase (Sent b :: evs) ->
  receives (Sent b :: evs) = [] /\ notes_of (Sent b :: evs) = [].
Proof. intros H. split; (eapply phase_over; [exact H|]; intros [] Hp; cbn in *; (done || lia)). Qed.

(** ** One thread's step *)

Inductive single : list event -> Prop :=
| single_sent c : single (map Sent c)
| single_received c : single (map Received c)
| single_closed : single [Closed]
| single_noted s : single [Noted s].

(** A peer that is seen to close has nothing more to come. *)
Definition closed_last (evs : list event) : Prop := forall evs', evs = Closed :: evs' -> receives evs' = [].

(** A step does the next events, as long as a peer that has closed has sent all
    and expects no more; [coming] is what the peer has still to send. *)
Lemma acts_next {A} capacity closed (t t' : thread A) i o tr i' o' tr' evs r coming :
  acts capacity closed t i o tr t' i' o' tr' -> behaves t evs r -> receives evs = i ++ coming ->
  closed_last evs -> (closed = true -> coming = [] /\ sends evs = [] /\ o = []) ->
  exists done evs', single done /\ evs = done ++ evs' /\ behaves t' evs' r
    /\ receives evs' = i' ++ coming /\ o' = o ++ sends done /\ tr' = tr ++ notes_of done.
Proof.
  intros Ha Hb Hi Hcl Hc. destruct Ha as [c d k i o tr Hn Ho|closed k i o tr|c d k i o tr Hn|d k i o tr Hn
    |closed n k c i o tr Hn Hl|n k o tr|n k i o tr Hn|closed k i o tr|closed s k i o tr].
  - inversion Hb as [|data k' evs0 r0 Hk| | |]; subst.
    destruct (of_sent c) as (E1 & E2 & E3), (of_sent d) as (D1 & D2 & D3).
    exists (map Sent c), (map Sent d ++ evs0). rewrite map_app, <-app_assoc in *.
    rewrite !receives_app, E2, D2 in Hi. rewrite E1, E3, app_nil_r, receives_app, D2.
    split_and!; try done; by constructor.
  - inversion Hb as [|data k' evs0 r0 Hk| | |]; subst. exists [], evs0. cbn [app map sends notes_of omap list_omap].
    rewrite !app_nil_r. split_and!; try done. by apply (single_sent []).
  - inversion Hb as [|data k' evs0 r0 Hk| | |]; subst. destruct (Hc eq_refl) as (_ & Hs & _).
    rewrite sends_app, (proj1 (of_sent _)) in Hs. by destruct c.
  - inversion Hb as [|data k' evs0 r0 Hk| | |]; subst. destruct (Hc eq_refl) as (_ & Hs & _).
    rewrite sends_app, (proj1 (of_sent _)) in Hs. by destruct d.
  - inversion Hb as [| |n' k' data evs0 r0 Hld Hnd Hk|n' k' evs0 r0 Hpos Hk|]; subst.
    2: { cbn [receives omap list_omap] in Hi. fold (receives evs0) in Hi. rewrite (Hcl _ eq_refl) in Hi. by destruct c. }
    destruct (of_received data) as (_ & E2 & _). rewrite receives_app, E2, <-app_assoc in Hi.
    assert (exists d, data = c ++ d) as (d & ->).
    { exists (drop (length c) data). rewrite <-(take_drop (length c) data) at 1. f_equal.
      apply (f_equal (take (length c))) in Hi. by rewrite take_app_le, take_app_length in Hi. }
    destruct (of_received c) as (C1 & C2 & C3), (of_received d) as (D1 & D2 & D3).
    exists (map Received c), (map Received d ++ evs0). rewrite map_app, <-app_assoc.
    rewrite C1, C3, !app_nil_r, receives_app, D2. rewrite <-app_assoc in Hi. apply app_inv_head in Hi.
    split_and!; try done; [constructor|by apply Hk].
  - inversion Hb as [| |n' k' data evs0 r0 Hld Hnd Hk|n' k' evs0 r0 Hpos Hk|]; subst.
    2: { exists [Closed], evs0. rewrite !app_nil_r. split_and!; try done. constructor. }
    destruct (Hc eq_refl) as (-> & _ & _). rewrite receives_app, (proj1 (proj2 (of_received data))) in Hi. by destruct data.
  - destruct (Hc eq_refl) as (_ & _ & ->). done.
  - inversion Hb as [| |n' k' data evs0 r0 Hld Hnd Hk|n' k' evs0 r0 Hpos Hk|]; subst; [|lia].
    by apply nil_length_inv in Hld.
  - inversion Hb as [| | | |s' k' evs0 r0 Hk]; subst. exists [Noted s], evs0.
    rewrite app_nil_r. split_and!; try done. constructor.
Qed.

(** A thread that has not ended acts, unless the buffer is full or nothing has
    arrived. *)
Lemma acts_or_waits {A} capacity closed (t : thread A) i o tr evs r :
  0 < capacity -> behaves t evs r ->
  (exists t' i' o' tr', acts capacity closed t i o tr t' i' o' tr')
  \/ (ended t = true /\ t = Ended r /\ evs = [])
  \/ (exists b evs', evs = Sent b :: evs' /\ o <> [])
  \/ (exists b evs', evs = Received b :: evs' /\ i = [])
  \/ (exists evs', evs = Closed :: evs' /\ i = [] /\ closed = false).
Proof.
  intros Hcap [r0|data k evs0 r0 Hk|n k data evs0 r0 Hl Hn Hk|n k evs0 r0 Hn Hk|s k evs0 r0 Hk].
  - right; left. done.
  - destruct data as [|b data]; [left; do 4 eexists; constructor|].
    destruct closed; [left; do 4 eexists; by apply (acts_send_lost _ [b])|].
    destruct (decide (o = [])) as [->|Ho]; [|right; right; left; by exists b, (map Sent data ++ evs0)].
    left. do 4 eexists. apply (acts_send _ [b]); [done|cbn; lia].
  - destruct i as [|b i].
    + right; right; right; left. destruct data as [|b data]; [done|]. by exists b, (map Received data ++ evs0).
    + left. do 4 eexists. apply (acts_recv _ _ _ _ [b]); [done|]. destruct data; [done|subst; cbn; lia].
  - destruct i as [|b i].
    + destruct closed; [left; do 4 eexists; constructor|]. right; right; right; right. by exists evs0.
    + left. do 4 eexists. apply (acts_recv _ _ _ _ [b]); [done|cbn; lia].
  - left. do 4 eexists. constructor.
Qed.

(** ** Two threads that fit together *)

Section course.
Context {A B : Type} (capacity : nat) (ra : presult A) (rb : presult B) (notes : list String.string).

(** What each has still to do, and what is under way between them. *)
Inductive on_course (s : session A B) : Prop :=
| on_course_intro el er :
    behaves (client s) el ra -> behaves (server s) er rb ->
    in_phases client_phase el -> in_phases server_phase er ->
    receives er = to_server s ++ sends el -> receives el = to_client s ++ sends er ->
    trace s ++ notes_of er ++ notes_of el = notes -> (notes_of er <> [] -> sends er <> []) ->
    Closed ∉ er -> on_course s.

Definition all_done : session A B := mk_session (Ended ra) (Ended rb) [] [] notes.

Lemma ended_behaves {C} (t : thread C) evs r : behaves t evs r -> ended t = true -> t = Ended r /\ evs = [].
Proof. by destruct 1. Qed.

Lemma no_more {C} (t : thread C) evs r (arrived : bytes) coming :
  behaves t evs r -> receives evs = arrived ++ coming -> ended t = true -> arrived = [] /\ coming = [].
Proof. intros Hb Hi He. destruct (ended_behaves _ _ _ Hb He) as [_ ->]. by apply symmetry, app_nil in Hi. Qed.

Lemma client_step_on_course p p' q i i' o o' tr tr' :
  on_course (mk_session p q o i tr) -> acts capacity (ended q) p i o tr p' i' o' tr' ->
  on_course (mk_session p' q o' i' tr').
Proof.
  intros [el er Hp Hq Hel Her Ho Hi Ht Hn Hcl] Ha. cbn [client server to_server to_client trace] in *.
  destruct (acts_next _ _ _ _ _ _ _ _ _ _ _ _ _ Ha Hp Hi) as (did & el' & Hs & -> & Hp' & Hi' & -> & ->).
  { intros el' ->. by apply client_ending in Hel as [_ ?]. }
  { intros He. pose proof (no_more _ _ _ _ _ Hq Ho He) as [? ?].
    by destruct (ended_behaves _ _ _ Hq He) as [_ ->]. }
  exists el' er; cbn [client server to_server to_client trace]; try done.
  - by apply in_phases_rest in Hel.
  - by rewrite Ho, sends_app, app_assoc.
  - rewrite <-Ht, notes_app, <-!app_assoc. f_equal. destruct Hs as [c|c| |s].
    + by rewrite !(proj2 (proj2 (of_sent c))).
    + by rewrite !(proj2 (proj2 (of_received c))).
    + done.
    + apply client_ending in Hel as [_ Hel]; [|done]. cbn [app] in Hi. rewrite Hel in Hi.
      symmetry in Hi. apply app_nil in Hi as [_ Hse].
      destruct (notes_of er) eqn:En; [done|by destruct Hn].
Qed.

Lemma server_step_on_course p q q' i i' o o' tr tr' :
  on_course (mk_session p q i o tr) -> acts capacity (ended p) q i o tr q' i' o' tr' ->
  on_course (mk_session p q' i' o' tr').
Proof.
  intros [el er Hp Hq Hel Her Hi Ho Ht Hn Hcl] Ha. cbn [client server to_server to_client trace] in *.
  destruct (acts_next _ _ _ _ _ _ _ _ _ _ _ _ _ Ha Hq Hi) as (did & er' & Hs & -> & Hq' & Hi' & -> & ->).
  { intros er' ->. by destruct Hcl; left. }
  { intros He. pose proof (no_more _ _ _ _ _ Hp Ho He) as [? ?].
    by destruct (ended_behaves _ _ _ Hp He) as [_ ->]. }
  exists el er'; cbn [client server to_server to_client trace]; try done.
  - by apply in_phases_rest in Her.
  - by rewrite Ho, sends_app, app_assoc.
  - by rewrite <-Ht, notes_app, <-!app_assoc.
  - intros Hne. destruct Hs as [[|b c]|c| |s].
    + by apply Hn.
    + apply server_sending in Her as [_ Her]. change (notes_of (map Sent (b :: c) ++ er') = []) in Her.
      rewrite notes_app in Her. by apply app_nil in Her as [_ ?].
    + rewrite notes_app, sends_app, !(proj2 (proj2 (of_received c))), (proj1 (of_received c)) in Hn. by apply Hn.
    + by destruct Hcl; left.
    + by apply Hn.
  - intros Hin. apply Hcl, elem_of_app. by right.
Qed.

Lemma step_on_course s s' : on_course s -> step capacity s s' -> on_course s'.
Proof.
  intros Hs H. destruct H as [p q i o tr p' o' i' tr' Ha|p q i o tr q' i' o' tr' Ha].
  - eapply client_step_on_course; [exact Hs|exact Ha].
  - eapply server_step_on_course; [exact Hs|exact Ha].
Qed.

Lemma steps_on_course s s' : on_course s -> rtc (step capacity) s s' -> on_course s'.
Proof. intros Hs. induction 1; [done|]. eauto using step_on_course. Qed.

(** As long as there is room for a byte, they do not wait for each other. *)
Lemma on_course_progress s : 0 < capacity -> on_course s -> s = all_done \/ red (step capacity) s.
Proof.
  intros Hcap Hs. destruct s as [p q i o tr].
  destruct Hs as [el er Hp Hq Hel Her Hi Ho Ht Hn Hcl]. cbn [client server to_server to_client trace] in *.
  destruct (acts_or_waits capacity (ended q) p o i tr el ra Hcap Hp)
    as [(p' & o' & i' & tr' & Ha)|Hwp]; [right; eexists; by apply step_client|].
  destruct (acts_or_waits capacity (ended p) q i o tr er rb Hcap Hq)
    as [(q' & i' & o' & tr' & Ha)|Hwq]; [right; eexists; by apply step_server|].
  destruct Hwq as [(He & -> & ->)|[(b & er' & -> & Hno)|[(b & er' & -> & ->)|(er' & -> & _)]]].
  - symmetry in Hi. apply app_nil in Hi as [-> Hse].
    destruct Hwp as [(_ & -> & ->)|[(b & el' & -> & Hni)|[(b & el' & -> & ->)|(el' & -> & -> & ?)]]]; [|done..|by rewrite He in *].
    symmetry in Ho. apply app_nil in Ho as [-> _]. left. unfold all_done. rewrite <-Ht.
    by rewrite !app_nil_r.
  - apply server_sending in Her as [Hr _]. rewrite Hr in Hi. symmetry in Hi. apply app_nil in Hi as [-> Hse].
    destruct Hwp as [(_ & -> & ->)|[(b' & el' & -> & Hni)|[(b' & el' & -> & ->)|(el' & -> & -> & _)]]]; [|done..].
    symmetry in Ho. by apply app_nil in Ho as [-> _].
  - destruct Hwp as [(_ & -> & ->)|[(b' & el' & -> & Hni)|[(b' & el' & -> & ->)|(el' & -> & -> & _)]]]; [done|done|..].
    + by rewrite (client_receiving _ _ Hel) in Hi.
    + by rewrite (proj1 (client_ending Closed _ eq_refl Hel)) in Hi.
  - by destruct Hcl; left.
Qed.
End course.

(** Every interleaving of the two ends, and after any steps one of them can act
    until all is done. *)
Definition always_ends {A B} (capacity : nat) (noted : list String.string) (p : thread A) (q : thread B)
    (ra : presult A) (rb : presult B) (notes : list String.string) : Prop :=
  sn (step capacity) (connected noted p q)
  /\ forall s, rtc (step capacity) (connected noted p q) s ->
     s = all_done ra rb (noted ++ notes) \/ red (step capacity) s.

(** All that was done stays done. *)
Lemma all_done_stays {A B} capacity (ra : presult A) (rb : presult B) notes :
  nf (step capacity) (all_done ra rb notes).
Proof. intros [s H]. inversion H as [? ? ? ? ? ? ? ? ? Ha|? ? ? ? ? ? ? ? ? Ha]; subst; inversion Ha. Qed.

Lemma ended_stays {A B} capacity (s s' : session A B) r :
  rtc (step capacity) s s' -> client s = Ended r -> client s' = Ended r.
Proof.
  induction 1 as [|s s1 s' Hs _ IH]; [done|]. intros He. apply IH.
  destruct Hs as [p q i o tr p' o' i' tr' Ha|]; [|done]. cbn [client] in *. subst p. inversion Ha.
Qed.

(** What is reached can go on to the end. *)
Lemma always_ends_run {A B} capacity noted (p : thread A) (q : thread B) ra rb notes s :
  always_ends capacity noted p q ra rb notes -> rtc (step capacity) (connected noted p q) s ->
  rtc (step capacity) s (all_done ra rb (noted ++ notes)).
Proof.
  intros [_ Hall] Hs. induction (step_ends capacity s) as [s _ IH].
  destruct (Hall s Hs) as [->|[s' H']]; [done|]. eapply rtc_l; [exact H'|].
  apply IH; [done|]. eapply rtc_r; [exact Hs|exact H'].
Qed.

Lemma client_ends {A B} capacity noted (p : thread A) (q : thread B) ra rb notes s r :
  always_ends capacity noted p q ra rb notes -> rtc (step capacity) (connected noted p q) s ->
  client s = Ended r -> r = ra.
Proof.
  intros Hall Hs Hr. apply (always_ends_run _ _ _ _ _ _ _ _ Hall) in Hs.
  apply (ended_stays _ _ _ _ Hs) in Hr. by injection Hr.
Qed.

Lemma server_ended_stays {A B} capacity (s s' : session A B) r :
  rtc (step capacity) s s' -> server s = Ended r -> server s' = Ended r.
Proof.
  induction 1 as [|s s1 s' Hs _ IH]; [done|]. intros He. apply IH.
  destruct Hs as [|p q i o tr q' i' o' tr' Ha]; [done|]. cbn [server] in *. subst q. inversion Ha.
Qed.

Lemma server_ends {A B} capacity noted (p : thread A) (q : thread B) ra rb notes s r :
  always_ends capacity noted p q ra rb notes -> rtc (step capacity) (connected noted p q) s ->
  server s = Ended r -> r = rb.
Proof.
  intros Hall Hs Hr. apply (always_ends_run _ _ _ _ _ _ _ _ Hall) in Hs.
  apply (server_ended_stays _ _ _ _ Hs) in Hr. by injection Hr.
Qed.

Lemma nothing_left {A B} capacity noted (p : thread A) (q : thread B) ra rb notes s :
  always_ends capacity noted p q ra rb notes -> rtc (step capacity) (connected noted p q) s ->
  nf (step capacity) s -> s = all_done ra rb (noted ++ notes).
Proof. intros [_ Hall] Hs Hn. by destruct (Hall s Hs). Qed.

(** Two threads that fit together end with the results and notes of the order in
    which they wait for each other. *)
Theorem interleavings_agree {A B} capacity noted (p : thread A) (q : thread B) el er ra rb
    (Hcap : 0 < capacity) (Hp : behaves p el ra) (Hq : behaves q er rb)
    (Hel : in_phases client_phase el) (Her : in_phases server_phase er)
    (Hto : receives er = sends el) (Hfrom : receives el = sends er)
    (Hn : notes_of er <> [] -> sends er <> []) (Hcl : Closed ∉ er) :
  always_ends capacity noted p q ra rb (notes_of er ++ notes_of el).
Proof.
  split; [apply step_ends|]. intros s Hs. eapply on_course_progress; [done|].
  eapply steps_on_course; [|exact Hs]. by exists el er.
Qed.

(** *** A question and an answer *)

Lemma phases_app phase e1 e2 n :
  in_phases phase e1 -> in_phases phase e2 -> Forall (fun e => phase e <= n) e1 ->
  Forall (fun e => n <= phase e) e2 -> in_phases phase (e1 ++ e2).
Proof.
  intros H1 H2 Hle Hge. induction H1 as [|e e1 H1 IH He]; [done|]. inversion_clear Hle as [|? ? Hn Hle'].
  cbn. constructor; [by apply IH|]. apply Forall_app. split; [done|].
  eapply Forall_impl; [exact Hge|]. cbn. lia.
Qed.

Lemma phases_same phase n evs : Forall (fun e => phase e = n) evs -> in_phases phase evs.
Proof.
  induction 1 as [|e evs He Hevs IH]; constructor; [done|]. eapply Forall_impl; [exact Hevs|]. cbn. lia.
Qed.

Lemma Forall_events {A} (f : A -> event) (P : event -> Prop) l : (forall a, P (f a)) -> Forall P (map f l).
Proof. intros H. apply Forall_map, Forall_true, H. Qed.

Lemma phases_three {A B C} phase (f : A -> event) (g : B -> event) (h : C -> event) l1 l2 l3 :
  (forall a, phase (f a) = 0) -> (forall b, phase (g b) = 1) -> (forall c, phase (h c) = 2) ->
  in_phases phase (map f l1 ++ map g l2 ++ map h l3).
Proof.
  intros Hf Hg Hh. apply (phases_app _ _ _ 0).
  - by eapply phases_same, Forall_events.
  - apply (phases_app _ _ _ 1); [by eapply phases_same, Forall_events..| |];
      apply Forall_events; intros x; rewrite ?Hg, ?Hh; lia.
  - apply Forall_events. intros x. by rewrite Hf.
  - apply Forall_app. split; apply Forall_events; intros x; lia.
Qed.

(** The client asks, the server answers; each notes what it does. *)
Theorem question_and_answer {A B} capacity noted (p : thread A) (q : thread B) question answer notes_q notes_p ra rb
    (Hcap : 0 < capacity) (Hanswer : answer <> [])
    (Hp : behaves p (map Sent question ++ map Received answer ++ map Noted notes_p) ra)
    (Hq : behaves q (map Received question ++ map Noted notes_q ++ map Sent answer) rb) :
  always_ends capacity noted p q ra rb (notes_q ++ notes_p).
Proof.
  destruct (of_sent question) as (S1 & S2 & S3), (of_sent answer) as (A1 & A2 & A3).
  destruct (of_received question) as (R1 & R2 & R3), (of_received answer) as (T1 & T2 & T3).
  destruct (of_noted notes_p) as (P1 & P2 & P3), (of_noted notes_q) as (Q1 & Q2 & Q3).
  eassert (always_ends capacity noted p q ra rb _) as H.
  { eapply interleavings_agree; [exact Hcap|exact Hp|exact Hq|..].
    - by apply phases_three.
    - by apply phases_three.
    - rewrite !receives_app, !sends_app. by rewrite R2, Q2, A2, S1, T1, P1, !app_nil_r.
    - rewrite !receives_app, !sends_app. by rewrite S2, T2, P2, R1, Q1, A1, !app_nil_r.
    - rewrite !sends_app, R1, Q1, A1. done.
    - rewrite !elem_of_app. intros [H|[H|H]]; by apply list_elem_of_fmap in H as (? & ? & _). }
  rewrite !notes_app in H. by rewrite R3, Q3, A3, S3, T3, P3, !app_nil_r in H.
Qed.

(** The client asks, and the server ends without an answer. *)
Theorem question_unanswered {A B} capacity noted (p : thread A) (q : thread B) question ra rb
    (Hcap : 0 < capacity)
    (Hp : behaves p (map Sent question ++ [Closed]) ra) (Hq : behaves q (map Received question) rb) :
  always_ends capacity noted p q ra rb [].
Proof.
  destruct (of_sent question) as (S1 & S2 & S3), (of_received question) as (R1 & R2 & R3).
  eassert (always_ends capacity noted p q ra rb _) as H.
  { eapply interleavings_agree; [exact Hcap|exact Hp|exact Hq|..].
    - by apply (phases_three _ _ Received (fun _ : unit => Closed) question [] [tt]).
    - by apply (phases_same _ 0), Forall_events.
    - by rewrite sends_app, R2, S1, app_nil_r.
    - by rewrite receives_app, S2, R1.
    - by rewrite R3.
    - intros H. by apply list_elem_of_fmap in H as (? & ? & _). }
  rewrite !notes_app in H. by rewrite R3, S3 in H.
Qed.
