(* ===== verification/PyThreads.v ===== *)
(** * A job between two Python threads

    The client and the server of transport.py again, now as programs of
    [Threads]: [run] gives each the meaning [PyTransport] has, on a socket
    whose traffic is known ([transport_threads_run]), and
    [job_survives_interleaving] lets them run at the same time. *)
From Equations Require Import Equations.
From stdpp Require Import relations.
From S2P Require Import Prelude Unicode Framing PyText PyJson PyLoads PyRoundTrip PyJob PyTransport.
From S2P Require Import Interop WireInterop PyExchange Threads.

(** ** The code of transport.py *)

(** The loop of [_recv_exact] and the [join] of its chunks; [closed] is what it
    raises when its peer closes too early. *)
Equations recv_exact_ (closed : pyexn) (remaining : nat) : thread bytes by wf remaining lt :=
  recv_exact_ closed 0 := Ended (Ok []);
  recv_exact_ closed (S n) := Receiving (S n) (fun chunk =>
    match chunk with
    | [] => Ended (Raise closed)
    | b :: chunk' => rest ← recv_exact_ closed (n - length chunk'); Ended (Ok ((b :: chunk') ++ rest))
    end).
Next Obligation. lia. Qed.

(** A frame is its length and its body. *)
Definition recv_body_ (closed invalid : pyexn) : thread bytes :=
  header ← recv_exact_ closed 4;
  let length := unpack_I header in
  compute (raise_if ((length <=? 0) || (MAX_FRAME_BYTES <? length))%Z invalid);;
  recv_exact_ closed (Z.to_nat length).

Module threaded.
Section transport.
Context (recursion_left : nat).

Definition send_frame (message_type : pystr) (payload : pydict) : thread unit :=
  let body := dumps (frame_obj message_type payload) in
  compute (raise_if (MAX_FRAME_BYTES <? Z.of_nat (length body))%Z (ValueError "frame too large"));;
  sendall_ (pack_I (Z.of_nat (length body)) ++ body).

Definition recv_frame : thread (pystr * list (pystr * json)) :=
  body ← recv_body_ (ConnectionError "connection closed before frame completed")
           (ValueError "invalid frame length");
  text ← compute (decode_utf8 body);
  raw ← compute (loads recursion_left text);
  compute (open_envelope raw).

Definition send_job (request : job.JobRequest.t) : thread job.JobResult.t :=
  send_frame (lit "JOB_REQUEST") (job.JobRequest.asdict request);;
  response ← recv_frame;
  let '(message_type, payload) := response in
  compute (raise_if (negb (is_lit message_type "JOB_RESULT")) (ValueError "unexpected response type"));;
  compute (make_job_result payload).

Definition serve_one_job (handler : job.JobRequest.t -> presult job.JobResult.t) : thread unit :=
  message ← recv_frame;
  let '(message_type, payload) := message in
  compute (raise_if (negb (is_lit message_type "JOB_REQUEST")) (ValueError "unexpected request type"));;
  request ← compute (make_job_request payload);
  result ← compute (handler request);
  send_frame (lit "JOB_RESULT") (job.JobResult.asdict result).
End transport.
End threaded.

(** ** The same programs on a socket *)

(** A program whose traffic is known: its notes are not kept. *)
Fixpoint run {A} (t : thread A) : PyM A :=
  match t with
  | Ended r => pure r
  | Sending data k => sendall data;; run k
  | Receiving n k => chunk ← recv n; run (k chunk)
  | Noting _ k => run k
  end.

Lemma run_then {A B} (t : thread A) (f : A -> thread B) (g : A -> PyM B) c :
  (forall a c, run (f a) c = g a c) -> run (x ← t; f x) c = (x ← run t; g x) c.
Proof.
  intros Hf. revert c. induction t as [[a|e]|data k IH|n k IH|s k IH]; intros c; cbn [mbind thread_bind thread_then run].
  - apply Hf.
  - done.
  - unfold mbind, PyM_bind in *. by destruct (sendall data c) as [[] ?].
  - unfold mbind, PyM_bind in *. destruct (recv n c) as [[] ?]; [apply IH|done].
  - apply IH.
Qed.

Lemma run_recv_exact n c :
  run (recv_exact_ (ConnectionError "connection closed before frame completed") n) c = _recv_exact n c.
Proof.
  funelim (_recv_exact n c); simp recv_exact_; cbn [run]; [done|..];
    unfold mbind at 1, PyM_bind at 1; rewrite ?Heq, ?Heq0; [done..| |];
    rewrite (run_then _ _ (fun rest => pure (Ok ((b :: chunk) ++ rest)))) by done;
    unfold mbind, PyM_bind; by rewrite Hind, Heq.
Qed.

Lemma run_send_frame k payload c : run (threaded.send_frame k payload) c = send_frame k payload c.
Proof.
  unfold threaded.send_frame, send_frame. cbv zeta.
  rewrite (run_then _ _ (fun _ => sendall (pack_I (Z.of_nat (length (dumps (frame_obj k payload))))
    ++ dumps (frame_obj k payload)))); [done|]. intros [] c'. cbn [sendall_ run].
  unfold mbind, PyM_bind, pure. by destruct (sendall _ c') as [[[]|] ?].
Qed.

Lemma run_compute {A B} (r : presult A) (f : A -> thread B) (g : A -> PyM B) c :
  (forall a c, run (f a) c = g a c) -> run (x ← compute r; f x) c = (x ← pure r; g x) c.
Proof. exact (run_then (compute r) f g c). Qed.

Lemma run_recv_frame limit c : run (threaded.recv_frame limit) c = recv_frame limit c.
Proof.
  unfold threaded.recv_frame, recv_frame, recv_body_.
  rewrite (run_then _ _ (fun body => text ← pure (decode_utf8 body); raw ← pure (loads limit text);
                                     pure (open_envelope raw))).
  2: { intros body c'. apply run_compute. intros text c2. by apply run_compute. }
  unfold mbind at 1, PyM_bind at 1.
  rewrite (run_then _ _ (fun header =>
    pure (raise_if ((unpack_I header <=? 0) || (MAX_FRAME_BYTES <? unpack_I header))%Z
            (ValueError "invalid frame length"));; _recv_exact (Z.to_nat (unpack_I header)))).
  2: { intros header c'. cbv zeta. apply run_compute. intros [] c2. apply run_recv_exact. }
  unfold mbind, PyM_bind, pure. rewrite run_recv_exact. destruct (_recv_exact 4 c) as [[header|e] c1]; [|done].
  cbv zeta. by destruct (raise_if _ _).
Qed.

Lemma run_send_job limit r c : run (threaded.send_job limit r) c = send_job limit r c.
Proof.
  unfold threaded.send_job, send_job.
  rewrite (run_then _ _ (fun _ => response ← recv_frame limit;
    let '(message_type, payload) := response in
    pure (raise_if (negb (is_lit message_type "JOB_RESULT")) (ValueError "unexpected response type"));;
    pure (make_job_result payload))).
  - unfold mbind at 1 3, PyM_bind at 1 3. by rewrite run_send_frame.
  - intros [] c1. rewrite (run_then _ _ (fun response =>
      let '(message_type, payload) := response in
      pure (raise_if (negb (is_lit message_type "JOB_RESULT")) (ValueError "unexpected response type"));;
      pure (make_job_result payload))).
    + unfold mbind at 1 3, PyM_bind at 1 3. by rewrite run_recv_frame.
    + intros [k payload] c2. by apply run_compute.
Qed.

Lemma run_serve_one_job limit handler c :
  run (threaded.serve_one_job limit handler) c = serve_one_job limit handler c.
Proof.
  unfold threaded.serve_one_job, serve_one_job.
  rewrite (run_then _ _ (fun message =>
    let '(message_type, payload) := message in
    pure (raise_if (negb (is_lit message_type "JOB_REQUEST")) (ValueError "unexpected request type"));;
    request ← pure (make_job_request payload);
    result ← pure (handler request);
    send_frame (lit "JOB_RESULT") (job.JobResult.asdict result))).
  - unfold mbind at 1 5, PyM_bind at 1 5. by rewrite run_recv_frame.
  - intros [k payload] c1. apply run_compute. intros [] c2. apply run_compute. intros r c3.
    apply run_compute. intros res c4. apply run_send_frame.
Qed.

(** The programs are those of [PyTransport]. *)
Theorem transport_threads_run (limit : nat) (r : job.JobRequest.t)
    (handler : job.JobRequest.t -> presult job.JobResult.t) (c : conn) :
  run (threaded.send_job limit r) c = send_job limit r c
  /\ run (threaded.serve_one_job limit handler) c = serve_one_job limit handler c.
Proof. split; [apply run_send_job|apply run_serve_one_job]. Qed.

(** ** What they do *)

Lemma recv_exact_behaves closed data :
  behaves (recv_exact_ closed (length data)) (map Received data) (Ok data).
Proof.
  remember (length data) as n eqn:En. revert data En. induction (lt_wf n) as [n _ IH]. intros data ->.
  destruct data as [|b data]; [simp recv_exact_; constructor|]. cbn [length]. simp recv_exact_.
  rewrite <-(app_nil_r (map _ _)). constructor; [done|done|]. intros c d Hd Hc.
  destruct c as [|b' c]; [done|]. injection Hd as <- ->. rewrite app_nil_r, length_app.
  replace (length c + length d - length c) with (length d) by lia.
  rewrite <-(app_nil_r (map Received d)). eapply behaves_then; [|constructor].
  apply IH; [cbn; rewrite length_app; lia|done].
Qed.

Lemma recv_exact_closed closed n : behaves (recv_exact_ closed (S n)) [Closed] (Raise closed).
Proof. simp recv_exact_. constructor; [lia|]. constructor. Qed.

Lemma recv_body_behaves closed invalid body frame :
  encode_frame body = Ret frame -> behaves (recv_body_ closed invalid) (map Received frame) (Ok body).
Proof.
  intros [[Hn Hl] ->]%encode_frame_ret. unfold recv_body_. rewrite map_app.
  assert (length (header_bytes (header_of (Z.of_nat (length body)))) = 4) as H4
    by (by destruct (header_of _) as [[[? ?] ?] ?]).
  eapply behaves_then; [rewrite <-H4; apply recv_exact_behaves|]. cbv zeta.
  rewrite unpack_header, big_endian_header_of by (unfold kMaxFrameBytes in Hl; lia).
  assert (0 < Z.of_nat (length body))%Z by (destruct body; [done|cbn; lia]).
  apply (behaves_compute _ tt).
  - change MAX_FRAME_BYTES with kMaxFrameBytes. by rewrite (proj2 (Z.leb_gt _ _)), (proj2 (Z.ltb_ge _ _)).
  - rewrite Nat2Z.id. apply recv_exact_behaves.
Qed.

Lemma recv_body_closed closed invalid : behaves (recv_body_ closed invalid) [Closed] (Raise closed).
Proof. apply behaves_raises, recv_exact_closed. Qed.

(** A length and a body of the C++ encoder. *)
Lemma sendall_behaves body frame :
  encode_frame body = Ret frame ->
  behaves (sendall_ (pack_I (Z.of_nat (length body)) ++ body)) (map Sent frame) (Ok tt).
Proof.
  intros [[_ Hl] ->]%encode_frame_ret. rewrite pack_header by (unfold kMaxFrameBytes in Hl; lia).
  apply behaves_sendall.
Qed.

Lemma send_frame_behaves k payload frame :
  encode_frame (dumps (frame_obj k payload)) = Ret frame ->
  behaves (threaded.send_frame k payload) (map Sent frame) (Ok tt).
Proof.
  intros Hf. pose proof (encode_frame_ret _ _ Hf) as [[_ Hl] _]. unfold threaded.send_frame. cbv zeta.
  apply (behaves_compute _ tt); [|by apply sendall_behaves].
  change MAX_FRAME_BYTES with kMaxFrameBytes. by rewrite (proj2 (Z.ltb_ge _ _)).
Qed.

(** The text of a body is read back. *)
Lemma loads_written {A} limit v (f : json -> thread A) evs r :
  writable v -> height v <= limit -> behaves (f (json_of (sort_obj v))) evs r ->
  behaves (text ← compute (decode_utf8 (dumps v)); raw ← compute (loads limit text); f raw) evs r.
Proof.
  intros Hw Hh Hb. pose proof (dumps_ascii v Hw) as Ha. eapply behaves_compute.
  - rewrite <-(utf8_text_ascii _ Ha) at 1. apply decode_utf8_text. by apply ascii_text_scalar.
  - eapply behaves_compute; [by apply loads_dumps|done].
Qed.

Lemma recv_frame_behaves limit k payload frame :
  writable (frame_obj k payload) -> height (frame_obj k payload) <= limit ->
  encode_frame (dumps (frame_obj k payload)) = Ret frame ->
  behaves (threaded.recv_frame limit) (map Received frame)
    (open_envelope (json_of (sort_obj (frame_obj k payload)))).
Proof.
  intros Hw Hh Hf. unfold threaded.recv_frame. rewrite <-(app_nil_r (map _ _)).
  eapply behaves_then; [by apply recv_body_behaves|]. apply loads_written; [done..|]. constructor.
Qed.

Lemma recv_frame_closed limit :
  behaves (threaded.recv_frame limit) [Closed]
    (Raise (ConnectionError "connection closed before frame completed")).
Proof. apply behaves_raises, recv_body_closed. Qed.

(** ** The two ends at once *)

Section exchange.
Context (limit : nat) (handler : job.JobRequest.t -> presult job.JobResult.t).
Context (r : job.JobRequest.t) (question : bytes).
Context (Hlimit : 2 <= limit) (Hr : writable (PDict (job.JobRequest.asdict r))).
Context (Hq : encode_frame (dumps (frame_obj (lit "JOB_REQUEST") (job.JobRequest.asdict r)))
              = Ret question).

Lemma serve_behaves evs rb :
  behaves (result ← compute (handler r);
           threaded.send_frame (lit "JOB_RESULT") (job.JobResult.asdict result)) evs rb ->
  behaves (threaded.serve_one_job limit handler) (map Received question ++ evs) rb.
Proof.
  intros Hb. unfold threaded.serve_one_job. eapply behaves_then.
  - rewrite <-request_envelope. apply recv_frame_behaves; [|by rewrite request_height|done].
    apply writable_frame; [apply lit_scalar; ascii_lit|done].
  - cbv beta iota. apply (behaves_compute _ tt); [done|]. apply (behaves_compute _ r); [|done].
    apply make_job_request_items.
Qed.

Lemma send_job_behaves res answer :
  writable (PDict (job.JobResult.asdict res)) ->
  encode_frame (dumps (frame_obj (lit "JOB_RESULT") (job.JobResult.asdict res))) = Ret answer ->
  behaves (threaded.send_job limit r) (map Sent question ++ map Received answer) (Ok res).
Proof.
  intros Hw Ha. unfold threaded.send_job. eapply behaves_then; [by apply send_frame_behaves|].
  destruct (result_envelope res) as (items & He & Em). rewrite <-(app_nil_r (map Received answer)).
  eapply behaves_then.
  - rewrite <-He. apply recv_frame_behaves; [|by rewrite result_height|done].
    apply writable_frame; [apply lit_scalar; ascii_lit|done].
  - cbv beta iota. apply (behaves_compute _ tt); [done|]. rewrite Em. constructor.
Qed.

Lemma send_job_closed :
  behaves (threaded.send_job limit r) (map Sent question ++ [Closed])
    (Raise (ConnectionError "connection closed before frame completed")).
Proof.
  unfold threaded.send_job. eapply behaves_then; [by apply send_frame_behaves|].
  apply behaves_raises, recv_frame_closed.
Qed.

Lemma answered_job_ends capacity res answer :
  0 < capacity -> handler r = Ok res -> writable (PDict (job.JobResult.asdict res)) ->
  encode_frame (dumps (frame_obj (lit "JOB_RESULT") (job.JobResult.asdict res))) = Ret answer ->
  always_ends capacity [] (threaded.send_job limit r) (threaded.serve_one_job limit handler)
    (Ok res) (Ok tt) [].
Proof.
  intros Hcap Hh Hw Ha. apply (question_and_answer _ _ _ _ question answer [] []); [done| | |].
  - apply encode_frame_ret in Ha as [_ ->]. by destruct (header_of _) as [[[? ?] ?] ?].
  - rewrite app_nil_r. by apply send_job_behaves.
  - apply serve_behaves. apply (behaves_compute _ res); [done|]. by apply send_frame_behaves.
Qed.

Lemma refused_job_ends capacity e :
  0 < capacity -> handler r = Raise e ->
  always_ends capacity [] (threaded.send_job limit r) (threaded.serve_one_job limit handler)
    (Raise (ConnectionError "connection closed before frame completed")) (Raise e) [].
Proof.
  intros Hcap He. apply (question_unanswered _ _ _ _ question); [done|by apply send_job_closed|].
  rewrite <-(app_nil_r (map Received question)). apply serve_behaves, behaves_raises. rewrite He. constructor.
Qed.

(** C35: A job between two Python threads, whatever the scheduler does.  [send_job]
    and [serve_one_job] run at the same time, over a connection that takes at
    least one byte at a time in each direction, delivers the bytes of either
    side in chunks of any size, and lets either side act at any moment.  The
    texts of the request and the result can be encoded and their frames fit.
    Then every interleaving ends; neither side waits for the other in vain; and
    it can only end with the client holding the very result the handler returned
    and nothing left on the connection, or, when the handler raised, with the
    server raising the same and the client raising [ConnectionError]. *)
Theorem job_survives_interleaving (capacity : nat) (Hcap : 0 < capacity) :
  (forall res answer,
     handler r = Ok res -> writable (PDict (job.JobResult.asdict res)) ->
     encode_frame (dumps (frame_obj (lit "JOB_RESULT") (job.JobResult.asdict res))) = Ret answer ->
     always_ends capacity [] (threaded.send_job limit r) (threaded.serve_one_job limit handler)
       (Ok res) (Ok tt) [])
  /\ (forall e, handler r = Raise e ->
      always_ends capacity [] (threaded.send_job limit r) (threaded.serve_one_job limit handler)
        (Raise (ConnectionError "connection closed before frame completed")) (Raise e) []).
Proof.
  split.
  - intros res answer Hh Hw Ha. by eapply answered_job_ends.
  - intros e He. by apply refused_job_ends.
Qed.
End exchange.
