(* ===== verification/PySealed.v ===== *)
(** * Signed frames between Python nodes

    A frame whose payload ends with the text of an Ed25519 signature, as
    [send_frame] of transport.py and of the failover scripts writes it: it can
    be written, and it fits. *)
From S2P Require Import Prelude Unicode Framing PyText PyJson PyRoundTrip PyJob PyTransport PyAuth Crypto CryptoSpec.
From S2P Require Import Interop WireInterop PyExchange.

(** A message with the text of its signature at the end. *)
Definition sealed (k : pystr) (payload : pydict) (signature : pystr) : pyobj :=
  frame_obj k (payload ++ [(lit "signature", PStr signature)]).

(** *** Their size *)

Definition items_length (items : list (pystr * bytes)) : nat :=
  sum_list_with (fun item => S (length (dump_item item))) items.

Lemma items_length_perm l l' : l ≡ₚ l' -> items_length l = items_length l'.
Proof. unfold items_length. induction 1; cbn in *; lia. Qed.

Lemma members_length items : length (members_text items) <= 2 + items_length items.
Proof.
  unfold members_text. rewrite !length_app. cbn [str length].
  assert (forall texts, length (join x2c texts) <= sum_list_with (fun t : bytes => S (length t)) texts) as Hj.
  { induction texts as [|t [|t' texts] IH]; [done|cbn; lia|]. cbn [join sum_list_with] in *.
    rewrite length_app. cbn [length]. lia. }
  specialize (Hj (map dump_item (sort_items items))).
  assert (sum_list_with (fun t : bytes => S (length t)) (map dump_item (sort_items items)) = items_length items) as <-.
  { rewrite <-(items_length_perm _ _ (sort_items_perm items)). unfold items_length.
    clear Hj. induction (sort_items items) as [|i l IH]; [done|]. cbn [map sum_list_with]. by rewrite IH. }
  change (length (str "{")) with 1. change (length (str "}")) with 1. lia.
Qed.

Lemma py_string_length s : length (py_json_string s) <= 2 + 12 * length s.
Proof.
  unfold py_json_string. rewrite !length_app. cbn [length].
  assert (length (concat (map py_escape_char s)) <= 12 * length s); [|lia].
  induction s as [|c s IH]; [done|]. cbn [map concat length]. rewrite length_app.
  assert (length (py_escape_char c) <= 12) by (unfold py_escape_char; by repeat case_match; cbn; lia). lia.
Qed.

(** What is around the signature. *)
Definition overhead (k : pystr) (payload : pydict) : nat :=
  length (py_json_string k) + items_length (map (fun '(k, v) => (k, dumps v)) payload).

Lemma sealed_fits k payload s :
  overhead k payload <= 1000 -> length s <= 100 -> frameable (dumps (sealed k payload s)).
Proof.
  intros Ho Hs. split; [done|].
  change (dumps (sealed k payload s)) with (members_text
    [(lit "type", py_json_string k);
     (lit "payload", members_text (map (fun '(k, v) => (k, dumps v)) (payload ++ [(lit "signature", PStr s)])))]).
  pose proof (py_string_length s) as Hl. unfold overhead in Ho.
  eassert (_ <= _) as Hin by apply (members_length (map (fun '(k, v) => (k, dumps v)) (payload ++ [(lit "signature", PStr s)]))).
  rewrite map_app in *. unfold items_length in Hin at 1. rewrite sum_list_with_app in Hin.
  fold (items_length (map (fun '(k, v) => (k, dumps v)) payload)) in Hin.
  cbn [map sum_list_with fst snd dumps] in Hin. unfold dump_item in Hin. rewrite !length_app in Hin.
  eassert (_ <= _) as Hout by apply (members_length
    [(lit "type", py_json_string k);
     (lit "payload", members_text (map (fun '(k, v) => (k, dumps v)) payload
                                   ++ map (fun '(k, v) => (k, dumps v)) [(lit "signature", PStr s)]))]).
  unfold items_length, dump_item in Hout. cbn [map sum_list_with fst snd] in Hout. rewrite !length_app in Hout.
  change (length (py_json_string (lit "type"))) with 6 in Hout.
  change (length (py_json_string (lit "payload"))) with 9 in Hout.
  cbn [fst snd] in Hin. change (length (py_json_string (lit "signature"))) with 11 in Hin.
  change (length (str ":")) with 1 in *. unfold kMaxFrameBytes. cbn [map dumps] in *. lia.
Qed.

(** A payload that can be signed and sent. *)
Record sendable (k : pystr) (payload : pydict) : Prop := {
  sendable_type : Forall scalar k;
  sendable_writable : writable (PDict payload);
  sendable_unsigned : lit "signature" ∉ map fst payload;
  sendable_flat : height (PDict payload) <= 1;
  sendable_size : overhead k payload <= 1000;
}.

Lemma signed_writable k payload s :
  sendable k payload -> Forall scalar s -> writable (PDict (payload ++ [(lit "signature", PStr s)])).
Proof.
  intros [_ Hw Hf _ _] Hs. inversion_clear Hw as [| | | | | |? Hd Hks Hvs]. constructor.
  - rewrite map_app. apply NoDup_app. split; [done|]. split; [|by apply NoDup_singleton].
    intros x Hx ->%list_elem_of_singleton. done.
  - apply Forall_app. split; [done|]. constructor; [apply lit_scalar; ascii_lit|done].
  - apply Forall_app. split; [done|]. constructor; [by constructor|done].
Qed.

Lemma sealed_writable k payload s : sendable k payload -> Forall scalar s -> writable (sealed k payload s).
Proof. intros H Hs. apply writable_frame; [apply H|by eapply signed_writable]. Qed.

Lemma sealed_height k payload s : sendable k payload -> height (sealed k payload s) <= 2.
Proof.
  intros [_ _ _ Hh _]. unfold sealed, frame_obj. cbn [height map list_max fold_right] in *.
  rewrite map_app. rewrite list_max_app. cbn [height map list_max fold_right]. unfold list_max in *. lia.
Qed.

Ltac sendable_message :=
  constructor;
  [apply lit_scalar; ascii_lit
  |writable_dict
  |by apply (bool_decide_unpack _); vm_compute
  |apply Nat.leb_le; vm_compute; reflexivity
  |apply Nat.leb_le; vm_compute; reflexivity].

(** ** Signatures *)

Section seal.
Context `{L : Ed25519Laws}.

(** The text of the signature of a payload. *)
Definition seal (key : Ed25519PrivateKey) (payload : pydict) : pystr :=
  _b64 (sign key (canonical_json (PDict payload))).

Lemma seal_scalar key payload : Forall scalar (seal key payload).
Proof. apply ascii_text_scalar, to_url_ascii. Qed.

Lemma seal_length key payload : length (seal key payload) = 88.
Proof.
  unfold seal, _b64, ascii_text, to_url, replace_char. by rewrite !length_map, length_base64, sign_length.
Qed.

(** A signed payload fits in a frame. *)
Lemma signed_frame k payload key :
  sendable k payload ->
  exists frame, encode_frame (dumps (sealed k payload (seal key payload))) = Ret frame /\ frame <> [].
Proof.
  intros H. rewrite encode_frame_ok by (apply sealed_fits; [apply H|rewrite seal_length; lia]).
  eexists. split; [reflexivity|]. by destruct (header_of _) as [[[? ?] ?] ?].
Qed.
End seal.
