(* ===== verification/Tcp.v ===== *)
(** * Sockets (cpp/include/ma2a/tcp.hpp)

    The system calls are not part of the repository: the class [Posix] lists
    the ones the code makes, over the world [W].  A call returns its value
    and the [errno] it leaves.  Loops that retry take a bound on the number of
    their rounds ([fuel]); Network.v shows which bounds are enough. *)
From S2P Require Import Prelude Reader Framing.

(** ** The interface to the system *)

Record sysret : Type := { sr_val : Z; sr_errno : Z }.

Record timeval : Type := { tv_sec : Z; tv_usec : Z }.

Record sockaddr_in : Type := { sin_family : Z; sin_port : Z; sin_addr : bytes }.

(** The constants of the Linux headers. *)
Definition AF_INET : Z := 2.
Definition SO_RCVTIMEO : Z := 20.
Definition SO_SNDTIMEO : Z := 21.
Definition MSG_NOSIGNAL : Z := 0x4000.
Definition O_NONBLOCK : Z := 2048.
Definition POLLOUT : Z := 4.
Definition EINTR : Z := 4.
Definition EAGAIN : Z := 11.
Definition EWOULDBLOCK : Z := EAGAIN.
Definition EINPROGRESS : Z := 115.

Class Posix (W : Type) : Type := {
  (** [socket(AF_INET, SOCK_STREAM, 0)] *)
  sys_socket : W -> sysret * W;
  sys_close : Z -> W -> W;
  (** [fcntl(fd, F_GETFL, 0)] and [fcntl(fd, F_SETFL, flags)] *)
  sys_fcntl_getfl : Z -> W -> sysret * W;
  sys_fcntl_setfl : Z -> Z -> W -> sysret * W;
  sys_connect : Z -> sockaddr_in -> W -> sysret * W;
  (** [poll] on one descriptor: the events and the timeout in milliseconds. *)
  sys_poll : Z -> Z -> Z -> W -> sysret * W;
  (** [getsockopt(fd, SOL_SOCKET, SO_ERROR, ...)], with the value it stores. *)
  sys_getsockopt_error : Z -> W -> (sysret * Z) * W;
  (** [setsockopt(fd, SOL_SOCKET, option, &tv, sizeof(tv))] *)
  sys_setsockopt_timeout : Z -> Z -> timeval -> W -> sysret * W;
  (** [send(fd, data, size, flags)] *)
  sys_send : Z -> bytes -> Z -> W -> sysret * W;
  (** [recv(fd, buffer, size, flags)], with the bytes stored in the buffer. *)
  sys_recv : Z -> nat -> Z -> W -> (sysret * bytes) * W;
  (** [inet_pton(AF_INET, host, ...)]: the address when it returns 1. *)
  inet_pton : bytes -> option bytes;
  (** The nanoseconds of [std::chrono::system_clock::now()] since the epoch. *)
  system_clock_now : W -> Z * W;
}.

(** [s.c_str()] as a C function reads it. *)
Fixpoint c_str (s : bytes) : bytes :=
  match s with
  | [] => []
  | c :: s => if decide (c = x00) then [] else c :: c_str s
  end.

(** [htons] on a little-endian host. *)
Definition htons (port : Z) : Z := Z.lor (Z.shiftl (Z.land port 0xff) 8) (Z.shiftr port 8).

(** ** Socket handles *)

Module SocketHandle.
Record t : Type := mk { fd_ : Z }.

Definition get (h : t) : Z := fd_ h.

(** The move constructor: the new handle, and what is left in the old one. *)
Definition move (other : t) : t * t := (mk (fd_ other), mk (-1)).

Section effects.
Context {W : Type} `{P : Posix W}.

(** The destructor. *)
Definition destroy (h : t) (w : W) : W := if (0 <=? fd_ h)%Z then sys_close (fd_ h) w else w.

(** The move assignment between two different objects; a self-assignment
    does nothing. *)
Definition move_assign (self other : t) (w : W) : (t * t) * W :=
  let w := destroy self w in ((mk (fd_ other), mk (-1)), w).
Definition self_assign (self : t) (w : W) : t * W := (self, w).
End effects.
End SocketHandle.

Section tcp.
Context {W : Type} `{P : Posix W}.

(** ** Sending and receiving *)

Definition is_timeout (errno : Z) : bool := (errno =? EAGAIN)%Z || (errno =? EWOULDBLOCK)%Z.

(** The loop of [send_all], [sent] bytes into [data]. *)
Fixpoint send_all_from (fuel : nat) (fd : Z) (data : bytes) (sent : nat) : M W unit :=
  match fuel with
  | O => lift OutOfFuel
  | S fuel =>
      if negb (sent <? length data) then mret tt else
      n ← call (sys_send fd (drop sent data) MSG_NOSIGNAL);
      if (0 <? sr_val n)%Z then send_all_from fuel fd data (sent + Z.to_nat (sr_val n))
      else if (sr_val n <? 0)%Z && (sr_errno n =? EINTR)%Z then send_all_from fuel fd data sent
      else if (sr_val n <? 0)%Z && is_timeout (sr_errno n)
      then throw (runtime_error "socket send timeout")
      else throw (runtime_error "socket send failed")
  end.

Definition send_all (fuel : nat) (fd : Z) (data : bytes) : M W unit :=
  send_all_from fuel fd data 0.

(** Storing the received bytes at an offset of the buffer. *)
Definition store_at (out : bytes) (offset : nat) (data : bytes) : outcome bytes :=
  if length out <? offset + length data then Undef out_of_range
  else Ret (take offset out ++ data ++ drop (offset + length data) out).

(** The loop of [recv_exact], with [received] bytes in [out]. *)
Fixpoint recv_exact_from (fuel : nat) (fd : Z) (size : nat) (out : bytes) (received : nat)
    : M W bytes :=
  match fuel with
  | O => lift OutOfFuel
  | S fuel =>
      if negb (received <? size) then mret out else
      r ← call (sys_recv fd (size - received) 0);
      let '(n, data) := r in
      if (0 <? sr_val n)%Z then
        out ← lift (store_at out received data);
        recv_exact_from fuel fd size out (received + Z.to_nat (sr_val n))
      else if (sr_val n =? 0)%Z
      then throw (runtime_error "connection closed before frame completed")
      else if (sr_errno n =? EINTR)%Z then recv_exact_from fuel fd size out received
      else if is_timeout (sr_errno n) then throw (runtime_error "socket receive timeout")
      else throw (runtime_error "socket receive failed")
  end.

Definition recv_exact (fuel : nat) (fd : Z) (size : nat) : M W bytes :=
  recv_exact_from fuel fd size (replicate size x00) 0.

Definition send_framed_json (fuel : nat) (fd : Z) (json : bytes) : M W unit :=
  frame ← lift (encode_frame json);
  send_all fuel fd frame.

Definition recv_framed_json (fuel : nat) (fd : Z) : M W bytes :=
  header_raw ← recv_exact fuel fd 4;
  h ← lift (match header_raw with
            | h0 :: h1 :: h2 :: h3 :: _ => Ret (h0, h1, h2, h3)
            | _ => Undef out_of_range
            end);
  body_size ← lift (decode_frame_size h);
  recv_exact fuel fd (Z.to_nat body_size).

(** ** Deadlines *)

Definition timeval_of_ms (total_ms : Z) : timeval :=
  {| tv_sec := Z.quot total_ms 1000; tv_usec := (Z.rem total_ms 1000) * 1000 |}.

Definition set_socket_io_timeout (fd : Z) (timeout : Z) : M W unit :=
  if (timeout <=? 0)%Z then throw (invalid_argument "socket timeout must be positive") else
  let tv := timeval_of_ms timeout in
  rc ← call (sys_setsockopt_timeout fd SO_RCVTIMEO tv);
  if negb (sr_val rc =? 0)%Z then throw (runtime_error "failed to set socket receive timeout") else
  rc ← call (sys_setsockopt_timeout fd SO_SNDTIMEO tv);
  if negb (sr_val rc =? 0)%Z then throw (runtime_error "failed to set socket send timeout") else
  mret tt.

(** ** Connecting *)

Definition ipv4_address (host : bytes) (port : Z) : outcome sockaddr_in :=
  match inet_pton (c_str host) with
  | Some addr => Ret {| sin_family := AF_INET; sin_port := htons port; sin_addr := addr |}
  | None => Throw (invalid_argument "invalid IPv4 address")
  end.

(** A scope that owns a fresh socket until it returns it. *)
Definition with_new_socket (body : SocketHandle.t -> M W unit) : M W SocketHandle.t :=
  fd ← call sys_socket;
  let sock := SocketHandle.mk (sr_val fd) in
  on_unwind (SocketHandle.destroy sock)
    (if (SocketHandle.get sock <? 0)%Z then throw (runtime_error "socket creation failed") else
     body sock;;
     mret (fst (SocketHandle.move sock))).

Definition connect_ipv4 (host : bytes) (port : Z) : M W SocketHandle.t :=
  with_new_socket (fun sock =>
    address ← lift (ipv4_address host port);
    rc ← call (sys_connect (SocketHandle.get sock) address);
    if negb (sr_val rc =? 0)%Z then throw (runtime_error "socket connect failed") else
    mret tt).

(** The do-while loop around [poll]. *)
Fixpoint poll_connect (fuel : nat) (fd : Z) (timeout : Z) : M W sysret :=
  match fuel with
  | O => lift OutOfFuel
  | S fuel =>
      poll_result ← call (sys_poll fd POLLOUT (to_int32 timeout));
      if (sr_val poll_result <? 0)%Z && (sr_errno poll_result =? EINTR)%Z
      then poll_connect fuel fd timeout
      else mret poll_result
  end.

(** The block after a [connect] that did not complete at once. *)
Definition await_connect (fuel : nat) (fd : Z) (timeout : Z) : M W unit :=
  poll_result ← poll_connect fuel fd timeout;
  if (sr_val poll_result =? 0)%Z then throw (runtime_error "socket connect timeout") else
  if (sr_val poll_result <? 0)%Z then throw (runtime_error "socket connect poll failed") else
  status ← call (sys_getsockopt_error fd);
  let '(rc, socket_error) := status in
  if negb (sr_val rc =? 0)%Z
  then throw (runtime_error "failed to read socket connect status") else
  if negb (socket_error =? 0)%Z then throw (runtime_error "socket connect failed") else
  mret tt.

Definition connect_ipv4_with_timeout (fuel : nat) (host : bytes) (port : Z) (timeout : Z)
    : M W SocketHandle.t :=
  if (timeout <=? 0)%Z then throw (invalid_argument "connect timeout must be positive") else
  with_new_socket (fun sock =>
    let fd := SocketHandle.get sock in
    flags ← call (sys_fcntl_getfl fd);
    if (sr_val flags <? 0)%Z then throw (runtime_error "failed to read socket flags") else
    rc ← call (sys_fcntl_setfl fd (Z.lor (sr_val flags) O_NONBLOCK));
    if negb (sr_val rc =? 0)%Z
    then throw (runtime_error "failed to enable nonblocking connect") else
    address ← lift (ipv4_address host port);
    connect_result ← call (sys_connect fd address);
    (if negb (sr_val connect_result =? 0)%Z then
       if negb (sr_errno connect_result =? EINPROGRESS)%Z
       then throw (runtime_error "socket connect failed")
       else await_connect fuel fd timeout
     else mret tt);;
    rc ← call (sys_fcntl_setfl fd (sr_val flags));
    if negb (sr_val rc =? 0)%Z then throw (runtime_error "failed to restore socket flags") else
    mret tt).
End tcp.
