(* ===== verification/Network.v ===== *)
(** * What the system promises, and what the loops of tcp.hpp make of it

    Assumptions on the system calls, each a class of its own that only the
    theorems that need it mention: [PosixSpec] bounds the counts of [send] and
    [recv]; [FiniteSignals] says that only finitely many calls are
    interrupted; [SocketStreams] relates a socket to the byte streams of its
    connection, however they are segmented; [FdTracking] says which
    descriptors are open. *)
From S2P Require Import Prelude Reader Framing Tcp.

Definition interrupted (r : sysret) : bool := (sr_val r <? 0)%Z && (sr_errno r =? EINTR)%Z.

Class PosixSpec (W : Type) `{P : Posix W} : Prop := {
  send_bound fd data flags w r w' :
    sys_send fd data flags w = (r, w') -> (sr_val r <= Z.of_nat (length data))%Z;
  recv_bound fd n flags w r data w' :
    sys_recv fd n flags w = ((r, data), w') ->
    length data = Z.to_nat (sr_val r) /\ (sr_val r <= Z.of_nat n)%Z;
}.

(** The calls that neither make nor close a descriptor. *)
Inductive io_step {W : Type} `{P : Posix W} : W -> W -> Prop :=
| step_getfl fd w : io_step w (snd (sys_fcntl_getfl fd w))
| step_setfl fd flags w : io_step w (snd (sys_fcntl_setfl fd flags w))
| step_connect fd address w : io_step w (snd (sys_connect fd address w))
| step_poll fd events timeout w : io_step w (snd (sys_poll fd events timeout w))
| step_getsockopt fd w : io_step w (snd (sys_getsockopt_error fd w))
| step_setsockopt fd option tv w : io_step w (snd (sys_setsockopt_timeout fd option tv w))
| step_send fd data flags w : io_step w (snd (sys_send fd data flags w))
| step_recv fd n flags w : io_step w (snd (sys_recv fd n flags w))
| step_clock w : io_step w (snd (system_clock_now w)).

Class FiniteSignals (W : Type) `{P : Posix W} : Type := {
  (** How many calls a signal will still interrupt. *)
  signals : W -> nat;
  io_signals w w' : io_step w w' -> signals w' <= signals w;
  socket_signals w : signals (snd (sys_socket w)) <= signals w;
  close_signals fd w : signals (sys_close fd w) <= signals w;
  send_interrupted fd data flags w r w' :
    sys_send fd data flags w = (r, w') -> interrupted r = true -> signals w' < signals w;
  recv_interrupted fd n flags w r data w' :
    sys_recv fd n flags w = ((r, data), w') -> interrupted r = true -> signals w' < signals w;
  poll_interrupted fd events timeout w r w' :
    sys_poll fd events timeout w = (r, w') -> interrupted r = true -> signals w' < signals w;
}.

Class SocketStreams (W : Type) `{P : Posix W} : Type := {
  (** The bytes the connection will still deliver as things stand (a later
      [send] may make the peer answer), and the bytes sent so far. *)
  stream_in : Z -> W -> bytes;
  stream_out : Z -> W -> bytes;
  recv_stream fd n flags w r data w' :
    sys_recv fd n flags w = ((r, data), w') ->
    stream_in fd w = data ++ stream_in fd w' /\ stream_out fd w' = stream_out fd w;
  send_stream fd data flags w r w' :
    sys_send fd data flags w = (r, w') ->
    stream_out fd w' = stream_out fd w ++ take (Z.to_nat (sr_val r)) data;
}.

Class FdTracking (W : Type) `{P : Posix W} : Type := {
  (** The open descriptors of the process. *)
  open_fds : W -> gset Z;
  io_fds w w' : io_step w w' -> open_fds w' = open_fds w;
  close_fds fd w : open_fds (sys_close fd w) = open_fds w ∖ {[fd]};
  socket_fds w r w' : sys_socket w = (r, w') ->
    if (0 <=? sr_val r)%Z
    then (sr_val r ∉ open_fds w) /\ open_fds w' = {[sr_val r]} ∪ open_fds w
    else open_fds w' = open_fds w;
}.

Section signals.
Context {W : Type} {P : Posix W} {FS : FiniteSignals W}.

Lemma send_signals fd data flags w r w' :
  sys_send fd data flags w = (r, w') ->
  signals w' + (if interrupted r then 1 else 0) <= signals w.
Proof.
  intros E. pose proof (send_interrupted _ _ _ _ _ _ E) as Hi.
  pose proof (io_signals _ _ (step_send fd data flags w)) as Hs. rewrite E in Hs. cbn in Hs.
  destruct (interrupted r); [specialize (Hi eq_refl)|]; lia.
Qed.

Lemma recv_signals fd n flags w r data w' :
  sys_recv fd n flags w = ((r, data), w') ->
  signals w' + (if interrupted r then 1 else 0) <= signals w.
Proof.
  intros E. pose proof (recv_interrupted _ _ _ _ _ _ _ E) as Hi.
  pose proof (io_signals _ _ (step_recv fd n flags w)) as Hs. rewrite E in Hs. cbn in Hs.
  destruct (interrupted r); [specialize (Hi eq_refl)|]; lia.
Qed.

Lemma poll_signals fd events timeout w r w' :
  sys_poll fd events timeout w = (r, w') ->
  signals w' + (if interrupted r then 1 else 0) <= signals w.
Proof.
  intros E. pose proof (poll_interrupted _ _ _ _ _ _ E) as Hi.
  pose proof (io_signals _ _ (step_poll fd events timeout w)) as Hs. rewrite E in Hs. cbn in Hs.
  destruct (interrupted r); [specialize (Hi eq_refl)|]; lia.
Qed.
End signals.

(** ** Receiving *)

Section receive.
Context {W : Type} {P : Posix W} {PS : PosixSpec W}.

Lemma store_at_ok (out : bytes) received data :
  received + length data <= length out ->
  store_at out received data
  = Ret (take received out ++ data ++ drop (received + length data) out).
Proof. intros H. unfold store_at. by rewrite (proj2 (Nat.ltb_ge _ _)). Qed.

(** One round of the loop, by the outcome of the call. *)
Lemma recv_round fuel fd size out received w :
  received < size -> length out = size ->
  exists r data w1,
    sys_recv fd (size - received) 0 w = ((r, data), w1)
    /\ length data = Z.to_nat (sr_val r) /\ received + length data <= size
    /\ recv_exact_from (S fuel) fd size out received w
       = (if (0 <? sr_val r)%Z then
            recv_exact_from fuel fd size
              (take received out ++ data ++ drop (received + length data) out)
              (received + length data) w1
          else if interrupted r then recv_exact_from fuel fd size out received w1
          else (Throw (runtime_error
                  (if (sr_val r =? 0)%Z then "connection closed before frame completed"
                   else if is_timeout (sr_errno r) then "socket receive timeout"
                   else "socket receive failed")), w1)).
Proof.
  intros Hr Hl. destruct (sys_recv fd (size - received) 0 w) as [[r data] w1] eqn:E.
  exists r, data, w1. destruct (recv_bound _ _ _ _ _ _ _ E) as [Hd Hn].
  split_and!; [done|done|lia|]. cbn [recv_exact_from].
  rewrite (proj2 (Nat.ltb_lt received size)) by done. cbn [negb].
  unfold mbind at 1, M_bind at 1, call. rewrite E. unfold interrupted.
  destruct (Z.ltb_spec 0 (sr_val r)).
  - rewrite Hd at 2. unfold mbind, M_bind, lift. rewrite store_at_ok by lia. by rewrite Hd.
  - destruct (Z.eqb_spec (sr_val r) 0) as [E0|E0]; [by rewrite E0|].
    rewrite (proj2 (Z.ltb_lt (sr_val r) 0)) by lia. cbn [andb].
    destruct (sr_errno r =? EINTR)%Z; [done|]. by destruct (is_timeout _).
Qed.

Lemma splice_length (out data : bytes) received :
  received + length data <= length out ->
  length (take received out ++ data ++ drop (received + length data) out) = length out.
Proof. intros H. rewrite !length_app, length_take, length_drop. lia. Qed.

Lemma splice_take (out data : bytes) received :
  received + length data <= length out ->
  take (received + length data) (take received out ++ data ++ drop (received + length data) out)
  = take received out ++ data.
Proof.
  intros H. rewrite app_assoc.
  assert (received + length data = length (take received out ++ data)) as E
    by (rewrite length_app, length_take; lia).
  rewrite E at 1. apply take_app_length.
Qed.

(** The length of what is received, and no other outcome than a value or a
    runtime error. *)
Lemma recv_exact_from_outcome fuel fd size out received w :
  received <= size -> length out = size ->
  match fst (recv_exact_from fuel fd size out received w) with
  | Ret res => length res = size
  | Throw (runtime_error _) | OutOfFuel => True
  | _ => False
  end.
Proof.
  revert out received w. induction fuel as [|fuel IH]; intros out received w Hr Hl; [done|].
  destruct (decide (received = size)) as [->|].
  { cbn [recv_exact_from]. by rewrite Nat.ltb_irrefl. }
  destruct (recv_round fuel fd size out received w) as (r & data & w1 & _ & Hd & Hle & ->);
    [lia|done|].
  destruct (0 <? sr_val r)%Z; [apply IH; [lia|by rewrite splice_length; lia]|].
  destruct (interrupted r); [by apply IH|done].
Qed.

(** Every round that is not interrupted makes progress. *)
Lemma recv_exact_from_fuel `{FS : !FiniteSignals W} fuel fd size out received w :
  received <= size -> length out = size -> size - received + signals w < fuel ->
  fuelled (fst (recv_exact_from fuel fd size out received w)).
Proof.
  revert out received w. induction fuel as [|fuel IH]; intros out received w Hr Hl Hf; [lia|].
  destruct (decide (received = size)) as [->|].
  { cbn [recv_exact_from]. by rewrite Nat.ltb_irrefl. }
  destruct (recv_round fuel fd size out received w) as (r & data & w1 & E & Hd & Hle & ->);
    [lia|done|].
  apply recv_signals in E.
  destruct (Z.ltb_spec 0 (sr_val r)).
  - apply IH; [lia|by rewrite splice_length; lia|lia].
  - destruct (interrupted r); [apply IH; lia|done].
Qed.

(** What is consumed is the front of the incoming stream, at most the room
    left; when the loop returns it is the rest of the result. *)
Lemma recv_exact_from_stream `{SS : !SocketStreams W} fuel fd size out received w o w' :
  received <= size -> length out = size ->
  recv_exact_from fuel fd size out received w = (o, w') ->
  exists consumed, length consumed <= size - received
    /\ stream_in fd w = consumed ++ stream_in fd w'
    /\ stream_out fd w' = stream_out fd w
    /\ (forall res, o = Ret res -> res = take received out ++ consumed).
Proof.
  revert out received w. induction fuel as [|fuel IH]; intros out received w Hr Hl.
  { intros [= <- <-]. exists []. split_and!; [cbn; lia|done..]. }
  destruct (decide (received = size)) as [->|].
  { cbn [recv_exact_from]. rewrite Nat.ltb_irrefl. intros [= <- <-]. exists [].
    split_and!; [cbn; lia|done..|]. intros res [= <-]. by rewrite app_nil_r, <-Hl, firstn_all. }
  destruct (recv_round fuel fd size out received w) as (r & data & w1 & E & Hd & Hle & ->);
    [lia|done|].
  apply recv_stream in E as [Ein Eout]. rewrite Ein, <-Eout.
  destruct (Z.ltb_spec 0 (sr_val r)).
  - intros (c & Hc & -> & -> & Hres)%IH; [|lia|by rewrite splice_length; lia].
    rewrite splice_take in Hres by lia. exists (data ++ c). rewrite length_app, <-!app_assoc.
    split_and!; [lia|done..|]. intros res Hr'. by rewrite (Hres res Hr'), <-app_assoc.
  - assert (data = []) as -> by (apply nil_length_inv; lia).
    destruct (interrupted r); [by apply IH|]. intros [= <- <-]. exists [].
    split_and!; [cbn; lia|done..].
Qed.
End receive.

(** ** Sending *)

Section send.
Context {W : Type} {P : Posix W} {PS : PosixSpec W}.

Definition send_error (r : sysret) : exn :=
  runtime_error (if (sr_val r <? 0)%Z && is_timeout (sr_errno r)
                 then "socket send timeout" else "socket send failed").

(** One round of the loop, by the outcome of the call. *)
Lemma send_round fuel fd data sent w :
  sent < length data ->
  exists r w1,
    sys_send fd (drop sent data) MSG_NOSIGNAL w = (r, w1)
    /\ sent + Z.to_nat (sr_val r) <= length data
    /\ send_all_from (S fuel) fd data sent w
       = (if (0 <? sr_val r)%Z then send_all_from fuel fd data (sent + Z.to_nat (sr_val r)) w1
          else if interrupted r then send_all_from fuel fd data sent w1
          else (Throw (send_error r), w1)).
Proof.
  intros Hs. destruct (sys_send fd (drop sent data) MSG_NOSIGNAL w) as [r w1] eqn:E.
  exists r, w1. pose proof (send_bound _ _ _ _ _ _ E) as Hb. rewrite length_drop in Hb.
  split_and!; [done|lia|]. cbn [send_all_from].
  rewrite (proj2 (Nat.ltb_lt sent _)) by done. cbn [negb].
  unfold mbind at 1, M_bind at 1, call. rewrite E. unfold interrupted, send_error.
  destruct (0 <? sr_val r)%Z; [done|].
  destruct ((sr_val r <? 0)%Z && (sr_errno r =? EINTR)%Z); [done|].
  by destruct ((sr_val r <? 0)%Z && is_timeout (sr_errno r)).
Qed.

Lemma send_all_from_done fuel fd data sent w :
  length data <= sent -> send_all_from (S fuel) fd data sent w = (Ret tt, w).
Proof. intros H. cbn [send_all_from]. by rewrite (proj2 (Nat.ltb_ge _ _)). Qed.

Lemma send_all_from_fuel `{FS : !FiniteSignals W} fuel fd data sent w :
  length data - sent + signals w < fuel ->
  fuelled (fst (send_all_from fuel fd data sent w)).
Proof.
  revert sent w. induction fuel as [|fuel IH]; intros sent w Hf; [lia|].
  destruct (decide (length data <= sent)); [by rewrite send_all_from_done|].
  destruct (send_round fuel fd data sent w) as (r & w1 & E & Hle & ->); [lia|].
  apply send_signals in E.
  destruct (Z.ltb_spec 0 (sr_val r)); [apply IH; lia|].
  destruct (interrupted r); [apply IH; lia|done].
Qed.

(** What reached the stream is a prefix of the data, and all of it when the
    loop returns; it fails with a runtime error only. *)
Lemma send_all_from_stream `{SS : !SocketStreams W} fuel fd data sent w o w' :
  sent <= length data -> send_all_from fuel fd data sent w = (o, w') ->
  (exists n, n <= length data - sent
     /\ stream_out fd w' = stream_out fd w ++ take n (drop sent data)
     /\ (forall x, o = Ret x -> n = length data - sent))
  /\ match o with Ret _ | Throw (runtime_error _) | OutOfFuel => True | _ => False end.
Proof.
  revert sent w. induction fuel as [|fuel IH]; intros sent w Hs.
  { intros [= <- <-]. split; [|done]. exists 0. rewrite take_0, app_nil_r. split_and!; [lia|done..]. }
  destruct (decide (length data <= sent)) as [Hd|Hd].
  { rewrite send_all_from_done by done. intros [= <- <-]. split; [|done].
    exists 0. rewrite take_0, app_nil_r. split_and!; [lia|done|lia]. }
  destruct (send_round fuel fd data sent w) as (r & w1 & E & Hle & ->); [lia|].
  apply send_stream in E as Eout.
  destruct (Z.ltb_spec 0 (sr_val r)) as [Hp|Hp].
  - intros ((n & Hn & Es & Hr) & ?)%IH; [|done]. split; [|done].
    exists (Z.to_nat (sr_val r) + n). split_and!; [lia| |intros x Hx; specialize (Hr x Hx); lia].
    rewrite Es, Eout, <-app_assoc. f_equal.
    rewrite <-drop_drop. apply take_take_drop.
  - replace (Z.to_nat (sr_val r)) with 0 in * by lia. rewrite take_0, app_nil_r in Eout.
    destruct (interrupted r); [rewrite <-Eout; by apply IH|].
    intros [= <- <-]. split; [|done]. exists 0. rewrite take_0, app_nil_r.
    split_and!; [lia|done..].
Qed.
End send.

(** ** Invariants of the world *)

Section invariants.
Context {W : Type} {P : Posix W} {PS : PosixSpec W}.

(** A property of the world that input and output do not disturb. *)
Class IoInvariant (I : W -> Prop) : Prop := io_keeps w w' : io_step w w' -> I w -> I w'.

#[export] Instance signals_invariant `{FS : !FiniteSignals W} n :
  IoInvariant (fun w => signals w <= n).
Proof. intros w w' Hs%io_signals. lia. Qed.
#[export] Instance fds_invariant `{FT : !FdTracking W} F : IoInvariant (fun w => open_fds w = F).
Proof. by intros w w' ->%io_fds. Qed.
#[export] Instance and_invariant I J :
  IoInvariant I -> IoInvariant J -> IoInvariant (fun w => I w /\ J w).
Proof. intros HI HJ w w' Hs [? ?]. split; [by eapply HI|by eapply HJ]. Qed.

Context (I : W -> Prop) {II : IoInvariant I}.

(** A call keeps the invariant. *)
Lemma io_call {A} u f (g : W -> A * W) :
  (forall w, io_step w (snd (g w))) -> keeps u f I (call g) (fun _ => True).
Proof. intros Hg. apply keeps_call. intros w a w' Hw E. specialize (Hg w). rewrite E in Hg.
  split; [done|]. by eapply io_keeps. Qed.

Lemma recv_exact_from_keeps fuel fd size out received :
  received <= size -> length out = size ->
  keeps False True I (recv_exact_from fuel fd size out received) (fun res => length res = size).
Proof.
  revert out received. induction fuel as [|fuel IH]; intros out received Hr Hl w Hw; [done|].
  destruct (decide (received = size)) as [->|].
  { cbn [recv_exact_from]. by rewrite Nat.ltb_irrefl. }
  destruct (recv_round fuel fd size out received w) as (r & data & w1 & E & Hd & Hle & ->);
    [lia|done|].
  pose proof (io_keeps _ _ (step_recv fd (size - received) 0 w) Hw) as Hw1. rewrite E in Hw1.
  destruct (0 <? sr_val r)%Z; [apply IH; [lia|by rewrite splice_length; lia|done]|].
  by destruct (interrupted r); [apply IH|].
Qed.

Lemma send_all_from_keeps fuel fd data sent :
  keeps False True I (send_all_from fuel fd data sent) (fun _ => True).
Proof.
  revert sent. induction fuel as [|fuel IH]; intros sent w Hw; [done|].
  destruct (decide (length data <= sent)); [by rewrite send_all_from_done|].
  destruct (send_round fuel fd data sent w) as (r & w1 & E & Hle & ->); [lia|].
  pose proof (io_keeps _ _ (step_send fd (drop sent data) MSG_NOSIGNAL w) Hw) as Hw1.
  rewrite E in Hw1. destruct (0 <? sr_val r)%Z; [by apply IH|].
  by destruct (interrupted r); [apply IH|].
Qed.

Lemma poll_connect_keeps fuel fd timeout :
  keeps False True I (poll_connect fuel fd timeout) (fun _ => True).
Proof.
  induction fuel as [|fuel IH]; [done|]. cbn [poll_connect].
  eapply keeps_bind; [apply io_call; intros; constructor|]. intros r _.
  by apply keeps_if; intros _; [|apply keeps_ret].
Qed.

Lemma poll_connect_fuel `{FS : !FiniteSignals W} fuel fd timeout w :
  signals w < fuel -> fuelled (fst (poll_connect fuel fd timeout w)).
Proof.
  revert w. induction fuel as [|fuel IH]; intros w Hf; [lia|]. cbn [poll_connect].
  unfold mbind, M_bind, call. destruct (sys_poll fd POLLOUT (to_int32 timeout) w) as [r w1] eqn:E.
  apply poll_signals in E. fold (interrupted r). destruct (interrupted r); [|done].
  apply IH. lia.
Qed.
End invariants.
