(* ===== verification/Transport.v ===== *)
(** * Framed messages over a socket (the composition of framing.hpp and tcp.hpp)

    What [send_framed_json] and [recv_framed_json] do to the byte streams of a
    connection, and that they end. *)
From S2P Require Import Prelude Reader Framing Tcp Network.

Section framed.
Context {W : Type} {P : Posix W} {PS : PosixSpec W}.

Lemma recv_exact_length fuel fd size w res w' :
  recv_exact fuel fd size w = (Ret res, w') -> length res = size.
Proof.
  intros E. pose proof (recv_exact_from_outcome fuel fd size (replicate size x00) 0 w
    ltac:(lia) ltac:(apply length_replicate)) as H.
  unfold recv_exact in E. by rewrite E in H.
Qed.

Lemma recv_exact_consumes `{SS : !SocketStreams W} fuel fd size w o w' :
  recv_exact fuel fd size w = (o, w') ->
  exists consumed, length consumed <= size /\ stream_in fd w = consumed ++ stream_in fd w'
    /\ stream_out fd w' = stream_out fd w /\ (forall res, o = Ret res -> res = consumed).
Proof.
  intros E. apply recv_exact_from_stream in E as (c & ? & ? & ? & Hres);
    [|lia|apply length_replicate].
  exists c. split_and!; [lia|done..].
Qed.

Lemma recv_exact_stream `{SS : !SocketStreams W} fuel fd size w res w' :
  recv_exact fuel fd size w = (Ret res, w') ->
  length res = size /\ stream_in fd w = res ++ stream_in fd w'
  /\ stream_out fd w' = stream_out fd w.
Proof.
  intros E. split; [by eapply recv_exact_length|].
  apply recv_exact_consumes in E as (c & _ & ? & ? & Hres). by rewrite (Hres res eq_refl).
Qed.

(** A call that does not return has thrown a runtime error or is out of fuel. *)
Lemma recv_exact_outcome fuel fd size w :
  (exists res w', recv_exact fuel fd size w = (Ret res, w') /\ length res = size)
  \/ (exists what w', recv_exact fuel fd size w = (Throw (runtime_error what), w'))
  \/ exists w', recv_exact fuel fd size w = (OutOfFuel, w').
Proof.
  pose proof (recv_exact_from_outcome fuel fd size (replicate size x00) 0 w
    ltac:(lia) ltac:(apply length_replicate)) as H. unfold recv_exact.
  destruct (recv_exact_from fuel fd size (replicate size x00) 0 w) as [[res|[]| |] w'];
    try done; cbn in H; eauto 10.
Qed.

Lemma recv_exact_fuel `{FS : !FiniteSignals W} fuel fd size w :
  size + signals w < fuel -> fuelled (fst (recv_exact fuel fd size w)).
Proof. intros H. apply recv_exact_from_fuel; [lia|apply length_replicate|lia]. Qed.

(** After the four header bytes. *)
Lemma recv_framed_header fuel fd w hb w1 :
  recv_exact fuel fd 4 w = (Ret hb, w1) ->
  exists h, hb = header_bytes h
    /\ recv_framed_json fuel fd w
       = (n ← lift (decode_frame_size h); recv_exact fuel fd (Z.to_nat n)) w1.
Proof.
  intros E. pose proof (recv_exact_length _ _ _ _ _ _ E) as Hl.
  destruct hb as [|h0 [|h1 [|h2 [|h3 [|]]]]]; try done.
  exists (h0, h1, h2, h3). split; [done|]. unfold recv_framed_json.
  erewrite run_bind by exact E. done.
Qed.

Lemma recv_framed_no_header fuel fd w :
  (exists hb w1, recv_exact fuel fd 4 w = (Ret hb, w1))
  \/ (exists what w', recv_exact fuel fd 4 w = (Throw (runtime_error what), w')
        /\ recv_framed_json fuel fd w = (Throw (runtime_error what), w'))
  \/ (exists w', recv_exact fuel fd 4 w = (OutOfFuel, w')
        /\ recv_framed_json fuel fd w = (OutOfFuel, w')).
Proof.
  unfold recv_framed_json, mbind, M_bind.
  destruct (recv_exact_outcome fuel fd 4 w) as [(? & ? & -> & _)|[(what & w' & ->)|(w' & ->)]];
    eauto 10.
Qed.

(** The frame a payload and its header make. *)
Lemma frame_of_header h n (body : bytes) :
  decode_frame_size h = Ret n -> length body = Z.to_nat n ->
  encode_frame body = Ret (header_bytes h ++ body).
Proof.
  rewrite decode_frame_size_spec. intros E Hl.
  destruct (Z.eqb_spec (big_endian h) 0); [done|].
  destruct (Z.ltb_spec kMaxFrameBytes (big_endian h)) as [|Hm]; [done|].
  injection E as <-. pose proof (big_endian_range h).
  rewrite encode_frame_ok.
  - do 2 f_equal. apply header_bytes_big_endian. lia.
  - split; [intros ->; cbn in Hl; lia|lia].
Qed.

Lemma recv_framed_stream `{SS : !SocketStreams W} fuel fd w json w' :
  recv_framed_json fuel fd w = (Ret json, w') ->
  exists frame, encode_frame json = Ret frame
    /\ stream_in fd w = frame ++ stream_in fd w' /\ stream_out fd w' = stream_out fd w.
Proof.
  intros E.
  destruct (recv_framed_no_header fuel fd w) as [(hb&w1&Eh)|[(?&?&_&E')|(?&_&E')]];
    [|by rewrite E' in E..].
  destruct (recv_framed_header _ _ _ _ _ Eh) as (h & -> & Eq). rewrite Eq in E.
  apply run_bind_inv in E as (n & w2 & En & E). injection En as En <-.
  apply recv_exact_stream in Eh as (_ & -> & <-), E as (Hl & -> & <-).
  exists (header_bytes h ++ json).
  split_and!; [by eapply frame_of_header|by rewrite <-app_assoc|done].
Qed.

(** Two frames in front of the same stream are the same frame. *)
Lemma frame_prefix_unique (p1 p2 f1 f2 r1 r2 : bytes) :
  encode_frame p1 = Ret f1 -> encode_frame p2 = Ret f2 -> f1 ++ r1 = f2 ++ r2 ->
  p1 = p2 /\ r1 = r2.
Proof.
  intros E1 E2 E.
  apply encode_frame_ret in E1 as [H1 ->], E2 as [H2 ->]. rewrite <-!app_assoc in E.
  apply app_inj_1 in E as [Eh E]; [|done].
  assert (length p1 = length p2) as Hl.
  { apply decode_frame_size_header in H1, H2.
    assert (header_of (Z.of_nat (length p1)) = header_of (Z.of_nat (length p2))) as Eq
      by (unfold header_of in *; cbn [header_bytes] in Eh; congruence).
    rewrite Eq, H2 in H1. injection H1. lia. }
  by apply app_inj_1 in E.
Qed.
End framed.

(** ** Deadlines *)

Section deadlines.
Context {W : Type} {P : Posix W}.

Lemma timeval_of_ms_exact ms :
  (0 < ms)%Z ->
  let tv := timeval_of_ms ms in
  (0 <= tv_sec tv /\ 0 <= tv_usec tv < 1000000 /\ 0 < tv_sec tv + tv_usec tv
   /\ tv_sec tv * 1000000 + tv_usec tv = ms * 1000)%Z.
Proof.
  intros H tv. unfold tv, timeval_of_ms. cbn [tv_sec tv_usec].
  rewrite Z.quot_div_nonneg, Z.rem_mod_nonneg by lia. zdiv.
Qed.

Lemma set_socket_io_timeout_ret fd timeout w w' :
  set_socket_io_timeout fd timeout w = (Ret tt, w') ->
  let tv := timeval_of_ms timeout in
  (0 < timeout)%Z
  /\ exists r1 w1 r2, sys_setsockopt_timeout fd SO_RCVTIMEO tv w = (r1, w1)
       /\ sys_setsockopt_timeout fd SO_SNDTIMEO tv w1 = (r2, w')
       /\ sr_val r1 = 0%Z /\ sr_val r2 = 0%Z.
Proof.
  unfold set_socket_io_timeout. destruct (Z.leb_spec timeout 0); [done|].
  unfold mbind, M_bind, call. intros E. split; [done|].
  destruct (sys_setsockopt_timeout fd SO_RCVTIMEO _ w) as [r1 w1] eqn:E1.
  destruct (Z.eqb_spec (sr_val r1) 0); [|done]. cbn [negb] in E.
  destruct (sys_setsockopt_timeout fd SO_SNDTIMEO _ w1) as [r2 w2] eqn:E2.
  destruct (Z.eqb_spec (sr_val r2) 0); [|done]. injection E as <-. by exists r1, w1, r2.
Qed.

(** [poll] sees the deadline modulo 2^32. *)
Lemma poll_connect_int fuel fd t1 t2 w :
  to_int32 t1 = to_int32 t2 -> poll_connect fuel fd t1 w = poll_connect fuel fd t2 w.
Proof.
  intros E. revert w. induction fuel as [|fuel IH]; [done|]. intros w. cbn [poll_connect].
  rewrite E. unfold mbind, M_bind, call.
  destruct (sys_poll fd POLLOUT (to_int32 t2) w) as [r w1]. by case_match.
Qed.
End deadlines.

(** ** Totality

    With a bound on the rounds above the largest frame and the interruptions
    to come, every operation is total and keeps what input and output keep. *)

Definition enough_fuel {W : Type} {P : Posix W} {FS : FiniteSignals W} (fuel : nat)
    (I : W -> Prop) : Prop :=
  forall w, I w -> (Z.of_nat (signals w) + kMaxFrameBytes + 4 < Z.of_nat fuel)%Z.

Section total.
Context {W : Type} {P : Posix W} {PS : PosixSpec W} {FS : FiniteSignals W}.
Context (fuel : nat) (I : W -> Prop) {II : IoInvariant I} (Hfuel : enough_fuel fuel I).

Lemma recv_exact_keeps fd size :
  (Z.of_nat size <= kMaxFrameBytes + 4)%Z ->
  keeps False False I (recv_exact fuel fd size) (fun res => length res = size).
Proof.
  intros Hs. apply keeps_fuel.
  - intros w Hw. apply recv_exact_fuel. specialize (Hfuel w Hw). lia.
  - apply recv_exact_from_keeps; first [done|lia|apply length_replicate].
Qed.

Lemma send_all_keeps fd data :
  (Z.of_nat (length data) <= kMaxFrameBytes + 4)%Z ->
  keeps False False I (send_all fuel fd data) (fun _ => True).
Proof.
  intros Hs. apply keeps_fuel.
  - intros w Hw. apply send_all_from_fuel. specialize (Hfuel w Hw). lia.
  - by apply send_all_from_keeps.
Qed.

Lemma send_framed_json_keeps fd json :
  keeps False False I (send_framed_json fuel fd json) (fun _ => True).
Proof.
  unfold send_framed_json. eapply (keeps_bind _ _ _ _ _
    (fun frame => Z.of_nat (length frame) <= kMaxFrameBytes + 4)%Z).
  - apply keeps_lift. destruct (encode_frame_cases json) as [([_ ?] & ->)|[(_ & ->)|(_ & ->)]];
      [|done..]. cbn [tolerated]. rewrite length_app. cbn [length header_of header_bytes]. lia.
  - intros frame Hl. by apply send_all_keeps.
Qed.

Lemma recv_framed_json_keeps fd :
  keeps False False I (recv_framed_json fuel fd)
    (fun json => (Z.of_nat (length json) <= kMaxFrameBytes)%Z).
Proof.
  unfold recv_framed_json. eapply keeps_bind; [by apply recv_exact_keeps|].
  intros hb Hl. eapply (keeps_bind _ _ _ _ _ (fun _ => True)).
  { apply keeps_lift. by destruct hb as [|? [|? [|? [|]]]]. }
  intros h _. eapply (keeps_bind _ _ _ _ _ (fun n => 0 <= n <= kMaxFrameBytes)%Z).
  { apply keeps_lift. rewrite decode_frame_size_spec. pose proof (big_endian_range h).
    destruct (big_endian h =? 0)%Z; [done|].
    destruct (Z.ltb_spec kMaxFrameBytes (big_endian h)); [done|]. cbn. lia. }
  intros n Hn. eapply keeps_mono; [apply recv_exact_keeps|]; [lia|]. cbv beta. intros res ->. lia.
Qed.

Lemma set_socket_io_timeout_keeps fd timeout :
  keeps False False I (set_socket_io_timeout fd timeout) (fun _ => True).
Proof.
  unfold set_socket_io_timeout. apply keeps_if; intros _; [apply keeps_throw|].
  eapply keeps_bind; [apply io_call; [done|constructor]|]. intros r1 _.
  apply keeps_if; intros _; [apply keeps_throw|].
  eapply keeps_bind; [apply io_call; [done|constructor]|]. intros r2 _.
  apply keeps_if; intros _; [apply keeps_throw|by apply keeps_ret].
Qed.

Lemma await_connect_keeps fd timeout :
  keeps False False I (await_connect fuel fd timeout) (fun _ => True).
Proof.
  unfold await_connect. eapply keeps_bind.
  { apply keeps_fuel; [|by apply poll_connect_keeps]. intros w Hw. apply poll_connect_fuel.
    specialize (Hfuel w Hw). unfold kMaxFrameBytes in Hfuel. lia. }
  intros r _. repeat (apply keeps_if; intros _; [apply keeps_throw|]).
  eapply keeps_bind; [apply io_call; [done|constructor]|]. intros [rc e] _.
  repeat (apply keeps_if; intros _; [apply keeps_throw|]). by apply keeps_ret.
Qed.

(** The body of [connect_ipv4_with_timeout], once the socket exists. *)
Lemma connect_body_keeps fd host port timeout :
  keeps False False I
    (flags ← call (sys_fcntl_getfl fd);
     if (sr_val flags <? 0)%Z then throw (runtime_error "failed to read socket flags") else
     rc ← call (sys_fcntl_setfl fd (Z.lor (sr_val flags) O_NONBLOCK));
     if negb (sr_val rc =? 0)%Z
     then throw (runtime_error "failed to enable nonblocking connect") else
     address ← lift (ipv4_address host port);
     connect_result ← call (sys_connect fd address);
     (if negb (sr_val connect_result =? 0)%Z then
        if negb (sr_errno connect_result =? EINPROGRESS)%Z
        then throw (runtime_error "socket connect failed")
        else await_connect fuel fd timeout
      else mret tt);;
     rc ← call (sys_fcntl_setfl fd (sr_val flags));
     if negb (sr_val rc =? 0)%Z then throw (runtime_error "failed to restore socket flags") else
     mret tt)
    (fun _ => True).
Proof.
  eapply keeps_bind; [apply io_call; [done|constructor]|]. intros flags _.
  apply keeps_if; intros _; [apply keeps_throw|].
  eapply keeps_bind; [apply io_call; [done|constructor]|]. intros rc _.
  apply keeps_if; intros _; [apply keeps_throw|].
  eapply (keeps_bind _ _ _ _ _ (fun _ => True)).
  { apply keeps_lift. unfold ipv4_address. by case_match. }
  intros address _. eapply keeps_bind; [apply io_call; [done|constructor]|]. intros r _.
  eapply (keeps_bind _ _ _ _ _ (fun _ => True)).
  { apply keeps_if; intros _; [|by apply keeps_ret].
    apply keeps_if; intros _; [apply keeps_throw|apply await_connect_keeps]. }
  intros _ _. eapply keeps_bind; [apply io_call; [done|constructor]|]. intros rc2 _.
  apply keeps_if; intros _; [apply keeps_throw|by apply keeps_ret].
Qed.
End total.

(** ** Descriptors

    [I F] says, among other things, that the open descriptors are [F]. *)

Class FdInvariant {W : Type} {P : Posix W} (I : gset Z -> W -> Prop) : Prop := {
  fd_io F :: IoInvariant (I F);
  fd_socket F w r w' : I F w -> sys_socket w = (r, w') ->
    if (0 <=? sr_val r)%Z then (sr_val r ∉ F) /\ I ({[sr_val r]} ∪ F) w' else I F w';
  fd_close F fd w : I F w -> I (F ∖ {[fd]}) (sys_close fd w);
}.

(** The descriptors are [F], and at most [n] calls are yet to be interrupted. *)
Definition sys_state {W : Type} {P : Posix W} {FS : FiniteSignals W} {FT : FdTracking W}
    (n : nat) (F : gset Z) (w : W) : Prop :=
  signals w <= n /\ open_fds w = F.

#[export] Instance sys_state_invariant {W : Type} {P : Posix W} {FS : FiniteSignals W}
    {FT : FdTracking W} n : FdInvariant (sys_state n).
Proof.
  split.
  - intros F. apply (and_invariant (fun w => signals w <= n) (fun w => open_fds w = F)); apply _.
  - intros F w r w' [Hn <-] E. pose proof (socket_signals w) as Hs. rewrite E in Hs. cbn in Hs.
    apply socket_fds in E. unfold sys_state.
    destruct (0 <=? sr_val r)%Z; [destruct E as [? ->]|rewrite E]; split_and!; try done; lia.
  - intros F fd w [Hn <-]. split; [pose proof (close_signals fd w); lia|apply close_fds].
Qed.

Section descriptors.
Context {W : Type} {P : Posix W} {PS : PosixSpec W} {FS : FiniteSignals W}.
Context (I : gset Z -> W -> Prop) {FI : FdInvariant I}.

(** [m] returns a new open descriptor, or throws and leaves none. *)
Definition acquires (m : M W SocketHandle.t) : Prop := forall F w, I F w ->
  match m w with
  | (Ret sock, w') => (SocketHandle.get sock ∉ F) /\ (0 <= SocketHandle.get sock)%Z
                      /\ I ({[SocketHandle.get sock]} ∪ F) w'
  | (Throw _, w') => I F w'
  | _ => False
  end.

Lemma destroy_restores sock F w :
  (SocketHandle.get sock ∉ F) -> (0 <= SocketHandle.get sock)%Z ->
  I ({[SocketHandle.get sock]} ∪ F) w -> I F (SocketHandle.destroy sock w).
Proof.
  intros Hn Hp Hw. unfold SocketHandle.destroy, SocketHandle.get in *.
  rewrite (proj2 (Z.leb_le 0 _)) by done. apply (fd_close _ (SocketHandle.fd_ sock)) in Hw.
  replace F with (({[SocketHandle.fd_ sock]} ∪ F) ∖ {[SocketHandle.fd_ sock]}); [done|].
  apply set_eq. intros x. rewrite elem_of_difference, elem_of_union, elem_of_singleton.
  destruct (decide (x = SocketHandle.fd_ sock)) as [->|]; tauto.
Qed.

Lemma with_new_socket_acquires body :
  (forall F sock, keeps False False (I F) (body sock) (fun _ => True)) ->
  acquires (with_new_socket body).
Proof.
  intros Hb F w Hw. unfold with_new_socket, mbind at 1, M_bind at 1, call.
  destruct (sys_socket w) as [r w1] eqn:E. apply (fd_socket _ _ _ _ Hw) in E.
  unfold on_unwind. cbn [SocketHandle.get SocketHandle.fd_]. destruct (Z.leb_spec 0 (sr_val r)).
  - rewrite (proj2 (Z.ltb_ge _ 0)) by lia. destruct E as [Hn E]. set (sock := SocketHandle.mk _).
    specialize (Hb _ sock w1 E). unfold mbind, M_bind. destruct (body sock w1) as [[]]; try done.
    + by destruct Hb.
    + by apply destroy_restores.
  - rewrite (proj2 (Z.ltb_lt _ 0)) by lia. unfold throw, lift, SocketHandle.destroy.
    cbn [SocketHandle.fd_]. by rewrite (proj2 (Z.leb_gt 0 _)) by lia.
Qed.

Lemma connect_ipv4_acquires host port : acquires (connect_ipv4 host port).
Proof.
  apply with_new_socket_acquires. intros F sock. eapply (keeps_bind _ _ _ _ _ (fun _ => True)).
  { apply keeps_lift. unfold ipv4_address. by case_match. }
  intros address _. eapply keeps_bind; [apply io_call; [apply _|constructor]|]. intros r _.
  apply keeps_if; intros _; [apply keeps_throw|by apply keeps_ret].
Qed.

Lemma connect_ipv4_with_timeout_acquires fuel host port timeout :
  (forall F, enough_fuel fuel (I F)) ->
  acquires (connect_ipv4_with_timeout fuel host port timeout).
Proof.
  intros Hfuel. unfold connect_ipv4_with_timeout.
  destruct (timeout <=? 0)%Z; [by intros F w|]. apply with_new_socket_acquires. intros F sock. by apply connect_body_keeps; [apply _|].
Qed.

(** A scope that owns the new descriptor leaves none behind. *)
Lemma with_socket_keeps {A} (u f : Prop) m (body : SocketHandle.t -> M W A) Q F :
  acquires m ->
  (forall sock F, keeps u f (I F) (body sock) Q) ->
  keeps u f (I F)
    (sock ← m; with_destructor (SocketHandle.destroy sock) (body sock)) Q.
Proof.
  intros Hm Hb w Hw. specialize (Hm F w Hw). unfold mbind, M_bind.
  destruct (m w) as [[sock| | |] w1]; try done. destruct Hm as (Hn & Hp & Hw1).
  specialize (Hb sock _ w1 Hw1). unfold with_destructor.
  destruct (body sock w1) as [[a| | |] w2]; try done.
  - destruct Hb as [Ha Hb]. split; [done|by apply destroy_restores].
  - by apply destroy_restores.
Qed.
End descriptors.

(** ** Properties *)

Section properties.
Context {W : Type} {P : Posix W} {PS : PosixSpec W}.

(** C22: What [recv_framed_json] returns is exactly the next frame of the
    connection, however the network segments it and however often a signal
    interrupts it.  The bytes it consumed are the encoding of the payload,
    nothing behind them is touched, nothing is sent; and when the incoming
    stream starts with the encoding of some payload, that payload is what
    it returns. *)
Theorem receive_is_segmentation_independent {SS : SocketStreams W} fuel fd w json w'
    (Hrecv : recv_framed_json fuel fd w = (Ret json, w')) :
  (exists frame, encode_frame json = Ret frame
     /\ stream_in fd w = frame ++ stream_in fd w' /\ stream_out fd w' = stream_out fd w)
  /\ forall payload frame rest, encode_frame payload = Ret frame ->
       stream_in fd w = frame ++ rest -> json = payload /\ stream_in fd w' = rest.
Proof.
  apply recv_framed_stream in Hrecv as (f & Ef & Es & Eo). split; [by exists f|].
  intros payload frame rest E1 E2. rewrite Es in E2. by eapply frame_prefix_unique.
Qed.

(** A frame whose header announces no bytes or more than 1 MiB is
    refused before its body is read: the receiver throws, and has consumed
    at most the four header bytes. *)
Lemma bad_header_is_refused {SS : SocketStreams W} fuel fd w h rest e
    (Hh : decode_frame_size h = Throw e)
    (Hs : stream_in fd w = header_bytes h ++ rest) :
  exists w' consumed, stream_in fd w = consumed ++ stream_in fd w' /\ length consumed <= 4
    /\ (recv_framed_json fuel fd w = (Throw e, w') /\ consumed = header_bytes h
        \/ (exists what, recv_framed_json fuel fd w = (Throw (runtime_error what), w'))
        \/ recv_framed_json fuel fd w = (OutOfFuel, w')).
Proof.
  destruct (recv_framed_no_header fuel fd w) as [(hb&w1&Eh)|[(what&w'&Eh&E)|(w'&Eh&E)]].
  - destruct (recv_framed_header _ _ _ _ _ Eh) as (h' & -> & Eq).
    apply recv_exact_stream in Eh as (_ & Es & _). exists w1, (header_bytes h').
    rewrite Es in Hs. apply app_inj_1 in Hs as [Eb _]; [|by destruct h' as [[[]]], h as [[[]]]].
    assert (h' = h) as -> by (destruct h' as [[[]]], h as [[[]]]; by injection Eb as -> -> -> ->).
    split_and!; [done|by destruct h as [[[]]]|]. left. split; [|done].
    rewrite Eq. by erewrite run_bind_throw by (unfold lift; by rewrite Hh).
  - apply recv_exact_consumes in Eh as (c & ? & ? & _). exists w', c. eauto 10.
  - apply recv_exact_consumes in Eh as (c & ? & ? & _). exists w', c. eauto 10.
Qed.

(** C23: [send_framed_json] puts exactly one frame on the connection.  When
    it returns, the stream has grown by the encoding of the payload; when
    it throws, by a prefix of it; and a payload that fits no frame is
    refused before anything is sent. *)
Theorem send_puts_one_frame {SS : SocketStreams W} fuel fd json w o w'
    (Hsend : send_framed_json fuel fd json w = (o, w')) :
  match encode_frame json with
  | Ret frame => exists sent, stream_out fd w' = stream_out fd w ++ sent /\ sent `prefix_of` frame
      /\ (o = Ret tt /\ sent = frame \/ (exists what, o = Throw (runtime_error what))
          \/ o = OutOfFuel)
  | Throw e => o = Throw e /\ w' = w
  | _ => False
  end.
Proof.
  destruct (encode_frame_cases json) as [(_ & E)|[(_ & E)|(_ & E)]]; rewrite E.
  - unfold send_framed_json in Hsend. erewrite run_bind in Hsend by (unfold lift; by rewrite E).
    set (frame := _ ++ json) in *. apply send_all_from_stream in Hsend as ((n & Hn & -> & Hr) & Ho); [|lia].
    rewrite drop_0, Nat.sub_0_r in *. exists (take n frame). split_and!; [done| |].
    { exists (drop n frame). by rewrite take_drop. }
    destruct o as [[]|[]| |]; try done; eauto. left. split; [done|].
    rewrite (Hr tt eq_refl). apply firstn_all.
  - unfold send_framed_json in Hsend.
    erewrite run_bind_throw in Hsend by (unfold lift; by rewrite E). by injection Hsend as <- <-.
  - unfold send_framed_json in Hsend.
    erewrite run_bind_throw in Hsend by (unfold lift; by rewrite E). by injection Hsend as <- <-.
Qed.

(** A framed exchange ends.  The loops of sending and of receiving run
    out of bytes or of interruptions: with a bound above 1 MiB and 4 bytes
    plus the interruptions still to come, both return or throw, for any
    payload and whatever the peer does. *)
Lemma framed_exchange_terminates {FS : FiniteSignals W} fuel fd json w0
    (Hf : (Z.of_nat (signals w0) + kMaxFrameBytes + 4 < Z.of_nat fuel)%Z) :
  defined (fst (send_framed_json fuel fd json w0))
  /\ defined (fst (recv_framed_json fuel fd w0)).
Proof.
  assert (enough_fuel fuel (fun w => signals w <= signals w0)) as He by (intros w Hw; lia).
  pose proof (send_framed_json_keeps fuel _ He fd json w0 (le_n _)) as Hs.
  pose proof (recv_framed_json_keeps fuel _ He fd w0 (le_n _)) as Hr.
  destruct (send_framed_json fuel fd json w0) as [[]], (recv_framed_json fuel fd w0) as [[]];
    done.
Qed.

(** C27: The deadline of a connection is exact.  When [set_socket_io_timeout]
    returns, both directions have been given one [timeval], normalised,
    equal to the number of milliseconds asked for, and not zero (which would
    mean no deadline); the deadline of a connect reaches [poll] as it is
    when it fits an [int]. *)
Theorem deadlines_are_exact fd timeout w w'
    (Hset : set_socket_io_timeout fd timeout w = (Ret tt, w')) :
  let tv := timeval_of_ms timeout in
  (0 <= tv_sec tv /\ 0 <= tv_usec tv < 1000000 /\ 0 < tv_sec tv + tv_usec tv
   /\ tv_sec tv * 1000000 + tv_usec tv = timeout * 1000)%Z
  /\ (exists r1 w1 r2, sys_setsockopt_timeout fd SO_RCVTIMEO tv w = (r1, w1)
        /\ sys_setsockopt_timeout fd SO_SNDTIMEO tv w1 = (r2, w')
        /\ sr_val r1 = 0%Z /\ sr_val r2 = 0%Z)
  /\ forall fuel, (timeout <= INT_MAX)%Z ->
       poll_connect (S fuel) fd timeout w
       = (poll_result ← call (sys_poll fd POLLOUT timeout);
          if interrupted poll_result then poll_connect fuel fd timeout
          else mret poll_result) w.
Proof.
  intros tv. apply set_socket_io_timeout_ret in Hset as [Ht Hset].
  split_and!; [by apply timeval_of_ms_exact..|done|].
  intros fuel Hi. cbn [poll_connect]. rewrite to_int32_small; [done|].
  unfold is_int, INT_MIN. lia.
Qed.

(** A connect deadline of 2^31 ms or more is not a deadline: the cast to
    [int] in front of [poll] makes 2^31 ms negative, which [poll] reads as
    waiting for ever, and 2^32 ms zero.  In general the code behaves the
    same for two deadlines that agree modulo 2^32. *)
Lemma connect_deadline_wraps fuel fd w :
  poll_connect fuel fd (2 ^ 31) w = poll_connect fuel fd (- 2 ^ 31) w
  /\ poll_connect fuel fd (2 ^ 32) w = poll_connect fuel fd 0 w
  /\ forall t1 t2, (t1 mod 2 ^ 32 = t2 mod 2 ^ 32)%Z ->
       poll_connect fuel fd t1 w = poll_connect fuel fd t2 w.
Proof.
  split_and!; [by apply poll_connect_int..|]. intros t1 t2 E. apply poll_connect_int.
  unfold to_int32. f_equal. by rewrite Z.add_mod, E, <-Z.add_mod.
Qed.

(** No descriptor leaks from connecting.  With and without a deadline,
    for every behaviour of the system calls (including signals): a connect
    returns a handle to one new open descriptor, or throws and leaves the
    open descriptors as they were; and destroying the handle closes exactly
    that one. *)
Theorem connect_leaks_no_descriptor {FS : FiniteSignals W} {FT : FdTracking W}
    fuel host port timeout w
    (Hf : (Z.of_nat (signals w) + kMaxFrameBytes + 4 < Z.of_nat fuel)%Z) m
    (Hm : m = connect_ipv4 host port \/ m = connect_ipv4_with_timeout fuel host port timeout) :
  match m w with
  | (Ret sock, w') => (SocketHandle.get sock ∉ open_fds w)
      /\ open_fds w' = {[SocketHandle.get sock]} ∪ open_fds w
      /\ open_fds (SocketHandle.destroy sock w') = open_fds w
  | (Throw _, w') => open_fds w' = open_fds w
  | _ => False
  end.
Proof.
  assert (forall F, enough_fuel fuel (sys_state (signals w) F)) as He
    by (intros F w1 [? _]; lia).
  assert (acquires (sys_state (signals w)) m) as Ha.
  { destruct Hm as [->| ->]; [apply connect_ipv4_acquires; apply _|].
    apply connect_ipv4_with_timeout_acquires; [apply _|done]. }
  specialize (Ha (open_fds w) w (conj (le_n _) eq_refl)).
  destruct (m w) as [[sock| | |] w']; try done; [|by destruct Ha].
  destruct Ha as (Hn & Hp & Hw). split_and!; [done|by destruct Hw|].
  by apply (destroy_restores _ _ _ _ Hn Hp Hw).
Qed.
End properties.
