(* ===== verification/Timing.v ===== *)
(** * How long the socket operations wait (cpp/include/ma2a/tcp.hpp)

    Section 10 of the specification asks for bounded connection and I/O
    deadlines.  The class [TimedPosix] says what a call may cost: the time the
    process has spent inside of system calls only grows by the deadline that is
    in force, and by a slack the scheduler may add.  The triple [spends] counts
    that time, with the interruptions to come as a potential, and gives every
    operation of tcp.hpp its budget. *)
From S2P Require Import Prelude Reader Framing Tcp Network Transport.

#[local] Open Scope Z_scope.

(** ** The interface *)

Definition timeval_us (tv : timeval) : Z := tv_sec tv * 1000000 + tv_usec tv.

(** The calls that never wait. *)
Inductive prompt_step {W : Type} `{P : Posix W} : W -> W -> Prop :=
| prompt_socket w : prompt_step w (snd (sys_socket w))
| prompt_close fd w : prompt_step w (sys_close fd w)
| prompt_getfl fd w : prompt_step w (snd (sys_fcntl_getfl fd w))
| prompt_setfl fd flags w : prompt_step w (snd (sys_fcntl_setfl fd flags w))
| prompt_getsockopt fd w : prompt_step w (snd (sys_getsockopt_error fd w))
| prompt_setsockopt fd option tv w : prompt_step w (snd (sys_setsockopt_timeout fd option tv w))
| prompt_clock w : prompt_step w (snd (system_clock_now w)).

Class TimedPosix (W : Type) `{P : Posix W} : Type := {
  (** Microseconds spent inside of system calls so far. *)
  blocked : W -> Z;
  (** What a call may take beyond its deadline. *)
  slack : Z;
  nonblocking : Z -> W -> Prop;
  (** The deadline in force for receiving or sending, in microseconds. *)
  io_deadline : Z -> Z -> W -> option Z;
  slack_nonneg : 0 <= slack;
  prompt_time w w' : prompt_step w w' -> blocked w' <= blocked w + slack;
  connect_time fd address w :
    nonblocking fd w -> blocked (snd (sys_connect fd address w)) <= blocked w + slack;
  poll_time fd events timeout w :
    0 <= timeout ->
    blocked (snd (sys_poll fd events timeout w)) <= blocked w + timeout * 1000 + slack;
  send_time fd data flags w t :
    io_deadline fd SO_SNDTIMEO w = Some t ->
    blocked (snd (sys_send fd data flags w)) <= blocked w + t + slack;
  recv_time fd n flags w t :
    io_deadline fd SO_RCVTIMEO w = Some t ->
    blocked (snd (sys_recv fd n flags w)) <= blocked w + t + slack;
  (** [O_NONBLOCK] among the flags makes [connect] return at once. *)
  setfl_nonblocking fd flags w r w' :
    sys_fcntl_setfl fd flags w = (r, w') -> sr_val r = 0 -> Z.land flags O_NONBLOCK <> 0 ->
    nonblocking fd w';
  (** A timeout that is set is in force until it is set again; zero would
      mean none, and the kernel takes very long ones for none. *)
  setsockopt_deadline fd option tv w r w' :
    sys_setsockopt_timeout fd option tv w = (r, w') -> sr_val r = 0 ->
    0 < timeval_us tv -> tv_sec tv <= INT_MAX ->
    io_deadline fd option w' = Some (timeval_us tv);
  setsockopt_other fd option other tv w :
    other <> option ->
    io_deadline fd other (snd (sys_setsockopt_timeout fd option tv w)) = io_deadline fd other w;
  send_deadline fd data flags option w :
    io_deadline fd option (snd (sys_send fd data flags w)) = io_deadline fd option w;
  recv_deadline fd n flags option w :
    io_deadline fd option (snd (sys_recv fd n flags w)) = io_deadline fd option w;
}.

(** ** Spending time

    An interrupted call is repeated, so its time is charged to the
    interruption: [charge] bounds what one call may take. *)

Section spends.
Context {W : Type} {P : Posix W} {FS : FiniteSignals W} {TP : TimedPosix W} (charge : Z).

Definition potential (w : W) : Z := blocked w + charge * Z.of_nat (signals w).

(** From a state of [Pre], a run of [m] that ends raises the potential by at
    most [k], and a value it returns is in [Post] with the state. *)
Definition spends {A} (Pre : W -> Prop) (k : Z) (m : M W A) (Post : A -> W -> Prop) : Prop :=
  forall w, Pre w ->
  match m w with
  | (Ret a, w') => potential w' <= potential w + k /\ Post a w'
  | (Throw _, w') => potential w' <= potential w + k
  | _ => True
  end.

Lemma spends_ret {A} (a : A) (Pre : W -> Prop) k (Post : A -> W -> Prop) :
  0 <= k -> (forall w, Pre w -> Post a w) -> spends Pre k (mret a) Post.
Proof. intros Hk H w Hw. split; [lia|auto]. Qed.

Lemma spends_throw {A} e Pre k (Post : A -> W -> Prop) : 0 <= k -> spends Pre k (throw e) Post.
Proof. intros Hk w Hw. cbn. lia. Qed.

Lemma spends_lift {A} (o : outcome A) (Pre : W -> Prop) k (Post : A -> W -> Prop) :
  0 <= k -> (forall a w, Pre w -> o = Ret a -> Post a w) -> spends Pre k (lift o) Post.
Proof. intros Hk H w Hw. unfold lift. destruct o; try done; [split; [lia|auto]|lia]. Qed.

Lemma spends_call {A} (g : W -> A * W) (Pre : W -> Prop) k (Post : A -> W -> Prop) :
  (forall w a w', Pre w -> g w = (a, w') -> potential w' <= potential w + k /\ Post a w') ->
  spends Pre k (call g) Post.
Proof. intros H w Hw. unfold call. destruct (g w) eqn:E. eauto. Qed.

(** The first part of a computation spends from the budget of the whole. *)
Lemma spends_bind {A B} k1 (m : M W A) (f : A -> M W B) Pre k Mid Post :
  k1 <= k -> spends Pre k1 m Mid -> (forall a, spends (Mid a) (k - k1) (f a) Post) ->
  spends Pre k (m ≫= f) Post.
Proof.
  intros Hk Hm Hf w Hw. specialize (Hm w Hw). unfold mbind, M_bind.
  destruct (m w) as [[a| | |] w1]; try done; [|lia].
  destruct Hm as [Hm Ha]. specialize (Hf a w1 Ha).
  destruct (f a w1) as [[]]; try done; [destruct Hf; split; [lia|done]|lia].
Qed.

Lemma spends_mono {A} k' (m : M W A) (Pre Pre' : W -> Prop) k (Post Post' : A -> W -> Prop) :
  spends Pre' k' m Post' -> k' <= k -> (forall w, Pre w -> Pre' w) ->
  (forall a w, Post' a w -> Post a w) -> spends Pre k m Post.
Proof.
  intros Hm Hk Hpre Hpost w Hw. specialize (Hm w (Hpre w Hw)).
  destruct (m w) as [[]]; try done; [destruct Hm; split; [lia|auto]|lia].
Qed.

(** What the state says of a value is a hypothesis. *)
Lemma spends_pre {A} (phi : Prop) (m : M W A) (Pre : W -> Prop) k Post :
  (forall w, Pre w -> phi) -> (phi -> spends (fun _ => True) k m Post) -> spends Pre k m Post.
Proof. intros Hp Hm w Hw. by apply (Hm (Hp w Hw)). Qed.

Lemma spends_ext {A} (m n : M W A) Pre k Post :
  (forall w, m w = n w) -> spends Pre k n Post -> spends Pre k m Post.
Proof. intros E Hn w Hw. rewrite E. by apply Hn. Qed.

Lemma spends_if {A} (b : bool) (m n : M W A) Pre k Post :
  (b = true -> spends Pre k m Post) -> (b = false -> spends Pre k n Post) ->
  spends Pre k (if b then m else n) Post.
Proof. destruct b; auto. Qed.

Lemma spends_try {A} k1 (m h : M W A) Pre k Post :
  k1 <= k -> spends Pre k1 m Post -> spends (fun _ => True) (k - k1) h Post ->
  spends Pre k (try_catch_all m h) Post.
Proof.
  intros Hk Hm Hh w Hw. specialize (Hm w Hw). unfold try_catch_all.
  destruct (m w) as [[a|e| |] w1]; try done; [destruct Hm; split; [lia|done]|].
  specialize (Hh w1 I). destruct (h w1) as [[]]; try done; [destruct Hh; split; [lia|done]|lia].
Qed.

(** What a destructor takes is spent after the scope. *)
Definition releases (k : Z) (release : W -> W) : Prop :=
  forall w, potential (release w) <= potential w + k.

Lemma spends_with {A} k2 release (m : M W A) Pre k (Post : A -> Prop) :
  0 <= k2 -> releases k2 release -> spends Pre (k - k2) m (fun a _ => Post a) ->
  spends Pre k (with_destructor release m) (fun a _ => Post a).
Proof.
  intros Hk Hr Hm w Hw. specialize (Hm w Hw). unfold with_destructor.
  destruct (m w) as [[a|e| |] w1]; try done; specialize (Hr w1); [destruct Hm; split; [lia|done]|lia].
Qed.

Lemma spends_unwind {A} k2 release (m : M W A) Pre k Post :
  0 <= k2 -> releases k2 release -> spends Pre (k - k2) m Post ->
  spends Pre k (on_unwind release m) Post.
Proof.
  intros Hk Hr Hm w Hw. specialize (Hm w Hw). unfold on_unwind.
  destruct (m w) as [[a|e| |] w1]; try done; [destruct Hm; split; [lia|done]|].
  specialize (Hr w1). lia.
Qed.

(** A computation that keeps every bound on the potential spends nothing. *)
Lemma keeps_spends {A} u f (m : M W A) (Pre : W -> Prop) k (Q : A -> Prop) :
  0 <= k -> (forall b, keeps u f (fun w => potential w <= b) m Q) ->
  spends Pre k m (fun a _ => Q a).
Proof.
  intros Hk Hm w _. specialize (Hm (potential w) w (Z.le_refl _)).
  destruct (m w) as [[]]; try done; [destruct Hm; split; [lia|done]|lia].
Qed.
End spends.

(** A guard that throws costs nothing. *)
Ltac spends_guard := apply spends_if; intros _; [apply spends_throw; lia|].

(** ** The calls *)

Section calls.
Context {W : Type} {P : Posix W} {PS : PosixSpec W} {FS : FiniteSignals W} {TP : TimedPosix W}.
Context (charge : Z).

(** An interruption pays for its call. *)
Lemma potential_step k (w w' : W) (i : bool) :
  0 <= k <= charge -> blocked w' <= blocked w + k ->
  (signals w' + (if i then 1 else 0) <= signals w)%nat ->
  potential charge w' <= potential charge w + (if i then 0 else k).
Proof. unfold potential. intros Hk Hb Hs. destruct i; nia. Qed.

Lemma prompt_signals w w' : prompt_step w w' -> (signals w' <= signals w)%nat.
Proof.
  destruct 1; try (apply io_signals; constructor);
    [apply socket_signals|apply close_signals].
Qed.

Lemma prompt_potential w w' :
  slack <= charge -> prompt_step w w' -> potential charge w' <= potential charge w + slack.
Proof.
  intros Hc H. pose proof slack_nonneg.
  apply (potential_step slack _ _ false); [lia|by apply prompt_time|].
  apply prompt_signals in H. lia.
Qed.

Lemma prompt_spends {A} (g : W -> A * W) (Pre : W -> Prop) k (Post : A -> W -> Prop) :
  slack <= charge -> slack <= k -> (forall w, prompt_step w (snd (g w))) ->
  (forall w a w', Pre w -> g w = (a, w') -> Post a w') -> spends charge Pre k (call g) Post.
Proof.
  intros Hc Hk Hg Hp. apply spends_call. intros w a w' Hw E. split; [|by eapply Hp].
  pose proof (prompt_potential _ _ Hc (Hg w)) as H. rewrite E in H. cbn in H. lia.
Qed.

(** A prompt call at the head of a computation. *)
Lemma prompt_then {A B} (g : W -> A * W) (f : A -> M W B) (Pre : W -> Prop) k Post :
  slack <= charge -> slack <= k -> (forall w, prompt_step w (snd (g w))) ->
  (forall a, spends charge (fun _ => True) (k - slack) (f a) Post) ->
  spends charge Pre k (call g ≫= f) Post.
Proof.
  intros Hc Hk Hg Hf. eapply (spends_bind _ slack _ _ _ _ (fun _ _ => True)); [done| |exact Hf].
  by apply prompt_spends.
Qed.

Lemma destroy_releases sock :
  slack <= charge -> releases charge slack (SocketHandle.destroy sock).
Proof.
  intros Hc w. pose proof slack_nonneg. unfold SocketHandle.destroy.
  destruct (0 <=? SocketHandle.fd_ sock); [|lia]. apply prompt_potential; [done|constructor].
Qed.

Lemma send_potential fd data flags w r w' t :
  io_deadline fd SO_SNDTIMEO w = Some t -> 0 <= t -> t + slack <= charge ->
  sys_send fd data flags w = (r, w') ->
  potential charge w' <= potential charge w + (if interrupted r then 0 else t + slack).
Proof.
  intros Hd Ht Hc E. pose proof slack_nonneg. pose proof (send_time fd data flags w t Hd) as Hb.
  rewrite E in Hb. apply potential_step; [lia|cbn in Hb; lia|by eapply send_signals].
Qed.

Lemma recv_potential fd n flags w r data w' t :
  io_deadline fd SO_RCVTIMEO w = Some t -> 0 <= t -> t + slack <= charge ->
  sys_recv fd n flags w = ((r, data), w') ->
  potential charge w' <= potential charge w + (if interrupted r then 0 else t + slack).
Proof.
  intros Hd Ht Hc E. pose proof slack_nonneg. pose proof (recv_time fd n flags w t Hd) as Hb.
  rewrite E in Hb. apply potential_step; [lia|cbn in Hb; lia|by eapply recv_signals].
Qed.

Lemma poll_potential fd events timeout w r w' :
  0 <= timeout -> timeout * 1000 + slack <= charge -> sys_poll fd events timeout w = (r, w') ->
  potential charge w'
  <= potential charge w + (if interrupted r then 0 else timeout * 1000 + slack).
Proof.
  intros Ht Hc E. pose proof slack_nonneg. pose proof (poll_time fd events timeout w Ht) as Hb.
  rewrite E in Hb. apply potential_step; [lia|cbn in Hb; lia|by eapply poll_signals].
Qed.

(** ** The loops *)

(** Both deadlines of a socket are [t]. *)
Definition armed (fd t : Z) (w : W) : Prop :=
  io_deadline fd SO_RCVTIMEO w = Some t /\ io_deadline fd SO_SNDTIMEO w = Some t.

Lemma armed_send fd t data flags w r w' :
  armed fd t w -> sys_send fd data flags w = (r, w') -> armed fd t w'.
Proof.
  intros [Hr Hs] E.
  pose proof (fun option => send_deadline fd data flags option w) as H. rewrite E in H.
  split; by rewrite (H _ : io_deadline fd _ w' = _).
Qed.

Lemma armed_recv fd t n flags w r data w' :
  armed fd t w -> sys_recv fd n flags w = ((r, data), w') -> armed fd t w'.
Proof.
  intros [Hr Hs] E.
  pose proof (fun option => recv_deadline fd n flags option w) as H. rewrite E in H.
  split; by rewrite (H _ : io_deadline fd _ w' = _).
Qed.

(** A call per byte at worst, each up to its deadline. *)
Lemma recv_exact_from_spends fuel fd size out received t :
  0 <= t -> t + slack <= charge -> (received <= size)%nat -> length out = size ->
  spends charge (armed fd t) (Z.of_nat (size - received) * (t + slack))
    (recv_exact_from fuel fd size out received) (fun _ => armed fd t).
Proof.
  intros Ht Hc. pose proof slack_nonneg as Hsl. revert out received.
  induction fuel as [|fuel IH]; intros out received Hr Hl w Hw; [done|].
  destruct (decide (received = size)) as [->|].
  { cbn [recv_exact_from]. rewrite Nat.ltb_irrefl. cbn. split; [nia|done]. }
  destruct (recv_round fuel fd size out received w) as (r & data & w1 & E & Hd & Hle & ->);
    [lia|done|].
  pose proof (armed_recv _ _ _ _ _ _ _ _ Hw E) as Hw1.
  apply (recv_potential _ _ _ _ _ _ _ t) in E; [|apply Hw|done..].
  destruct (Z.ltb_spec 0 (sr_val r)) as [Hp|Hp].
  - assert (1 <= length data)%nat by lia.
    assert (potential charge w1 <= potential charge w + (t + slack)) by (destruct (interrupted r); lia).
    specialize (IH (take received out ++ data ++ drop (received + length data) out)
      (received + length data)%nat Hle ltac:(by rewrite splice_length; lia) w1 Hw1).
    destruct (recv_exact_from _ _ _ _ _ w1) as [[]]; try done; [destruct IH; split; [nia|done]|nia].
  - destruct (interrupted r).
    + specialize (IH out received Hr Hl w1 Hw1).
      destruct (recv_exact_from _ _ _ _ _ w1) as [[]]; try done; [destruct IH; split; [lia|done]|lia].
    + nia.
Qed.

Lemma send_all_from_spends fuel fd data sent t :
  0 <= t -> t + slack <= charge -> (sent <= length data)%nat ->
  spends charge (armed fd t) (Z.of_nat (length data - sent) * (t + slack))
    (send_all_from fuel fd data sent) (fun _ => armed fd t).
Proof.
  intros Ht Hc. pose proof slack_nonneg as Hsl. revert sent.
  induction fuel as [|fuel IH]; intros sent Hs w Hw; [done|].
  destruct (decide (length data <= sent)%nat).
  { rewrite send_all_from_done by done. split; [nia|done]. }
  destruct (send_round fuel fd data sent w) as (r & w1 & E & Hle & ->); [lia|].
  pose proof (armed_send _ _ _ _ _ _ _ Hw E) as Hw1.
  apply (send_potential _ _ _ _ _ _ t) in E; [|apply Hw|done..].
  destruct (Z.ltb_spec 0 (sr_val r)) as [Hp|Hp].
  - assert (potential charge w1 <= potential charge w + (t + slack)) by (destruct (interrupted r); lia).
    specialize (IH (sent + Z.to_nat (sr_val r))%nat Hle w1 Hw1).
    destruct (send_all_from _ _ _ _ w1) as [[]]; try done; [destruct IH; split; [nia|done]|nia].
  - destruct (interrupted r).
    + specialize (IH sent Hs w1 Hw1).
      destruct (send_all_from _ _ _ _ w1) as [[]]; try done; [destruct IH; split; [lia|done]|lia].
    + nia.
Qed.

(** However often it is interrupted, the wait for a connection costs one
    deadline; the rest is charged to the interruptions. *)
Lemma poll_connect_spends fuel fd timeout (Pre : W -> Prop) :
  0 <= timeout <= INT_MAX -> timeout * 1000 + slack <= charge ->
  spends charge Pre (timeout * 1000 + slack) (poll_connect fuel fd timeout) (fun _ _ => True).
Proof.
  intros Ht Hc w _. pose proof slack_nonneg. revert w.
  induction fuel as [|fuel IH]; intros w; [done|]. cbn [poll_connect].
  rewrite to_int32_small by (unfold is_int, INT_MIN; lia).
  unfold mbind, M_bind, call. destruct (sys_poll fd POLLOUT timeout w) as [r w1] eqn:E.
  apply poll_potential in E; [|lia|done]. fold (interrupted r).
  destruct (interrupted r); [|cbn; split; [lia|done]].
  specialize (IH w1). destruct (poll_connect fuel fd timeout w1) as [[]]; try done; [destruct IH; split; [lia|done]|lia].
Qed.
End calls.

(** ** The operations *)

Section operations.
Context {W : Type} {P : Posix W} {PS : PosixSpec W} {FS : FiniteSignals W} {TP : TimedPosix W}.
Context (charge : Z).

Lemma recv_exact_spends fuel fd size t :
  0 <= t -> t + slack <= charge ->
  spends charge (armed fd t) (Z.of_nat size * (t + slack)) (recv_exact fuel fd size)
    (fun _ => armed fd t).
Proof.
  intros Ht Hc. replace size with (size - 0)%nat at 1 by lia.
  apply recv_exact_from_spends; [done|done|lia|apply length_replicate].
Qed.

(** A frame is at most 4 bytes and 1 MiB. *)
Lemma send_framed_json_spends fuel fd json t :
  0 <= t -> t + slack <= charge ->
  spends charge (armed fd t) ((kMaxFrameBytes + 4) * (t + slack)) (send_framed_json fuel fd json)
    (fun _ => armed fd t).
Proof.
  intros Ht Hc. pose proof slack_nonneg. unfold send_framed_json.
  eapply (spends_bind _ 0 _ _ _ _
    (fun frame w => Z.of_nat (length frame) <= kMaxFrameBytes + 4 /\ armed fd t w)).
  - unfold kMaxFrameBytes. nia.
  - apply spends_lift; [done|]. intros frame w Hw [[_ Hm] ->]%encode_frame_ret. split; [|done].
    rewrite length_app. cbn [length header_of header_bytes]. lia.
  - intros frame w [Hl Hw].
    pose proof (send_all_from_spends charge fuel fd frame 0 t Ht Hc ltac:(lia) w Hw) as Hs.
    unfold send_all. destruct (send_all_from fuel fd frame 0 w) as [[]]; try done; [destruct Hs; split; [nia|done]|nia].
Qed.

Lemma recv_framed_json_spends fuel fd t :
  0 <= t -> t + slack <= charge ->
  spends charge (armed fd t) ((kMaxFrameBytes + 4) * (t + slack)) (recv_framed_json fuel fd)
    (fun _ => armed fd t).
Proof.
  intros Ht Hc. pose proof slack_nonneg. unfold recv_framed_json.
  eapply (spends_bind _ (Z.of_nat 4 * (t + slack))); [unfold kMaxFrameBytes; nia|
    by apply recv_exact_spends|]. intros hb.
  eapply (spends_bind _ 0 _ _ _ _ (fun _ => armed fd t)); [unfold kMaxFrameBytes; nia|
    by apply spends_lift|]. intros h.
  eapply (spends_bind _ 0 _ _ _ _ (fun n w => 0 <= n <= kMaxFrameBytes /\ armed fd t w)).
  - unfold kMaxFrameBytes. nia.
  - apply spends_lift; [done|]. intros n w Hw. rewrite decode_frame_size_spec.
    pose proof (big_endian_range h). destruct (big_endian h =? 0); [done|].
    destruct (Z.ltb_spec kMaxFrameBytes (big_endian h)); [done|]. intros [= <-]. split; [lia|done].
  - intros n w [Hn Hw]. pose proof (recv_exact_spends fuel fd (Z.to_nat n) t Ht Hc w Hw) as Hs.
    destruct (recv_exact fuel fd (Z.to_nat n) w) as [[]]; try done; [destruct Hs; split; [nia|done]|nia].
Qed.

Lemma timeval_of_ms_us ms :
  0 < ms <= INT_MAX ->
  timeval_us (timeval_of_ms ms) = ms * 1000 /\ tv_sec (timeval_of_ms ms) <= INT_MAX.
Proof.
  intros H. destruct (timeval_of_ms_exact ms) as (H0 & H1 & _ & E); [lia|].
  split; [exact E|unfold INT_MAX in *; lia].
Qed.

(** When it returns, both deadlines are the one asked for. *)
Lemma set_socket_io_timeout_spends fd timeout (Pre : W -> Prop) :
  timeout <= INT_MAX -> slack <= charge ->
  spends charge Pre (2 * slack) (set_socket_io_timeout fd timeout)
    (fun _ => armed fd (timeout * 1000)).
Proof.
  intros Ht Hc. pose proof slack_nonneg. unfold set_socket_io_timeout.
  destruct (Z.leb_spec timeout 0); [apply spends_throw; lia|].
  destruct (timeval_of_ms_us timeout) as [Eu Hsec]; [lia|].
  set (tv := timeval_of_ms timeout) in *.
  assert (0 < timeval_us tv) as Hpos by lia.
  eapply (spends_bind _ slack); [lia| |].
  { apply (prompt_spends _ _ _ _
      (fun r w => sr_val r = 0 -> io_deadline fd SO_RCVTIMEO w = Some (timeval_us tv)));
      [done|lia|constructor|]. intros w r w' _ E E0. by eapply setsockopt_deadline. }
  intros r1. destruct (Z.eqb_spec (sr_val r1) 0); cbn [negb]; [|apply spends_throw; lia].
  eapply (spends_bind _ slack); [lia| |].
  { apply (prompt_spends _ _ _ _ (fun r w => sr_val r = 0 -> armed fd (timeout * 1000) w));
      [done|lia|constructor|].
    intros w r w' Hr E E0. pose proof (setsockopt_other fd SO_SNDTIMEO SO_RCVTIMEO tv w ltac:(done)) as Ho.
    rewrite E in Ho. cbn in Ho. unfold armed. rewrite Ho, <-Eu. split; [by apply Hr|].
    by eapply setsockopt_deadline. }
  intros r2. destruct (Z.eqb_spec (sr_val r2) 0); cbn [negb]; [|apply spends_throw; lia].
  apply spends_ret; [lia|]. auto.
Qed.

(** ** Connecting *)

Lemma nonblock_flag flags : Z.land (Z.lor flags O_NONBLOCK) O_NONBLOCK <> 0.
Proof.
  rewrite (Z.land_comm (Z.lor _ _)), Z.land_comm, Z.lor_comm.
  intros E. assert (Z.testbit (Z.land (Z.lor O_NONBLOCK flags) O_NONBLOCK) 11 = false) as H
    by by rewrite E.
  by rewrite Z.land_spec, Z.lor_spec in H.
Qed.

Lemma connect_spends fd address :
  slack <= charge ->
  spends charge (nonblocking fd) slack (call (sys_connect fd address)) (fun _ _ => True).
Proof.
  intros Hc. apply spends_call. intros w r w' Hw E. pose proof slack_nonneg. split; [|done].
  pose proof (connect_time fd address w Hw) as Hb. rewrite E in Hb.
  apply (potential_step charge slack _ _ false); [lia|exact Hb|].
  pose proof (io_signals _ _ (step_connect fd address w)) as Hs. rewrite E in Hs. cbn in Hs. lia.
Qed.

Lemma await_connect_spends fuel fd timeout (Pre : W -> Prop) :
  0 <= timeout <= INT_MAX -> timeout * 1000 + slack <= charge ->
  spends charge Pre (timeout * 1000 + 2 * slack) (await_connect fuel fd timeout)
    (fun _ _ => True).
Proof.
  intros Ht Hc. pose proof slack_nonneg. unfold await_connect.
  eapply (spends_bind _ (timeout * 1000 + slack)); [lia|by apply poll_connect_spends|]. intros r.
  repeat spends_guard.
  apply prompt_then; [lia|lia|constructor|]. intros [rc e]. repeat spends_guard. apply spends_ret; [lia|done].
Qed.

Lemma with_new_socket_spends body k (Pre : W -> Prop) :
  slack <= charge -> 0 <= k ->
  (forall sock, spends charge (fun _ => True) k (body sock) (fun _ _ => True)) ->
  spends charge Pre (k + 2 * slack) (with_new_socket body) (fun _ _ => True).
Proof.
  intros Hc Hk Hb. pose proof slack_nonneg. unfold with_new_socket.
  apply prompt_then; [lia|lia|constructor|]. intros fd.
  apply (spends_unwind _ slack); [lia|by apply destroy_releases|]. spends_guard.
  eapply (spends_bind _ k); [lia|apply Hb|]. intros ?. apply spends_ret; [lia|done].
Qed.

Lemma connect_ipv4_with_timeout_spends fuel host port timeout (Pre : W -> Prop) :
  timeout <= INT_MAX -> timeout * 1000 + slack <= charge -> 0 < timeout ->
  spends charge Pre (timeout * 1000 + 8 * slack)
    (connect_ipv4_with_timeout fuel host port timeout) (fun _ _ => True).
Proof.
  intros Ht Hc Hp. pose proof slack_nonneg. unfold connect_ipv4_with_timeout.
  destruct (Z.leb_spec timeout 0); [apply spends_throw; lia|].
  eapply (spends_mono _ (timeout * 1000 + 6 * slack + 2 * slack)); [|lia|done|done].
  apply (with_new_socket_spends _ _ Pre); [lia|lia|]. intros sock. cbv zeta.
  apply prompt_then; [lia|lia|constructor|]. intros flags. spends_guard.
  eapply (spends_bind _ slack _ _ _ _ (fun rc w => sr_val rc = 0 -> nonblocking (SocketHandle.get sock) w)); [lia| |].
  { apply prompt_spends; [lia|lia|constructor|]. intros w rc w' _ E E0.
    by eapply setfl_nonblocking; [exact E| |apply nonblock_flag]. }
  intros rc. destruct (Z.eqb_spec (sr_val rc) 0) as [E0|]; cbn [negb]; [|apply spends_throw; lia].
  eapply (spends_bind _ 0 _ _ _ _ (fun _ => nonblocking (SocketHandle.get sock)));
    [lia|apply spends_lift; [lia|auto]|]. intros address.
  eapply (spends_bind _ slack); [lia|apply connect_spends; lia|]. intros r.
  eapply (spends_bind _ (timeout * 1000 + 2 * slack) _ _ _ _ (fun _ _ => True)); [lia| |].
  { apply spends_if; intros _; [|apply spends_ret; [lia|done]].
    spends_guard. by apply await_connect_spends; lia. }
  intros _. apply prompt_then; [lia|lia|constructor|]. intros rc2. spends_guard.
  apply spends_ret; [lia|done].
Qed.
End operations.
