(* ===== verification/Orchestrator.v ===== *)
(** * The execution lifecycle (cpp/include/ma2a/execution_orchestrator.hpp)

    The state of one execution, the three operations that change it, and what
    every sequence of them preserves. *)
From S2P Require Import Prelude Contracts.

Module ExecutionAttempt.
Record t : Type := mk {
  node_id : bytes;
  outcome : bytes;
}.
End ExecutionAttempt.

Module ExecutionState.
Record t : Type := mk {
  request_id : bytes;
  attempts : list ExecutionAttempt.t;
  excluded_nodes : gset bytes;
  completed : bool;
  result : option JobResult.t;
}.

(** Updates of single members. *)
Definition set_attempts (l : list ExecutionAttempt.t) (s : t) : t :=
  mk (request_id s) l (excluded_nodes s) (completed s) (result s).
Definition set_excluded_nodes (e : gset bytes) (s : t) : t :=
  mk (request_id s) (attempts s) e (completed s) (result s).
Definition complete (r : JobResult.t) (s : t) : t :=
  mk (request_id s) (attempts s) (excluded_nodes s) true (Some r).
End ExecutionState.

Module ExecutionFailoverOrchestrator.
Import ExecutionState.

Record t : Type := mk_t {
  state_ : ExecutionState.t;
  max_attempts_ : nat;
}.

(** The constructor. *)
Definition create (request_id : bytes) (max_attempts : nat) : outcome t :=
  if decide (request_id = []) then Throw (invalid_argument "request_id is required") else
  if max_attempts =? 0 then Throw (invalid_argument "max_attempts must be positive") else
  Ret (mk_t (ExecutionState.mk request_id [] ∅ false None) max_attempts).

Definition state (o : t) : ExecutionState.t := state_ o.
Definition exhausted (o : t) : bool := max_attempts_ o <=? length (attempts (state_ o)).

(** Replacing [state_]. *)
Definition with_state (s : ExecutionState.t) (o : t) : t := mk_t s (max_attempts_ o).

Definition ensure_active : M t unit :=
  o ← get;
  lift (throw_if (completed (state_ o)) (logic_error "execution already completed")).

(** [attempts.back().outcome = out] when [attempts] is not empty and its last
    node is [node]. *)
Definition mark_last (node out : bytes) (l : list ExecutionAttempt.t) : list ExecutionAttempt.t :=
  match last l with
  | Some a =>
      if decide (ExecutionAttempt.node_id a = node)
      then take (length l - 1) l ++ [ExecutionAttempt.mk (ExecutionAttempt.node_id a) out]
      else l
  | None => l
  end.

Definition begin_attempt (node_id : bytes) : M t unit :=
  ensure_active;;
  o ← get;
  lift (throw_if (bool_decide (node_id = [])) (invalid_argument "node_id is required"));;
  lift (throw_if (bool_decide (node_id ∈ excluded_nodes (state_ o)))
          (invalid_argument "cannot retry excluded node"));;
  lift (throw_if (exhausted o) (runtime_error "execution attempts exhausted"));;
  put (with_state (set_attempts (attempts (state_ o)
         ++ [ExecutionAttempt.mk node_id (str "IN_FLIGHT")]) (state_ o)) o).

Definition accept_authenticated_failure (notice : FailureNotice.t) : M t unit :=
  ensure_active;;
  o ← get;
  lift (throw_if (bool_decide (FailureNotice.request_id notice <> request_id (state_ o)))
          (invalid_argument "failure request_id mismatch"));;
  lift (throw_if (bool_decide (FailureNotice.failed_node_id notice = []))
          (invalid_argument "failed_node_id is required"));;
  lift (throw_if (bool_decide (FailureNotice.signature notice = []))
          (invalid_argument "failure must be authenticated before orchestration"));;
  put (with_state (set_excluded_nodes ({[FailureNotice.failed_node_id notice]}
         ∪ excluded_nodes (state_ o)) (state_ o)) o);;
  o ← get;
  put (with_state (set_attempts (mark_last (FailureNotice.failed_node_id notice) (str "FAILED")
         (attempts (state_ o))) (state_ o)) o).

Definition accept_authenticated_result (result : JobResult.t) : M t unit :=
  ensure_active;;
  o ← get;
  lift (throw_if (bool_decide (JobResult.request_id result <> request_id (state_ o)))
          (invalid_argument "result request_id mismatch"));;
  lift (throw_if (bool_decide (JobResult.signature result = []))
          (invalid_argument "result must be authenticated before orchestration"));;
  lift (throw_if (bool_decide (JobResult.status result <> str "OK"))
          (invalid_argument "only successful result completes execution"));;
  put (with_state (set_attempts (mark_last (JobResult.responder_node_id result) (str "OK")
         (attempts (state_ o))) (state_ o)) o);;
  o ← get;
  put (with_state (complete result (state_ o)) o).
End ExecutionFailoverOrchestrator.

Import ExecutionFailoverOrchestrator.

#[local] Arguments str : simpl never.

(** ** The three operations, by their guards *)

(** What a call needs, and what it makes of the state. *)
Definition can_begin (node : bytes) (o : t) : Prop :=
  ExecutionState.completed (state_ o) = false /\ node <> []
  /\ (node ∉ ExecutionState.excluded_nodes (state_ o)) /\ exhausted o = false.
Definition can_fail (n : FailureNotice.t) (o : t) : Prop :=
  ExecutionState.completed (state_ o) = false
  /\ FailureNotice.request_id n = ExecutionState.request_id (state_ o)
  /\ FailureNotice.failed_node_id n <> [] /\ FailureNotice.signature n <> [].
Definition can_complete (r : JobResult.t) (o : t) : Prop :=
  ExecutionState.completed (state_ o) = false
  /\ JobResult.request_id r = ExecutionState.request_id (state_ o)
  /\ JobResult.signature r <> [] /\ JobResult.status r = str "OK".

#[export] Instance can_begin_dec node o : Decision (can_begin node o).
Proof. unfold can_begin. apply _. Defined.
#[export] Instance can_fail_dec n o : Decision (can_fail n o).
Proof. unfold can_fail. apply _. Defined.
#[export] Instance can_complete_dec r o : Decision (can_complete r o).
Proof. unfold can_complete. apply _. Defined.

Definition begun (node : bytes) (o : t) : t :=
  let s := state_ o in
  mk_t (ExecutionState.mk (ExecutionState.request_id s)
          (ExecutionState.attempts s ++ [ExecutionAttempt.mk node (str "IN_FLIGHT")])
          (ExecutionState.excluded_nodes s) (ExecutionState.completed s)
          (ExecutionState.result s)) (max_attempts_ o).
Definition failed (node : bytes) (o : t) : t :=
  let s := state_ o in
  mk_t (ExecutionState.mk (ExecutionState.request_id s)
          (mark_last node (str "FAILED") (ExecutionState.attempts s))
          ({[node]} ∪ ExecutionState.excluded_nodes s) (ExecutionState.completed s)
          (ExecutionState.result s)) (max_attempts_ o).
Definition done_with (r : JobResult.t) (o : t) : t :=
  let s := state_ o in
  mk_t (ExecutionState.mk (ExecutionState.request_id s)
          (mark_last (JobResult.responder_node_id r) (str "OK") (ExecutionState.attempts s))
          (ExecutionState.excluded_nodes s) true (Some r)) (max_attempts_ o).

(** Running guards: each either throws and leaves the state, or passes. *)
Lemma run_guard {S A} (b : bool) e (k : M S A) s :
  (lift (throw_if b e);; k) s = (if b then (Throw e, s) else k s).
Proof. by destruct b. Qed.
Lemma run_get {S A} (k : S -> M S A) s : (o ← get; k o) s = k s s.
Proof. done. Qed.
Lemma run_ensure_active {A} (k : M t A) o :
  (ensure_active;; k) o = (if ExecutionState.completed (state_ o)
    then (Throw (logic_error "execution already completed"), o) else k o).
Proof.
  unfold ensure_active, mbind, M_bind, get, lift. by destruct (ExecutionState.completed _).
Qed.

Ltac run_guards := rewrite ?run_ensure_active, ?run_get, ?run_guard.

(** When the guards hold the call returns; otherwise some guard throws. *)
Ltac guards_pass :=
  run_guards; repeat (case_bool_decide; [tauto|]); done.
Ltac guard_throws H :=
  run_guards; repeat (case_match; [by eexists|]); exfalso; apply H;
  rewrite ?bool_decide_eq_false in *; split_and!; (done || by apply dec_stable).

Lemma begin_attempt_spec node o :
  if decide (can_begin node o)
  then begin_attempt node o = (Ret tt, begun node o)
  else exists e, begin_attempt node o = (Throw e, o).
Proof.
  unfold begin_attempt. case_decide as H.
  - destruct H as (Ha & Hb & Hc & Hd). run_guards. rewrite Ha, Hd. guards_pass.
  - guard_throws H.
Qed.

Lemma accept_failure_spec n o :
  if decide (can_fail n o)
  then accept_authenticated_failure n o = (Ret tt, failed (FailureNotice.failed_node_id n) o)
  else exists e, accept_authenticated_failure n o = (Throw e, o).
Proof.
  unfold accept_authenticated_failure. case_decide as H.
  - destruct H as (Ha & Hb & Hc & Hd). run_guards. rewrite Ha. guards_pass.
  - guard_throws H.
Qed.

Lemma accept_result_spec r o :
  if decide (can_complete r o)
  then accept_authenticated_result r o = (Ret tt, done_with r o)
  else exists e, accept_authenticated_result r o = (Throw e, o).
Proof.
  unfold accept_authenticated_result. case_decide as H.
  - destruct H as (Ha & Hb & Hc & Hd). run_guards. rewrite Ha. guards_pass.
  - guard_throws H.
Qed.

Lemma mark_last_cases node out l :
  mark_last node out l = l
  \/ exists l0 a, l = l0 ++ [a] /\ ExecutionAttempt.node_id a = node
       /\ mark_last node out l = l0 ++ [ExecutionAttempt.mk node out].
Proof.
  destruct l as [|a l0 _] using rev_ind; [by left|]. unfold mark_last. rewrite last_snoc.
  case_decide as H; [right|by left]. exists l0, a. subst. split_and!; [done..|].
  rewrite length_app, Nat.add_sub. by rewrite take_app_length.
Qed.

Lemma mark_last_length node out l : length (mark_last node out l) = length l.
Proof.
  destruct (mark_last_cases node out l) as [->|(l0 & a & -> & _ & ->)]; [done|].
  by rewrite !length_app.
Qed.

Lemma mark_last_snoc node out l a :
  ExecutionAttempt.node_id a = node ->
  mark_last node out (l ++ [a]) = l ++ [ExecutionAttempt.mk node out].
Proof.
  intros H. unfold mark_last. rewrite last_snoc, decide_True by done. subst.
  by rewrite length_app, Nat.add_sub, take_app_length.
Qed.

(** ** Sequences of calls *)

Inductive event : Type :=
| BeginAttempt (node : bytes)
| AcceptFailure (notice : FailureNotice.t)
| AcceptResult (result : JobResult.t).

Definition perform (e : event) : M t unit :=
  match e with
  | BeginAttempt node => begin_attempt node
  | AcceptFailure n => accept_authenticated_failure n
  | AcceptResult r => accept_authenticated_result r
  end.

(** The states any sequence of calls reaches, whether they return or throw. *)
Inductive reachable (rid : bytes) (max : nat) : t -> Prop :=
| reach_create o : create rid max = Ret o -> reachable rid max o
| reach_call o e out o' :
    reachable rid max o -> perform e o = (out, o') -> reachable rid max o'.

(** A call returns and takes one of three steps, or throws and takes none. *)
Inductive step : t -> t -> Prop :=
| step_begin node o : can_begin node o -> step o (begun node o)
| step_fail n o : can_fail n o -> step o (failed (FailureNotice.failed_node_id n) o)
| step_complete r o : can_complete r o -> step o (done_with r o).

Lemma perform_cases e o :
  (exists o', perform e o = (Ret tt, o') /\ step o o') \/ exists x, perform e o = (Throw x, o).
Proof.
  destruct e as [node|n|r]; cbn [perform].
  - pose proof (begin_attempt_spec node o). case_decide; [left|by right].
    eexists; split; [done|by constructor].
  - pose proof (accept_failure_spec n o). case_decide; [left|by right].
    eexists; split; [done|by constructor].
  - pose proof (accept_result_spec r o). case_decide; [left|by right].
    eexists; split; [done|by constructor].
Qed.

Lemma reachable_ind_step rid max (P : t -> Prop) :
  (forall o, create rid max = Ret o -> P o) ->
  (forall o o', P o -> step o o' -> P o') ->
  forall o, reachable rid max o -> P o.
Proof.
  intros Hc Hs o. induction 1 as [o E|o e out o' _ IH E]; [by apply Hc|].
  destruct (perform_cases e o) as [(o1 & E1 & H1)|(x & E1)]; rewrite E1 in E; injection E as _ <-;
    [by eapply Hs|done].
Qed.

(** ** The invariant *)

Definition wf_attempt (excluded : gset bytes) (a : ExecutionAttempt.t) : Prop :=
  ExecutionAttempt.node_id a <> []
  /\ (ExecutionAttempt.outcome a = str "IN_FLIGHT" \/ ExecutionAttempt.outcome a = str "OK"
      \/ ExecutionAttempt.outcome a = str "FAILED" /\ ExecutionAttempt.node_id a ∈ excluded).

(** No node that failed is tried again. *)
Definition no_retry (l : list ExecutionAttempt.t) : Prop := forall i j a b,
  i < j -> l !! i = Some a -> l !! j = Some b -> ExecutionAttempt.outcome a = str "FAILED" ->
  ExecutionAttempt.node_id a <> ExecutionAttempt.node_id b.

(** Only the last attempt can have succeeded, and only when the execution has. *)
Definition ok_last (completed : bool) (l : list ExecutionAttempt.t) : Prop := forall i a,
  l !! i = Some a -> ExecutionAttempt.outcome a = str "OK" -> completed = true /\ S i = length l.

Definition wf_result (rid : bytes) (completed : bool) (r : option JobResult.t) : Prop :=
  match r with
  | None => completed = false
  | Some r => completed = true /\ JobResult.request_id r = rid
              /\ JobResult.signature r <> [] /\ JobResult.status r = str "OK"
  end.

Definition lifecycle_inv (rid : bytes) (max : nat) (o : t) : Prop :=
  let s := state_ o in
  rid <> [] /\ 0 < max /\ ExecutionState.request_id s = rid /\ max_attempts_ o = max
  /\ length (ExecutionState.attempts s) <= max
  /\ ([] ∉ ExecutionState.excluded_nodes s)
  /\ Forall (wf_attempt (ExecutionState.excluded_nodes s)) (ExecutionState.attempts s)
  /\ no_retry (ExecutionState.attempts s)
  /\ ok_last (ExecutionState.completed s) (ExecutionState.attempts s)
  /\ wf_result rid (ExecutionState.completed s) (ExecutionState.result s).

Lemma create_ret rid max o :
  create rid max = Ret o ->
  rid <> [] /\ 0 < max /\ o = mk_t (ExecutionState.mk rid [] ∅ false None) max.
Proof.
  unfold create. case_decide; [done|]. destruct (Nat.eqb_spec max 0); [done|].
  intros [= <-]. split_and!; [done|lia|done].
Qed.

Lemma create_inv rid max o : create rid max = Ret o -> lifecycle_inv rid max o.
Proof.
  intros (? & ? & ->)%create_ret. unfold lifecycle_inv. cbn.
  split_and!; try done; lia.
Qed.

Lemma begun_inv rid max node o :
  lifecycle_inv rid max o -> can_begin node o -> lifecycle_inv rid max (begun node o).
Proof.
  intros (H1 & H2 & H3 & H4 & H5 & H6 & H7 & H8 & H9 & H10) (Hc & Hn & Hx & He).
  unfold exhausted in He. apply Nat.leb_gt in He. unfold lifecycle_inv. cbn. split_and!; try done.
  - rewrite length_app. cbn. lia.
  - apply Forall_app. split; [done|]. constructor; [|done]. split; [done|by left].
  - intros i j a b Hij Ha Hb Hf.
    apply lookup_snoc_Some in Hb as [[Hj Hb]|[-> <-]];
      apply lookup_snoc_Some in Ha as [[Hi Ha]|[-> <-]]; try lia; [by eapply (H8 i j)|].
    apply (Forall_lookup_1 _ _ _ _ H7) in Ha as [_ Ha]. cbn.
    destruct Ha as [E|[E|[_ Ha]]]; [rewrite E in Hf; done..|]. intros E. by rewrite E in Ha.
  - intros i a Ha Ho. apply lookup_snoc_Some in Ha as [[Hi Ha]|[-> <-]]; [|done].
    destruct (H9 _ _ Ha Ho). congruence.
Qed.

Lemma failed_inv rid max node o :
  lifecycle_inv rid max o -> ExecutionState.completed (state_ o) = false -> node <> [] ->
  lifecycle_inv rid max (failed node o).
Proof.
  intros (H1 & H2 & H3 & H4 & H5 & H6 & H7 & H8 & H9 & H10) Hc Hn.
  unfold lifecycle_inv. cbn. set (l := ExecutionState.attempts (state_ o)) in *.
  assert (Forall (wf_attempt ({[node]} ∪ ExecutionState.excluded_nodes (state_ o))) l) as Hw.
  { eapply Forall_impl; [done|]. intros a [? Ho]. split; [done|].
    rewrite elem_of_union. tauto. }
  split_and!; try done.
  - by rewrite mark_last_length.
  - rewrite not_elem_of_union, not_elem_of_singleton. by split.
  - destruct (mark_last_cases node (str "FAILED") l) as [->|(l0 & a & E & Ea & ->)]; [done|].
    rewrite E in Hw. apply Forall_app in Hw as [Hw _]. apply Forall_app. split; [done|].
    constructor; [|done]. split; [done|]. right; right. split; [done|].
    rewrite elem_of_union, elem_of_singleton. by left.
  - destruct (mark_last_cases node (str "FAILED") l) as [->|(l0 & a & E & Ea & ->)]; [done|].
    rewrite E in H8. intros i j b c Hij Hb Hd Hf.
    apply lookup_snoc_Some in Hd as [[Hj Hd]|[-> <-]];
      apply lookup_snoc_Some in Hb as [[Hi Hb]|[-> <-]]; try lia.
    + eapply (H8 i j); try done; by apply lookup_app_l_Some.
    + cbn. rewrite <-Ea. eapply (H8 i (length l0)); try done; [by apply lookup_app_l_Some|].
      apply lookup_snoc_Some. by right.
  - destruct (mark_last_cases node (str "FAILED") l) as [->|(l0 & a & E & Ea & ->)]; [done|].
    rewrite E in H9. intros i b Hb Ho. apply lookup_snoc_Some in Hb as [[Hi Hb]|[-> <-]]; [|done].
    destruct (H9 i b (lookup_app_l_Some _ _ _ _ Hb) Ho) as [? Hl]. congruence.
Qed.

Lemma done_inv rid max r o :
  lifecycle_inv rid max o -> can_complete r o -> lifecycle_inv rid max (done_with r o).
Proof.
  intros (H1 & H2 & H3 & H4 & H5 & H6 & H7 & H8 & H9 & H10) (Hc & Hi & Hs & Hk).
  unfold lifecycle_inv. cbn. set (l := ExecutionState.attempts (state_ o)) in *.
  set (node := JobResult.responder_node_id r).
  split_and!; try done; [by rewrite mark_last_length| | | |congruence];
    destruct (mark_last_cases node (str "OK") l) as [->|(l0 & a & E & Ea & ->)]; try done.
  - rewrite E in H7. apply Forall_app in H7 as [H7 Ha]. apply Forall_app. split; [done|].
    apply Forall_singleton in Ha as [Ha _]. constructor; [|done]. subst node. cbn in Ea.
    split; [by rewrite <-Ea|]. right; by left.
  - rewrite E in H8. intros i j b c Hij Hb Hd Hf.
    apply lookup_snoc_Some in Hd as [[Hj Hd]|[-> <-]];
      apply lookup_snoc_Some in Hb as [[? Hb]|[-> <-]]; try lia.
    + eapply (H8 i j); try done; by apply lookup_app_l_Some.
    + cbn. rewrite <-Ea. eapply (H8 i (length l0)); try done; [by apply lookup_app_l_Some|].
      apply lookup_snoc_Some. by right.
  - intros i b Hb Ho. split; [done|]. destruct (H9 i b Hb Ho). congruence.
  - rewrite E in H9. intros i b Hb Ho. split; [done|].
    apply lookup_snoc_Some in Hb as [[? Hb]|[-> <-]]; [|by rewrite length_app; cbn; lia].
    destruct (H9 i b (lookup_app_l_Some _ _ _ _ Hb) Ho). congruence.
Qed.

Lemma step_inv rid max o o' : lifecycle_inv rid max o -> step o o' -> lifecycle_inv rid max o'.
Proof.
  intros Ho Hs. destruct Hs as [node o Hc|n o (? & ? & ? & ?)|r o Hc].
  - by apply begun_inv.
  - by apply failed_inv.
  - by apply done_inv.
Qed.

(** ** Properties *)

(** C10: The invariant of the lifecycle.  Whatever sequence of calls is made on
    an orchestrator, accepted or refused: the request id and the bound are
    those of the constructor and never degenerate; there are never more
    attempts than the bound; every attempt has a node and one of the three
    outcomes; a failed node is excluded and is never tried again; only the
    last attempt can be marked OK, and only in a completed execution; and the
    execution is completed exactly when it holds a result, which is signed,
    successful and of this request. *)
Theorem lifecycle_invariant (rid : bytes) (max : nat) (o : t)
    (Hr : reachable rid max o) : lifecycle_inv rid max o.
Proof.
  revert Hr. apply reachable_ind_step.
  - apply create_inv.
  - intros o1 o2. apply step_inv.
Qed.

Definition sample_lifecycle : t :=
  mk_t (ExecutionState.mk (str "job-1") [] ∅ false None) 3.

Lemma lifecycle_invariant_witness :
  lifecycle_inv (str "job-1") 3 (begun (str "node-b") sample_lifecycle).
Proof.
  apply lifecycle_invariant.
  apply (reach_call _ _ sample_lifecycle (BeginAttempt (str "node-b")) (Ret tt)).
  - by apply reach_create.
  - vm_compute. reflexivity.
Defined.

(** C25: Calls are atomic, and completion is final.  A call either returns,
    which it does exactly when its guards hold, or throws and leaves the
    orchestrator as it was; there is no third outcome.  Once an execution is
    completed every call throws [std::logic_error], so its result and its
    attempts never change again. *)
Theorem lifecycle_calls_are_atomic (e : event) (o : t) :
  let ok := match e with
            | BeginAttempt node => can_begin node o
            | AcceptFailure n => can_fail n o
            | AcceptResult r => can_complete r o
            end in
  (ok /\ exists o', perform e o = (Ret tt, o') /\ step o o')
  \/ (~ ok /\ (exists x, perform e o = (Throw x, o))
      /\ (ExecutionState.completed (state_ o) = true ->
          perform e o = (Throw (logic_error "execution already completed"), o))).
Proof.
  assert (ExecutionState.completed (state_ o) = true ->
          perform e o = (Throw (logic_error "execution already completed"), o)) as Hl.
  { intros H. destruct e; cbn [perform]; unfold begin_attempt, accept_authenticated_failure,
      accept_authenticated_result; by rewrite run_ensure_active, H. }
  destruct e as [node|n|r]; cbn [perform] in *;
    [pose proof (begin_attempt_spec node o)|pose proof (accept_failure_spec n o)
    |pose proof (accept_result_spec r o)]; case_decide; auto;
    left; (split; [done|]); eexists; (split; [done|by constructor]).
Qed.
