(* ===== verification/Engine.v ===== *)
(** * The failover engine (cpp/include/ma2a/resilient_execution.hpp)

    The engine is written against two callbacks.  The model takes them as
    computations of the monad, so they may change the world, throw, or run
    into undefined behaviour; what the engine's theorems need of them is in
    the two interface classes [RouteProviderSpec] and [AttemptExecutorSpec],
    which Adapter.v and Executor.v discharge for the callbacks of the code. *)
From S2P Require Import Prelude Contracts Orchestrator.
Import ExecutionFailoverOrchestrator.

#[local] Arguments str : simpl never.

Module AttemptResponse.
Record t : Type := mk {
  result : option JobResult.t;
  failure : option FailureNotice.t;
}.
End AttemptResponse.

Definition RouteProvider (W : Type) : Type := JobRequest.t -> gset bytes -> M W (option bytes).
Definition AttemptExecutor (W : Type) : Type := JobRequest.t -> bytes -> M W AttemptResponse.t.

Module ResilientExecutionOutcome.
Record t : Type := mk {
  state : ExecutionState.t;
  exhausted : bool;
}.
End ResilientExecutionOutcome.

(** Running a method of a local object: the exception leaves the scope that
    owns the object. *)
Definition run_on {S} (m : M S unit) (s : S) : outcome S :=
  match m s with
  | (Ret _, s') => Ret s'
  | (Throw e, _) => Throw e
  | (Undef u, _) => Undef u
  | (OutOfFuel, _) => OutOfFuel
  end.

Module ResilientExecutionEngine.
Record t (W : Type) : Type := mk_t {
  route_provider_ : RouteProvider W;
  attempt_executor_ : AttemptExecutor W;
  max_attempts_ : nat;
}.
Arguments mk_t {W}. Arguments route_provider_ {W}. Arguments attempt_executor_ {W}.
Arguments max_attempts_ {W}.

Section engine.
Context {W : Type}.

(** The constructor; an empty [std::function] is [None]. *)
Definition create (route_provider : option (RouteProvider W))
    (attempt_executor : option (AttemptExecutor W)) (max_attempts : nat) : outcome (t W) :=
  match route_provider with
  | None => Throw (invalid_argument "route provider is required")
  | Some rp =>
      match attempt_executor with
      | None => Throw (invalid_argument "attempt executor is required")
      | Some ae =>
          if max_attempts =? 0
          then Throw (invalid_argument "max_attempts must be positive")
          else Ret (mk_t rp ae max_attempts)
      end
  end.

Context (engine : t W).

(** The body of the loop after the response has arrived. *)
Definition accept_response (target : bytes) (response : AttemptResponse.t)
    (lifecycle : ExecutionFailoverOrchestrator.t) : outcome ExecutionFailoverOrchestrator.t :=
  match AttemptResponse.result response, AttemptResponse.failure response with
  | Some _, Some _ =>
      Throw (logic_error "attempt cannot return result and failure together")
  | None, None => Throw (logic_error "attempt returned no terminal evidence")
  | Some result, None => run_on (accept_authenticated_result result) lifecycle
  | None, Some failure =>
      if decide (FailureNotice.failed_node_id failure <> target)
      then Throw (invalid_argument "failure does not identify attempted node")
      else run_on (accept_authenticated_failure failure) lifecycle
  end.

(** The loop of [execute]. *)
Fixpoint execute_from (fuel : nat) (original : JobRequest.t)
    (lifecycle : ExecutionFailoverOrchestrator.t) : M W ExecutionFailoverOrchestrator.t :=
  match fuel with
  | O => lift OutOfFuel
  | S fuel =>
      if negb (negb (ExecutionState.completed (state lifecycle))
               && negb (exhausted lifecycle)) then mret lifecycle else
      target ← route_provider_ engine original (ExecutionState.excluded_nodes (state lifecycle));
      match target with
      | None => mret lifecycle
      | Some target =>
          lift (throw_if (bool_decide
            (target ∈ ExecutionState.excluded_nodes (state lifecycle)))
            (logic_error "routing returned an excluded node"));;
          lifecycle ← lift (run_on (begin_attempt target) lifecycle);
          let attempt := JobRequest.set_target_node_id target original in
          response ← attempt_executor_ engine attempt target;
          lifecycle ← lift (accept_response target response lifecycle);
          execute_from fuel original lifecycle
      end
  end.

(** Every round begins an attempt, so there are at most [max_attempts_]
    rounds that do not stop the loop. *)
Definition execute (original : JobRequest.t) : M W ResilientExecutionOutcome.t :=
  lift (throw_if (bool_decide (JobRequest.request_id original = []))
          (invalid_argument "request_id is required"));;
  lifecycle ← lift (ExecutionFailoverOrchestrator.create (JobRequest.request_id original)
                      (max_attempts_ engine));
  lifecycle ← execute_from (S (max_attempts_ engine)) original lifecycle;
  mret (ResilientExecutionOutcome.mk (state lifecycle) (exhausted lifecycle)).
End engine.
End ResilientExecutionEngine.

(** ** The specification: failover over an exclusion set

    [failover q ex n w l e w']: with [n] attempts left and the nodes [ex]
    excluded, executing [q] in the world [w] collects the failures [l] in
    order, stops for the reason [e], and leaves the world [w'].  No lifecycle
    object, no flags: one rule for each way a round can go. *)

Inductive stop : Type :=
| Completed (target : bytes) (result : JobResult.t)
| RouteExhausted
| AttemptsExhausted.

(** What a completed round needs of its result, a failed one of its notice. *)
Definition acceptable_result (q : JobRequest.t) (r : JobResult.t) : Prop :=
  JobResult.request_id r = JobRequest.request_id q /\ JobResult.signature r <> []
  /\ JobResult.status r = str "OK".
Definition acceptable_failure (q : JobRequest.t) (target : bytes) (n : FailureNotice.t) : Prop :=
  FailureNotice.request_id n = JobRequest.request_id q /\ FailureNotice.signature n <> []
  /\ FailureNotice.failed_node_id n = target.

Section failover.
Context {W : Type} (route : RouteProvider W) (exec : AttemptExecutor W) (q : JobRequest.t).

(** The request of an attempt. *)
Definition attempt_for (target : bytes) : JobRequest.t := JobRequest.set_target_node_id target q.

Inductive failover : gset bytes -> nat -> W ->
    list (bytes * FailureNotice.t) -> stop -> W -> Prop :=
| failover_attempts ex w : failover ex 0 w [] AttemptsExhausted w
| failover_route ex n w w' :
    route q ex w = (Ret None, w') -> failover ex (S n) w [] RouteExhausted w'
| failover_completed ex n w target w1 r w2 :
    route q ex w = (Ret (Some target), w1) -> target <> [] -> (target ∉ ex) ->
    exec (attempt_for target) target w1 = (Ret (AttemptResponse.mk (Some r) None), w2) ->
    acceptable_result q r ->
    failover ex (S n) w [] (Completed target r) w2
| failover_failed ex n w target w1 notice w2 l e w' :
    route q ex w = (Ret (Some target), w1) -> target <> [] -> (target ∉ ex) ->
    exec (attempt_for target) target w1 = (Ret (AttemptResponse.mk None (Some notice)), w2) ->
    acceptable_failure q target notice ->
    failover ({[target]} ∪ ex) n w2 l e w' ->
    failover ex (S n) w ((target, notice) :: l) e w'.
End failover.

(** The outcome that reports a run. *)
Definition failed_attempts (l : list bytes) : list ExecutionAttempt.t :=
  map (fun node => ExecutionAttempt.mk node (str "FAILED")) l.
Definition final_attempts (e : stop) : list ExecutionAttempt.t :=
  match e with
  | Completed target r =>
      [ExecutionAttempt.mk target
         (if decide (target = JobResult.responder_node_id r) then str "OK" else str "IN_FLIGHT")]
  | _ => []
  end.
Definition stop_result (e : stop) : option JobResult.t :=
  match e with Completed _ r => Some r | _ => None end.
Definition report (q : JobRequest.t) (max : nat) (nodes : list bytes) (ex : gset bytes) (e : stop)
    : ResilientExecutionOutcome.t :=
  let attempts := failed_attempts nodes ++ final_attempts e in
  ResilientExecutionOutcome.mk
    (ExecutionState.mk (JobRequest.request_id q) attempts ex
       (match e with Completed _ _ => true | _ => false end) (stop_result e))
    (max <=? length attempts).

(** ** The engine implements the specification *)

Section refinement.
Context {W : Type} (engine : ResilientExecutionEngine.t W) (q : JobRequest.t).
Let route := ResilientExecutionEngine.route_provider_ engine.
Let exec := ResilientExecutionEngine.attempt_executor_ engine.
Let max := ResilientExecutionEngine.max_attempts_ engine.

(** The lifecycle after the nodes [pre] have failed. *)
Definition lifecycle_after (pre : list bytes) (ex : gset bytes)
    : ExecutionFailoverOrchestrator.t :=
  mk_t (ExecutionState.mk (JobRequest.request_id q) (failed_attempts pre) ex false None) max.

Lemma length_failed_attempts pre : length (failed_attempts pre) = length pre.
Proof. apply length_map. Qed.

Lemma run_on_begin target o :
  run_on (begin_attempt target) o = Ret (begun target o) /\ can_begin target o
  \/ ~ can_begin target o /\ exists e, run_on (begin_attempt target) o = Throw e.
Proof.
  pose proof (begin_attempt_spec target o) as H. unfold run_on. case_decide as Hc.
  - left. by rewrite H.
  - right. destruct H as [e ->]. eauto.
Qed.
Lemma run_on_failure n o :
  run_on (accept_authenticated_failure n) o = Ret (failed (FailureNotice.failed_node_id n) o)
    /\ can_fail n o
  \/ ~ can_fail n o /\ exists e, run_on (accept_authenticated_failure n) o = Throw e.
Proof.
  pose proof (accept_failure_spec n o) as H. unfold run_on. case_decide as Hc.
  - left. by rewrite H.
  - right. destruct H as [e ->]. eauto.
Qed.
Lemma run_on_result r o :
  run_on (accept_authenticated_result r) o = Ret (done_with r o) /\ can_complete r o
  \/ ~ can_complete r o /\ exists e, run_on (accept_authenticated_result r) o = Throw e.
Proof.
  pose proof (accept_result_spec r o) as H. unfold run_on. case_decide as Hc.
  - left. by rewrite H.
  - right. destruct H as [e ->]. eauto.
Qed.

(** The lifecycle once a round of [lifecycle_after pre ex] has gone well. *)
Lemma begun_failed pre ex target :
  failed target (begun target (lifecycle_after pre ex))
  = lifecycle_after (pre ++ [target]) ({[target]} ∪ ex).
Proof.
  unfold failed, begun, lifecycle_after. cbn. rewrite mark_last_snoc by done.
  unfold failed_attempts. by rewrite map_app.
Qed.

Definition lifecycle_done (pre : list bytes) (ex : gset bytes) (e : stop)
    : ExecutionFailoverOrchestrator.t :=
  mk_t (ResilientExecutionOutcome.state (report q max pre ex e)) max.

Lemma lifecycle_done_stop pre ex e :
  stop_result e = None -> lifecycle_done (pre ++ []) (∅ ∪ ex) e = lifecycle_after pre ex.
Proof.
  intros H. unfold lifecycle_done, report, lifecycle_after. rewrite union_empty_l_L, app_nil_r.
  destruct e; [done|..]; cbn; by rewrite app_nil_r.
Qed.

Lemma lifecycle_done_end pre ex target r :
  lifecycle_done (pre ++ []) (∅ ∪ ex) (Completed target r)
  = lifecycle_done pre ex (Completed target r).
Proof. by rewrite union_empty_l_L, app_nil_r. Qed.

Lemma begun_done pre ex target r :
  done_with r (begun target (lifecycle_after pre ex))
  = lifecycle_done pre ex (Completed target r).
Proof.
  unfold done_with, begun, lifecycle_done, report, lifecycle_after, final_attempts.
  cbn [state_ ExecutionState.attempts ExecutionState.request_id ExecutionState.excluded_nodes
    ResilientExecutionOutcome.state stop_result ExecutionFailoverOrchestrator.max_attempts_].
  destruct (decide (target = JobResult.responder_node_id r)) as [H|H].
  - by rewrite mark_last_snoc, H by done.
  - unfold mark_last. rewrite last_snoc. by rewrite decide_False.
Qed.

(** What a response makes of a round that began. *)
Lemma accept_response_cases pre ex target response :
  target <> [] ->
  let o := begun target (lifecycle_after pre ex) in
  match ResilientExecutionEngine.accept_response target response o with
  | Ret o' =>
      (exists r, response = AttemptResponse.mk (Some r) None /\ acceptable_result q r
         /\ o' = lifecycle_done pre ex (Completed target r))
      \/ (exists n, response = AttemptResponse.mk None (Some n) /\ acceptable_failure q target n
         /\ o' = lifecycle_after (pre ++ [target]) ({[target]} ∪ ex))
  | Throw _ =>
      ~ (exists r, response = AttemptResponse.mk (Some r) None /\ acceptable_result q r)
      /\ ~ (exists n, response = AttemptResponse.mk None (Some n) /\ acceptable_failure q target n)
  | _ => False
  end.
Proof.
  intros Ht o. destruct response as [[r|] [n|]]; cbn;
    [split; by intros (? & ? & _)| | |split; by intros (? & ? & _)].
  - destruct (run_on_result r o) as [(-> & _ & Hc)|(Hn & e & ->)].
    + left. exists r. split; [done|]. split; [|apply begun_done]. destruct Hc as (? & ? & ?).
      by repeat split.
    + split; [|by intros (? & ? & _)]. intros (r' & [= <-] & ? & ? & ?). by apply Hn.
  - case_decide as Hf; [split; [by intros (? & ? & _)|]; by intros (? & [= <-] & _ & _ & ?)|].
    subst target.
    destruct (run_on_failure n o) as [(-> & _ & ? & ? & ?)|(Hn & e & ->)].
    + right. exists n. split; [done|]. split; [by repeat split|apply begun_failed].
    + split; [by intros (? & ? & _)|]. intros (n' & [= <-] & ? & ? & _). by apply Hn.
Qed.

Lemma exhausted_after pre ex : exhausted (lifecycle_after pre ex) = (max <=? length pre).
Proof. unfold exhausted. cbn. by rewrite length_failed_attempts. Qed.

(** One round of the loop. *)
Lemma execute_from_over fuel pre ex w :
  max <= length pre ->
  ResilientExecutionEngine.execute_from engine (S fuel) q (lifecycle_after pre ex) w
  = (Ret (lifecycle_after pre ex), w).
Proof.
  intros H. cbn [ResilientExecutionEngine.execute_from].
  by rewrite exhausted_after, (proj2 (Nat.leb_le _ _)) by done.
Qed.

Lemma execute_from_round fuel pre ex w :
  length pre < max ->
  ResilientExecutionEngine.execute_from engine (S fuel) q (lifecycle_after pre ex) w
  = (target ← route q ex;
     match target with
     | None => mret (lifecycle_after pre ex)
     | Some target =>
         lift (throw_if (bool_decide (target ∈ ex))
                 (logic_error "routing returned an excluded node"));;
         lifecycle ← lift (run_on (begin_attempt target) (lifecycle_after pre ex));
         response ← exec (attempt_for q target) target;
         lifecycle ← lift (ResilientExecutionEngine.accept_response target response lifecycle);
         ResilientExecutionEngine.execute_from engine fuel q lifecycle
     end) w.
Proof.
  intros H. cbn [ResilientExecutionEngine.execute_from].
  by rewrite exhausted_after, (proj2 (Nat.leb_gt _ _)) by done.
Qed.

Lemma can_begin_after pre ex target :
  length pre < max -> target <> [] -> (target ∉ ex) ->
  run_on (begin_attempt target) (lifecycle_after pre ex)
  = Ret (begun target (lifecycle_after pre ex)).
Proof.
  intros Hl Ht Hx. destruct (run_on_begin target (lifecycle_after pre ex)) as [[-> _]|[Hn _]]; [done|].
  exfalso. apply Hn. unfold can_begin. rewrite exhausted_after.
  split_and!; try done. by apply Nat.leb_gt.
Qed.

Lemma can_begin_after_inv pre ex target o :
  run_on (begin_attempt target) (lifecycle_after pre ex) = Ret o ->
  target <> [] /\ (target ∉ ex) /\ o = begun target (lifecycle_after pre ex).
Proof.
  destruct (run_on_begin target (lifecycle_after pre ex)) as [[-> (_ & ? & ? & _)]|[_ [e ->]]];
    [|done]. by intros [= <-].
Qed.

(** A completed lifecycle ends the loop. *)
Lemma execute_from_done fuel pre ex target r w :
  ResilientExecutionEngine.execute_from engine (S fuel) q
    (lifecycle_done pre ex (Completed target r)) w
  = (Ret (lifecycle_done pre ex (Completed target r)), w).
Proof. done. Qed.

Lemma execute_from_sound fuel pre ex w o w' :
  length pre <= max ->
  ResilientExecutionEngine.execute_from engine fuel q (lifecycle_after pre ex) w = (Ret o, w') ->
  exists l e, failover route exec q ex (max - length pre) w l e w'
    /\ o = lifecycle_done (pre ++ map fst l) (list_to_set (map fst l) ∪ ex) e.
Proof.
  revert pre ex w. induction fuel as [|fuel IH]; intros pre ex w Hl; [done|].
  destruct (decide (max <= length pre)) as [Hm|Hm].
  { rewrite execute_from_over by done. intros [= <- <-]. exists [], AttemptsExhausted.
    replace (max - length pre) with 0 by lia. split; [constructor|].
    cbn [map list_to_set]. by rewrite lifecycle_done_stop. }
  rewrite execute_from_round by lia. replace (max - length pre) with (S (max - S (length pre))) by lia.
  intros (t & w1 & Er & E)%run_bind_inv. destruct t as [target|].
  2:{ injection E as <- <-. exists [], RouteExhausted. split; [by constructor|].
      cbn [map list_to_set]. by rewrite lifecycle_done_stop. }
  rewrite run_guard in E. case_bool_decide as Hx; [done|].
  apply run_bind_inv in E as (o1 & w3 & Eb & E).
  injection Eb as Eb <-. apply can_begin_after_inv in Eb as (Ht & _ & ->).
  apply run_bind_inv in E as (resp & w4 & Ee & E).
  apply run_bind_inv in E as (o2 & w5 & Ea & E). injection Ea as Ea <-.
  pose proof (accept_response_cases pre ex target resp Ht) as Hc. cbv zeta in Hc.
  rewrite Ea in Hc. destruct Hc as [(r & -> & Hr & ->)|(n & -> & Hn & ->)].
  - destruct fuel; [done|]. rewrite execute_from_done in E. injection E as <- <-.
    exists [], (Completed target r). split; [by eapply failover_completed|].
    cbn [map list_to_set]. by rewrite lifecycle_done_end.
  - apply IH in E as (l & e & Hf & ->); [|rewrite length_app; cbn; lia].
    rewrite length_app in Hf. cbn [length] in Hf.
    exists ((target, n) :: l), e. split.
    + eapply failover_failed; try done. by replace (max - S (length pre)) with
        (max - (length pre + 1)) by lia.
    + cbn [map fst list_to_set]. rewrite <-app_assoc. f_equal.
      apply leibniz_equiv. set_unfold. intros x. tauto.
Qed.

Lemma execute_from_complete fuel pre ex n w l e w' :
  failover route exec q ex n w l e w' -> length pre + n = max -> n < fuel ->
  ResilientExecutionEngine.execute_from engine fuel q (lifecycle_after pre ex) w
  = (Ret (lifecycle_done (pre ++ map fst l) (list_to_set (map fst l) ∪ ex) e), w').
Proof.
  intros H. revert fuel pre.
  induction H as [ex w|ex n w w' Er|ex n w t w1 r w2 Er Ht Hx Ee Hr
                 |ex n w t w1 nt w2 l e w' Er Ht Hx Ee Hn _ IH]; intros fuel pre Hp Hf;
    (destruct fuel as [|fuel]; [lia|]).
  - rewrite execute_from_over by lia. cbn [map list_to_set]. by rewrite lifecycle_done_stop.
  - rewrite execute_from_round by lia. erewrite run_bind by exact Er.
    cbn [map list_to_set]. by rewrite lifecycle_done_stop.
  - rewrite execute_from_round by lia. erewrite run_bind by exact Er. cbv beta iota.
    rewrite run_guard, bool_decide_eq_false_2 by done.
    erewrite run_bind by (unfold lift; by rewrite can_begin_after by (done || lia)).
    erewrite run_bind by exact Ee. cbv beta.
    pose proof (accept_response_cases pre ex t (AttemptResponse.mk (Some r) None) Ht) as Hc.
    cbv zeta in Hc. destruct (ResilientExecutionEngine.accept_response _ _ _) as [o|x| |] eqn:Ea;
      try done; [|exfalso; apply (proj1 Hc); by exists r].
    erewrite run_bind by done.
    destruct Hc as [(r' & [= <-] & _ & ->)|(? & [=] & _)].
    destruct fuel; [lia|]. rewrite execute_from_done. cbn [map list_to_set].
    by rewrite lifecycle_done_end.
  - rewrite execute_from_round by lia. erewrite run_bind by exact Er. cbv beta iota.
    rewrite run_guard, bool_decide_eq_false_2 by done.
    erewrite run_bind by (unfold lift; by rewrite can_begin_after by (done || lia)).
    erewrite run_bind by exact Ee. cbv beta.
    pose proof (accept_response_cases pre ex t (AttemptResponse.mk None (Some nt)) Ht) as Hc.
    cbv zeta in Hc. destruct (ResilientExecutionEngine.accept_response _ _ _) as [o|x| |] eqn:Ea;
      try done; [|exfalso; apply (proj2 Hc); by exists nt].
    erewrite run_bind by done.
    destruct Hc as [(? & [=] & _)|(n' & [= <-] & _ & ->)].
    rewrite IH by (rewrite ?length_app; cbn; lia). cbn [map fst list_to_set].
    rewrite <-app_assoc. do 3 f_equal. apply leibniz_equiv. set_unfold. intros x. tauto.
Qed.
End refinement.

(** ** What every run satisfies *)

Lemma failed_attempts_nodes nodes : map ExecutionAttempt.node_id (failed_attempts nodes) = nodes.
Proof. induction nodes as [|node nodes IH]; [done|]. cbn. by rewrite <-IH at 2. Qed.

Section failover_facts.
Context {W : Type} {route : RouteProvider W} {exec : AttemptExecutor W} {q : JobRequest.t}.

(** The nodes of a run, in the order they were tried. *)
Definition tried (l : list (bytes * FailureNotice.t)) (e : stop) : list bytes :=
  map fst l ++ match e with Completed target _ => [target] | _ => [] end.

Lemma failover_nodes ex n w l e w' :
  failover route exec q ex n w l e w' ->
  NoDup (tried l e) /\ Forall (fun node => node <> [] /\ (node ∉ ex)) (tried l e)
  /\ length (tried l e) <= n
  /\ Forall (fun p => acceptable_failure q (fst p) (snd p)) l.
Proof.
  unfold tried. induction 1 as [| |ex n w t w1 r w2 Er Ht Hx Ee Hr
                 |ex n w t w1 nt w2 l e w' Er Ht Hx Ee Hn _ (Hd & Hf & Hl & Ha)];
    cbn [map fst app length]; [split_and!; (lia || constructor)..| |].
  - split_and!; [apply NoDup_singleton|by repeat constructor|lia|constructor].
  - split_and!; [|constructor; [done|]|lia|by constructor].
    + constructor; [|done]. intros Hin. rewrite Forall_forall in Hf.
      destruct (Hf _ Hin) as [_ Hnot]. apply Hnot, elem_of_union_l, elem_of_singleton_2. done.
    + eapply Forall_impl; [exact Hf|]. cbv beta. intros x [? Hnot]. split; [done|].
      rewrite elem_of_union in Hnot. tauto.
Qed.

(** The reason a run stops, by the attempts it made. *)
Lemma failover_stop ex n w l e w' :
  failover route exec q ex n w l e w' ->
  match e with
  | Completed _ r => length l < n /\ acceptable_result q r
  | RouteExhausted => length l < n
  | AttemptsExhausted => length l = n
  end.
Proof.
  induction 1 as [| | |ex n w t w1 nt w2 l e w' Er Ht Hx Ee Hn _ IH];
    cbn [length]; [done|lia|split; [lia|done]|].
  destruct e; [destruct IH|..]; (split; [lia|done]) || lia.
Qed.

(** Evidence comes from the executor. *)
Lemma failover_result_from ex n w l target r w' (I : W -> Prop) :
  failover route exec q ex n w l (Completed target r) w' -> I w ->
  (forall ex w o w1, I w -> route q ex w = (Ret o, w1) -> I w1) ->
  (forall t w p w1, I w -> t <> [] -> exec (attempt_for q t) t w = (Ret p, w1) -> I w1) ->
  target <> [] /\ exists w1 w2, I w1
    /\ exec (attempt_for q target) target w1 = (Ret (AttemptResponse.mk (Some r) None), w2).
Proof.
  intros H Hw Hroute Hexec. remember (Completed target r) as e eqn:E. revert E Hw.
  induction H as [| |ex n w t w1 r' w2 Er Ht Hx Ee Hr|ex n w t w1 nt w2 l e w' Er Ht Hx Ee Hn _ IH];
    intros E Hw; try done.
  - injection E as -> ->. split; [done|]. exists w1, w2. eauto.
  - apply IH; [done|]. eauto.
Qed.
(** What a run is made of came from the two callbacks. *)
Lemma failover_calls ex n w l e w' :
  failover route exec q ex n w l e w' ->
  Forall (fun p => exists w1 w2, exec (attempt_for q (fst p)) (fst p) w1
                     = (Ret (AttemptResponse.mk None (Some (snd p))), w2)) l
  /\ (forall target r, e = Completed target r -> exists w1 w2,
        exec (attempt_for q target) target w1 = (Ret (AttemptResponse.mk (Some r) None), w2))
  /\ Forall (fun node => exists ex w1 w2, route q ex w1 = (Ret (Some node), w2)) (tried l e).
Proof.
  unfold tried. induction 1 as [| |ex n w t w1 r w2 Er Ht Hx Ee Hr
                 |ex n w t w1 nt w2 l e w' Er Ht Hx Ee Hn _ (H1 & H2 & H3)];
    cbn [map fst app].
  1-2: by split_and!; try constructor.
  - split_and!; [constructor|intros ?? [= -> ->]; eauto|]. constructor; [eauto|constructor].
  - split_and!; [constructor; eauto|done|constructor; eauto].
Qed.
End failover_facts.

Lemma report_nodes q max l ex e :
  map ExecutionAttempt.node_id (ExecutionState.attempts
    (ResilientExecutionOutcome.state (report q max (map fst l) ex e))) = tried l e.
Proof.
  unfold report, tried. cbn [ResilientExecutionOutcome.state ExecutionState.attempts].
  rewrite map_app, failed_attempts_nodes. f_equal. by destruct e.
Qed.

Section execute.
Context {W : Type} (engine : ResilientExecutionEngine.t W) (q : JobRequest.t).
Let route := ResilientExecutionEngine.route_provider_ engine.
Let exec := ResilientExecutionEngine.attempt_executor_ engine.
Let max := ResilientExecutionEngine.max_attempts_ engine.

Lemma execute_unfold w :
  JobRequest.request_id q <> [] -> 0 < max ->
  ResilientExecutionEngine.execute engine q w
  = (lifecycle ← ResilientExecutionEngine.execute_from engine (S max) q (lifecycle_after engine q [] ∅);
     mret (ResilientExecutionOutcome.mk (state lifecycle) (exhausted lifecycle))) w.
Proof.
  intros Hq Hm. unfold ResilientExecutionEngine.execute.
  rewrite run_guard, bool_decide_eq_false_2 by done.
  erewrite run_bind; [done|]. unfold lift. unfold ExecutionFailoverOrchestrator.create.
  rewrite decide_False by done. fold max. by rewrite (proj2 (Nat.eqb_neq _ _)) by lia.
Qed.

Lemma execute_refines w out w' :
  0 < max ->
  ResilientExecutionEngine.execute engine q w = (Ret out, w')
  <-> JobRequest.request_id q <> []
      /\ exists l e, failover route exec q ∅ max w l e w'
           /\ out = report q max (map fst l) (list_to_set (map fst l)) e.
Proof.
  intros Hm. destruct (decide (JobRequest.request_id q = [])) as [Hq|Hq].
  { split; [|tauto]. unfold ResilientExecutionEngine.execute. rewrite run_guard.
    by rewrite bool_decide_eq_true_2. }
  rewrite execute_unfold by done. split.
  - intros (o & w1 & E & Hr)%run_bind_inv. injection Hr as <- <-. split; [done|].
    apply execute_from_sound in E as (l & e & Hf & ->); [|cbn; lia].
    cbn [length app] in Hf. rewrite Nat.sub_0_r in Hf. exists l, e. split; [done|].
    cbn [app]. by rewrite union_empty_r_L.
  - intros (_ & l & e & Hf & ->). erewrite run_bind.
    2:{ eapply execute_from_complete; [exact Hf|done|lia]. }
    cbn [app]. by rewrite union_empty_r_L.
Qed.
End execute.

(** ** The interfaces of the callbacks *)

(** What a route provider promises, as long as the world satisfies [I]: a
    named node that is not excluded, or none. *)
Class RouteProviderSpec {W : Type} (I : W -> Prop) (route : RouteProvider W) : Prop :=
  route_keeps q ex :
    keeps False False I (route q ex)
      (fun o => forall t, o = Some t -> t <> [] /\ (t ∉ ex)).

(** The evidence an executor may return for an attempt. *)
Definition evidence (q : JobRequest.t) (target : bytes) (response : AttemptResponse.t) : Prop :=
  (exists r, response = AttemptResponse.mk (Some r) None /\ acceptable_result q r
     /\ JobResult.responder_node_id r = target)
  \/ (exists n, response = AttemptResponse.mk None (Some n) /\ acceptable_failure q target n).

(** What an executor promises: to end, with evidence or an exception, and to
    run into undefined behaviour only if [u]. *)
Class AttemptExecutorSpec {W : Type} (u : Prop) (I : W -> Prop) (exec : AttemptExecutor W) : Prop :=
  exec_keeps q t : t <> [] -> keeps u False I (exec (attempt_for q t) t) (evidence q t).

Section total.
Context {W : Type} (u : Prop) (I : W -> Prop).
Context (engine : ResilientExecutionEngine.t W) (q : JobRequest.t).
Let route := ResilientExecutionEngine.route_provider_ engine.
Let exec := ResilientExecutionEngine.attempt_executor_ engine.
Let max := ResilientExecutionEngine.max_attempts_ engine.
Context {RS : RouteProviderSpec I route} {ES : AttemptExecutorSpec u I exec}.

(** The exception was thrown by a callback. *)
Definition callback_threw (x : exn) (w' : W) : Prop :=
  (exists ex w, I w /\ route q ex w = (Throw x, w'))
  \/ (exists t w, I w /\ t <> [] /\ exec (attempt_for q t) t w = (Throw x, w')).

Lemma execute_from_total fuel pre ex w :
  I w -> length pre <= max -> max - length pre < fuel ->
  match ResilientExecutionEngine.execute_from engine fuel q (lifecycle_after engine q pre ex) w with
  | (Ret _, w') => I w'
  | (Throw x, w') => I w' /\ callback_threw x w'
  | (Undef _, _) => u
  | (OutOfFuel, _) => False
  end.
Proof.
  revert pre ex w. induction fuel as [|fuel IH]; intros pre ex w Hw Hl Hf; [lia|].
  destruct (decide (max <= length pre)) as [Hm|Hm]; [by rewrite execute_from_over|].
  rewrite execute_from_round by (fold max; lia). fold route exec.
  pose proof (route_keeps q ex w Hw) as Hr.
  unfold mbind at 1, M_bind at 1. destruct (route q ex w) as [[o|x| |] w1] eqn:Er; try done;
    [|split; [done|]; left; eauto].
  destruct Hr as [Ho Hw1]. destruct o as [t|]; [|done]. destruct (Ho t eq_refl) as [Ht Hx].
  rewrite run_guard, bool_decide_eq_false_2 by done.
  erewrite run_bind by (unfold lift; by rewrite can_begin_after by (done || (fold max; lia))).
  pose proof (exec_keeps (exec := exec) q t Ht w1 Hw1) as He.
  unfold mbind at 1, M_bind at 1.
  destruct (exec (attempt_for q t) t w1) as [[resp|x| |] w2] eqn:Ee; try done;
    [|split; [done|]; right; eauto 10].
  destruct He as [Hev Hw2]. pose proof (accept_response_cases engine q pre ex t resp Ht) as Hc.
  cbv zeta in Hc. destruct (ResilientExecutionEngine.accept_response t resp _) as [o|x| |]; try done.
  - erewrite run_bind by done. destruct Hc as [(r & _ & _ & ->)|(n & _ & _ & ->)].
    + destruct fuel as [|fuel]; [lia|]. by rewrite execute_from_done.
    + apply IH; [done|rewrite length_app; cbn [length]; lia..].
  - exfalso. destruct Hc as [Hc1 Hc2].
    destruct Hev as [(r & Hr & ? & _)|Hev]; [apply Hc1; by exists r|by apply Hc2].
Qed.
End total.

Section execute_keeps.
Context {W : Type} (u : Prop) (I : W -> Prop).
Context (engine : ResilientExecutionEngine.t W) (q : JobRequest.t).
Context {RS : RouteProviderSpec I (ResilientExecutionEngine.route_provider_ engine)}.
Context {ES : AttemptExecutorSpec u I (ResilientExecutionEngine.attempt_executor_ engine)}.

Lemma execute_keeps w :
  0 < ResilientExecutionEngine.max_attempts_ engine -> JobRequest.request_id q <> [] -> I w ->
  match ResilientExecutionEngine.execute engine q w with
  | (Ret _, w') => I w'
  | (Throw x, w') => I w' /\ callback_threw I engine q x w'
  | (Undef _, _) => u
  | (OutOfFuel, _) => False
  end.
Proof.
  intros Hmax Hq Hw. set (max := ResilientExecutionEngine.max_attempts_ engine) in *.
  pose proof (execute_from_total u I engine q (S max) [] ∅ w Hw ltac:(cbn; lia)
    ltac:(cbn; fold max; lia)) as Ht.
  rewrite execute_unfold by done. unfold mbind, M_bind. fold max.
  by destruct (ResilientExecutionEngine.execute_from engine (S max) q _ w) as [[o|x| |] w1].
Qed.
End execute_keeps.

(** ** Properties *)

Section properties.
Context {W : Type} (engine : ResilientExecutionEngine.t W) (q : JobRequest.t).
Let route := ResilientExecutionEngine.route_provider_ engine.
Let exec := ResilientExecutionEngine.attempt_executor_ engine.
Let max := ResilientExecutionEngine.max_attempts_ engine.

(** C7: The engine implements failover over an exclusion set.  For any two
    callbacks and any behaviour of them, [execute] returns an outcome if
    and only if the request has an id and the specification [failover] has
    a run from no exclusions and the full budget of attempts; and the
    outcome is the report of that run: its failed nodes in order, then the
    node that completed, the set of failed nodes, and the result. *)
Theorem execute_refines_failover (w : W) (out : ResilientExecutionOutcome.t) (w' : W)
    (Hmax : 0 < max) :
  ResilientExecutionEngine.execute engine q w = (Ret out, w')
  <-> JobRequest.request_id q <> []
      /\ exists l e, failover route exec q ∅ max w l e w'
           /\ out = report q max (map fst l) (list_to_set (map fst l)) e.
Proof. by apply execute_refines. Qed.

(** C9: Whatever the callbacks do, the outcome is well formed.  No node is
    attempted twice, none of them is nameless, and there are at most
    [max_attempts] attempts; every attempt but a completing last one is
    FAILED, and the excluded nodes are exactly the failed ones; the outcome
    is completed exactly when it holds a result, which is of this request,
    signed and successful; and when it is not completed, the flag
    [exhausted] tells the two other terminal states apart: it is set
    exactly when the attempts were used up. *)
Theorem execution_outcome_well_formed (w : W) (out : ResilientExecutionOutcome.t) (w' : W)
    (Hmax : 0 < max) (He : ResilientExecutionEngine.execute engine q w = (Ret out, w')) :
  let s := ResilientExecutionOutcome.state out in
  let nodes := map ExecutionAttempt.node_id (ExecutionState.attempts s) in
  NoDup nodes /\ Forall (fun node => node <> []) nodes /\ length nodes <= max
  /\ exists failed, ExecutionState.excluded_nodes s = list_to_set failed
       /\ match ExecutionState.result s with
          | Some r => ExecutionState.completed s = true /\ acceptable_result q r
              /\ exists last, ExecutionState.attempts s = failed_attempts failed ++ [last]
          | None => ExecutionState.completed s = false
              /\ ExecutionState.attempts s = failed_attempts failed
              /\ ResilientExecutionOutcome.exhausted out = bool_decide (length failed = max)
          end.
Proof.
  apply execute_refines in He as (Hq & l & e & Hf & ->); [|done].
  destruct (failover_nodes _ _ _ _ _ _ Hf) as (Hd & Hn & Hl & _).
  pose proof (failover_stop _ _ _ _ _ _ Hf) as Hs. cbv zeta.
  rewrite report_nodes. unfold report. cbn [ResilientExecutionOutcome.state ResilientExecutionOutcome.exhausted
    ExecutionState.attempts ExecutionState.excluded_nodes ExecutionState.result
    ExecutionState.completed].
  split_and!; [done|eapply Forall_impl; [exact Hn|by intros x []]|done|].
  exists (map fst l). split; [done|].
  destruct e as [t r| |]; cbn [stop_result final_attempts]; [|rewrite app_nil_r..].
  - destruct Hs as [_ ?]. split; [done|]. split; [done|]. by eexists.
  - split_and!; [done..|]. rewrite length_failed_attempts, length_map.
    rewrite bool_decide_eq_false_2 by lia. apply Nat.leb_gt. lia.
  - split_and!; [done..|]. rewrite length_failed_attempts, length_map.
    rewrite bool_decide_eq_true_2 by lia. apply Nat.leb_le. lia.
Qed.

(** C8: Executions are total and their evidence is authentic.  When the two
    callbacks keep their interfaces on the worlds of an invariant [I], an
    execution keeps [I] and ends: its loop is never cut off, it throws only
    what a callback threw, and it runs into undefined behaviour only if the
    executor may.  A completed outcome then has its last attempt marked OK,
    made at the node that is the responder of the result, and the executor
    returned that result for that very attempt. *)
Theorem execution_is_total (I : W -> Prop) (u : Prop) (RS : RouteProviderSpec I route)
    (ES : AttemptExecutorSpec u I exec) (w : W)
    (Hmax : 0 < max) (Hq : JobRequest.request_id q <> []) (Hw : I w) :
  match ResilientExecutionEngine.execute engine q w with
  | (Ret out, w') => I w'
      /\ forall r, ExecutionState.result (ResilientExecutionOutcome.state out) = Some r ->
           last (ExecutionState.attempts (ResilientExecutionOutcome.state out))
           = Some (ExecutionAttempt.mk (JobResult.responder_node_id r) (str "OK"))
           /\ exists w1 w2, I w1
                /\ exec (attempt_for q (JobResult.responder_node_id r))
                     (JobResult.responder_node_id r) w1
                   = (Ret (AttemptResponse.mk (Some r) None), w2)
  | (Throw x, w') => I w' /\ callback_threw I engine q x w'
  | (Undef _, _) => u
  | (OutOfFuel, _) => False
  end.
Proof.
  pose proof (execute_keeps u I engine q w Hmax Hq Hw) as Ht.
  destruct (ResilientExecutionEngine.execute engine q w) as [[out|x| |] w1] eqn:E'; try done.
  split; [done|]. intros r Hr.
  apply execute_refines in E' as (_ & l & e & Hf & Eo); [|done]. rewrite Eo in Hr |- *.
  destruct e as [t r'| |]; [|done..]. injection Hr as ->.
  destruct (failover_result_from _ _ _ _ _ _ _ I Hf Hw) as (Ht' & w2 & w3 & Hw2 & Ee).
  { intros ex w2 o2 w3 Hw2 Er. pose proof (route_keeps q ex w2 Hw2) as H.
    fold route in Er. rewrite Er in H. by destruct H. }
  { intros t2 w2 p2 w3 Hw2 Hn Er. pose proof (exec_keeps q t2 Hn w2 Hw2) as H.
    fold exec in Er. rewrite Er in H. by destruct H. }
  pose proof (exec_keeps q t Ht' w2 Hw2) as H. fold exec in Ee. rewrite Ee in H. destruct H as [Hev _].
  destruct Hev as [(r2 & [= <-] & _ & Hresp)|(? & [=] & _)]. subst t.
  cbn [report ResilientExecutionOutcome.state ExecutionState.attempts final_attempts].
  rewrite last_snoc, decide_True by done. split; [done|]. by exists w2, w3.
Qed.
End properties.
