(* ===== verification/Adapter.v ===== *)
(** * The routing adapter (cpp/include/ma2a/resolutive_routing_adapter.hpp)

    The router is another project's: the class [ResolutiveRouting] lists the
    types and members of it the adapter uses, and [RouterSpec] states what the
    adapter relies on, that a router selects one of the nodes it is given. *)
From S2P Require Import Prelude Contracts Orchestrator Engine.

Class ResolutiveRouting : Type := {
  NodeSnapshot : Type;
  node_id : NodeSnapshot -> bytes;
  (** [Request] and its members; [RequestType::Echo], [Scope::Private]. *)
  Request : Type;
  RequestType : Type;
  RoutingScope : Type;
  RequestType_Echo : RequestType;
  Scope_Private : RoutingScope;
  default_request : Request;
  set_request_id : bytes -> Request -> Request;
  set_type : RequestType -> Request -> Request;
  set_scope : RoutingScope -> Request -> Request;
  set_source_node_id : bytes -> Request -> Request;
  set_organization_id : bytes -> Request -> Request;
  (** [DeterministicRouter] and the selected node of its decision. *)
  DeterministicRouter : Type;
  default_router : DeterministicRouter;
  RouteDecision : Type;
  router_route : DeterministicRouter -> Request -> list NodeSnapshot -> outcome RouteDecision;
  selected_node_id : RouteDecision -> option bytes;
}.

Module ResolutiveRoutingProvider.
Section provider.
Context `{R : ResolutiveRouting}.

Record t : Type := mk_t {
  nodes_ : list NodeSnapshot;
  router_ : DeterministicRouter;
}.

(** The constructor. *)
Definition create (nodes : list NodeSnapshot) : t := mk_t nodes default_router.

(** The request the adapter asks the router with. *)
Definition routing_request (job : JobRequest.t) : Request :=
  let request := default_request in
  let request := set_request_id (JobRequest.request_id job) request in
  let request := set_type RequestType_Echo request in
  let request := set_scope Scope_Private request in
  let request := set_source_node_id (JobRequest.sender_node_id job) request in
  set_organization_id (JobRequest.organization_id job) request.

(** The loop that copies the nodes that are not excluded. *)
Fixpoint eligible_nodes (nodes : list NodeSnapshot) (excluded : gset bytes)
    (eligible : list NodeSnapshot) : list NodeSnapshot :=
  match nodes with
  | [] => eligible
  | node :: nodes =>
      eligible_nodes nodes excluded
        (if bool_decide (node_id node ∈ excluded) then eligible else eligible ++ [node])
  end.

(** [operator()] *)
Definition call_operator {W : Type} (self : t) : RouteProvider W := fun job excluded =>
  let request := routing_request job in
  let eligible := eligible_nodes (nodes_ self) excluded [] in
  decision ← lift (router_route (router_ self) request eligible);
  mret (selected_node_id decision).
End provider.
End ResolutiveRoutingProvider.
Import ResolutiveRoutingProvider.

(** What the adapter relies on. *)
Class RouterSpec `{R : ResolutiveRouting} : Prop := {
  (** Routing returns or throws. *)
  route_defined r request nodes : defined (router_route r request nodes);
  (** It selects one of the nodes it is given. *)
  route_selects r request nodes d id :
    router_route r request nodes = Ret d -> selected_node_id d = Some id ->
    id ∈ map node_id nodes;
}.

Section adapter.
Context `{R : ResolutiveRouting}.

Lemma eligible_nodes_filter nodes excluded acc :
  eligible_nodes nodes excluded acc = acc ++ filter (fun n => node_id n ∉ excluded) nodes.
Proof.
  revert acc. induction nodes as [|node nodes IH]; intros acc; [by rewrite app_nil_r|].
  cbn [eligible_nodes]. rewrite IH, filter_cons. case_bool_decide as H.
  - by rewrite decide_False by tauto.
  - by rewrite decide_True, <-app_assoc.
Qed.

Lemma call_operator_ret {W} self job excluded (w : W) o w' :
  call_operator self job excluded w = (Ret o, w') ->
  w' = w /\ exists d, selected_node_id d = o
    /\ router_route (router_ self) (routing_request job)
         (filter (fun n => node_id n ∉ excluded) (nodes_ self)) = Ret d.
Proof.
  unfold call_operator. rewrite eligible_nodes_filter. cbn [app].
  intros (d & w1 & E & H)%run_bind_inv. injection E as E <-. injection H as <- <-. eauto.
Qed.

Context {RS : RouterSpec}.

Lemma adapter_routes {W} nodes job excluded (w : W) id w' :
  call_operator (create nodes) job excluded w = (Ret (Some id), w') ->
  id ∈ map node_id (filter (fun n => node_id n ∉ excluded) nodes).
Proof. intros (_ & d & Hd & Er)%call_operator_ret. by eapply route_selects. Qed.

Lemma adapter_interface {W} (I : W -> Prop) nodes :
  Forall (fun n => node_id n <> []) nodes -> RouteProviderSpec I (call_operator (create nodes)).
Proof.
  intros Hnamed job excluded w Hw.
  destruct (call_operator (create nodes) job excluded w) as [o w'] eqn:E.
  destruct o as [o|x|u|].
  - split; [|by apply call_operator_ret in E as [-> _]]. intros id ->. apply adapter_routes in E.
    apply list_elem_of_fmap in E as (n & -> & Hn). apply list_elem_of_filter in Hn as [Hx Hn].
    rewrite Forall_forall in Hnamed. split; [by apply Hnamed|done].
  - unfold call_operator, mbind, M_bind, lift in E. by destruct (router_route _ _ _); simplify_eq.
  - pose proof (route_defined (router_ (create nodes)) (routing_request job)
      (eligible_nodes nodes excluded [])) as Hd.
    unfold call_operator, mbind, M_bind, lift in E. by destruct (router_route _ _ _).
  - pose proof (route_defined (router_ (create nodes)) (routing_request job)
      (eligible_nodes nodes excluded [])) as Hd.
    unfold call_operator, mbind, M_bind, lift in E. by destruct (router_route _ _ _).
Qed.
End adapter.

(** ** Properties *)

(** C26: The adapter discharges the interface the engine is proved against.
    For a router that selects among the nodes it is given, and nodes that all
    have a name, the provider leaves the world alone and names only nodes of
    its own list that are not excluded; so "routing returned an excluded
    node" cannot come from it.  The nodes the router sees are those of the
    list that are not excluded, in their order. *)
Theorem adapter_is_a_route_provider `{R : ResolutiveRouting} {RS : RouterSpec} {W : Type}
    (I : W -> Prop) (nodes : list NodeSnapshot)
    (Hnamed : Forall (fun n => node_id n <> []) nodes) :
  RouteProviderSpec I (call_operator (W := W) (create nodes))
  /\ forall job excluded w id w',
       call_operator (W := W) (create nodes) job excluded w = (Ret (Some id), w') ->
       id ∈ map node_id (filter (fun n => node_id n ∉ excluded) nodes).
Proof.
  split; [by apply adapter_interface|]. intros job excluded w id w'. apply adapter_routes.
Qed.
