(* ===== verification/AuthKeeps.v ===== *)
(** * What signing and verifying leave alone

    The OpenSSL calls change the world too (they allocate contexts), but not
    what the properties of the network are about.  [SslInvariant I] says of a
    property [I] of the world that it holds again when a context that was
    created has been used and freed; the signing functions of job_auth.hpp are
    total and keep such a property.  [CtxTracking] tells which contexts exist,
    and that there are as many as before is one such property. *)
From S2P Require Import Prelude Contracts Canonical Wire Crypto CryptoSpec JobAuth.

(** The OpenSSL calls that take the world. *)
Inductive ssl_step {W : Type} `{O : OpenSSL W} : W -> W -> Prop :=
| step_ctx_new w : ssl_step w (snd (EVP_MD_CTX_new w))
| step_ctx_free ctx w : ssl_step w (EVP_MD_CTX_free ctx w)
| step_private_key seed w : ssl_step w (snd (EVP_PKEY_new_raw_private_key seed w))
| step_public_key key w : ssl_step w (snd (EVP_PKEY_new_raw_public_key key w))
| step_sign_init ctx key w : ssl_step w (snd (EVP_DigestSignInit ctx key w))
| step_sign_size ctx m w : ssl_step w (snd (EVP_DigestSign_size ctx m w))
| step_sign ctx n m w : ssl_step w (snd (EVP_DigestSign ctx n m w))
| step_verify_init ctx key w : ssl_step w (snd (EVP_DigestVerifyInit ctx key w))
| step_verify ctx sg m w : ssl_step w (snd (EVP_DigestVerify ctx sg m w)).

(** The calls on a context. *)
Inductive ctx_use {W : Type} `{O : OpenSSL W} (ctx : EVP_MD_CTX) : W -> W -> Prop :=
| use_sign_init key w : ctx_use ctx w (snd (EVP_DigestSignInit ctx key w))
| use_sign_size m w : ctx_use ctx w (snd (EVP_DigestSign_size ctx m w))
| use_sign n m w : ctx_use ctx w (snd (EVP_DigestSign ctx n m w))
| use_verify_init key w : ctx_use ctx w (snd (EVP_DigestVerifyInit ctx key w))
| use_verify sg m w : ctx_use ctx w (snd (EVP_DigestVerify ctx sg m w)).

Class SslInvariant {W : Type} {O : OpenSSL W} (I : W -> Prop) : Type := {
  (** What holds while a context exists. *)
  ssl_during : EVP_MD_CTX -> W -> Prop;
  ssl_new w c w' : I w -> EVP_MD_CTX_new w = (c, w') ->
    match c with Some ctx => ssl_during ctx w' | None => I w' end;
  ssl_use ctx w w' : ctx_use ctx w w' -> ssl_during ctx w -> ssl_during ctx w';
  ssl_free ctx w : ssl_during ctx w -> I (EVP_MD_CTX_free ctx w);
}.

(** What no call of OpenSSL changes. *)
Definition ssl_quiet {W : Type} {O : OpenSSL W} (I : W -> Prop) : Prop :=
  forall w w', ssl_step w w' -> I w -> I w'.

Lemma use_step {W : Type} {O : OpenSSL W} ctx w w' : ctx_use ctx w w' -> ssl_step w w'.
Proof. intros []; constructor. Qed.

Lemma quiet_invariant {W : Type} {O : OpenSSL W} (I : W -> Prop) : ssl_quiet I -> SslInvariant I.
Proof.
  intros HI. refine {| ssl_during := fun _ => I |}.
  - intros w c w' Hw E. pose proof (HI _ _ (step_ctx_new w) Hw) as H. rewrite E in H. by destruct c.
  - intros ctx w w' H%use_step. by apply HI.
  - intros ctx w. apply HI. constructor.
Defined.

#[export] Instance and_ssl_invariant {W : Type} {O : OpenSSL W} (I J : W -> Prop)
  {SI : SslInvariant I} {SJ : SslInvariant J} : SslInvariant (fun w => I w /\ J w).
Proof.
  refine {| ssl_during := fun ctx w => ssl_during (I := I) ctx w /\ ssl_during (I := J) ctx w |}.
  - intros w c w' [HI HJ] E. pose proof (ssl_new _ _ _ HI E). pose proof (ssl_new _ _ _ HJ E).
    by destruct c.
  - intros ctx w w' Hu [HI HJ]. split; by eapply ssl_use.
  - intros ctx w [HI HJ]. split; by apply ssl_free.
Defined.

(** ** The contexts that exist *)

Class CtxTracking (W : Type) `{O : OpenSSL W} : Type := {
  ctx_live : EVP_MD_CTX -> W -> Prop;
  new_live w ctx w' : EVP_MD_CTX_new w = (Some ctx, w') ->
    ~ ctx_live ctx w /\ forall c, ctx_live c w' <-> c = ctx \/ ctx_live c w;
  new_fails w w' : EVP_MD_CTX_new w = (None, w') -> forall c, ctx_live c w' <-> ctx_live c w;
  use_live ctx w w' : ctx_use ctx w w' -> ctx_live ctx w ->
    forall c, ctx_live c w' <-> ctx_live c w;
  (** Only a context that exists can be freed. *)
  free_live ctx w : ctx_live ctx w ->
    forall c, ctx_live c (EVP_MD_CTX_free ctx w) <-> c <> ctx /\ ctx_live c w;
}.

Definition contexts_are {W : Type} {O : OpenSSL W} {CT : CtxTracking W} (C : EVP_MD_CTX -> Prop)
    (w : W) : Prop :=
  forall c, ctx_live c w <-> C c.

#[export] Instance contexts_invariant {W : Type} {O : OpenSSL W} {CT : CtxTracking W} C :
  SslInvariant (contexts_are C).
Proof.
  refine {| ssl_during := fun ctx w => ~ C ctx /\ forall c, ctx_live c w <-> c = ctx \/ C c |}.
  - unfold contexts_are. intros w [ctx|] w' Hw E.
    + apply new_live in E as [Hn Hl]. split; [by rewrite <-Hw|]. intros c. by rewrite Hl, Hw.
    + intros c. by rewrite (new_fails _ _ E), Hw.
  - intros ctx w w' Hu [Hn Hl]. split; [done|]. intros c. rewrite (use_live _ _ _ Hu); [done|].
    apply Hl. by left.
  - intros ctx w [Hn Hl] c. rewrite free_live by (apply Hl; by left). rewrite Hl. split.
    + intros [Hc [->|H]]; [done|done].
    + intros H. split; [|by right]. by intros ->.
Defined.

Section keeps.
Context {W : Type} {O : OpenSSL W} {OS : OpenSSLSpec W}.
Context (I : W -> Prop) {SI : SslInvariant I}.

Lemma ctx_call {A} u f ctx (g : W -> A * W) :
  (forall w, ctx_use ctx w (snd (g w))) -> keeps u f (ssl_during ctx) (call g) (fun _ => True).
Proof.
  intros Hg. apply keeps_call. intros w a w' Hw E. specialize (Hg w). rewrite E in Hg.
  split; [done|]. by eapply ssl_use.
Qed.

Lemma keeps_any {A} (J : W -> Prop) (o : outcome A) : keeps True True J (lift o) (fun _ => True).
Proof. apply keeps_lift. by destruct o. Qed.

Lemma with_md_ctx_keeps {A} (body : EVP_MD_CTX -> M W A) :
  (forall ctx, keeps True True (ssl_during ctx) (body ctx) (fun _ => True)) ->
  keeps True True I (with_md_ctx body) (fun _ => True).
Proof.
  intros Hb w Hw. unfold with_md_ctx, mbind, M_bind, call.
  destruct (EVP_MD_CTX_new w) as [[ctx|] w1] eqn:E; apply (ssl_new _ _ _ Hw) in E; [|done].
  specialize (Hb ctx w1 E). unfold with_destructor.
  destruct (body ctx w1) as [[] w2]; try done; [destruct Hb; split; [done|]|]; by apply ssl_free.
Qed.

Lemma ed25519_sign_keeps u f key m : keeps u f I (ed25519_sign key m) (fun _ => True).
Proof.
  apply keeps_defined; [intros; apply ed25519_sign_defined|]. apply with_md_ctx_keeps. intros ctx.
  eapply keeps_bind; [apply ctx_call; constructor|]. intros rc _.
  apply keeps_if; intros _; [apply keeps_throw|].
  eapply keeps_bind; [apply ctx_call; constructor|]. intros [rc2 n] _.
  apply keeps_if; intros _; [apply keeps_throw|].
  eapply keeps_bind; [apply ctx_call; constructor|]. intros [rc3 written] _.
  eapply keeps_bind; [apply keeps_any|]. intros sg _.
  apply keeps_if; intros _; [apply keeps_throw|apply keeps_any].
Qed.

Lemma ed25519_verify_keeps u f key m sg : keeps u f I (ed25519_verify key m sg) (fun _ => True).
Proof.
  apply keeps_defined; [intros; apply ed25519_verify_defined|]. apply with_md_ctx_keeps. intros ctx.
  eapply keeps_bind; [apply ctx_call; constructor|]. intros rc _.
  apply keeps_if; intros _; [apply keeps_throw|].
  eapply keeps_bind; [apply ctx_call; constructor|]. intros rc2 _. by apply keeps_ret.
Qed.

(** Signatures are 64 bytes, so their text is defined. *)
Lemma sign_then_encode_keeps u f key m :
  keeps u f I (signature ← ed25519_sign key m; lift (base64url_encode signature)) (fun _ => True).
Proof.
  apply keeps_defined.
  - intros w _. unfold mbind, M_bind. pose proof (ed25519_sign_defined key m w) as Hd.
    destruct (ed25519_sign key m w) as [[sg|x| |] w'] eqn:E; try done.
    apply ed25519_sign_sound in E as (k & _ & ->). unfold lift. cbn.
    by rewrite base64url_encode_spec by apply encodable_signature.
  - eapply keeps_bind; [apply ed25519_sign_keeps|]. intros sg _. apply keeps_any.
Qed.

Lemma bind_assoc {A B C} (m : M W A) (g : A -> M W B) (h : B -> M W C) w :
  (x ← m; y ← g x; h y) w = (y ← (x ← m; g x); h y) w.
Proof. unfold mbind, M_bind. by destruct (m w) as [[] ?]. Qed.

Lemma keeps_assoc {A B C} u f (m : M W A) (g : A -> M W B) (h : B -> M W C) Q :
  keeps u f I (y ← (x ← m; g x); h y) Q -> keeps u f I (x ← m; y ← g x; h y) Q.
Proof. intros H w Hw. rewrite bind_assoc. by apply H. Qed.

Lemma sign_job_request_keeps u f q key : keeps u f I (sign_job_request q key) (fun _ => True).
Proof.
  unfold sign_job_request. case_decide; [apply keeps_throw|]. apply keeps_assoc.
  eapply keeps_bind; [apply sign_then_encode_keeps|]. intros t _. by apply keeps_ret.
Qed.

Lemma sign_failure_notice_keeps u f n key :
  keeps u f I (sign_failure_notice n key) (fun _ => True).
Proof.
  unfold sign_failure_notice. apply keeps_assoc.
  eapply keeps_bind; [apply sign_then_encode_keeps|]. intros t _. by apply keeps_ret.
Qed.

(** The text of a signature that fits a message fits an [int]. *)
Lemma verify_text_keeps key m s :
  (Z.of_nat (length s) <= INT_MAX)%Z ->
  keeps False False I (signature ← lift (base64url_decode s); ed25519_verify key m signature)
    (fun _ => True).
Proof.
  intros Hs. apply keeps_defined; [intros w _; by apply verify_text_defined|].
  eapply keeps_bind; [apply keeps_any|]. intros sg _. apply ed25519_verify_keeps.
Qed.

(** Without a bound on the signature only the states count. *)
Lemma verify_text_touches key m s :
  keeps True True I
    (try_catch_all (signature ← lift (base64url_decode s); ed25519_verify key m signature)
       (mret false)) (fun _ => True).
Proof.
  apply keeps_try; [|by apply keeps_ret].
  eapply keeps_bind; [apply keeps_any|]. intros sg _. apply ed25519_verify_keeps.
Qed.

Lemma verify_job_result_touches r key :
  keeps True True I (verify_job_result r key) (fun _ => True).
Proof. unfold verify_job_result. case_decide; [by apply keeps_ret|apply verify_text_touches]. Qed.

Lemma verify_failure_notice_touches n key :
  keeps True True I (verify_failure_notice n key) (fun _ => True).
Proof. unfold verify_failure_notice. case_decide; [by apply keeps_ret|apply verify_text_touches]. Qed.

Lemma verify_job_result_keeps r key :
  (Z.of_nat (length (JobResult.signature r)) <= INT_MAX)%Z ->
  keeps False False I (verify_job_result r key) (fun _ => True).
Proof.
  intros Hs. unfold verify_job_result. case_decide; [by apply keeps_ret|].
  apply keeps_try; [by apply verify_text_keeps|by apply keeps_ret].
Qed.

Lemma verify_failure_notice_keeps n key :
  (Z.of_nat (length (FailureNotice.signature n)) <= INT_MAX)%Z ->
  keeps False False I (verify_failure_notice n key) (fun _ => True).
Proof.
  intros Hs. unfold verify_failure_notice. case_decide; [by apply keeps_ret|].
  apply keeps_try; [by apply verify_text_keeps|by apply keeps_ret].
Qed.
End keeps.
