(* ===== verification/Resources.v ===== *)
(** * The resources of the process

    [process_state]: the descriptors that are open, the digest contexts that
    exist, and the interruptions to come.  The system calls of tcp.hpp and the
    OpenSSL calls of crypto.hpp keep it but for the descriptor or the context
    they are about. *)
From S2P Require Import Prelude Framing Crypto Tcp Network Transport AuthKeeps.

(** System calls leave the contexts of OpenSSL alone. *)
Class CtxQuiet (W : Type) {O : OpenSSL W} {CT : CtxTracking W} {P : Posix W} : Prop := {
  io_live c w w' : io_step w w' -> ctx_live c w' <-> ctx_live c w;
  socket_live c w : ctx_live c (snd (sys_socket w)) <-> ctx_live c w;
  close_live c fd w : ctx_live c (sys_close fd w) <-> ctx_live c w;
}.

Section resources.
Context {W : Type} {O : OpenSSL W} {CT : CtxTracking W}.
Context {P : Posix W} {CQ : CtxQuiet W} {FS : FiniteSignals W} {FT : FdTracking W}.

(** At most [n] interruptions to come, the contexts [C] and the descriptors [F]. *)
Definition process_state (n : nat) (C : EVP_MD_CTX -> Prop) (F : gset Z) (w : W) : Prop :=
  sys_state n F w /\ contexts_are C w.

#[export] Instance process_state_fds n C : FdInvariant (process_state n C).
Proof.
  split.
  - intros F. apply (and_invariant (sys_state n F) (contexts_are C)); [apply fd_io|].
    intros w w' Hs Hw c. by rewrite (io_live _ _ _ Hs).
  - intros F w r w' [Hw HC] E. pose proof (fd_socket F w r w' Hw E) as H.
    assert (contexts_are C w') as HC'
      by (intros c; pose proof (socket_live c w) as Hc; rewrite E in Hc; by rewrite Hc).
    destruct (0 <=? sr_val r)%Z; [|done]. by destruct H.
  - intros F fd w [Hw HC]. split; [by apply fd_close|]. intros c. by rewrite close_live.
Qed.

Definition process_state_ssl n C F (Hq : ssl_quiet (sys_state n F)) : SslInvariant (process_state n C F) :=
  and_ssl_invariant _ _ (SI := quiet_invariant _ Hq).

(** The state the process is in. *)
Definition as_now (w : W) : gset Z -> W -> Prop := process_state (signals w) (fun c => ctx_live c w).

Lemma as_now_here w : as_now w (open_fds w) w.
Proof. by split. Qed.

Lemma as_now_fuel fuel w F :
  (Z.of_nat (signals w) + kMaxFrameBytes + 4 < Z.of_nat fuel)%Z -> enough_fuel fuel (as_now w F).
Proof. intros Hf w1 [[? _] _]. lia. Qed.

(** Nothing leaked: the descriptors and contexts are those of [w]. *)
Definition nothing_leaked (w w' : W) : Prop :=
  open_fds w' = open_fds w /\ forall c, ctx_live c w' <-> ctx_live c w.

Lemma as_now_leaks w w' : as_now w (open_fds w) w' -> nothing_leaked w w'.
Proof. by intros [[_ ?] ?]. Qed.
End resources.
