(* ===== verification/Executor.v ===== *)
(** * The authenticated TCP executor (cpp/include/ma2a/authenticated_tcp_executor.hpp)

    One attempt: connect, send the request signed for the target, receive one
    frame, and accept it as evidence or replace it by locally signed
    evidence.  The resolvers are callbacks; [fuel] bounds the rounds of the
    socket loops. *)
From S2P Require Import Prelude Contracts Canonical Wire Reader ReaderSafety WireParse ReaderBounds.
From S2P Require Import Envelope Framing Crypto CryptoSpec JobAuth Tcp Network Transport.
From S2P Require Import AuthKeeps Resources Orchestrator Engine.

Module TcpEndpoint.
Record t : Type := mk { host : bytes; port : Z }.
End TcpEndpoint.

Definition EndpointResolver (W : Type) : Type := bytes -> M W (option TcpEndpoint.t).
Definition PublicKeyResolver (W : Type) {O : OpenSSL W} : Type := bytes -> M W (option EVP_PKEY).

(** [duration_cast<seconds>] of a number of nanoseconds. *)
Definition seconds_of_ns (ns : Z) : Z := Z.quot ns 1000000000.

Module AuthenticatedTcpAttemptExecutor.
Section executor.
Context {W : Type} {O : OpenSSL W} {P : Posix W}.

Record t : Type := mk_t {
  local_private_key_ : option EVP_PKEY;
  endpoint_resolver_ : EndpointResolver W;
  public_key_resolver_ : PublicKeyResolver W;
  connect_timeout_ : Z;
  io_timeout_ : Z;
}.

(** The constructor; a null key and an empty function are [None]. *)
Definition create (local_private_key : option EVP_PKEY)
    (endpoint_resolver : option (EndpointResolver W))
    (public_key_resolver : option (PublicKeyResolver W))
    (connect_timeout io_timeout : Z) : outcome t :=
  throw_if (bool_decide (local_private_key = None))
    (invalid_argument "local private key is required");;
  match endpoint_resolver with
  | None => Throw (invalid_argument "endpoint resolver is required")
  | Some er =>
      match public_key_resolver with
      | None => Throw (invalid_argument "public key resolver is required")
      | Some pr =>
          throw_if (connect_timeout <=? 0)%Z
            (invalid_argument "connect timeout must be positive");;
          throw_if (io_timeout <=? 0)%Z (invalid_argument "IO timeout must be positive");;
          Ret (mk_t local_private_key er pr connect_timeout io_timeout)
      end
  end.

Context (self : t).

Definition local_failure (request : JobRequest.t) (target reason : bytes)
    : M W AttemptResponse.t :=
  now ← call system_clock_now;
  let failure := {|
    FailureNotice.protocol_version := JobRequest.protocol_version request;
    FailureNotice.message_id :=
      str "local-failure-" ++ JobRequest.request_id request ++ str "-" ++ target;
    FailureNotice.request_id := JobRequest.request_id request;
    FailureNotice.reporting_node_id := JobRequest.sender_node_id request;
    FailureNotice.failed_node_id := target;
    FailureNotice.reason := reason;
    FailureNotice.observed_at := seconds_of_ns now;
    FailureNotice.signature_algorithm := str "Ed25519";
    FailureNotice.signature := [] |} in
  failure ← sign_failure_notice failure (local_private_key_ self);
  mret (AttemptResponse.mk None (Some failure)).

(** The branch for a [JOB_RESULT]. *)
Definition receive_result (request : JobRequest.t) (target response_json : bytes)
    : M W AttemptResponse.t :=
  result ← lift (parse_job_result_envelope_json response_json);
  if decide (JobResult.request_id result <> JobRequest.request_id request
             \/ JobResult.responder_node_id result <> target
             \/ JobResult.recipient_node_id result <> JobRequest.sender_node_id request
             \/ JobResult.status result <> str "OK")
  then local_failure request target (str "invalid_result_contract") else
  public_key ← public_key_resolver_ self (JobResult.responder_node_id result);
  valid ← verify_job_result result public_key;
  if negb valid then local_failure request target (str "invalid_result_signature") else
  mret (AttemptResponse.mk (Some result) None).

(** The branch for a [FAILURE_NOTICE]. *)
Definition receive_failure (request : JobRequest.t) (target response_json : bytes)
    : M W AttemptResponse.t :=
  failure ← lift (parse_failure_notice_envelope_json response_json);
  if decide (FailureNotice.request_id failure <> JobRequest.request_id request
             \/ FailureNotice.failed_node_id failure <> target
             \/ FailureNotice.reporting_node_id failure = [])
  then local_failure request target (str "invalid_failure_contract") else
  public_key ← public_key_resolver_ self (FailureNotice.reporting_node_id failure);
  valid ← verify_failure_notice failure public_key;
  if negb valid then local_failure request target (str "invalid_failure_signature") else
  mret (AttemptResponse.mk None (Some failure)).

(** The body of the [try] once the socket is connected. *)
Definition exchange (fuel : nat) (request signed_request : JobRequest.t) (target : bytes)
    (socket : SocketHandle.t) : M W AttemptResponse.t :=
  set_socket_io_timeout (SocketHandle.get socket) (io_timeout_ self);;
  send_framed_json fuel (SocketHandle.get socket) (job_request_envelope_json signed_request);;
  response_json ← recv_framed_json fuel (SocketHandle.get socket);
  type ← lift (wire_envelope_type response_json);
  if decide (type = str "JOB_RESULT") then receive_result request target response_json else
  if decide (type = str "FAILURE_NOTICE") then receive_failure request target response_json else
  local_failure request target (str "unsupported_response_type").

(** [operator()] *)
Definition call_operator (fuel : nat) (request : JobRequest.t) (target : bytes)
    : M W AttemptResponse.t :=
  if decide (target = []) then throw (invalid_argument "target node is required") else
  if decide (JobRequest.target_node_id request <> target)
  then throw (invalid_argument "request target does not match attempt target") else
  endpoint ← endpoint_resolver_ self target;
  match endpoint with
  | None => local_failure request target (str "endpoint_unavailable")
  | Some endpoint =>
      signed_request ← sign_job_request request (local_private_key_ self);
      try_catch_all
        (socket ← connect_ipv4_with_timeout fuel (TcpEndpoint.host endpoint)
                    (TcpEndpoint.port endpoint) (connect_timeout_ self);
         with_destructor (SocketHandle.destroy socket)
           (exchange fuel request signed_request target socket))
        (local_failure request target (str "transport_unavailable"))
  end.
End executor.
Arguments t W {O}.
End AuthenticatedTcpAttemptExecutor.
Import AuthenticatedTcpAttemptExecutor.

(** ** What an attempt returns *)

Lemma not_neq (a b : bytes) : ~ a <> b -> a = b.
Proof. apply dec_stable. Qed.

Section evidence.
Context {W : Type} {O : OpenSSL W} {OS : OpenSSLSpec W} {P : Posix W}.
Context (self : AuthenticatedTcpAttemptExecutor.t W).

(** The reasons the executor gives (section 7 of the specification). *)
Definition local_reasons : list bytes :=
  [str "endpoint_unavailable"; str "transport_unavailable"; str "invalid_result_contract";
   str "invalid_result_signature"; str "invalid_failure_contract";
   str "invalid_failure_signature"; str "unsupported_response_type"].

(** Evidence the local node made, over its own key. *)
Definition local_notice (request : JobRequest.t) (target reason : bytes) (n : FailureNotice.t) : Prop :=
  exists k now, local_private_key_ self = Some k
    /\ n = signed_notice k (FailureNotice.mk (JobRequest.protocol_version request)
             (str "local-failure-" ++ JobRequest.request_id request ++ str "-" ++ target)
             (JobRequest.request_id request) (JobRequest.sender_node_id request) target reason
             (seconds_of_ns now) (str "Ed25519") []).

(** A result that meets the contract of section 5, under the key the
    resolver gave for the target. *)
Definition accepted_result (request : JobRequest.t) (target : bytes) (r : JobResult.t) : Prop :=
  JobResult.request_id r = JobRequest.request_id request
  /\ JobResult.responder_node_id r = target
  /\ JobResult.recipient_node_id r = JobRequest.sender_node_id request
  /\ JobResult.status r = str "OK" /\ JobResult.signature r <> []
  /\ exists key w1 w2, public_key_resolver_ self target w1 = (Ret key, w2)
       /\ result_authentic r key.

(** A notice that meets the contract of section 6. *)
Definition accepted_notice (request : JobRequest.t) (target : bytes) (n : FailureNotice.t) : Prop :=
  FailureNotice.request_id n = JobRequest.request_id request
  /\ FailureNotice.failed_node_id n = target
  /\ FailureNotice.reporting_node_id n <> [] /\ FailureNotice.signature n <> []
  /\ exists key w1 w2,
       public_key_resolver_ self (FailureNotice.reporting_node_id n) w1 = (Ret key, w2)
       /\ notice_authentic n key.

(** Some reason of the list. *)
Definition locally_failed (request : JobRequest.t) (target : bytes) (n : FailureNotice.t) : Prop :=
  exists reason, reason ∈ local_reasons /\ local_notice request target reason n.

Definition accepted (request : JobRequest.t) (target : bytes) (resp : AttemptResponse.t) : Prop :=
  (exists r, resp = AttemptResponse.mk (Some r) None /\ accepted_result request target r)
  \/ (exists n, resp = AttemptResponse.mk None (Some n)
        /\ (accepted_notice request target n \/ locally_failed request target n)).

Lemma local_failure_sound request target reason w resp w' :
  local_failure self request target reason w = (Ret resp, w') ->
  exists n, resp = AttemptResponse.mk None (Some n) /\ local_notice request target reason n.
Proof.
  unfold local_failure. intros (now & w1 & _ & E)%run_bind_inv.
  apply run_bind_inv in E as (n & w2 & Es & E). injection E as <- <-.
  apply sign_failure_notice_sound in Es as (k & Hk & ->). eexists. split; [done|]. by exists k, now.
Qed.

Lemma local_failure_accepted request target reason w resp w' :
  reason ∈ local_reasons ->
  local_failure self request target reason w = (Ret resp, w') -> accepted request target resp.
Proof.
  intros Hr (n & -> & Hn)%local_failure_sound. right. exists n. split; [done|]. right. by exists reason.
Qed.

Ltac local_reason :=
  eapply local_failure_accepted; [|eassumption]; refine (bool_decide_unpack _ _); vm_compute; exact I.

Lemma receive_result_accepted request target json w resp w' :
  receive_result self request target json w = (Ret resp, w') -> accepted request target resp.
Proof.
  unfold receive_result. intros (r & w1 & _ & E)%run_bind_inv.
  case_decide as Hc; [local_reason|].
  apply run_bind_inv in E as (key & w2 & Ek & E). apply run_bind_inv in E as (v & w3 & Ev & E).
  destruct v; cbn [negb] in E; [|local_reason]. injection E as <- <-.
  apply verify_job_result_sound in Ev as [Hs Ha].
  left. exists r. split; [done|].
  apply Decidable.not_or in Hc as [H1%not_neq Hc].
  apply Decidable.not_or in Hc as [H2%not_neq Hc].
  apply Decidable.not_or in Hc as [H3%not_neq H4%not_neq].
  rewrite H2 in Ek. unfold accepted_result. eauto 10.
Qed.

Lemma receive_failure_accepted request target json w resp w' :
  receive_failure self request target json w = (Ret resp, w') -> accepted request target resp.
Proof.
  unfold receive_failure. intros (n & w1 & _ & E)%run_bind_inv.
  case_decide as Hc; [local_reason|].
  apply run_bind_inv in E as (key & w2 & Ek & E). apply run_bind_inv in E as (v & w3 & Ev & E).
  destruct v; cbn [negb] in E; [|local_reason]. injection E as <- <-.
  apply verify_failure_notice_sound in Ev as [Hs Ha].
  right. exists n. split; [done|]. left.
  apply Decidable.not_or in Hc as [H1%not_neq Hc].
  apply Decidable.not_or in Hc as [H2%not_neq H3].
  unfold accepted_notice. eauto 10.
Qed.

(** An attempt answers with a local failure or what one of the two branches
    makes of a frame: a property of those is a property of every attempt. *)
Section attempt_cases.
Context (request : JobRequest.t) (target : bytes) (Q : AttemptResponse.t -> Prop).
Context (Hlocal : forall reason w resp w', reason ∈ local_reasons ->
           local_failure self request target reason w = (Ret resp, w') -> Q resp).
Context (Hresult : forall json w resp w',
           receive_result self request target json w = (Ret resp, w') -> Q resp).
Context (Hfailure : forall json w resp w',
           receive_failure self request target json w = (Ret resp, w') -> Q resp).

Ltac local_case := eapply Hlocal; [|eassumption]; refine (bool_decide_unpack _ _); vm_compute; exact I.

Lemma exchange_cases fuel signed socket w resp w' :
  exchange self fuel request signed target socket w = (Ret resp, w') -> Q resp.
Proof.
  unfold exchange. intros (_ & w1 & _ & E)%run_bind_inv.
  apply run_bind_inv in E as (_ & w2 & _ & E). apply run_bind_inv in E as (json & w3 & _ & E).
  apply run_bind_inv in E as (type & w4 & _ & E).
  case_decide; [by eapply Hresult|]. case_decide; [by eapply Hfailure|local_case].
Qed.

Lemma call_operator_cases fuel w resp w' :
  call_operator self fuel request target w = (Ret resp, w') ->
  target <> [] /\ JobRequest.target_node_id request = target /\ Q resp.
Proof.
  unfold call_operator. case_decide as Ht; [done|]. case_decide as Hr; [done|].
  intros E. split; [done|]. split; [done|].
  apply run_bind_inv in E as (ep & w1 & _ & E). destruct ep as [ep|]; [|local_case].
  apply run_bind_inv in E as (signed & w2 & _ & E). apply try_catch_inv in E as [Em|(x & w3 & _ & E)]; [|local_case].
  apply run_bind_inv in Em as (socket & w4 & _ & Em).
  apply with_destructor_inv in Em as (w5 & Ee & _). by eapply exchange_cases.
Qed.
End attempt_cases.

Lemma call_operator_accepted fuel request target w resp w' :
  call_operator self fuel request target w = (Ret resp, w') ->
  target <> [] /\ JobRequest.target_node_id request = target /\ accepted request target resp.
Proof.
  apply call_operator_cases; intros *;
    eauto using local_failure_accepted, receive_result_accepted, receive_failure_accepted.
Qed.

(** ** Typing *)

(** Evidence whose timestamp is in the 64-bit range, and not its least value,
    which the parser refuses. *)
Definition well_typed (resp : AttemptResponse.t) : Prop :=
  match resp with
  | AttemptResponse.mk result failure =>
      (forall r, result = Some r ->
         JobResult.wf r /\ JobResult.completed_at r <> INT64_MIN)
      /\ (forall n, failure = Some n ->
          FailureNotice.wf n /\ FailureNotice.observed_at n <> INT64_MIN)
  end.

(** The clock counts nanoseconds in 64 bits. *)
Context (Hclock : forall w, is_int64 (fst (system_clock_now w))).

Lemma seconds_well_typed ns : is_int64 ns -> is_int64 (seconds_of_ns ns) /\ seconds_of_ns ns <> INT64_MIN.
Proof. unfold is_int64, seconds_of_ns, INT64_MIN, INT64_MAX. intros. zdiv. Qed.

Lemma local_failure_well_typed request target reason w resp w' :
  local_failure self request target reason w = (Ret resp, w') -> well_typed resp.
Proof.
  unfold local_failure. intros (now & w1 & En & E)%run_bind_inv.
  assert (is_int64 now) as Hnow.
  { specialize (Hclock w). unfold call in En. destruct (system_clock_now w). by injection En as <- _. }
  apply run_bind_inv in E as (n & w2 & Es & E). injection E as <- <-.
  apply sign_failure_notice_sound in Es as (k & _ & ->). split; [done|].
  intros n [= <-]. by apply seconds_well_typed.
Qed.

Lemma receive_result_well_typed request target json w resp w' :
  receive_result self request target json w = (Ret resp, w') -> well_typed resp.
Proof.
  unfold receive_result. intros (r & w1 & Ep & E)%run_bind_inv.
  case_decide as Hc; [by eapply local_failure_well_typed|].
  apply run_bind_inv in E as (key & w2 & _ & E). apply run_bind_inv in E as (v & w3 & _ & E).
  destruct v; cbn [negb] in E; [|by eapply local_failure_well_typed]. injection E as <- <-.
  split; [|done]. intros r' [= <-]. unfold lift in Ep. injection Ep as Ep _.
  apply parse_job_result_inv in Ep as (payload & r' & _ & Er). by eapply read_job_result_bounds.
Qed.

Lemma receive_failure_well_typed request target json w resp w' :
  receive_failure self request target json w = (Ret resp, w') -> well_typed resp.
Proof.
  unfold receive_failure. intros (n & w1 & Ep & E)%run_bind_inv.
  case_decide as Hc; [by eapply local_failure_well_typed|].
  apply run_bind_inv in E as (key & w2 & _ & E). apply run_bind_inv in E as (v & w3 & _ & E).
  destruct v; cbn [negb] in E; [|by eapply local_failure_well_typed]. injection E as <- <-.
  split; [done|]. intros n' [= <-]. unfold lift in Ep. injection Ep as Ep _.
  apply parse_failure_notice_inv in Ep as (payload & r' & _ & Er). by eapply read_failure_notice_bounds.
Qed.

(** C12: The evidence of an attempt is well typed and can be passed on.
    Whatever a peer sends, and with a clock that counts 64-bit nanoseconds, the
    timestamp of the result or notice that an attempt returns is in the 64-bit
    range of its C++ type and is not its least value, so that the evidence,
    printed as an envelope for another node, parses as the same evidence. *)
Theorem attempt_evidence_is_well_typed fuel request target w resp w'
    (H : call_operator self fuel request target w = (Ret resp, w')) :
  well_typed resp
  /\ (forall r failure, resp = AttemptResponse.mk (Some r) failure ->
       parse_job_result_envelope_json (job_result_envelope_json r) = Ret r)
  /\ (forall result n, resp = AttemptResponse.mk result (Some n) ->
       parse_failure_notice_envelope_json (failure_notice_envelope_json n) = Ret n).
Proof.
  assert (well_typed resp) as Ht.
  { apply (call_operator_cases request target well_typed) in H as (_ & _ & H); [done|..]; intros *;
      eauto using local_failure_well_typed, receive_result_well_typed, receive_failure_well_typed. }
  split; [done|]. split.
  - intros r failure ->. destruct Ht as [Hr _]. destruct (Hr r eq_refl). by apply parse_printed_job_result.
  - intros result n ->. destruct Ht as [_ Hn]. destruct (Hn n eq_refl).
    by apply parse_printed_failure_notice.
Qed.
End evidence.

(** ** Totality *)

Section total.
Context {W : Type} {O : OpenSSL W} {OS : OpenSSLSpec W}.
Context {P : Posix W} {PS : PosixSpec W} {FS : FiniteSignals W}.
Context (self : AuthenticatedTcpAttemptExecutor.t W).

(** [I F]: the descriptors are [F] (and what else input and output and
    OpenSSL keep). *)
Context (fuel : nat) (I : gset Z -> W -> Prop) {FI : FdInvariant I}.
Context {SI : forall F, SslInvariant (I F)} (Hfuel : forall F, enough_fuel fuel (I F)).

(** The resolvers are total and keep the invariant. *)
Context (Her : forall F id, keeps False False (I F) (endpoint_resolver_ self id) (fun _ => True)).
Context (Hpr : forall F id, keeps False False (I F) (public_key_resolver_ self id) (fun _ => True)).

(** Some peer sent a frame whose timestamp overflows the parser. *)
Definition peer_overflows : Prop := exists F fd w json w',
  I F w /\ recv_framed_json fuel fd w = (Ret json, w')
  /\ (parse_job_result_envelope_json json = Undef signed_overflow
      \/ parse_failure_notice_envelope_json json = Undef signed_overflow).

Lemma local_failure_keeps F request target reason :
  keeps False False (I F) (local_failure self request target reason) (fun _ => True).
Proof.
  unfold local_failure. eapply keeps_bind; [apply io_call; [apply _|constructor]|]. intros now _.
  eapply keeps_bind; [by apply sign_failure_notice_keeps|]. intros n _. by apply keeps_ret.
Qed.

(** A parser of at most [INT_MAX] bytes returns, throws or overflows. *)
Lemma tolerated_parse {A} (o : outcome A) Q :
  parser_outcome o -> (o = Undef signed_overflow -> peer_overflows) ->
  (forall a, o = Ret a -> Q a) -> tolerated peer_overflows False o Q.
Proof. intros Hp Hu Hq. by destruct o as [a|[]|[]|]; try done; cbn; auto. Qed.

Lemma parse_outcomes json :
  (Z.of_nat (length json) <= INT_MAX)%Z ->
  parser_outcome (parse_job_result_envelope_json json)
  /\ parser_outcome (parse_failure_notice_envelope_json json).
Proof.
  intros Hl. pose proof (split_envelope_outcome json Hl) as H.
  unfold parse_job_result_envelope_json, parse_failure_notice_envelope_json.
  destruct (split_envelope json) as [[p ty]|[]|u|]; try done. cbn [mbind outcome_bind].
  split; case_decide; try done; [apply read_job_result_outcome|apply read_failure_notice_outcome].
Qed.

(** What the frame gives the parsers. *)
Definition received (json : bytes) : Prop :=
  (Z.of_nat (length json) <= INT_MAX)%Z
  /\ exists F fd w w', I F w /\ recv_framed_json fuel fd w = (Ret json, w').

Lemma receive_result_keeps F request target json :
  received json ->
  keeps peer_overflows False (I F) (receive_result self request target json) (fun _ => True).
Proof.
  intros [Hl (F1 & fd & w & w' & Hw & E)]. unfold receive_result.
  eapply (keeps_bind _ _ _ _ _ (fun r => Z.of_nat (length (JobResult.signature r)) <= INT_MAX)%Z).
  { apply keeps_lift, tolerated_parse; [by apply parse_outcomes| |].
    - intros Hu. exists F1, fd, w, json, w'. auto.
    - intros r Hr%parsed_result_signature. lia. }
  intros r Hr. apply (keeps_weaken _ _ _ False False); [|done..].
  case_decide; [apply local_failure_keeps|].
  eapply keeps_bind; [apply Hpr|]. intros key _.
  eapply keeps_bind; [by apply verify_job_result_keeps|]. intros v _.
  apply keeps_if; intros _; [apply local_failure_keeps|by apply keeps_ret].
Qed.

Lemma receive_failure_keeps F request target json :
  received json ->
  keeps peer_overflows False (I F) (receive_failure self request target json) (fun _ => True).
Proof.
  intros [Hl (F1 & fd & w & w' & Hw & E)]. unfold receive_failure.
  eapply (keeps_bind _ _ _ _ _ (fun n => Z.of_nat (length (FailureNotice.signature n)) <= INT_MAX)%Z).
  { apply keeps_lift, tolerated_parse; [by apply parse_outcomes| |].
    - intros Hu. exists F1, fd, w, json, w'. auto.
    - intros r Hr%parsed_notice_signature. lia. }
  intros r Hr. apply (keeps_weaken _ _ _ False False); [|done..].
  case_decide; [apply local_failure_keeps|].
  eapply keeps_bind; [apply Hpr|]. intros key _.
  eapply keeps_bind; [by apply verify_failure_notice_keeps|]. intros v _.
  apply keeps_if; intros _; [apply local_failure_keeps|by apply keeps_ret].
Qed.

Lemma exchange_keeps F request signed target socket :
  keeps peer_overflows False (I F) (exchange self fuel request signed target socket)
    (fun _ => True).
Proof.
  unfold exchange.
  eapply keeps_bind; [by apply (keeps_weaken _ _ _ False False);
    [apply set_socket_io_timeout_keeps; apply _|..]|]. intros _ _.
  eapply keeps_bind; [by apply (keeps_weaken _ _ _ False False);
    [apply send_framed_json_keeps; [apply _|done]|..]|]. intros _ _.
  eapply (keeps_bind _ _ _ _ _ received).
  { apply (keeps_weaken _ _ _ False False); [|done..].
    eapply keeps_mono; [apply keeps_run, recv_framed_json_keeps; [apply _|done]|].
    cbv beta. intros json (Hl & w & w' & Hw & E). split; [unfold kMaxFrameBytes, INT_MAX in *; lia|].
    by exists F, (SocketHandle.get socket), w, w'. }
  intros json Hj. eapply (keeps_bind _ _ _ _ _ (fun _ => True)).
  { apply keeps_lift. pose proof (split_envelope_outcome json (proj1 Hj)) as H.
    unfold wire_envelope_type. by destruct (split_envelope json) as [[]|[]| |]. }
  intros type _. case_decide; [by apply receive_result_keeps|].
  case_decide; [by apply receive_failure_keeps|].
  apply (keeps_weaken _ _ _ False False); [apply local_failure_keeps|done..].
Qed.

Lemma call_operator_keeps F request target :
  keeps peer_overflows False (I F) (call_operator self fuel request target) (fun _ => True).
Proof.
  unfold call_operator. case_decide; [apply keeps_throw|]. case_decide; [apply keeps_throw|].
  eapply keeps_bind; [by apply (keeps_weaken _ _ _ False False); [apply Her|..]|].
  intros [ep|] _;
    [|apply (keeps_weaken _ _ _ False False); [apply local_failure_keeps|done..]].
  eapply keeps_bind; [by apply sign_job_request_keeps|]. intros signed _.
  apply keeps_try; [|apply (keeps_weaken _ _ _ False False); [apply local_failure_keeps|done..]].
  apply with_socket_keeps; [apply _|by apply connect_ipv4_with_timeout_acquires|].
  intros sock F1. apply exchange_keeps.
Qed.
End total.

(** ** The executor implements the interface of the engine *)

Section interface.
Context {W : Type} {O : OpenSSL W} {OS : OpenSSLSpec W} {P : Posix W}.
Context (self : AuthenticatedTcpAttemptExecutor.t W).

Lemma local_notice_acceptable q target reason n :
  local_notice self (attempt_for q target) target reason n -> acceptable_failure q target n.
Proof.
  intros (k & now & _ & ->). split; [done|]. split; [|done]. apply signature_text_nonnil.
Qed.

Lemma accepted_evidence q target resp :
  accepted self (attempt_for q target) target resp -> evidence q target resp.
Proof.
  intros [(r & -> & H1 & H2 & _ & H4 & H5 & _)|(n & -> & [(H1 & H2 & _ & H4 & _)|(x & _ & H)])].
  - left. exists r. by repeat split.
  - right. exists n. by repeat split.
  - right. exists n. split; [done|]. by eapply local_notice_acceptable.
Qed.

Context {PS : PosixSpec W} {FS : FiniteSignals W}.
Context (fuel : nat) (I : gset Z -> W -> Prop) {FI : FdInvariant I}.
Context {SI : forall F, SslInvariant (I F)} (Hfuel : forall F, enough_fuel fuel (I F)).
Context (Her : forall F id, keeps False False (I F) (endpoint_resolver_ self id) (fun _ => True)).
Context (Hpr : forall F id, keeps False False (I F) (public_key_resolver_ self id) (fun _ => True)).

Lemma executor_interface F :
  AttemptExecutorSpec (peer_overflows fuel I) (I F) (call_operator self fuel).
Proof.
  intros q t _ w Hw. pose proof (call_operator_keeps self fuel I Hfuel Her Hpr F
    (attempt_for q t) t w Hw) as H.
  destruct (call_operator self fuel (attempt_for q t) t w) as [[resp| | |] w'] eqn:E; try done.
  destruct H as [_ Hw']. split; [|done]. apply call_operator_accepted in E as (_ & _ & E).
  by apply accepted_evidence.
Qed.

(** When OpenSSL has the resources, an exception can only be one of the
    endpoint resolver's. *)
Context {OA : OpenSSLAvailable W}.

Lemma local_failure_returns request target reason k w :
  local_private_key_ self = Some k ->
  exists resp w', local_failure self request target reason w = (Ret resp, w').
Proof.
  intros Hk. unfold local_failure, mbind at 1, M_bind at 1, call.
  destruct (system_clock_now w) as [now w1]. rewrite Hk.
  destruct (sign_failure_notice_returns (FailureNotice.mk (JobRequest.protocol_version request)
    (str "local-failure-" ++ JobRequest.request_id request ++ str "-" ++ target)
    (JobRequest.request_id request) (JobRequest.sender_node_id request) target reason
    (seconds_of_ns now) (str "Ed25519") []) k w1) as (w2 & E).
  erewrite run_bind by exact E. by eexists _, _.
Qed.

Lemma call_operator_no_throw request target k w x w' :
  target <> [] -> JobRequest.target_node_id request = target ->
  local_private_key_ self = Some k ->
  call_operator self fuel request target w = (Throw x, w') ->
  exists w1, endpoint_resolver_ self target w = (Throw x, w1).
Proof.
  intros Ht Hr Hk. unfold call_operator. rewrite decide_False by done.
  rewrite (decide_False (P := JobRequest.target_node_id request <> target)) by tauto.
  unfold mbind at 1, M_bind at 1.
  destruct (endpoint_resolver_ self target w) as [[[ep|]|y| |] w1]; try done;
    [| |intros [= -> ->]; by exists w'].
  - rewrite Hk. destruct (sign_job_request_returns request k w1) as (w2 & E).
    erewrite run_bind by exact E. unfold try_catch_all.
    destruct (mbind _ _) as [[a|y| |] w3]; try done.
    destruct (local_failure_returns request target (str "transport_unavailable") k w3 Hk)
      as (resp & w4 & ->). done.
  - destruct (local_failure_returns request target (str "endpoint_unavailable") k w1 Hk)
      as (resp & w4 & ->). done.
Qed.
End interface.

(** ** Properties *)

Section properties.
Context {W : Type} {O : OpenSSL W} {OS : OpenSSLSpec W} {P : Posix W}.
Context (self : AuthenticatedTcpAttemptExecutor.t W).

(** C2: Only authentic evidence leaves an attempt, whatever the network,
    the peer, the clock and the resolvers do.  When an attempt returns, it
    was for the target the request names, and it returned one of: a
    successful result of this request, from the target to the sender, whose
    Ed25519 signature is valid over its canonical text under the key the
    resolver gave for the target; a failure notice of this request about
    the target, valid under the key the resolver gave for its reporter; or a
    notice the local node signed, with one of the seven documented
    reasons. *)
Theorem attempt_evidence_is_authentic fuel request target w resp w'
    (Hrun : call_operator self fuel request target w = (Ret resp, w')) :
  target <> [] /\ JobRequest.target_node_id request = target
  /\ accepted self request target resp.
Proof. by eapply call_operator_accepted. Qed.

(** C11: The order of an attempt that ends with remote evidence.  The
    endpoint was resolved for the target; then the request, carrying that
    target, was signed afresh with the local key; then a connection to the
    endpoint was opened with the connect deadline, given the I/O deadline,
    and sent exactly the envelope of that signed request; then one frame was
    received on it, and the result is what that frame parses to. *)
Theorem attempt_signs_for_its_target fuel request target w r w'
    (Hrun : call_operator self fuel request target w
            = (Ret (AttemptResponse.mk (Some r) None), w')) :
  exists endpoint k socket json w1 w2 w3 w4 w5 w6,
    endpoint_resolver_ self target w = (Ret (Some endpoint), w1)
    /\ local_private_key_ self = Some k /\ JobRequest.target_node_id request = target
    /\ sign_job_request request (Some k) w1 = (Ret (signed_request k request), w2)
    /\ connect_ipv4_with_timeout fuel (TcpEndpoint.host endpoint) (TcpEndpoint.port endpoint)
         (connect_timeout_ self) w2 = (Ret socket, w3)
    /\ set_socket_io_timeout (SocketHandle.get socket) (io_timeout_ self) w3 = (Ret tt, w4)
    /\ send_framed_json fuel (SocketHandle.get socket)
         (job_request_envelope_json (signed_request k request)) w4 = (Ret tt, w5)
    /\ recv_framed_json fuel (SocketHandle.get socket) w5 = (Ret json, w6)
    /\ parse_job_result_envelope_json json = Ret r.
Proof.
  pose proof (call_operator_accepted _ _ _ _ _ _ _ Hrun) as (Ht & Hr & _).
  unfold call_operator in Hrun. rewrite decide_False in Hrun by done.
  rewrite (decide_False (P := JobRequest.target_node_id request <> target)) in Hrun by tauto.
  apply run_bind_inv in Hrun as (ep & w1 & Eep & E).
  assert (forall reason w0 w9, local_failure self request target reason w0
            <> (Ret (AttemptResponse.mk (Some r) None), w9)) as Hnl
    by (intros ??? (? & [=] & _)%local_failure_sound).
  destruct ep as [ep|]; [|by apply Hnl in E].
  apply run_bind_inv in E as (signed & w2 & Es & E).
  pose proof (sign_job_request_sound _ _ _ _ _ Es) as (k & Hk & ->). rewrite Hk in Es.
  apply try_catch_inv in E as [E|(? & ? & _ & E)]; [|by apply Hnl in E].
  apply run_bind_inv in E as (socket & w3 & Ec & E).
  apply with_destructor_inv in E as (w8 & E & _). unfold exchange in E.
  apply run_bind_inv in E as ([] & w4 & Et & E). apply run_bind_inv in E as ([] & w5 & Esd & E).
  apply run_bind_inv in E as (json & w6 & Erc & E). apply run_bind_inv in E as (ty & w7 & _ & E).
  exists ep, k, socket, json, w1, w2, w3, w4, w5, w6. split_and!; try done.
  case_decide; [|case_decide; [|by apply Hnl in E]].
  - unfold receive_result in E. apply run_bind_inv in E as (r' & w9 & Ep & E).
    case_decide; [by apply Hnl in E|].
    apply run_bind_inv in E as (key & w10 & _ & E). apply run_bind_inv in E as (v & w11 & _ & E).
    destruct v; cbn [negb] in E; [|by apply Hnl in E]. injection E as -> _. by injection Ep.
  - unfold receive_failure in E. apply run_bind_inv in E as (r' & w9 & Ep & E).
    case_decide; [by apply Hnl in E|].
    apply run_bind_inv in E as (key & w10 & _ & E). apply run_bind_inv in E as (v & w11 & _ & E).
    by destruct v; cbn [negb] in E; [|apply Hnl in E].
Qed.

Context {PS : PosixSpec W} {FS : FiniteSignals W} {FT : FdTracking W}.
Context {CT : CtxTracking W} {CQ : CtxQuiet W}.

(** C3: An attempt ends, with evidence, and leaks nothing.  Suppose
    finitely many calls are interrupted, OpenSSL has the resources it needs
    and touches neither descriptors nor signals, and the resolvers are
    total and touch neither these nor digest contexts.  Then for every peer
    and every network an attempt for the target of its request returns
    evidence, with the same descriptors open and the same digest contexts
    allocated as before, unless the endpoint resolver threw; and the
    one undefined behaviour left is the overflow of the timestamp parser on
    a frame some peer sent. *)
Theorem attempt_ends_without_leak {OA : OpenSSLAvailable W} fuel request target k w
    (Hfuel : (Z.of_nat (signals w) + kMaxFrameBytes + 4 < Z.of_nat fuel)%Z)
    (Hssl : forall F, ssl_quiet (sys_state (signals w) F))
    (Her : forall F id, keeps False False (as_now w F)
             (endpoint_resolver_ self id) (fun _ => True))
    (Hpr : forall F id, keeps False False (as_now w F)
             (public_key_resolver_ self id) (fun _ => True))
    (Hk : local_private_key_ self = Some k) (Ht : target <> [])
    (Hr : JobRequest.target_node_id request = target) :
  match call_operator self fuel request target w with
  | (Ret resp, w') => accepted self request target resp /\ nothing_leaked w w'
  | (Throw x, w') => nothing_leaked w w'
      /\ exists w1, endpoint_resolver_ self target w = (Throw x, w1)
  | (Undef _, _) => peer_overflows fuel (as_now w)
  | (OutOfFuel, _) => False
  end.
Proof.
  pose proof (call_operator_keeps self fuel (as_now w) (SI := fun F => process_state_ssl _ _ F (Hssl F))
    (fun F => as_now_fuel fuel w F Hfuel) Her Hpr (open_fds w) request target w (as_now_here w)) as H.
  destruct (call_operator self fuel request target w) as [[resp|x| |] w'] eqn:E; try done.
  - destruct H as [_ Hn%as_now_leaks]. split; [|done]. by apply call_operator_accepted in E as (_ & _ & ?).
  - apply as_now_leaks in H. split; [done|]. by eapply call_operator_no_throw.
Qed.
End properties.
