(* ===== verification/Liveness.v ===== *)
(** * A peer that answers is heard

    The converse of the safety theorems of Executor.v: when the peer of the
    connection takes the request and answers with a frame, an attempt gets that
    frame, and when the frame is the envelope of a result that the target signed
    for the request, the attempt returns that result. *)
From S2P Require Import Prelude Contracts Canonical Wire Reader Envelope WireParse Framing Crypto.
From S2P Require Import CryptoSpec JobAuth Tcp Network Transport Orchestrator Engine Executor.

(** A peer that answers [question] with [answer] on the descriptor [fd], whose
    outgoing stream held [base] before.  While it is being asked ([asking]) it
    takes bytes of the question whenever some are offered; once it has the
    whole question the answer is on its way; and then ([answering]) a receive
    that waits for bytes of it gets some, unless a signal comes first. *)
Class AnsweringPeer {W : Type} {P : Posix W} {SS : SocketStreams W} (fd : Z)
    (base question answer : bytes) (asking answering : W -> Prop) : Prop := {
  peer_takes data flags w r w' :
    asking w -> data <> [] -> stream_out fd w ++ data = base ++ question ->
    sys_send fd data flags w = (r, w') ->
    asking w' /\ ((0 < sr_val r)%Z \/ interrupted r = true);
  peer_answers w :
    asking w -> stream_out fd w = base ++ question ->
    answering w /\ exists rest, stream_in fd w = answer ++ rest;
  peer_delivers n flags w r data w' :
    answering w -> 0 < n -> stream_in fd w <> [] ->
    sys_recv fd n flags w = ((r, data), w') ->
    answering w' /\ ((0 < sr_val r)%Z \/ interrupted r = true);
}.

Section live.
Context {W : Type} {P : Posix W} {PS : PosixSpec W} {SS : SocketStreams W} {FS : FiniteSignals W}.
Context (fd : Z) (base question answer : bytes) (asking answering : W -> Prop).
Context {AP : AnsweringPeer fd base question answer asking answering}.

Lemma send_all_from_live fuel data sent w :
  asking w -> sent <= length data -> stream_out fd w ++ drop sent data = base ++ question ->
  length data - sent + signals w < fuel ->
  exists w', send_all_from fuel fd data sent w = (Ret tt, w') /\ asking w'
    /\ stream_out fd w' = base ++ question /\ signals w' <= signals w.
Proof.
  revert sent w. induction fuel as [|fuel IH]; intros sent w Ha Hs Ho Hf; [lia|].
  destruct (decide (length data <= sent)) as [Hd|Hd].
  { rewrite send_all_from_done by done. exists w. rewrite drop_ge, app_nil_r in Ho by done. done. }
  destruct (send_round fuel fd data sent w) as (r & w1 & E & Hle & ->); [lia|].
  apply send_signals in E as Hsig. apply send_stream in E as Hout.
  apply peer_takes in E as [Ha1 Hp]; [|done| |done].
  2: { intros Hn%(f_equal length). rewrite length_drop in Hn. cbn in Hn. lia. }
  destruct (Z.ltb_spec 0 (sr_val r)).
  - destruct (IH (sent + Z.to_nat (sr_val r)) w1) as (w' & ? & ? & ? & ?);
      [done|done| |lia|exists w'; split_and!; [done..|lia]].
    by rewrite Hout, <-Ho, <-app_assoc, <-drop_drop, take_drop.
  - destruct Hp as [|Hi]; [lia|]. rewrite Hi in Hsig |- *.
    replace (Z.to_nat (sr_val r)) with 0 in Hout by lia. rewrite take_0, app_nil_r in Hout.
    destruct (IH sent w1) as (w' & ? & ? & ? & ?);
      [done|done|by rewrite Hout|lia|exists w'; split_and!; [done..|lia]].
Qed.

Lemma recv_exact_from_live fuel size out received w :
  answering w -> received <= size -> length out = size ->
  size - received <= length (stream_in fd w) -> size - received + signals w < fuel ->
  exists res w', recv_exact_from fuel fd size out received w = (Ret res, w')
    /\ answering w' /\ signals w' <= signals w.
Proof.
  revert out received w. induction fuel as [|fuel IH]; intros out received w Ha Hr Hl Hs Hf; [lia|].
  destruct (decide (received = size)) as [->|].
  { cbn [recv_exact_from]. rewrite Nat.ltb_irrefl. by exists out, w. }
  destruct (recv_round fuel fd size out received w) as (r & data & w1 & E & Hd & Hle & ->);
    [lia|done|].
  apply recv_signals in E as Hsig. apply recv_stream in E as Hin. destruct Hin as [Hin _].
  apply peer_delivers in E as [Ha1 Hp]; [|done|lia|by intros Hn; rewrite Hn in Hs; cbn in Hs; lia].
  rewrite Hin, length_app in Hs. destruct (Z.ltb_spec 0 (sr_val r)).
  - destruct (IH (take received out ++ data ++ drop (received + length data) out)
      (received + length data) w1) as (res & w' & ? & ? & ?);
      [done|lia|by rewrite splice_length; lia|lia|lia|].
    exists res, w'. split_and!; [done..|lia].
  - destruct Hp as [|Hi]; [lia|]. rewrite Hi in Hsig |- *.
    destruct (IH out received w1) as (res & w' & ? & ? & ?); [done..|lia|lia|].
    exists res, w'. split_and!; [done..|lia].
Qed.

Lemma recv_exact_live fuel size w s rest :
  answering w -> stream_in fd w = s ++ rest -> length s = size -> size + signals w < fuel ->
  exists w', recv_exact fuel fd size w = (Ret s, w') /\ answering w'
    /\ stream_in fd w' = rest /\ signals w' <= signals w.
Proof.
  intros Ha Hs Hl Hf.
  destruct (recv_exact_from_live fuel size (replicate size x00) 0 w) as (res & w' & E & Ha' & ?);
    [done|lia|apply length_replicate|rewrite Hs, length_app; lia|lia|].
  pose proof (recv_exact_stream fuel fd size w res w' E) as (Hlr & Hin & _).
  rewrite Hs in Hin. apply app_inj_1 in Hin as [-> ->]; [|by rewrite Hl, Hlr].
  by exists w'.
Qed.

(** Asking and hearing the answer. *)
Lemma framed_dialogue fuel request reply w :
  length question + length answer + signals w < fuel ->
  encode_frame request = Ret question -> encode_frame reply = Ret answer ->
  asking w -> stream_out fd w = base ->
  exists w1 w2, send_framed_json fuel fd request w = (Ret tt, w1)
    /\ recv_framed_json fuel fd w1 = (Ret reply, w2).
Proof.
  intros Hf Hq Hr Ha Hb. pose proof (encode_frame_ret _ _ Hr) as [Hlr Er].
  assert (length answer = 4 + length reply) as Hla by (rewrite Er, length_app; done).
  destruct (send_all_from_live fuel question 0 w) as (w1 & E1 & Ha1 & Ho1 & Hs1);
    [done|lia|by rewrite Hb|lia|].
  destruct (peer_answers w1 Ha1 Ho1) as (Han & rest & Hin). rewrite Er, <-app_assoc in Hin.
  destruct (recv_exact_live fuel 4 w1 _ _ Han Hin) as (w2 & E2 & Han2 & Hin2 & Hs2);
    [done|lia|].
  destruct (recv_framed_header _ _ _ _ _ E2) as (h & Eh & E3).
  assert (h = header_of (Z.of_nat (length reply))) as ->
    by (destruct h as [[[? ?] ?] ?]; unfold header_of in *; cbn [header_bytes] in Eh; congruence).
  destruct (recv_exact_live fuel (length reply) w2 _ _ Han2 Hin2) as (w3 & E4 & _);
    [done|lia|].
  exists w1, w3. split.
  - unfold send_framed_json. erewrite run_bind by (unfold lift; by rewrite Hq). done.
  - rewrite E3. erewrite run_bind by (unfold lift; by rewrite decode_frame_size_header by done).
    by rewrite Nat2Z.id.
Qed.
End live.

Section attempt.
Context {W : Type} {O : OpenSSL W} {OS : OpenSSLSpec W} {OA : OpenSSLAvailable W}.
Context {P : Posix W} {PS : PosixSpec W} {SS : SocketStreams W} {FS : FiniteSignals W}.
Context (self : AuthenticatedTcpAttemptExecutor.t W).
Import AuthenticatedTcpAttemptExecutor.

(** The text of an answer the client accepts: a result of the request from the
    target to the sender, successful and authentic. *)
Record acceptable (request : JobRequest.t) (target reply : bytes) (r : JobResult.t)
    (key : EVP_PKEY) : Prop := {
  acc_type : wire_envelope_type reply = Ret (str "JOB_RESULT");
  acc_parse : parse_job_result_envelope_json reply = Ret r;
  acc_id : JobResult.request_id r = JobRequest.request_id request;
  acc_responder : JobResult.responder_node_id r = target;
  acc_recipient : JobResult.recipient_node_id r = JobRequest.sender_node_id request;
  acc_status : JobResult.status r = str "OK";
  acc_signature w : exists w', verify_job_result r (Some key) w = (Ret true, w');
}.

Lemma receive_result_returns request target reply r key w :
  acceptable request target reply r key ->
  (exists w1, public_key_resolver_ self target w = (Ret (Some key), w1)) ->
  exists w', receive_result self request target reply w = (Ret (AttemptResponse.mk (Some r) None), w').
Proof.
  intros [_ Hp Hid Hrs Hrc Hst Hv] (w1 & Ek). destruct (Hv w1) as (w2 & Ev). exists w2.
  unfold receive_result. erewrite run_bind by (unfold lift; by rewrite Hp).
  rewrite decide_False by tauto. erewrite run_bind by (rewrite Hrs; exact Ek).
  by erewrite run_bind by exact Ev.
Qed.

(** An attempt that gets an acceptable answer returns it. *)
Lemma answered_attempt fuel request target reply r key k endpoint socket question answer
    asking answering w w1 w2 w3 w4 :
  target <> [] -> JobRequest.target_node_id request = target ->
  endpoint_resolver_ self target w = (Ret (Some endpoint), w1) ->
  local_private_key_ self = Some k ->
  sign_job_request request (Some k) w1 = (Ret (signed_request k request), w2) ->
  connect_ipv4_with_timeout fuel (TcpEndpoint.host endpoint) (TcpEndpoint.port endpoint)
    (connect_timeout_ self) w2 = (Ret socket, w3) ->
  set_socket_io_timeout (SocketHandle.get socket) (io_timeout_ self) w3 = (Ret tt, w4) ->
  encode_frame (job_request_envelope_json (signed_request k request)) = Ret question ->
  encode_frame reply = Ret answer ->
  length question + length answer + signals w4 < fuel ->
  AnsweringPeer (SocketHandle.get socket) (stream_out (SocketHandle.get socket) w4)
    question answer asking answering ->
  asking w4 -> acceptable request target reply r key ->
  (forall w5, exists w6, public_key_resolver_ self target w5 = (Ret (Some key), w6)) ->
  exists w', call_operator self fuel request target w
             = (Ret (AttemptResponse.mk (Some r) None), w').
Proof.
  intros Ht Hr Hep Hk Hsign Hconn Hdead Hq Ha Hfuel Hpeer Hasking Hacc Hkey.
  destruct (framed_dialogue (AP := Hpeer) _ _ _ _ _ _ fuel _ _ w4 Hfuel Hq Ha Hasking eq_refl)
    as (w5 & w6 & Esend & Erecv).
  destruct (receive_result_returns request target reply r key w6) as (w7 & Eres); [done..|].
  exists (SocketHandle.destroy socket w7). unfold call_operator.
  rewrite decide_False by done.
  rewrite (decide_False (P := JobRequest.target_node_id request <> target)) by tauto.
  erewrite run_bind by exact Hep. rewrite Hk. erewrite run_bind by exact Hsign.
  unfold try_catch_all. erewrite run_bind by exact Hconn. unfold with_destructor, exchange.
  erewrite run_bind by exact Hdead. erewrite run_bind by exact Esend.
  erewrite run_bind by exact Erecv. destruct Hacc as [Hty _ _ _ _ _ _].
  erewrite run_bind by (unfold lift; by rewrite Hty).
  rewrite (decide_True (P := str "JOB_RESULT" = str "JOB_RESULT")) by done. by rewrite Eres.
Qed.

(** C4: An honest node is heard.  Let the endpoint of the target be known,
    the connection to it be made with its deadlines, and the peer take
    the request the attempt signed and answer it with the envelope of a result
    of this request, from the target to the sender, successful and signed
    with the key the resolver knows for the target.  Then, however the
    network segments the two frames and however often (finitely) a signal
    interrupts a call, the attempt returns exactly that signed result. *)
Theorem honest_peer_completes_attempt fuel request target k kp r endpoint socket question answer
    asking answering w w1 w2 w3 w4
    (Ht : target <> []) (Hr : JobRequest.target_node_id request = target)
    (Hep : endpoint_resolver_ self target w = (Ret (Some endpoint), w1))
    (Hk : local_private_key_ self = Some k)
    (Hsign : sign_job_request request (Some k) w1 = (Ret (signed_request k request), w2))
    (Hconn : connect_ipv4_with_timeout fuel (TcpEndpoint.host endpoint) (TcpEndpoint.port endpoint)
               (connect_timeout_ self) w2 = (Ret socket, w3))
    (Hdead : set_socket_io_timeout (SocketHandle.get socket) (io_timeout_ self) w3 = (Ret tt, w4))
    (Hq : encode_frame (job_request_envelope_json (signed_request k request)) = Ret question)
    (Ha : encode_frame (job_result_envelope_json (signed_result kp r)) = Ret answer)
    (Hfuel : length question + length answer + signals w4 < fuel)
    (Hpeer : AnsweringPeer (SocketHandle.get socket) (stream_out (SocketHandle.get socket) w4)
               question answer asking answering)
    (Hasking : asking w4)
    (Hwf : JobResult.wf r) (Hmin : JobResult.completed_at r <> INT64_MIN)
    (Hid : JobResult.request_id r = JobRequest.request_id request)
    (Hresponder : JobResult.responder_node_id r = target)
    (Hrecipient : JobResult.recipient_node_id r = JobRequest.sender_node_id request)
    (Hstatus : JobResult.status r = str "OK")
    (Hkey : forall w5, exists w6, public_key_resolver_ self target w5
              = (Ret (Some (public_key_of kp)), w6)) :
  exists w', call_operator self fuel request target w
             = (Ret (AttemptResponse.mk (Some (signed_result kp r)) None), w').
Proof.
  eapply (answered_attempt fuel request target _ _ (public_key_of kp)); [done..| |done].
  constructor; try done.
  - by apply (envelope_type_round_trip request _ FailureNotice.default).
  - by apply parse_printed_job_result.
  - intros w5. apply verify_signed_result.
Qed.
End attempt.
