(* ===== verification/Hostile.v ===== *)
(** * A peer that overflows the timestamp parser

    [FlatJsonReader::integer] accumulates in a [std::int64_t] without a check.
    The envelopes of Liveness reach it before any contract or signature is
    looked at, so a peer needs no key to run the client into undefined
    behaviour: [hostile_timestamp_is_undefined]. *)
From S2P Require Import Prelude Contracts Canonical Wire Reader JsonRoundTrip Envelope WireParse Framing Crypto.
From S2P Require Import CryptoSpec JobAuth Tcp Network Transport Orchestrator Engine Executor Liveness.
Import FlatJsonReader.

(** ** The parsers *)

(** What the timestamp of a printed message decides. *)
Definition representable (z : Z) : Prop := (Z.abs z <= INT64_MAX)%Z.
#[export] Instance representable_dec z : Decision (representable z).
Proof. unfold representable. apply _. Defined.

Lemma representable_bounds z : representable z -> is_int64 z /\ z <> INT64_MIN.
Proof. unfold representable, is_int64, INT64_MIN, INT64_MAX. lia. Qed.

Lemma integer_unrepresentable pre z t :
  ~ representable z -> fst (integer (rd pre (ostream_dec z ++ t))) = Undef signed_overflow.
Proof.
  unfold representable. intros Hz. rewrite ostream_dec_digits, <-app_assoc. apply integer_overflow.
  - apply digits_of_bounded; lia.
  - apply digits_of_nonnil.
  - rewrite digits_of_value; lia.
Qed.

(** The payload of a result that starts with a timestamp out of range; anything
    may follow. *)
Definition overflowing (payload : bytes) : Prop :=
  exists negative ds t,
    payload = str "{" ++ lit_key "completed_at" ++ sign negative ++ map digit_char ds ++ t
    /\ Forall (fun d => 0 <= d < 10)%Z ds /\ ds <> [] /\ (INT64_MAX < value_of 10 ds 0)%Z.

Lemma overflowing_result json payload :
  split_envelope json = Ret (payload, str "JOB_RESULT") -> overflowing payload ->
  parse_job_result_envelope_json json = Undef signed_overflow.
Proof.
  intros Hs (negative & ds & t & -> & Hds & Hn & Hv). unfold parse_job_result_envelope_json.
  rewrite Hs. cbn [mbind outcome_bind]. rewrite decide_False by auto.
  unfold read_job_result. rewrite init_rd. do 2 m_step.
  match goal with |- fst ((integer ≫= _) (rd ?pre _)) = _ =>
    pose proof (integer_overflow negative pre ds t Hds Hn Hv) as Hu end.
  destruct (integer _) as [o r1] eqn:E. cbn in Hu. subst o. by erewrite run_bind_undef.
Qed.

Lemma unrepresentable_result r :
  ~ representable (JobResult.completed_at r) -> overflowing (signed_job_result_json r).
Proof.
  unfold representable. intros Hz. unfold signed_job_result_json.
  exists (JobResult.completed_at r <? 0)%Z, (digits_of 10 (Z.abs (JobResult.completed_at r))). eexists.
  split; [by rewrite ostream_dec_digits, <-!app_assoc|].
  split; [apply digits_of_bounded; lia|]. split; [apply digits_of_nonnil|]. rewrite digits_of_value; lia.
Qed.

Lemma result_timestamp r :
  parse_job_result_envelope_json (job_result_envelope_json r)
  = if decide (representable (JobResult.completed_at r)) then Ret r else Undef signed_overflow.
Proof.
  destruct (decide _) as [Hz|Hz].
  - apply representable_bounds in Hz as [? ?]. by apply parse_printed_job_result.
  - eapply overflowing_result; [|by apply unrepresentable_result].
    unfold job_result_envelope_json. by rewrite split_envelope_object by auto with flat.
Qed.

Lemma notice_timestamp n :
  parse_failure_notice_envelope_json (failure_notice_envelope_json n)
  = if decide (representable (FailureNotice.observed_at n)) then Ret n else Undef signed_overflow.
Proof.
  destruct (decide _) as [Hz|Hz].
  - apply representable_bounds in Hz as [? ?]. by apply parse_printed_failure_notice.
  - unfold parse_failure_notice_envelope_json, failure_notice_envelope_json.
    rewrite split_envelope_object by auto with flat. cbn [mbind outcome_bind].
    rewrite decide_False by auto. unfold read_failure_notice, signed_failure_notice_json.
    rewrite init_rd. m_steps.
    match goal with |- fst ((integer ≫= _) (rd ?pre (_ ++ ?t))) = _ =>
      pose proof (integer_unrepresentable pre _ t Hz) as Hu end.
    destruct (integer _) as [o r1] eqn:E. cbn in Hu. subst o. by erewrite run_bind_undef.
Qed.

(** ** The attempt *)

(** A text that reaches the overflow: it is taken for one of the two responses
    and its parser overflows.  No key, identity or request is mentioned. *)
Definition hostile (reply : bytes) : Prop :=
  (wire_envelope_type reply = Ret (str "JOB_RESULT")
   /\ parse_job_result_envelope_json reply = Undef signed_overflow)
  \/ (wire_envelope_type reply = Ret (str "FAILURE_NOTICE")
      /\ parse_failure_notice_envelope_json reply = Undef signed_overflow).

Lemma overflowing_hostile reply payload :
  split_envelope reply = Ret (payload, str "JOB_RESULT") -> overflowing payload -> hostile reply.
Proof.
  intros Hs Ho. left. split; [unfold wire_envelope_type; by rewrite Hs|].
  by eapply overflowing_result.
Qed.

Lemma result_hostile r : ~ representable (JobResult.completed_at r) -> hostile (job_result_envelope_json r).
Proof.
  intros Hz. left. split; [|by rewrite result_timestamp, decide_False].
  by apply (envelope_type_round_trip JobRequest.default r FailureNotice.default).
Qed.

Lemma notice_hostile n :
  ~ representable (FailureNotice.observed_at n) -> hostile (failure_notice_envelope_json n).
Proof.
  intros Hz. right. split; [|by rewrite notice_timestamp, decide_False].
  by apply (envelope_type_round_trip JobRequest.default JobResult.default n).
Qed.

Section attempt.
Context {W : Type} {O : OpenSSL W} {OS : OpenSSLSpec W} {OA : OpenSSLAvailable W}.
Context {P : Posix W} {PS : PosixSpec W} {SS : SocketStreams W} {FS : FiniteSignals W}.
Context (self : AuthenticatedTcpAttemptExecutor.t W).
Import AuthenticatedTcpAttemptExecutor.

(** Nothing is compared or verified before the parser overflows. *)
Lemma receive_hostile request target reply w :
  hostile reply ->
  fst ((type ← lift (wire_envelope_type reply);
        if decide (type = str "JOB_RESULT") then receive_result self request target reply else
        if decide (type = str "FAILURE_NOTICE") then receive_failure self request target reply else
        local_failure self request target (str "unsupported_response_type")) w)
  = Undef signed_overflow.
Proof.
  intros [[Ht Hp]|[Ht Hp]]; erewrite run_bind by (unfold lift; by rewrite Ht).
  - rewrite decide_True by done. unfold receive_result.
    by erewrite run_bind_undef by (unfold lift; by rewrite Hp).
  - rewrite decide_False, decide_True by done. unfold receive_failure.
    by erewrite run_bind_undef by (unfold lift; by rewrite Hp).
Qed.

Lemma hostile_attempt fuel request target reply k endpoint socket question answer
    asking answering w w1 w2 w3 w4 :
  target <> [] -> JobRequest.target_node_id request = target ->
  endpoint_resolver_ self target w = (Ret (Some endpoint), w1) ->
  local_private_key_ self = Some k ->
  sign_job_request request (Some k) w1 = (Ret (signed_request k request), w2) ->
  connect_ipv4_with_timeout fuel (TcpEndpoint.host endpoint) (TcpEndpoint.port endpoint)
    (connect_timeout_ self) w2 = (Ret socket, w3) ->
  set_socket_io_timeout (SocketHandle.get socket) (io_timeout_ self) w3 = (Ret tt, w4) ->
  encode_frame (job_request_envelope_json (signed_request k request)) = Ret question ->
  encode_frame reply = Ret answer ->
  length question + length answer + signals w4 < fuel ->
  AnsweringPeer (SocketHandle.get socket) (stream_out (SocketHandle.get socket) w4)
    question answer asking answering ->
  asking w4 -> hostile reply ->
  fst (call_operator self fuel request target w) = Undef signed_overflow.
Proof.
  intros Ht Hr Hep Hk Hsign Hconn Hdead Hq Ha Hfuel Hpeer Hasking Hh.
  destruct (framed_dialogue (AP := Hpeer) _ _ _ _ _ _ fuel _ _ w4 Hfuel Hq Ha Hasking eq_refl)
    as (w5 & w6 & Esend & Erecv).
  pose proof (receive_hostile request target reply w6 Hh) as Hu. unfold call_operator.
  rewrite decide_False by done.
  rewrite (decide_False (P := JobRequest.target_node_id request <> target)) by tauto.
  erewrite run_bind by exact Hep. rewrite Hk. erewrite run_bind by exact Hsign.
  unfold try_catch_all. erewrite run_bind by exact Hconn. unfold with_destructor, exchange.
  erewrite run_bind by exact Hdead. erewrite run_bind by exact Esend.
  erewrite run_bind by exact Erecv.
  match type of Hu with fst (?m w6) = _ => destruct (m w6) as [o w7] end. cbn in Hu. by subst o.
Qed.

(** C29: A peer needs no key to run the client into undefined behaviour.  A
    timestamp decides the fate of a printed message: the parsers give back the
    result (the notice) exactly when its magnitude fits 64 bits, and overflow
    a signed accumulator otherwise, whatever its other members and its
    signature are.  And any peer reaches this: when the client has connected
    to it and it takes the request and answers with a frame whose payload
    overflows in this way, be it the envelope of a result or a notice with
    such a timestamp or any text that [split_envelope] takes for a
    [JOB_RESULT] and whose payload starts with such a number, the attempt
    overflows, for every segmentation and whatever the resolver of public
    keys knows. *)
Theorem hostile_timestamp_is_undefined :
  (forall r, parse_job_result_envelope_json (job_result_envelope_json r)
             = if decide (representable (JobResult.completed_at r)) then Ret r
               else Undef signed_overflow)
  /\ (forall n, parse_failure_notice_envelope_json (failure_notice_envelope_json n)
                = if decide (representable (FailureNotice.observed_at n)) then Ret n
                  else Undef signed_overflow)
  /\ (forall fuel request target reply k endpoint socket question answer
         asking answering w w1 w2 w3 w4,
    target <> [] -> JobRequest.target_node_id request = target ->
    endpoint_resolver_ self target w = (Ret (Some endpoint), w1) ->
    local_private_key_ self = Some k ->
    sign_job_request request (Some k) w1 = (Ret (signed_request k request), w2) ->
    connect_ipv4_with_timeout fuel (TcpEndpoint.host endpoint) (TcpEndpoint.port endpoint)
      (connect_timeout_ self) w2 = (Ret socket, w3) ->
    set_socket_io_timeout (SocketHandle.get socket) (io_timeout_ self) w3 = (Ret tt, w4) ->
    encode_frame (job_request_envelope_json (signed_request k request)) = Ret question ->
    encode_frame reply = Ret answer ->
    length question + length answer + signals w4 < fuel ->
    AnsweringPeer (SocketHandle.get socket) (stream_out (SocketHandle.get socket) w4)
      question answer asking answering ->
    asking w4 ->
    (exists payload, split_envelope reply = Ret (payload, str "JOB_RESULT") /\ overflowing payload)
    \/ (exists r, reply = job_result_envelope_json r /\ ~ representable (JobResult.completed_at r))
    \/ (exists n, reply = failure_notice_envelope_json n
                  /\ ~ representable (FailureNotice.observed_at n)) ->
    fst (call_operator self fuel request target w) = Undef signed_overflow).
Proof.
  split; [apply result_timestamp|]. split; [apply notice_timestamp|].
  intros until w4. intros Ht Hr Hep Hk Hsign Hconn Hdead Hq Ha Hf Hpeer Hasking Hreply.
  eapply (hostile_attempt fuel request target reply); try done.
  destruct Hreply as [(p & Hs & Ho)|[(r & -> & Hz)|(n & -> & Hz)]].
  - by eapply overflowing_hostile.
  - by apply result_hostile.
  - by apply notice_hostile.
Qed.
End attempt.
