(* ===== verification/Drivers.v ===== *)
(** * The cross-language client programs (cpp/tests/tcp_crosslang_client.cpp and
    cpp/tests/tcp_crosslang_signed_client.cpp)

    Two programs over the headers: each connects to the port of its argument,
    sends one request, and turns the answer into an exit status.  The second
    signs, and reads the answer not with the parser but with a search for
    quoted keys, [extract_string_field].  An exception that leaves [main] is
    [Throw]: the program terminates. *)
From S2P Require Import Prelude Contracts Canonical Wire Framing Crypto CryptoSpec JobAuth.
From S2P Require Import Tcp Network Transport Liveness.

(** ** [std::strtoul(text, nullptr, 10)] *)

Definition isspace (c : byte) : bool :=
  bool_decide (c = x20) || ((9 <=? uchar c) && (uchar c <=? 13))%Z.
Definition isdigit (c : byte) : bool := ((48 <=? uchar c) && (uchar c <=? 57))%Z.

Fixpoint skip_while (p : byte -> bool) (s : bytes) : bytes :=
  match s with
  | c :: s' => if p c then skip_while p s' else s
  | [] => []
  end.

(** The value of the digits at the front. *)
Fixpoint digits_value (s : bytes) (n : Z) : Z :=
  match s with
  | c :: s => if isdigit c then digits_value s (n * 10 + (uchar c - 48)) else n
  | [] => n
  end.

Definition ULONG_MAX : Z := 2 ^ 64 - 1.

(** A value out of range is [ULONG_MAX]; a minus negates in [unsigned long]. *)
Definition strtoul (s : bytes) : Z :=
  let s := skip_while isspace (c_str s) in
  let '(negative, s) := match s with
                        | x2d :: s => (true, s)
                        | x2b :: s => (false, s)
                        | s => (false, s)
                        end in
  let n := digits_value s 0 in
  if (ULONG_MAX <? n)%Z then ULONG_MAX
  else if negative then ((- n) mod 2 ^ 64)%Z else n.

(** [static_cast<std::uint16_t>] *)
Definition to_uint16 (z : Z) : Z := (z mod 2 ^ 16)%Z.

(** ** Searching a string *)

Fixpoint is_prefix (p s : bytes) : bool :=
  match p, s with
  | [], _ => true
  | a :: p, b :: s => bool_decide (a = b) && is_prefix p s
  | _ :: _, [] => false
  end.

(** [s.find(p)]; [npos] is [None]. *)
Fixpoint find (p s : bytes) : option nat :=
  if is_prefix p s then Some 0 else
  match s with
  | [] => None
  | _ :: s => S <$> find p s
  end.

(** [s.find(p, pos)], for a position inside of the string or at its end. *)
Definition find_from (p s : bytes) (pos : nat) : option nat := Nat.add pos <$> find p (drop pos s).

Definition extract_string_field (json key : bytes) : bytes :=
  let marker := [dquote] ++ key ++ [dquote; x3a; dquote] in
  match find marker json with
  | None => []
  | Some start =>
      let value_start := start + length marker in
      match find_from [dquote] json value_start with
      | None => []
      | Some end_ => take (end_ - value_start) (drop value_start json)
      end
  end.

(** ** tcp_crosslang_client.cpp *)

Module tcp_crosslang_client.
Definition job : JobRequest.t := {|
  JobRequest.protocol_version := str "0.2"; JobRequest.message_id := str "msg-tcp-1";
  JobRequest.request_id := str "job-tcp-1"; JobRequest.sender_node_id := str "node-cpp";
  JobRequest.target_node_id := str "node-python"; JobRequest.organization_id := str "org-1";
  JobRequest.operation := str "ECHO"; JobRequest.payload := str "hello-over-tcp";
  JobRequest.issued_at := 1700000000; JobRequest.expires_at := 1700000060;
  JobRequest.signature_algorithm := str "Ed25519";
  JobRequest.signature := str "fixture-signature" |}.

(** The literal; a quoted member is a key and a text. *)
Definition member (k v : String.string) : bytes := lit_key k ++ [dquote] ++ str v ++ [dquote].
Definition expected : bytes :=
  str "{" ++ lit_key "payload" ++ str "{" ++ lit_key "completed_at" ++ str "1700000001,"
  ++ member "message_id" "msg-result-1" ++ str ","
  ++ member "payload" "hello-over-tcp" ++ str "," ++ member "protocol_version" "0.2" ++ str ","
  ++ member "recipient_node_id" "node-cpp" ++ str "," ++ member "request_id" "job-tcp-1" ++ str ","
  ++ member "responder_node_id" "node-python" ++ str ","
  ++ member "signature" "fixture-result-signature" ++ str ","
  ++ member "signature_algorithm" "Ed25519" ++ str "," ++ member "status" "OK" ++ str "},"
  ++ member "type" "JOB_RESULT" ++ str "}".

Definition main {W : Type} {P : Posix W} (fuel : nat) (argv : list bytes) : M W Z :=
  match argv with
  | [_; arg] =>
      let port := to_uint16 (strtoul arg) in
      socket ← connect_ipv4 (str "127.0.0.1") port;
      with_destructor (SocketHandle.destroy socket)
        (send_framed_json fuel (SocketHandle.get socket) (job_request_envelope_json job);;
         response ← recv_framed_json fuel (SocketHandle.get socket);
         if decide (response <> expected) then mret 3%Z else mret 0%Z)
  | _ => mret 2%Z
  end.
End tcp_crosslang_client.

(** ** tcp_crosslang_signed_client.cpp *)

Module tcp_crosslang_signed_client.
Definition job : JobRequest.t := {|
  JobRequest.protocol_version := str "0.2"; JobRequest.message_id := str "msg-signed-tcp-1";
  JobRequest.request_id := str "job-signed-tcp-1"; JobRequest.sender_node_id := str "node-cpp";
  JobRequest.target_node_id := str "node-python"; JobRequest.organization_id := str "org-1";
  JobRequest.operation := str "ECHO"; JobRequest.payload := str "signed-hello";
  JobRequest.issued_at := 1800000000; JobRequest.expires_at := 1800000060;
  JobRequest.signature_algorithm := str "Ed25519"; JobRequest.signature := [] |}.

Definition cpp_seed : bytes := map (fun i => byte_of_Z (Z.of_nat i)) (seq 0 32).

Definition python_public : bytes := map byte_of_Z
  [0x29; 0xac; 0xba; 0xe1; 0x41; 0xbc; 0xca; 0xf0; 0xb2; 0x2e; 0x1a; 0x94; 0xd3; 0x4d; 0x0b; 0xc7;
   0x36; 0x1e; 0x52; 0x6d; 0x0b; 0xfe; 0x12; 0xc8; 0x97; 0x94; 0xbc; 0x93; 0x22; 0x96; 0x6d; 0xd7]%Z.

(** The result the program builds of the answer. *)
Definition extracted (response : bytes) : JobResult.t := {|
  JobResult.protocol_version := extract_string_field response (str "protocol_version");
  JobResult.message_id := extract_string_field response (str "message_id");
  JobResult.request_id := extract_string_field response (str "request_id");
  JobResult.responder_node_id := extract_string_field response (str "responder_node_id");
  JobResult.recipient_node_id := extract_string_field response (str "recipient_node_id");
  JobResult.status := extract_string_field response (str "status");
  JobResult.payload := extract_string_field response (str "payload");
  JobResult.completed_at := 1800000001;
  JobResult.signature_algorithm := extract_string_field response (str "signature_algorithm");
  JobResult.signature := extract_string_field response (str "signature") |}.

Section program.
Context {W : Type} {O : OpenSSL W} {P : Posix W}.

(** What the program does with the answer, for the public key [key]. *)
Definition judge (key response : bytes) : M W Z :=
  let result := extracted response in
  if decide (JobResult.request_id result <> JobRequest.request_id job
             \/ JobResult.payload result <> JobRequest.payload job
             \/ JobResult.status result <> str "OK") then mret 3%Z else
  python_pub ← ed25519_public_key_from_raw key;
  signature ← lift (base64url_decode (JobResult.signature result));
  valid ← ed25519_verify (Some python_pub) (canonical_job_result_json result) signature;
  if negb valid then mret 4%Z else mret 0%Z.

(** [main], for the seed and the key that are constants of the program. *)
Definition main_with (seed key : bytes) (fuel : nat) (argv : list bytes) : M W Z :=
  match argv with
  | [_; arg] =>
      let port := to_uint16 (strtoul arg) in
      cpp_private ← ed25519_private_key_from_seed seed;
      signature ← ed25519_sign (Some cpp_private) (canonical_job_request_json job);
      text ← lift (base64url_encode signature);
      let job := JobRequest.set_signature text job in
      socket ← connect_ipv4 (str "127.0.0.1") port;
      with_destructor (SocketHandle.destroy socket)
        (send_framed_json fuel (SocketHandle.get socket) (job_request_envelope_json job);;
         response ← recv_framed_json fuel (SocketHandle.get socket);
         judge key response)
  | _ => mret 2%Z
  end.

Definition main : nat -> list bytes -> M W Z := main_with cpp_seed python_public.
End program.
End tcp_crosslang_signed_client.

(** ** What the search finds

    Between its double quotes a text is a list of segments.  The search reads
    them as keys, colons and values, from the first place on that looks like a
    member. *)

Definition quote_free (s : bytes) : Prop := dquote ∉ s.
#[export] Instance quote_free_dec s : Decision (quote_free s).
Proof. unfold quote_free. apply _. Defined.

Fixpoint requote (segments : list bytes) : bytes :=
  match segments with
  | [] => []
  | [s] => s
  | s :: segments => s ++ dquote :: requote segments
  end.

Fixpoint segment_value (segments : list bytes) (key : bytes) : bytes :=
  match segments with
  | _ :: ((k :: c :: v :: tl) as rest) =>
      if decide (k = key /\ c = [x3a]) then match tl with [] => [] | _ => v end
      else segment_value rest key
  | _ => []
  end.

Lemma requote_cons s t segments : requote (s :: t :: segments) = s ++ dquote :: requote (t :: segments).
Proof. done. Qed.

Definition quotes (s : bytes) : nat := length (filter (fun c => c = dquote) s).

Lemma quotes_app s t : quotes (s ++ t) = quotes s + quotes t.
Proof. unfold quotes. by rewrite filter_app, length_app. Qed.

Lemma quotes_cons t : quotes (dquote :: t) = S (quotes t).
Proof. done. Qed.

Lemma quotes_free s : quote_free s -> quotes s = 0.
Proof.
  intros H. unfold quotes. induction s as [|c s IH]; [done|]. apply not_elem_of_cons in H as [Hc Hs].
  rewrite filter_cons, decide_False by congruence. by apply IH.
Qed.

Lemma quotes_requote s segments :
  Forall quote_free (s :: segments) -> quotes (requote (s :: segments)) = length segments.
Proof.
  revert s. induction segments as [|t segments IH]; intros s [Hs H]%Forall_cons; [by apply quotes_free|].
  rewrite requote_cons, quotes_app, quotes_cons, IH, quotes_free by done. done.
Qed.

Lemma is_prefix_quotes p s : is_prefix p s = true -> quotes p <= quotes s.
Proof.
  revert s. induction p as [|a p IH]; intros [|b s]; cbn [is_prefix]; [done|cbn; lia|done|].
  intros [E H%IH]%andb_true_iff. apply bool_decide_eq_true_1 in E as <-.
  unfold quotes in *. rewrite !filter_cons. case_decide; cbn [length]; lia.
Qed.

Lemma find_few_quotes p s : quotes s < quotes p -> find p s = None.
Proof.
  induction s as [|c s IH]; intros H; cbn [find].
  - destruct (is_prefix p []) eqn:E; [|done]. apply is_prefix_quotes in E. lia.
  - destruct (is_prefix p (c :: s)) eqn:E; [apply is_prefix_quotes in E; lia|].
    rewrite IH; [done|]. unfold quotes in *. rewrite filter_cons in H.
    case_decide; cbn [length] in H; lia.
Qed.

(** Two texts up to their first quote. *)
Lemma is_prefix_segment a b p t :
  quote_free a -> quote_free b ->
  is_prefix (a ++ dquote :: p) (b ++ dquote :: t) = bool_decide (b = a) && is_prefix p t.
Proof.
  revert b. induction a as [|x a IH]; intros [|y b] Ha Hb; cbn [app is_prefix].
  - by rewrite bool_decide_eq_true_2.
  - apply not_elem_of_cons in Hb as [Hy _]. by rewrite !bool_decide_eq_false_2 by congruence.
  - apply not_elem_of_cons in Ha as [Hx _]. by rewrite !bool_decide_eq_false_2 by congruence.
  - apply not_elem_of_cons in Ha as [_ Ha], Hb as [_ Hb]. rewrite IH, andb_assoc by done. f_equal.
    rewrite <-bool_decide_and. apply bool_decide_ext. split; [by intros [-> ->]|by intros [= -> ->]].
Qed.

(** The search for a text that starts with a quote passes over other bytes. *)
Lemma find_skip p s t :
  quote_free s -> find (dquote :: p) (s ++ t) = Nat.add (length s) <$> find (dquote :: p) t.
Proof.
  induction s as [|c s IH]; intros H; [cbn [app length]; by destruct (find (dquote :: p) t)|].
  apply not_elem_of_cons in H as [Hc Hs]. cbn [app find is_prefix].
  rewrite bool_decide_eq_false_2 by congruence. cbn [andb]. rewrite IH by done.
  by destruct (find _ t).
Qed.

Lemma find_here p s : find p (p ++ s) = Some 0.
Proof.
  assert (is_prefix p (p ++ s) = true) as H.
  { induction p as [|a p IH]; [done|]. cbn. by rewrite bool_decide_eq_true_2, IH. }
  destruct (p ++ s); cbn [find]; by rewrite H.
Qed.

Section extract.
Context (key : bytes).
Let marker : bytes := [dquote] ++ key ++ [dquote; x3a; dquote].

Lemma extract_skip s t :
  find marker (s ++ t) = Nat.add (length s) <$> find marker t ->
  extract_string_field (s ++ t) key = extract_string_field t key.
Proof.
  intros E. unfold extract_string_field. fold marker. rewrite E.
  destruct (find marker t) as [n|]; [|done]. cbn [fmap option_fmap option_map]. unfold find_from.
  replace (length s + n + length marker) with (length s + (n + length marker)) by lia.
  rewrite drop_app_add. destruct (find [dquote] _) as [e|]; [|done]. cbn. f_equal. lia.
Qed.

Lemma extract_here v tl :
  quote_free v ->
  extract_string_field (marker ++ requote (v :: tl)) key = match tl with [] => [] | _ => v end.
Proof.
  intros Hv. unfold extract_string_field. fold marker.
  assert (find marker (marker ++ requote (v :: tl)) = Some 0) as -> by apply find_here.
  unfold find_from. rewrite Nat.add_0_l, drop_app_length. destruct tl as [|t tl].
  - cbn [requote]. rewrite find_few_quotes; [done|]. rewrite quotes_free by done. apply Nat.lt_0_1.
  - rewrite requote_cons, find_skip by done.
    rewrite <-(app_nil_r [dquote]) at 1. change (dquote :: requote (t :: tl)) with ([dquote] ++ requote (t :: tl)).
    rewrite app_nil_r, find_here. cbn [fmap option_fmap option_map].
    replace (length marker + (length v + 0) - length marker) with (length v) by lia. apply take_app_length.
Qed.

Lemma extract_segments segments :
  quote_free key -> Forall quote_free segments ->
  extract_string_field (requote segments) key = segment_value segments key.
Proof.
  intros Hk. assert (quotes marker = 3) as Hm.
  { unfold marker. rewrite !quotes_app, (quotes_free key Hk). reflexivity. }
  assert (forall s, quotes s < 3 -> extract_string_field s key = []) as Hfew.
  { intros s Hs. unfold extract_string_field. fold marker. rewrite find_few_quotes; [done|lia]. }
  induction segments as [|s segments IH]; intros H; [apply Hfew, Nat.lt_0_succ|].
  destruct segments as [|k [|c [|v tl]]];
    [apply Hfew; rewrite quotes_requote by done; cbn [length]; lia..|].
  pose proof H as [Hs Hr]%Forall_cons.
  rewrite requote_cons, extract_skip by by apply find_skip.
  apply Forall_cons in Hr as Hr'. destruct Hr' as [Hfk [Hfc [Hfv _]%Forall_cons]%Forall_cons].
  assert (is_prefix marker (dquote :: requote (k :: c :: v :: tl))
    = bool_decide (k = key /\ c = [x3a])) as Hp.
  { unfold marker. cbn [app is_prefix]. rewrite bool_decide_eq_true_2 by done. cbn [andb].
    rewrite requote_cons, is_prefix_segment by done.
    change [x3a; dquote] with ([x3a] ++ dquote :: []).
    rewrite requote_cons, (is_prefix_segment [x3a] c [] (requote (v :: tl))).
    - rewrite andb_true_r. repeat case_bool_decide; tauto.
    - unfold quote_free. by intros ?%list_elem_of_singleton.
    - done. }
  change (segment_value (s :: k :: c :: v :: tl) key)
    with (if decide (k = key /\ c = [x3a]) then match tl with [] => [] | _ => v end
          else segment_value (k :: c :: v :: tl) key).
  destruct (decide (k = key /\ c = [x3a])) as [[Ek Ec]|Hc].
  - rewrite Ek, Ec, <-(extract_here v tl) by done. f_equal.
    unfold marker. by rewrite !requote_cons, <-!app_assoc.
  - rewrite <-IH by done. apply (extract_skip [dquote]).
    cbn [app find]. rewrite Hp, bool_decide_eq_false_2 by done.
    by destruct (find marker _).
Qed.
End extract.

(** *** The canonical envelope of a result *)

(** A text [json_string] writes as it is. *)
Definition unescaped (s : bytes) : Prop := Forall (fun c => escape_char c = [c]) s.

Lemma unescaped_quote_free s : unescaped s -> quote_free s.
Proof.
  intros H Hin. unfold unescaped in H. rewrite Forall_forall in H. by specialize (H _ Hin).
Qed.

Lemma json_string_unescaped s : unescaped s -> json_string s = dquote :: s ++ [dquote].
Proof.
  intros H. unfold json_string. cbn [app]. do 2 f_equal.
  induction H as [|c s Hc H IH]; [done|]. cbn. by rewrite Hc, IH.
Qed.

Lemma ostream_dec_quote_free z : quote_free (ostream_dec z).
Proof.
  assert (forall n, (0 <= n)%Z -> quote_free (map digit_char (digits_of 10 n))) as H.
  { intros n Hn Hin. apply list_elem_of_fmap in Hin as (d & E & Hd).
    pose proof (digits_of_bounded 10 n ltac:(lia) Hn) as Hb. rewrite Forall_forall in Hb.
    specialize (Hb d Hd). assert (uchar (digit_char d) = uchar dquote) as Eu by congruence.
    unfold digit_char in Eu. rewrite uchar_byte_of_Z in Eu. cbn in Eu.
    destruct (Z.ltb_spec d 10); [|lia]. rewrite Z.mod_small in Eu by lia. lia. }
  unfold ostream_dec. destruct (Z.ltb_spec z 0); [|by apply H].
  apply not_elem_of_cons. split; [done|]. apply H. lia.
Qed.

Definition result_segments (r : JobResult.t) : list bytes :=
  [str "{"; str "payload"; str ":{"; str "completed_at";
   str ":" ++ ostream_dec (JobResult.completed_at r) ++ str ",";
   str "message_id"; str ":"; JobResult.message_id r; str ",";
   str "payload"; str ":"; JobResult.payload r; str ",";
   str "protocol_version"; str ":"; JobResult.protocol_version r; str ",";
   str "recipient_node_id"; str ":"; JobResult.recipient_node_id r; str ",";
   str "request_id"; str ":"; JobResult.request_id r; str ",";
   str "responder_node_id"; str ":"; JobResult.responder_node_id r; str ",";
   str "signature"; str ":"; JobResult.signature r; str ",";
   str "signature_algorithm"; str ":"; JobResult.signature_algorithm r; str ",";
   str "status"; str ":"; JobResult.status r; str "},"; str "type"; str ":";
   str "JOB_RESULT"; str "}"].

(** The texts of a result, all of them written as they are. *)
Record unescaped_result (r : JobResult.t) : Prop := {
  ur_protocol_version : unescaped (JobResult.protocol_version r);
  ur_message_id : unescaped (JobResult.message_id r);
  ur_request_id : unescaped (JobResult.request_id r);
  ur_responder : unescaped (JobResult.responder_node_id r);
  ur_recipient : unescaped (JobResult.recipient_node_id r);
  ur_status : unescaped (JobResult.status r);
  ur_payload : unescaped (JobResult.payload r);
  ur_algorithm : unescaped (JobResult.signature_algorithm r);
  ur_signature : unescaped (JobResult.signature r);
}.

Lemma result_envelope_segments r :
  unescaped_result r -> job_result_envelope_json r = requote (result_segments r).
Proof.
  intros []. unfold job_result_envelope_json, signed_job_result_json.
  rewrite !json_string_unescaped by done. unfold result_segments, envelope_prefix, envelope_suffix, lit_key.
  generalize (ostream_dec (JobResult.completed_at r)). intros d.
  cbn. repeat (rewrite <-app_assoc; cbn). reflexivity.
Qed.

Lemma segment_skip s k c rest key :
  ~ (k = key /\ c = [x3a]) ->
  segment_value (s :: k :: c :: rest) key = segment_value (k :: c :: rest) key.
Proof.
  intros H. destruct rest as [|v tl]; [done|].
  change (segment_value (s :: k :: c :: v :: tl) key)
    with (if decide (k = key /\ c = [x3a]) then match tl with [] => [] | _ => v end
          else segment_value (k :: c :: v :: tl) key).
  by rewrite decide_False.
Qed.

Lemma segment_hit s v t tl key : segment_value (s :: key :: [x3a] :: v :: t :: tl) key = v.
Proof. cbn [segment_value]. by rewrite decide_True. Qed.

(** Walk to the member that is searched for. *)
Ltac find_segment :=
  repeat (rewrite segment_skip by (intros [E1 E2]; first [discriminate E1|discriminate E2]));
  apply segment_hit.

Lemma result_segments_quote_free r : unescaped_result r -> Forall quote_free (result_segments r).
Proof.
  intros [].
  assert (forall s, dquote ∉ ostream_dec (JobResult.completed_at r) -> s = str "," ->
    dquote ∉ str ":" ++ ostream_dec (JobResult.completed_at r) ++ s) as Hd.
  { intros s H -> [?%list_elem_of_singleton|[?|?%list_elem_of_singleton]%elem_of_app]%elem_of_app; done. }
  unfold result_segments. repeat (constructor; [first [by apply unescaped_quote_free
    |by apply Hd, eq_refl; apply ostream_dec_quote_free|by apply (bool_decide_unpack _)]|]). constructor.
Qed.

(** From the canonical envelope of a result whose texts need no escapes the
    search reads every member, as the parser does. *)
Lemma extracted_result r :
  unescaped_result r -> JobResult.completed_at r = 1800000001%Z ->
  tcp_crosslang_signed_client.extracted (job_result_envelope_json r) = r.
Proof.
  intros Hr Hat. unfold tcp_crosslang_signed_client.extracted.
  rewrite result_envelope_segments by done.
  pose proof (result_segments_quote_free r Hr) as H.
  rewrite !extract_segments by first [exact H|by apply (bool_decide_unpack _)].
  destruct r; cbn in Hat. subst. unfold result_segments. f_equal; find_segment.
Qed.

(** *** Signatures need no escapes *)

Lemma base64_url_unescaped d : unescaped (to_url (base64 d)).
Proof. apply to_url_forall. by repeat constructor. Qed.

(** ** The signed program *)

Section signed_program.
Import tcp_crosslang_signed_client.
Context {W : Type} {O : OpenSSL W} {OS : OpenSSLSpec W}.

(** *** Soundness of the verdict *)

(** An exit status is 0, 3 or 4. *)
Lemma judge_status key response w c w' :
  judge key response w = (Ret c, w') -> c = 0%Z \/ c = 3%Z \/ c = 4%Z.
Proof.
  unfold judge. case_decide; [intros [= <- _]; auto|]. intros (pub & w1 & _ & E)%run_bind_inv.
  apply run_bind_inv in E as (sg & w2 & _ & E). apply run_bind_inv in E as (v & w3 & _ & E).
  destruct v; injection E as <- _; auto.
Qed.

(** The members found in the answer are those of a successful result of the
    job, signed with the key that OpenSSL makes of the raw one in this world. *)
Definition endorsed (key response : bytes) (w : W) : Prop :=
  let r := extracted response in
  JobResult.request_id r = JobRequest.request_id job
  /\ JobResult.payload r = JobRequest.payload job /\ JobResult.status r = str "OK"
  /\ exists pub sg w', ed25519_public_key_from_raw key w = (Ret pub, w')
       /\ base64url_decode (JobResult.signature r) = Ret sg
       /\ ed25519_valid pub (canonical_job_result_json r) sg = true.

Lemma judge_sound key response w w' :
  judge key response w = (Ret 0%Z, w') -> endorsed key response w.
Proof.
  unfold judge. case_decide as Hc; [done|]. intros (pub & w1 & Ek & E)%run_bind_inv.
  apply run_bind_inv in E as (sg & w2 & Ed & E). injection Ed as Ed <-.
  apply run_bind_inv in E as (v & w3 & Ev & E). destruct v; [|done].
  apply ed25519_verify_sound in Ev as (k & [= <-] & Hv).
  apply Decidable.not_or in Hc as [H1%dec_stable Hc].
  apply Decidable.not_or in Hc as [H2%dec_stable H3%dec_stable].
  split_and!; [done..|]. by exists pub, sg, w1.
Qed.

(** *** An honest answer *)

Context {OA : OpenSSLAvailable W}.

(** The result of the job that the node of the test answers with. *)
Definition honest_result (r : JobResult.t) : Prop :=
  unescaped_result r /\ JobResult.completed_at r = 1800000001%Z
  /\ JobResult.request_id r = JobRequest.request_id job
  /\ JobResult.payload r = JobRequest.payload job /\ JobResult.status r = str "OK".

Lemma unescaped_signed kp r : unescaped_result r -> unescaped_result (signed_result kp r).
Proof.
  intros []. unfold signed_result. destruct r. constructor; try done.
  - by repeat constructor.
  - apply base64_url_unescaped.
Qed.

Lemma judge_accepts key kp r w :
  honest_result r -> (forall w, exists w', ed25519_public_key_from_raw key w = (Ret (public_key_of kp), w')) ->
  exists w', judge key (job_result_envelope_json (signed_result kp r)) w = (Ret 0%Z, w').
Proof.
  intros (Hu & Hat & Hid & Hp & Hs) Hkey. unfold judge.
  rewrite extracted_result by (by apply unescaped_signed || exact Hat).
  rewrite decide_False by (intros [Hx|[Hx|Hx]]; by apply Hx).
  destruct (Hkey w) as (w1 & E1). erewrite run_bind by exact E1.
  destruct (ed25519_verify_returns (public_key_of kp) (canonical_job_result_json (signed_result kp r))
    (ed25519_signature kp (canonical_job_result_json (signed_result kp r))) w1) as (w2 & E2).
  change (JobResult.signature (signed_result kp r))
    with (signature_text kp (canonical_job_result_json (signed_result kp r))).
  erewrite run_bind by (unfold lift; by rewrite decode_signature_text).
  rewrite ed25519_correct in E2. exists w2. by erewrite run_bind by exact E2.
Qed.

Context {P : Posix W} {PS : PosixSpec W} {SS : SocketStreams W} {FS : FiniteSignals W}.

(** *** The steps of a run *)

(** Up to the answer it hears: the request is signed, the connection to the port
    of the argument made, the signed request sent on it, and one frame received. *)
Definition hears (seed : bytes) (fuel : nat) (argv : list bytes) (w : W) (response : bytes) (w' : W) : Prop :=
  exists prog arg k signature text socket w1 w2 w3 w4,
    argv = [prog; arg]
    /\ ed25519_private_key_from_seed seed w = (Ret k, w1)
    /\ ed25519_sign (Some k) (canonical_job_request_json job) w1 = (Ret signature, w2)
    /\ base64url_encode signature = Ret text
    /\ connect_ipv4 (str "127.0.0.1") (to_uint16 (strtoul arg)) w2 = (Ret socket, w3)
    /\ send_framed_json fuel (SocketHandle.get socket)
         (job_request_envelope_json (JobRequest.set_signature text job)) w3 = (Ret tt, w4)
    /\ recv_framed_json fuel (SocketHandle.get socket) w4 = (Ret response, w').

Lemma judge_endorsed key response w :
  endorsed key response w -> exists w', judge key response w = (Ret 0%Z, w').
Proof.
  intros (H1 & H2 & H3 & pub & sg & w1 & Ek & Ed & Hv). unfold judge.
  rewrite decide_False by tauto. erewrite run_bind by exact Ek.
  erewrite run_bind by (unfold lift; by rewrite Ed).
  destruct (ed25519_verify_returns pub (canonical_job_result_json (extracted response)) sg w1) as (w2 & E2).
  rewrite Hv in E2. exists w2. by erewrite run_bind by exact E2.
Qed.

(** The exit status is 0 exactly when the answer that the run heard is
    endorsed. *)
Lemma status_zero seed key fuel argv w :
  (exists w', main_with seed key fuel argv w = (Ret 0%Z, w'))
  <-> exists response w', hears seed fuel argv w response w' /\ endorsed key response w'.
Proof.
  split.
  - intros (w' & H). unfold main_with in H. destruct argv as [|prog [|arg [|? ?]]]; try done.
    apply run_bind_inv in H as (k & w1 & Hk & H). apply run_bind_inv in H as (sg & w2 & Hsg & H).
    apply run_bind_inv in H as (text & w3 & Ht & H). injection Ht as Ht <-. cbv zeta in H.
    apply run_bind_inv in H as (socket & w4 & Hc & H). apply with_destructor_inv in H as (w5 & H & _).
    apply run_bind_inv in H as ([] & w6 & Hs & H). apply run_bind_inv in H as (response & w7 & Hr & H).
    exists response, w7. split; [|by eapply judge_sound].
    by exists prog, arg, k, sg, text, socket, w1, w2, w4, w6.
  - intros (response & w' & (prog & arg & k & sg & text & socket & w1 & w2 & w3 & w4 & -> & Hk & Hsg & Ht
      & Hc & Hs & Hr) & (w5 & Hj)%judge_endorsed).
    exists (SocketHandle.destroy socket w5). unfold main_with. erewrite run_bind by exact Hk.
    erewrite run_bind by exact Hsg. erewrite run_bind by (unfold lift; by rewrite Ht). cbv zeta.
    erewrite run_bind by exact Hc. unfold with_destructor. erewrite run_bind by exact Hs.
    erewrite run_bind by exact Hr. by rewrite Hj.
Qed.

Lemma signed_client_hears fuel prog arg seed key k kp r socket question answer asking answering
    w w1 w2 w3 :
  ed25519_private_key_from_seed seed w = (Ret k, w1) ->
  ed25519_sign (Some k) (canonical_job_request_json job) w1
    = (Ret (ed25519_signature k (canonical_job_request_json job)), w2) ->
  connect_ipv4 (str "127.0.0.1") (to_uint16 (strtoul arg)) w2 = (Ret socket, w3) ->
  encode_frame (job_request_envelope_json (signed_request k job)) = Ret question ->
  encode_frame (job_result_envelope_json (signed_result kp r)) = Ret answer ->
  length question + length answer + signals w3 < fuel ->
  AnsweringPeer (SocketHandle.get socket) (stream_out (SocketHandle.get socket) w3)
    question answer asking answering ->
  asking w3 -> honest_result r ->
  (forall w, exists w', ed25519_public_key_from_raw key w = (Ret (public_key_of kp), w')) ->
  exists w', main_with seed key fuel [prog; arg] w = (Ret 0%Z, w').
Proof.
  intros Hk Hsign Hconn Hq Ha Hfuel Hpeer Hasking Hr Hkey.
  destruct (framed_dialogue (AP := Hpeer) _ _ _ _ _ _ fuel _ _ w3 Hfuel Hq Ha Hasking eq_refl)
    as (w5 & w6 & Esend & Erecv).
  destruct (judge_accepts key kp r w6 Hr Hkey) as (w7 & Ej).
  exists (SocketHandle.destroy socket w7). unfold main_with.
  erewrite run_bind by exact Hk. erewrite run_bind by exact Hsign.
  erewrite run_bind by (unfold lift; by rewrite base64url_encode_spec by apply encodable_signature).
  cbv zeta. erewrite run_bind by exact Hconn. unfold with_destructor.
  change (JobRequest.set_signature (to_url (base64 (ed25519_signature k (canonical_job_request_json job)))) job)
    with (signed_request k job).
  erewrite run_bind by exact Esend. erewrite run_bind by exact Erecv. by rewrite Ej.
Qed.
End signed_program.
