(* ===== verification/PythonNode.v ===== *)
(** * A C++ client and a Python node

    The whole exchange of a job across the two languages: the client of
    authenticated_tcp_executor.hpp signs and sends a request, the server of
    reference/python/ma2a/transport.py receives it and runs the handler of
    tests/test_job_transport.py, and the client verifies the answer. *)
From S2P Require Import Prelude Contracts Canonical Wire Reader JsonRoundTrip Unicode Envelope WireParse Framing Crypto.
From S2P Require Import CryptoSpec Job PyText PyJson PyLoads PyRoundTrip PyJob PyTransport JobAuth Interop SignedInterop WireInterop.
From S2P Require Import Tcp Network Transport Orchestrator Engine Executor Liveness.

(** [self.assertTrue(b)] and [self.assertEqual] *)
Definition assert_that (b : bool) : presult unit := raise_if (negb b) AssertionError.

Section handler.
Context `{Ed25519}.

(** The handler of [test_signed_echo_roundtrip_between_two_nodes]; [now] is the
    time the test read. *)
Definition handler (public_key_a : Ed25519PublicKey) (key_b : Ed25519PrivateKey) (now : Z)
    (incoming : job.JobRequest.t) : presult job.JobResult.t :=
  assert_that (is_lit (job.JobRequest.target_node_id incoming) "node-b");;
  verified ← job.verify_job_request incoming public_key_a (Some now);
  assert_that verified;;
  let '(status, payload) := job.execute_reference_job incoming in
  job.sign_job_result
    {| job.JobResult.protocol_version := lit "0.1"; job.JobResult.message_id := lit "msg-2";
       job.JobResult.request_id := job.JobRequest.request_id incoming;
       job.JobResult.responder_node_id := lit "node-b";
       job.JobResult.recipient_node_id := job.JobRequest.sender_node_id incoming;
       job.JobResult.status := status; job.JobResult.payload := payload;
       job.JobResult.completed_at := now + 1;
       job.JobResult.signature_algorithm := lit "Ed25519"; job.JobResult.signature := [] |}
    key_b.
End handler.

(** A request whose signed text both languages agree on. *)
Record interoperable (r : job.JobRequest.t) : Prop := {
  io_valid : valid_texts (request_texts r);
  io_plain : plain_texts (request_texts r);
  io_organization : job.JobRequest.organization_id r <> Some [];
  io_algorithm : job.JobRequest.signature_algorithm r = lit "Ed25519";
  io_issued : is_int64 (job.JobRequest.issued_at r);
  io_expires : is_int64 (job.JobRequest.expires_at r);
}.

Section node.
Context {W : Type} {O : OpenSSL W} {OS : OpenSSLSpec W} {E : Ed25519} {SC : SameScheme W}.

(** What the handler answers a signed request with. *)
Definition reference_result (r : job.JobRequest.t) (now : Z) : job.JobResult.t :=
  let '(status, payload) := job.execute_reference_job r in
  {| job.JobResult.protocol_version := lit "0.1"; job.JobResult.message_id := lit "msg-2";
     job.JobResult.request_id := job.JobRequest.request_id r;
     job.JobResult.responder_node_id := lit "node-b";
     job.JobResult.recipient_node_id := job.JobRequest.sender_node_id r;
     job.JobResult.status := status; job.JobResult.payload := payload;
     job.JobResult.completed_at := now + 1;
     job.JobResult.signature_algorithm := lit "Ed25519"; job.JobResult.signature := [] |}.

(** A handler that returns has validated the request, and returns the signed
    reference result. *)
Lemma handler_returns key kp now r res :
  handler key (py_private kp) now r = Ok res ->
  job.JobRequest.target_node_id r = lit "node-b"
  /\ job.JobRequest.validate r (Some now) = Ok tt
  /\ job.JobResult.validate (reference_result r now) = Ok tt
  /\ res = py_signed_result kp (reference_result r now).
Proof.
  unfold handler. intros [Ht H]%then_ok. apply raise_if_ok, negb_false_iff, is_lit_true in Ht.
  apply presult_bind_ok in H as (verified & Hv & H). apply then_ok in H as [Hb H].
  apply raise_if_ok, negb_false_iff in Hb as ->. unfold reference_result.
  destruct (job.execute_reference_job r) as [status payload].
  split; [done|]. unfold job.verify_job_request, false_if_rejected in Hv. split.
  - destruct (job.JobRequest.validate r (Some now)) as [[]|e]; [done|].
    cbn [mbind presult_bind] in Hv. by destruct (rejected e).
  - unfold job.sign_job_result in H. apply then_ok in H as [Hval H]. split; [done|].
    by injection H as <-.
Qed.
Ltac plain_lit := apply (bool_decide_unpack _); vm_compute; exact I.

Lemma execute_texts r P :
  Forall P (lit "OK") -> Forall P (lit "ERROR") -> Forall P (lit "PONG") ->
  Forall P (lit "unsupported_operation") -> Forall P (job.JobRequest.payload r) ->
  Forall P (fst (job.execute_reference_job r)) /\ Forall P (snd (job.execute_reference_job r)).
Proof. intros. unfold job.execute_reference_job. by repeat case_match. Qed.

Lemma reference_result_texts r now P :
  (forall cp, (0 <= cp < 0x7f)%Z -> P cp) -> Forall (Forall P) (request_texts r) ->
  Forall (Forall P) (result_texts (reference_result r now)).
Proof.
  intros HP. unfold request_texts. rewrite !Forall_cons.
  intros (? & ? & ? & ? & ? & ? & ? & ? & ? & _).
  assert (forall k, Forall (fun cp => 0 <= cp < 0x7f)%Z (lit k) -> Forall P (lit k)) as Hlit
    by (intros k Hk; eapply Forall_impl; [exact Hk|exact HP]).
  assert (Forall P (fst (job.execute_reference_job r)) /\ Forall P (snd (job.execute_reference_job r)))
    as [Hst Hpl] by (apply execute_texts; try done; apply Hlit; plain_lit).
  unfold result_texts, reference_result. destruct (job.execute_reference_job r) as [status payload].
  cbn [job.JobResult.message_id job.JobResult.payload job.JobResult.protocol_version
    job.JobResult.recipient_node_id job.JobResult.request_id job.JobResult.responder_node_id
    job.JobResult.signature_algorithm job.JobResult.status fst snd] in *.
  rewrite !Forall_cons, Forall_nil. split_and!; try done; apply Hlit; plain_lit.
Qed.

Lemma validated_executes r now :
  job.JobRequest.validate r now = Ok tt -> fst (job.execute_reference_job r) = lit "OK".
Proof.
  unfold job.JobRequest.validate. intros [_ H]%then_ok. apply then_ok in H as [H _].
  apply raise_if_ok, negb_false_iff in H. unfold job.execute_reference_job.
  destruct (is_lit _ "PING"); [done|]. cbn [orb] in H. by rewrite H.
Qed.

Lemma validated_now r now : job.JobRequest.validate r (Some now) = Ok tt -> (0 <= now)%Z.
Proof.
  unfold job.JobRequest.validate. do 2 (intros [_ H]%then_ok; revert H).
  intros [Hw H]%then_ok. apply then_ok in H as [Hn _]. apply raise_if_ok in Hw, Hn. lia.
Qed.

Lemma signed_result_texts k r :
  valid_texts (result_texts r) ->
  valid_texts (job.JobResult.signature (py_signed_result k r) :: result_texts (py_signed_result k r)).
Proof.
  intros Hv. constructor; [|exact Hv]. unfold py_signed_result. cbn [job.JobResult.signature job.JobResult.set_signature].
  rewrite py_signature. apply ascii_text_scalar, signature_text_ascii.
Qed.

(** The client accepts what the handler answers. *)
Lemma handler_answer_acceptable `{OA : !OpenSSLAvailable W} r now key k kp res :
  interoperable r -> is_int64 (now + 1) ->
  handler key (py_private kp) now (py_signed_request k r) = Ok res ->
  acceptable (cpp_request r) (str "node-b")
    (dumps (frame_obj (lit "JOB_RESULT") (job.JobResult.asdict res))) (cpp_result res)
    (public_key_of kp)
  /\ (JobResult.status (cpp_result res), JobResult.payload (cpp_result res))
     = execute_reference_job (cpp_request r).
Proof.
  intros [Hv Hp _ Ha _ _] Hnow (_ & Hval & _ & ->)%handler_returns.
  pose proof (validated_now _ _ Hval) as Hpos. apply validated_executes in Hval. rewrite execute_agrees by done.
  change (job.execute_reference_job (py_signed_request k r)) with (job.execute_reference_job r) in Hval.
  change (reference_result (py_signed_request k r) now) with (reference_result r now).
  assert (valid_texts (result_texts (reference_result r now))) as Hrv
    by (apply reference_result_texts; [unfold scalar; lia|exact Hv]).
  assert (plain_texts (result_texts (reference_result r now))) as Hrp
    by (apply reference_result_texts; [lia|exact Hp]).
  pose proof (signed_result_texts kp _ Hrv) as Hsv.
  assert (job.JobResult.signature_algorithm (reference_result r now) = lit "Ed25519") as Halg
    by (unfold reference_result; by destruct (job.execute_reference_job r)).
  pose proof (signed_result_same kp _ Hrv Hrp Halg) as Hsame.
  assert (job.JobResult.completed_at (py_signed_result kp (reference_result r now)) = now + 1)%Z as Hat
    by (unfold reference_result; by destruct (job.execute_reference_job r)).
  split; [constructor|].
  - by apply py_result_type.
  - apply parse_py_result; rewrite ?Hat; [done|done|unfold INT64_MIN; lia].
  - unfold reference_result. by destruct (job.execute_reference_job r).
  - unfold reference_result. by destruct (job.execute_reference_job r).
  - unfold reference_result. by destruct (job.execute_reference_job r).
  - unfold reference_result. destruct (job.execute_reference_job r). cbn in Hval. by subst.
  - intros w. rewrite <-Hsame. apply verify_signed_result.
  - unfold reference_result. by destruct (job.execute_reference_job r).
Qed.

(** A valid request to the node is answered. *)
Lemma reference_result_valid r now :
  job.JobRequest.validate r (Some now) = Ok tt -> job.JobResult.validate (reference_result r now) = Ok tt.
Proof.
  intros Hv. pose proof (validated_now _ _ Hv) as Hnow. pose proof (validated_executes _ _ Hv) as He.
  unfold job.JobRequest.validate in Hv. apply then_ok in Hv as [Hf _].
  apply raise_if_ok, negb_false_iff in Hf. cbn [forallb] in Hf.
  apply andb_true_iff in Hf as (_ & Hf). apply andb_true_iff in Hf as (_ & Hf).
  apply andb_true_iff in Hf as (Hid & Hf). apply andb_true_iff in Hf as (Hsender & _).
  unfold reference_result. destruct (job.execute_reference_job r) as [status payload].
  cbn [fst] in He. subst status. unfold job.JobResult.validate.
  cbn [job.JobResult.protocol_version job.JobResult.message_id job.JobResult.request_id
    job.JobResult.responder_node_id job.JobResult.recipient_node_id job.JobResult.status
    job.JobResult.completed_at job.JobResult.signature_algorithm forallb].
  rewrite Hid, Hsender, (proj2 (Z.ltb_ge _ _)) by lia. reflexivity.
Qed.

Lemma handler_completes k kp now r :
  job.JobRequest.target_node_id r = lit "node-b" -> job.JobRequest.validate r (Some now) = Ok tt ->
  handler (py_public (public_key_of k)) (py_private kp) now (py_signed_request k r)
  = Ok (py_signed_result kp (reference_result r now)).
Proof.
  intros Ht Hv. unfold handler.
  change (job.JobRequest.target_node_id (py_signed_request k r)) with (job.JobRequest.target_node_id r).
  rewrite Ht. change (assert_that (is_lit (lit "node-b") "node-b")) with (Ok tt). cbn [mbind presult_bind].
  rewrite (py_verify_request r k (Some now) Hv). cbn [mbind presult_bind assert_that negb raise_if].
  pose proof (py_sign_result _ kp (reference_result_valid r now Hv)) as Hs. revert Hs.
  unfold reference_result.
  change (job.execute_reference_job (py_signed_request k r)) with (job.execute_reference_job r).
  destruct (job.execute_reference_job r) as [status payload]. intros <-. reflexivity.
Qed.

(** The server sends the answer of its handler. *)
Lemma serve_completes `{OA : !OpenSSLAvailable W} limit r k handler res question answer c :
  interoperable r -> 2 <= limit -> segmented c -> room c = None ->
  encode_frame (job_request_envelope_json (signed_request k (cpp_request r))) = Ret question ->
  concat (inbox c) = question -> handler (py_signed_request k r) = Ok res ->
  encode_frame (dumps (frame_obj (lit "JOB_RESULT") (job.JobResult.asdict res))) = Ret answer ->
  exists c', serve_one_job limit handler c = (Ok tt, c') /\ sent c' = sent c ++ answer.
Proof.
  intros [Hv Hp Ho Ha Hi He] Hl Hc Hr Hq Hin Hh Hans. rewrite signed_request_same in Hq by done.
  rewrite <-(app_nil_r question) in Hin.
  assert (valid_texts (job.JobRequest.signature (py_signed_request k r)
                       :: request_texts (py_signed_request k r))) as Hsv.
  { constructor; [|exact Hv]. unfold py_signed_request.
    cbn [job.JobRequest.signature job.JobRequest.set_signature].
    rewrite py_signature. apply ascii_text_scalar, signature_text_ascii. }
  destruct (python_receives_request limit (py_signed_request k r) question [] c)
    as (payload & c1 & E1 & Em & _ & _ & Hs1 & Hr1); [done..|]. rewrite Hr in Hr1.
  pose proof (encode_frame_ret _ _ Hans) as [Hf _].
  destruct (send_frame_writes (lit "JOB_RESULT") (job.JobResult.asdict res) c1 Hr1 Hf)
    as (out & c2 & Eo & E2 & Hs2 & _).
  rewrite Hans in Eo. injection Eo as <-. exists c2. split; [|by rewrite Hs2, Hs1].
  unfold serve_one_job, mbind, PyM_bind. rewrite E1. unfold pure.
  change (is_lit (lit "JOB_REQUEST") "JOB_REQUEST") with true. cbn [negb raise_if].
  by rewrite Em, Hh, E2.
Qed.
End node.

Section attempt.
Context {W : Type} {O : OpenSSL W} {OS : OpenSSLSpec W} {OA : OpenSSLAvailable W}.
Context {E : Ed25519} {SC : SameScheme W}.
Context {P : Posix W} {PS : PosixSpec W} {SS : SocketStreams W} {FS : FiniteSignals W}.
Context (self : AuthenticatedTcpAttemptExecutor.t W).
Import AuthenticatedTcpAttemptExecutor.

(** C5: A C++ client completes its job on a Python node.  The client sends the
    signed request of an interoperable job, valid at the node's time, to a node
    that runs the Python server with the handler of the tests; the answer fits a
    frame; and the network delivers what each end sent, in whatever segments and
    with finitely many interruptions.  Then the server ends without an exception
    and sends that answer, and the attempt returns a result for the request with
    the status and payload that the reference execution of the request gives in
    C++. *)
Theorem python_node_completes_attempt fuel limit r now k kp endpoint socket question answer
    asking answering c w w1 w2 w3 w4
    (Hr : interoperable r) (Hnow : is_int64 (now + 1))
    (Htarget : job.JobRequest.target_node_id r = lit "node-b")
    (Hvalid : job.JobRequest.validate r (Some now) = Ok tt)
    (Hep : endpoint_resolver_ self (str "node-b") w = (Ret (Some endpoint), w1))
    (Hk : local_private_key_ self = Some k)
    (Hsign : sign_job_request (cpp_request r) (Some k) w1
             = (Ret (signed_request k (cpp_request r)), w2))
    (Hconn : connect_ipv4_with_timeout fuel (TcpEndpoint.host endpoint) (TcpEndpoint.port endpoint)
               (connect_timeout_ self) w2 = (Ret socket, w3))
    (Hdead : set_socket_io_timeout (SocketHandle.get socket) (io_timeout_ self) w3 = (Ret tt, w4))
    (Hq : encode_frame (job_request_envelope_json (signed_request k (cpp_request r))) = Ret question)
    (Ha : encode_frame (dumps (frame_obj (lit "JOB_RESULT")
            (job.JobResult.asdict (py_signed_result kp (reference_result r now))))) = Ret answer)
    (Hlimit : 2 <= limit) (Hseg : segmented c) (Hroom : room c = None) (Hin : concat (inbox c) = question)
    (Hpeer : AnsweringPeer (SocketHandle.get socket) (stream_out (SocketHandle.get socket) w4)
               question answer asking answering)
    (Hasking : asking w4) (Hfuel : length question + length answer + signals w4 < fuel)
    (Hkey : forall w5, exists w6, public_key_resolver_ self (str "node-b") w5
              = (Ret (Some (public_key_of kp)), w6)) :
  (exists c', serve_one_job limit (handler (py_public (public_key_of k)) (py_private kp) now) c = (Ok tt, c')
     /\ sent c' = sent c ++ answer)
  /\ exists result w',
    call_operator self fuel (cpp_request r) (str "node-b") w
    = (Ret (AttemptResponse.mk (Some result) None), w')
    /\ JobResult.request_id result = JobRequest.request_id (cpp_request r)
    /\ (JobResult.status result, JobResult.payload result) = execute_reference_job (cpp_request r).
Proof.
  pose proof (handler_completes k kp now r Htarget Hvalid) as Hh. set (res := py_signed_result _ _) in *.
  split; [by apply (serve_completes limit r k _ res question)|].
  destruct (handler_answer_acceptable r now (py_public (public_key_of k)) k kp res) as [Hacc Hexec]; [done..|].
  destruct (answered_attempt self fuel (cpp_request r) (str "node-b")
    (dumps (frame_obj (lit "JOB_RESULT") (job.JobResult.asdict res))) (cpp_result res)
    (public_key_of kp) k endpoint socket question answer asking answering w w1 w2 w3 w4)
    as (w' & Hcall); [done| |done..|].
  { unfold cpp_request. cbn [JobRequest.target_node_id]. rewrite Htarget. reflexivity. }
  exists (cpp_result res), w'. split; [done|]. split; [|done]. apply Hacc.
Qed.
End attempt.
