(* ===== verification/CrossLang.v ===== *)
(** * The cross-language scripts (cpp/tests/tcp_crosslang_roundtrip.py and
    cpp/tests/tcp_crosslang_signed_roundtrip.py)

    Each script starts a C++ client program and answers the connection it makes
    with a node of its own.  The node works on the values [json.loads] returns,
    not on dataclasses, and ends with an exception when the client did not send
    what it expects; the exit status of the script is that of the client. *)
From Equations Require Import Equations.
From S2P Require Import Prelude Contracts Canonical Wire Reader JsonRoundTrip Unicode Envelope WireParse Framing Crypto CryptoSpec.
From S2P Require Import PyText PyJson PyLoads PyRoundTrip PyJob PyTransport JobAuth Interop SignedInterop WireInterop.
From S2P Require Import Tcp Network Transport Liveness Drivers PythonNode.

(** ** What the scripts share *)

Module scripts.
(** *** Values of [json.loads] as Python values *)

(** The Python value of what was read. *)
Fixpoint obj_of (v : json) : pyobj :=
  match v with
  | JNull => PNone
  | JBool b => PBool b
  | JInt z => PInt z
  | JFloat x => PFloat x
  | JStr s => PStr s
  | JArr l => PList (map obj_of l)
  | JObj items => PDict (map (fun '(k, v) => (k, obj_of v)) items)
  end.

(** [value[k]] for a literal key *)
Definition subscript (value : json) (k : String.string) : presult json :=
  match value with
  | JObj items =>
      match lookup_key (lit k) items with
      | Some v => Ok v
      | None => Raise KeyError
      end
  | _ => Raise TypeError
  end.
Arguments subscript value k%_string_scope.

(** [value == k] for a literal *)
Definition equals_lit (value : json) (k : String.string) : bool :=
  match value with
  | JStr s => is_lit s k
  | _ => false
  end.
Arguments equals_lit value k%_string_scope.

(** [assert value[k] == v] *)
Definition assert_member (value : json) (k v : String.string) : presult unit :=
  x ← subscript value k; assert_that (equals_lit x v).
Arguments assert_member value (k v)%_string_scope.

(** [set(value) == {...}], for a set of literals of two characters or more: a
    dict gives its keys, a list its elements, a string its characters. *)
Definition set_equals (value : json) (keys : list pystr) : presult bool :=
  match value with
  | JObj items => Ok (same_keys items keys)
  | JArr l =>
      if existsb (fun v => match v with JArr _ | JObj _ => true | _ => false end) l
      then Raise TypeError
      else Ok (forallb (fun v => match v with JStr s => bool_decide (s ∈ keys) | _ => false end) l
               && forallb (fun k => existsb (fun v => match v with JStr s => bool_decide (s = k)
                                                      | _ => false end) l) keys)
  | JStr _ => Ok false
  | _ => Raise TypeError
  end.

(** [value.pop(k)]: the member, and the dict without it. *)
Definition pop_member (value : json) (k : String.string) : presult (json * json) :=
  match value with
  | JObj items =>
      match lookup_key (lit k) items with
      | Some v => Ok (v, JObj (filter (fun item => fst item <> lit k) items))
      | None => Raise KeyError
      end
  | JArr _ => Raise TypeError
  | _ => Raise AttributeError
  end.
Arguments pop_member value k%_string_scope.

(** [unb64(text)] of a value *)
Definition unb64 (text : json) : presult bytes :=
  match text with
  | JStr s => _unb64 s
  | _ => Raise AttributeError
  end.

(** *** Frames as bytes *)

Equations recv_exact (size : nat) (sock : conn) : presult bytes * conn by wf size lt :=
  recv_exact 0 sock := (Ok [], sock);
  recv_exact (S n) sock with recv (S n) sock => {
    | (Raise e, sock') => (Raise e, sock')
    | (Ok [], sock') => (Raise (RuntimeError "connection closed"), sock')
    | (Ok (b :: chunk), sock') with recv_exact (n - length chunk) sock' => {
        | (Ok rest, sock'') => (Ok ((b :: chunk) ++ rest), sock'')
        | (Raise e, sock'') => (Raise e, sock'') } }.
Next Obligation. lia. Qed.

Definition recv_frame : PyM bytes :=
  header ← recv_exact 4;
  let length := unpack_I header in
  pure (raise_if ((length <=? 0) || (1024 * 1024 <? length))%Z (RuntimeError "invalid frame length"));;
  recv_exact (Z.to_nat length).

End scripts.
Import scripts.

(** ** tcp_crosslang_roundtrip.py *)

Module tcp_crosslang_roundtrip.
Definition send_frame (payload : bytes) : PyM unit :=
  sendall (pack_I (Z.of_nat (length payload)) ++ payload).

Definition result : pyobj :=
  PDict [(lit "payload", PDict
           [(lit "completed_at", PInt 1700000001); (lit "message_id", PStr (lit "msg-result-1"));
            (lit "payload", PStr (lit "hello-over-tcp")); (lit "protocol_version", PStr (lit "0.2"));
            (lit "recipient_node_id", PStr (lit "node-cpp")); (lit "request_id", PStr (lit "job-tcp-1"));
            (lit "responder_node_id", PStr (lit "node-python"));
            (lit "signature", PStr (lit "fixture-result-signature"));
            (lit "signature_algorithm", PStr (lit "Ed25519")); (lit "status", PStr (lit "OK"))]);
         (lit "type", PStr (lit "JOB_RESULT"))].

(** The assertions on the message. *)
Definition respond (message : json) : presult pyobj :=
  assert_member message "type" "JOB_REQUEST";;
  payload ← subscript message "payload";
  assert_member payload "sender_node_id" "node-cpp";;
  assert_member payload "target_node_id" "node-python";;
  assert_member payload "operation" "ECHO";;
  assert_member payload "payload" "hello-over-tcp";;
  Ok result.

(** What [main] does with the connection it accepts. *)
Definition serve (recursion_left : nat) : PyM unit :=
  body ← recv_frame;
  text ← pure (decode_utf8 body);
  message ← pure (loads recursion_left text);
  result ← pure (respond message);
  send_frame (dumps result).
End tcp_crosslang_roundtrip.

(** ** tcp_crosslang_signed_roundtrip.py *)

Module tcp_crosslang_signed_roundtrip.
Definition MAX_FRAME : Z := 1024 * 1024.

(** [bytes.fromhex("03a107bff3ce10be1d70dd18e74bc09967e4d6309ba50d5f1ddc8664125531b8")] *)
Definition CPP_PUBLIC_KEY : bytes := map byte_of_Z
  [0x03; 0xa1; 0x07; 0xbf; 0xf3; 0xce; 0x10; 0xbe; 0x1d; 0x70; 0xdd; 0x18; 0xe7; 0x4b; 0xc0; 0x99;
   0x67; 0xe4; 0xd6; 0x30; 0x9b; 0xa5; 0x0d; 0x5f; 0x1d; 0xdc; 0x86; 0x64; 0x12; 0x55; 0x31; 0xb8]%Z.
Definition PYTHON_SEED : bytes := map (fun i => byte_of_Z (Z.of_nat i)) (seq 32 32).

Definition send_frame (body : bytes) : PyM unit :=
  pure (raise_if (bool_decide (body = []) || (MAX_FRAME <? Z.of_nat (length body))%Z)
          (RuntimeError "invalid outbound frame"));;
  sendall (pack_I (Z.of_nat (length body)) ++ body).

Section script.
Context `{Ed25519} (from_private_bytes : bytes -> presult Ed25519PrivateKey).
(** The two constants of the script, and what is left of the recursion limit. *)
Context (cpp_public_key python_seed : bytes) (recursion_left : nat).

(** From the message to the envelope of the answer. *)
Definition respond (message : json) : presult pyobj :=
  envelope ← set_equals message [lit "payload"; lit "type"];
  assert_that envelope;;
  assert_member message "type" "JOB_REQUEST";;
  request ← subscript message "payload";
  popped ← pop_member request "signature";
  let '(signature, request) := popped in
  key ← from_public_bytes cpp_public_key;
  signature ← unb64 signature;
  verify key signature (canonical_json (obj_of request));;
  assert_member request "sender_node_id" "node-cpp";;
  assert_member request "target_node_id" "node-python";;
  assert_member request "operation" "ECHO";;
  assert_member request "payload" "signed-hello";;
  payload ← subscript request "payload";
  request_id ← subscript request "request_id";
  let result :=
    [(lit "completed_at", PInt 1800000001); (lit "message_id", PStr (lit "msg-signed-result-1"));
     (lit "payload", obj_of payload); (lit "protocol_version", PStr (lit "0.2"));
     (lit "recipient_node_id", PStr (lit "node-cpp")); (lit "request_id", obj_of request_id);
     (lit "responder_node_id", PStr (lit "node-python"));
     (lit "signature_algorithm", PStr (lit "Ed25519")); (lit "status", PStr (lit "OK"))] in
  private_key ← from_private_bytes python_seed;
  let signature := _b64 (sign private_key (canonical_json (PDict result))) in
  Ok (PDict [(lit "payload", PDict (result ++ [(lit "signature", PStr signature)]));
             (lit "type", PStr (lit "JOB_RESULT"))]).

(** What [main] does with the connection it accepts. *)
Definition serve : PyM unit :=
  body ← recv_frame;
  text ← pure (decode_utf8 body);
  message ← pure (loads recursion_left text);
  envelope ← pure (respond message);
  send_frame (canonical_json envelope).
End script.
End tcp_crosslang_signed_roundtrip.

(** ** Receiving *)

Lemma recv_exact_same n c data c' : _recv_exact n c = (Ok data, c') -> recv_exact n c = (Ok data, c').
Proof.
  revert data c'. funelim (_recv_exact n c); intros data d He; try congruence;
    [by injection He as <- <-|].
  injection He as <- <-. simp recv_exact. rewrite Heq0. cbn [recv_exact_unfold_clause_2].
  by rewrite (Hind rest c'' Heq).
Qed.

Lemma recv_frame_body body frame rest c :
  segmented c -> encode_frame body = Ret frame -> concat (inbox c) = frame ++ rest ->
  exists c', recv_frame c = (Ok body, c') /\ segmented c' /\ concat (inbox c') = rest
    /\ sent c' = sent c /\ room c' = room c.
Proof.
  intros Hc Hframe Hin. apply encode_frame_ret in Hframe as [[Hn Hl] ->]. rewrite <-app_assoc in Hin.
  assert (0 <= Z.of_nat (length body) < 2 ^ 32)%Z as Hrange by (unfold kMaxFrameBytes in Hl; lia).
  destruct (recv_exact_returns 4 c _ _ Hc Hin) as (c1 & E1%recv_exact_same & Hc1 & Hin1 & Hs1 & Hr1).
  { by destruct (header_of _) as [[[? ?] ?] ?]. }
  destruct (recv_exact_returns (length body) c1 _ _ Hc1 Hin1 eq_refl)
    as (c2 & E2%recv_exact_same & Hc2 & Hin2 & Hs2 & Hr2).
  exists c2. split_and!; [|done|done|congruence|congruence].
  unfold recv_frame, mbind, PyM_bind, pure. rewrite E1, unpack_header, big_endian_header_of by done.
  assert (0 < Z.of_nat (length body))%Z by (destruct body; [done|cbn; lia]).
  change (1024 * 1024)%Z with kMaxFrameBytes.
  rewrite (proj2 (Z.leb_gt _ _)), (proj2 (Z.ltb_ge _ _)) by done. cbn [orb raise_if].
  by rewrite Nat2Z.id, E2.
Qed.

(** What is sent to a peer that takes it is the frame of the C++ encoder. *)
Lemma sendall_frame body frame c :
  room c = None -> encode_frame body = Ret frame ->
  exists c', sendall (pack_I (Z.of_nat (length body)) ++ body) c = (Ok tt, c') /\ sent c' = sent c ++ frame.
Proof.
  intros Hr [[_ Hl] ->]%encode_frame_ret. unfold sendall. rewrite Hr, pack_header by (unfold kMaxFrameBytes in Hl; lia).
  by eexists.
Qed.

(** A request the C++ writer writes as Python can read it. *)
Record transferable (r : job.JobRequest.t) : Prop := {
  tr_texts : valid_texts (job.JobRequest.signature r :: request_texts r);
  tr_organization : job.JobRequest.organization_id r <> Some [];
  tr_issued : is_int64 (job.JobRequest.issued_at r);
  tr_expires : is_int64 (job.JobRequest.expires_at r);
}.

(** A text the C++ client wrote for a request is received and read. *)
Lemma request_read recursion_left r frame rest c {A} (k : json -> PyM A) :
  transferable r -> 2 <= recursion_left -> segmented c ->
  encode_frame (job_request_envelope_json (cpp_request r)) = Ret frame ->
  concat (inbox c) = frame ++ rest ->
  exists c', (body ← recv_frame;
              text ← pure (decode_utf8 body);
              message ← pure (loads recursion_left text);
              k message) c = k (json_of (request_frame r)) c'
    /\ sent c' = sent c /\ room c' = room c.
Proof.
  intros [Hv Ho Hi He] Hl Hc Hf Hin.
  pose proof (request_frame_writable r Hv Hi He) as Hw. rewrite <-request_frame_wire in Hf by done.
  destruct (recv_frame_body _ _ _ c Hc Hf Hin) as (c' & E & _ & _ & Hs & Hr).
  exists c'. split; [|done]. unfold mbind, PyM_bind, pure. rewrite E.
  rewrite decode_utf8_text by apply (compact_scalar cpp_escape cpp_escape_scalar _ Hw).
  rewrite (loads_compact cpp_escape recursion_left (request_frame r)); [done|done|].
  destruct r as [? ? ? ? ? [org|] ? ? ? ? ? ?]; cbn; lia.
Qed.

(** ** The unsigned round trip *)

Section unsigned.
Context {W : Type} {P : Posix W} {PS : PosixSpec W} {SS : SocketStreams W} {FS : FiniteSignals W}.
Import tcp_crosslang_client.

(** The job of the client, as Python has it. *)
Definition py_job : job.JobRequest.t :=
  {| job.JobRequest.protocol_version := lit "0.2"; job.JobRequest.message_id := lit "msg-tcp-1";
     job.JobRequest.request_id := lit "job-tcp-1"; job.JobRequest.sender_node_id := lit "node-cpp";
     job.JobRequest.target_node_id := lit "node-python";
     job.JobRequest.organization_id := Some (lit "org-1");
     job.JobRequest.operation := lit "ECHO"; job.JobRequest.payload := lit "hello-over-tcp";
     job.JobRequest.issued_at := 1700000000; job.JobRequest.expires_at := 1700000060;
     job.JobRequest.signature_algorithm := lit "Ed25519";
     job.JobRequest.signature := lit "fixture-signature" |}.

Lemma py_job_same : cpp_request py_job = job.
Proof. reflexivity. Qed.

Lemma py_job_transferable : transferable py_job.
Proof. constructor; [by apply (bool_decide_unpack _); vm_compute|discriminate|done|done]. Qed.

Lemma respond_py_job :
  tcp_crosslang_roundtrip.respond (json_of (request_frame py_job)) = Ok tcp_crosslang_roundtrip.result.
Proof. vm_compute. reflexivity. Qed.

(** The literal of the client is what the script writes. *)
Lemma expected_result : dumps tcp_crosslang_roundtrip.result = expected.
Proof. vm_compute. reflexivity. Qed.

(** The whole exchange: the script ends without an exception, and the client
    exits with 0. *)
Lemma unsigned_round_trip recursion_left fuel prog arg socket question answer asking answering c w w1 :
  2 <= recursion_left -> segmented c -> room c = None -> concat (inbox c) = question ->
  encode_frame (job_request_envelope_json job) = Ret question -> encode_frame expected = Ret answer ->
  connect_ipv4 (str "127.0.0.1") (to_uint16 (strtoul arg)) w = (Ret socket, w1) ->
  length question + length answer + signals w1 < fuel ->
  AnsweringPeer (SocketHandle.get socket) (stream_out (SocketHandle.get socket) w1)
    question answer asking answering ->
  asking w1 ->
  (exists c', tcp_crosslang_roundtrip.serve recursion_left c = (Ok tt, c') /\ sent c' = sent c ++ answer)
  /\ exists w', main fuel [prog; arg] w = (Ret 0%Z, w').
Proof.
  intros Hl Hc Hr Hin Hq Ha Hconn Hfuel Hpeer Hasking. split.
  - rewrite <-(app_nil_r question) in Hin. rewrite <-py_job_same in Hq.
    destruct (request_read recursion_left py_job question [] c
      (fun message => result ← pure (tcp_crosslang_roundtrip.respond message);
                      tcp_crosslang_roundtrip.send_frame (dumps result))
      py_job_transferable Hl Hc Hq Hin) as (c1 & E & Hs1 & Hr1).
    unfold tcp_crosslang_roundtrip.serve. rewrite E. unfold pure, mbind, PyM_bind.
    rewrite respond_py_job. unfold tcp_crosslang_roundtrip.send_frame. rewrite expected_result.
    destruct (sendall_frame expected answer c1) as (c2 & E2 & Hs2); [congruence|done|].
    exists c2. rewrite Hs2, Hs1. split; [exact E2|reflexivity].
  - destruct (framed_dialogue (AP := Hpeer) _ _ _ _ _ _ fuel _ _ w1 Hfuel Hq Ha Hasking eq_refl)
      as (w2 & w3 & Esend & Erecv).
    exists (SocketHandle.destroy socket w3). unfold main. cbv zeta.
    erewrite run_bind by exact Hconn. unfold with_destructor.
    erewrite run_bind by exact Esend. erewrite run_bind by exact Erecv. by rewrite decide_False by auto.
Qed.
End unsigned.

(** ** The signed round trip *)

Section signed.
Context {W : Type} {O : OpenSSL W} {OS : OpenSSLSpec W} {OA : OpenSSLAvailable W}.
Context {E : Ed25519} {SC : SameScheme W}.
Context (from_private_bytes : bytes -> presult Ed25519PrivateKey).

(** The job of the client and the result of the script, as Python has them. *)
Definition py_signed_job : job.JobRequest.t :=
  {| job.JobRequest.protocol_version := lit "0.2"; job.JobRequest.message_id := lit "msg-signed-tcp-1";
     job.JobRequest.request_id := lit "job-signed-tcp-1"; job.JobRequest.sender_node_id := lit "node-cpp";
     job.JobRequest.target_node_id := lit "node-python";
     job.JobRequest.organization_id := Some (lit "org-1");
     job.JobRequest.operation := lit "ECHO"; job.JobRequest.payload := lit "signed-hello";
     job.JobRequest.issued_at := 1800000000; job.JobRequest.expires_at := 1800000060;
     job.JobRequest.signature_algorithm := lit "Ed25519"; job.JobRequest.signature := [] |}.
Definition py_result : job.JobResult.t :=
  {| job.JobResult.protocol_version := lit "0.2"; job.JobResult.message_id := lit "msg-signed-result-1";
     job.JobResult.request_id := lit "job-signed-tcp-1";
     job.JobResult.responder_node_id := lit "node-python";
     job.JobResult.recipient_node_id := lit "node-cpp"; job.JobResult.status := lit "OK";
     job.JobResult.payload := lit "signed-hello"; job.JobResult.completed_at := 1800000001;
     job.JobResult.signature_algorithm := lit "Ed25519"; job.JobResult.signature := [] |}.

Lemma py_signed_job_same : cpp_request py_signed_job = tcp_crosslang_signed_client.job.
Proof. reflexivity. Qed.

(** The members without the signature, sorted as the client wrote them. *)
Definition job_members : json :=
  Eval vm_compute in
    JObj (filter (fun item => fst item <> lit "signature")
            (map (fun '(k, v) => (k, json_of v)) (lit_items (request_items py_signed_job)))).

Lemma open_signed_job signature :
  let message := json_of (request_frame (job.JobRequest.set_signature signature py_signed_job)) in
  set_equals message [lit "payload"; lit "type"] = Ok true
  /\ assert_member message "type" "JOB_REQUEST" = Ok tt
  /\ exists request, subscript message "payload" = Ok request
       /\ pop_member request "signature" = Ok (JStr signature, job_members).
Proof.
  split; [vm_compute; reflexivity|]. split; [vm_compute; reflexivity|].
  eexists. split; [reflexivity|]. vm_compute. reflexivity.
Qed.

(** What the script verifies is the text the client signed. *)
Lemma job_members_text :
  canonical_json (obj_of job_members) = canonical_json (job.JobRequest.unsigned_payload py_signed_job).
Proof. vm_compute. reflexivity. Qed.

(** The members of the answer, in the order of the script. *)
Definition answer_members : pydict :=
  [(lit "completed_at", PInt 1800000001); (lit "message_id", PStr (lit "msg-signed-result-1"));
   (lit "payload", PStr (lit "signed-hello")); (lit "protocol_version", PStr (lit "0.2"));
   (lit "recipient_node_id", PStr (lit "node-cpp")); (lit "request_id", PStr (lit "job-signed-tcp-1"));
   (lit "responder_node_id", PStr (lit "node-python"));
   (lit "signature_algorithm", PStr (lit "Ed25519")); (lit "status", PStr (lit "OK"))].

(** What the script signs, and the envelope it sends, are those of the
    dataclass. *)
Lemma answer_text : canonical_json (PDict answer_members) = canonical_json (job.JobResult.unsigned_payload py_result).
Proof. vm_compute. reflexivity. Qed.

Lemma answer_members_text x :
  members_text [(lit "payload", members_text (map (fun '(k, v) => (k, dumps v)) answer_members
                                              ++ [(lit "signature", x)]));
                (lit "type", dumps (PStr (lit "JOB_RESULT")))]
  = members_text [(lit "type", dumps (PStr (lit "JOB_RESULT")));
                  (lit "payload", members_text
      (map (fun '(k, v) => (k, dumps v)) (pop (lit "signature") (job.JobResult.asdict py_result))
       ++ [(lit "signature", x)]))].
Proof. vm_compute. reflexivity. Qed.

Lemma answer_envelope signature :
  dumps (PDict [(lit "payload", PDict (answer_members ++ [(lit "signature", PStr signature)]));
                (lit "type", PStr (lit "JOB_RESULT"))])
  = dumps (frame_obj (lit "JOB_RESULT") (job.JobResult.asdict (job.JobResult.set_signature signature py_result))).
Proof. exact (answer_members_text (py_json_string signature)). Qed.

(** A result in plain texts has one envelope in both languages. *)
Lemma result_frame_wire r :
  valid_texts (job.JobResult.signature r :: result_texts r) ->
  plain_texts (job.JobResult.signature r :: result_texts r) ->
  dumps (frame_obj (lit "JOB_RESULT") (job.JobResult.asdict r)) = job_result_envelope_json (cpp_result r).
Proof.
  unfold valid_texts, plain_texts, result_texts. rewrite !Forall_cons.
  intros (? & ? & ? & ? & ? & ? & ? & ? & ? & _) (? & ? & ? & ? & ? & ? & ? & ? & ? & _).
  rewrite py_frame_text, py_signed_result_text by done.
  unfold job_result_envelope_json, signed_job_result_json. cbn [cpp_result
    JobResult.protocol_version JobResult.message_id JobResult.request_id JobResult.responder_node_id
    JobResult.recipient_node_id JobResult.status JobResult.payload JobResult.completed_at
    JobResult.signature_algorithm JobResult.signature].
  by rewrite !ascii_canonical_text by done.
Qed.

Lemma signature_plain k m : Forall (fun cp => cp < 0x7f)%Z (_b64 (sign (py_private k) m)).
Proof.
  rewrite py_signature. apply Forall_map. unfold signature_text. apply to_url_forall.
  apply (bool_decide_unpack _). vm_compute. exact I.
Qed.

Lemma respond_answers k kp public seed :
  from_public_bytes public = Ok (py_public (public_key_of k)) ->
  from_private_bytes seed = Ok (py_private kp) ->
  exists envelope,
    tcp_crosslang_signed_roundtrip.respond from_private_bytes public seed
      (json_of (request_frame (py_signed_request k py_signed_job))) = Ok envelope
    /\ canonical_json envelope = job_result_envelope_json (signed_result kp (cpp_result py_result)).
Proof.
  intros Hpub Hpriv. set (text := canonical_json (job.JobRequest.unsigned_payload py_signed_job)).
  change (py_signed_request k py_signed_job)
    with (job.JobRequest.set_signature (_b64 (sign (py_private k) text)) py_signed_job).
  destruct (open_signed_job (_b64 (sign (py_private k) text))) as (E1 & E2 & request & E3 & E4).
  eexists. split.
  - unfold tcp_crosslang_signed_roundtrip.respond. rewrite E1. cbn [mbind presult_bind assert_that negb raise_if].
    rewrite E2. cbn [mbind presult_bind]. rewrite E3. cbn [mbind presult_bind]. rewrite E4.
    cbn [mbind presult_bind]. rewrite Hpub. cbn [mbind presult_bind unb64]. rewrite _unb64_b64.
    cbn [mbind presult_bind].
    rewrite job_members_text, py_sign_same, py_verify_same, ed25519_correct. cbn [mbind presult_bind].
    rewrite Hpriv. reflexivity.
  - rewrite signed_result_same by (first [done|by apply (bool_decide_unpack _); vm_compute]).
    change (job_result_envelope_json (cpp_result (py_signed_result kp py_result)))
      with (job_result_envelope_json (cpp_result (job.JobResult.set_signature
              (_b64 (sign (py_private kp) (canonical_json (job.JobResult.unsigned_payload py_result)))) py_result))).
    rewrite <-result_frame_wire, <-answer_envelope.
    + unfold canonical_json at 1. rewrite <-answer_text. reflexivity.
    + constructor; [rewrite py_signature; apply ascii_text_scalar, signature_text_ascii|].
      by apply (bool_decide_unpack _); vm_compute.
    + constructor; [apply signature_plain|]. by apply (bool_decide_unpack _); vm_compute.
Qed.

Lemma honest_py_result : honest_result (cpp_result py_result).
Proof.
  split; [|done]. constructor; by apply (bool_decide_unpack _); vm_compute.
Qed.

Lemma py_signed_transferable k : transferable (py_signed_request k py_signed_job).
Proof.
  constructor; [|discriminate|done|done]. constructor; [|by apply (bool_decide_unpack _); vm_compute].
  unfold py_signed_request. cbn [job.JobRequest.signature job.JobRequest.set_signature].
  rewrite py_signature. apply ascii_text_scalar, signature_text_ascii.
Qed.

Lemma signed_job_same k :
  signed_request k tcp_crosslang_signed_client.job = cpp_request (py_signed_request k py_signed_job).
Proof.
  rewrite <-py_signed_job_same.
  apply signed_request_same; [by apply (bool_decide_unpack _); vm_compute..|discriminate|reflexivity].
Qed.

Lemma serve_signed recursion_left public seed k kp question answer c :
  2 <= recursion_left -> segmented c -> room c = None -> concat (inbox c) = question ->
  encode_frame (job_request_envelope_json (signed_request k tcp_crosslang_signed_client.job)) = Ret question ->
  encode_frame (job_result_envelope_json (signed_result kp (cpp_result py_result))) = Ret answer ->
  from_public_bytes public = Ok (py_public (public_key_of k)) ->
  from_private_bytes seed = Ok (py_private kp) ->
  exists c', tcp_crosslang_signed_roundtrip.serve from_private_bytes public seed recursion_left c = (Ok tt, c')
    /\ sent c' = sent c ++ answer.
Proof.
  intros Hl Hc Hr Hin Hq Ha Hpub Hpriv. rewrite <-(app_nil_r question) in Hin.
  rewrite signed_job_same in Hq.
  destruct (request_read recursion_left (py_signed_request k py_signed_job) question [] c
    (fun message => envelope ← pure (tcp_crosslang_signed_roundtrip.respond from_private_bytes public seed message);
                    tcp_crosslang_signed_roundtrip.send_frame (canonical_json envelope))
    (py_signed_transferable k) Hl Hc Hq Hin) as (c1 & Es & Hs1 & Hr1).
  unfold tcp_crosslang_signed_roundtrip.serve. rewrite Es. unfold pure, mbind, PyM_bind.
  destruct (respond_answers k kp public seed Hpub Hpriv) as (envelope & -> & ->).
  pose proof (encode_frame_ret _ _ Ha) as [[Hn Hmax] _].
  unfold tcp_crosslang_signed_roundtrip.send_frame, mbind, PyM_bind, pure.
  rewrite bool_decide_eq_false_2 by done. change tcp_crosslang_signed_roundtrip.MAX_FRAME with kMaxFrameBytes.
  rewrite (proj2 (Z.ltb_ge _ _)) by done. cbn [orb raise_if].
  destruct (sendall_frame _ answer c1 ltac:(congruence) Ha) as (c2 & E2 & Hs2).
  exists c2. rewrite Hs2, Hs1. split; [exact E2|reflexivity].
Qed.

(** The script answers nothing but a request whose signature it verified. *)
Lemma respond_sound public seed message envelope :
  tcp_crosslang_signed_roundtrip.respond from_private_bytes public seed message = Ok envelope ->
  exists items text key signature,
    subscript message "payload" = Ok (JObj items) /\ lookup_key (lit "signature") items = Some (JStr text)
    /\ from_public_bytes public = Ok key /\ _unb64 text = Ok signature
    /\ verify key signature
         (canonical_json (obj_of (JObj (filter (fun item => fst item <> lit "signature") items)))) = Ok tt.
Proof.
  unfold tcp_crosslang_signed_roundtrip.respond. intros (? & _ & H)%presult_bind_ok.
  apply then_ok in H as [_ H]. apply then_ok in H as [_ H].
  apply presult_bind_ok in H as (request & Hs & H). apply presult_bind_ok in H as ([sg members] & Hp & H).
  apply presult_bind_ok in H as (key & Hk & H). apply presult_bind_ok in H as (signature & Hu & H).
  apply then_ok in H as [Hv _].
  unfold pop_member in Hp. destruct request as [| | | | |?|items]; try done.
  destruct (lookup_key (lit "signature") items) as [v|] eqn:El; [|done]. injection Hp as <- <-.
  unfold unb64 in Hu. destruct v; try done. by eexists _, _, _, _.
Qed.

(** ** The property *)

Context {P : Posix W} {PS : PosixSpec W} {SS : SocketStreams W} {FS : FiniteSignals W}.

(** C6: The signed round trip of the two languages.
    - Let the seed of each program belong to the public key that is a constant
      of the other.  When the connection is made and the network delivers what
      each end sent, in whatever segments and with finitely many interruptions,
      the script verifies the client's request, ends without an exception and
      sends its signed result, and the client exits with 0.
    - In every world, with every network and peer, the client exits with 0
      exactly when the run (sign, connect, send, receive) reached an answer and
      the members found in that answer are those of a successful result of the
      job whose signature is valid under the key of the script.
    - Whatever the script reads, it answers only a message whose payload is
      signed under the key of the client. *)
Theorem signed_round_trip seed python_public cpp_public python_seed :
  (forall recursion_left fuel prog arg k kp socket question answer asking answering c w w1 w2 w3,
     ed25519_private_key_from_seed seed w = (Ret k, w1) ->
     ed25519_sign (Some k) (canonical_job_request_json tcp_crosslang_signed_client.job) w1
       = (Ret (ed25519_signature k (canonical_job_request_json tcp_crosslang_signed_client.job)), w2) ->
     connect_ipv4 (str "127.0.0.1") (to_uint16 (strtoul arg)) w2 = (Ret socket, w3) ->
     encode_frame (job_request_envelope_json (signed_request k tcp_crosslang_signed_client.job)) = Ret question ->
     encode_frame (job_result_envelope_json (signed_result kp (cpp_result py_result))) = Ret answer ->
     length question + length answer + signals w3 < fuel ->
     AnsweringPeer (SocketHandle.get socket) (stream_out (SocketHandle.get socket) w3)
       question answer asking answering ->
     asking w3 -> 2 <= recursion_left -> segmented c -> room c = None -> concat (inbox c) = question ->
     from_public_bytes cpp_public = Ok (py_public (public_key_of k)) ->
     from_private_bytes python_seed = Ok (py_private kp) ->
     (forall v, exists v', ed25519_public_key_from_raw python_public v = (Ret (public_key_of kp), v')) ->
     (exists c', tcp_crosslang_signed_roundtrip.serve from_private_bytes cpp_public python_seed recursion_left c
                 = (Ok tt, c') /\ sent c' = sent c ++ answer)
     /\ exists w', tcp_crosslang_signed_client.main_with seed python_public fuel [prog; arg] w = (Ret 0%Z, w'))
  /\ (forall fuel argv v,
        (exists v', tcp_crosslang_signed_client.main_with seed python_public fuel argv v = (Ret 0%Z, v'))
        <-> exists response v', hears seed fuel argv v response v' /\ endorsed python_public response v')
  /\ (forall message envelope,
        tcp_crosslang_signed_roundtrip.respond from_private_bytes cpp_public python_seed message = Ok envelope ->
        exists items text key signature,
          subscript message "payload" = Ok (JObj items)
          /\ lookup_key (lit "signature") items = Some (JStr text)
          /\ from_public_bytes cpp_public = Ok key /\ _unb64 text = Ok signature
          /\ verify key signature
               (canonical_json (obj_of (JObj (filter (fun item => fst item <> lit "signature") items)))) = Ok tt).
Proof.
  split; [|split].
  - intros recursion_left fuel prog arg k kp socket question answer asking answering c w w1 w2 w3
      Hk Hsign Hconn Hq Ha Hfuel Hpeer Hasking Hlimit Hc Hr Hin Hcpp Hseed Hpython. split.
    + by apply (serve_signed recursion_left cpp_public python_seed k kp question).
    + by apply (signed_client_hears fuel prog arg seed python_public k kp (cpp_result py_result) socket
        question answer asking answering w w1 w2 w3); try apply honest_py_result.
  - intros fuel argv v. apply status_zero.
  - intros message envelope. apply respond_sound.
Qed.
End signed.
