(* ===== verification/ThreeNodes.v ===== *)
(** * A failover over three nodes (cpp/tests/distributed_failover_three_nodes.py)

    The script is node A: it sends a signed request to node B, which answers
    with a signed notice of failure; A verifies the notice, leaves B out of its
    candidates, and sends the request to node C, which answers with a signed
    result.  B and C are threads of the script that note what they did in a
    shared list.  The loops around the sockets are those of [PyThreads]. *)
From stdpp Require Import relations.
From Stdlib Require Import SpecFloat.
From S2P Require Import Prelude Unicode Framing PyText PyFloat PyJson PyLoads PyRoundTrip PyJob PyTransport PyAuth.
From S2P Require Import Crypto CryptoSpec Interop WireInterop PyExchange Threads PyThreads PySealed PythonNode CrossLang.
Import scripts.

Module three_nodes.
Section script.
Context `{E : Ed25519} (from_private_bytes : bytes -> presult Ed25519PrivateKey).
(** [key.public_key()] *)
Context (public_key_of : Ed25519PrivateKey -> Ed25519PublicKey).
Context (recursion_left : nat).

(** ** Messages *)

Definition recv_frame : thread json :=
  body ← recv_body_ (RuntimeError "connection closed") (RuntimeError "invalid frame length");
  text ← compute (decode_utf8 body);
  raw ← compute (loads recursion_left text);
  compute (Ok raw).

Definition send_frame (message : pyobj) : thread unit :=
  let body := canonical_json message in sendall_ (pack_I (Z.of_nat (length body)) ++ body).

Definition public_raw (key : Ed25519PrivateKey) : bytes := public_bytes_raw (public_key_of key).

Definition sign_payload (payload : pydict) (key : Ed25519PrivateKey) : pydict :=
  dict_set (lit "signature") (PStr (_b64 (sign key (canonical_json (PDict payload))))) payload.

(** [str(value)] of a string; the text of another value is outside of the model. *)
Definition str_of (value : json) : presult pystr :=
  match value with JStr s => Ok s | _ => Raise IllTyped end.

(** [dict(value)] of a dict; other values likewise. *)
Definition dict_of (value : json) : presult json :=
  match value with JObj _ => Ok value | _ => Raise IllTyped end.

Definition verify_payload (payload : json) (public_key : bytes) : presult unit :=
  popped ← pop_member payload "signature";
  let '(signature, unsigned) := popped in
  text ← str_of signature;
  signature ← _unb64 text;
  from_private_bytes (replicate 32 x00);;
  key ← from_public_bytes public_key;
  verify key signature (canonical_json (obj_of unsigned)).

Definition request_id : pystr := lit "job-distributed-failover-1".

(** The payload of a message of the given type. *)
Definition open_message (message_type : String.string) (message : json) : presult json :=
  assert_member message "type" message_type;;
  payload ← subscript message "payload";
  dict_of payload.

(** ** The nodes *)

Definition notice : pydict := lit_items
  [("failed_node_id", PStr (lit "node-b")); ("message_id", PStr (lit "failure-1"));
   ("observed_at", PInt 1800000100); ("protocol_version", PStr (lit "0.2"));
   ("reason", PStr (lit "execution_unavailable")); ("reporting_node_id", PStr (lit "node-b"));
   ("request_id", PStr request_id); ("signature_algorithm", PStr (lit "Ed25519"))]%string.

Definition node_b (pub_a : bytes) (key_b : Ed25519PrivateKey) : thread unit :=
  message ← recv_frame;
  request ← compute (open_message "JOB_REQUEST" message);
  compute (verify_payload request pub_a);;
  compute (assert_member request "target_node_id" "node-b");;
  note "B:request_verified";;
  send_frame (frame_obj (lit "FAILURE_NOTICE") (sign_payload notice key_b)).

Definition request_b : pydict := lit_items
  [("expires_at", PInt 1800000200); ("issued_at", PInt 1800000000);
   ("message_id", PStr (lit "request-b-1")); ("operation", PStr (lit "ECHO"));
   ("organization_id", PStr (lit "org-1")); ("payload", PStr (lit "failover-payload"));
   ("protocol_version", PStr (lit "0.2")); ("request_id", PStr request_id);
   ("sender_node_id", PStr (lit "node-a")); ("signature_algorithm", PStr (lit "Ed25519"));
   ("target_node_id", PStr (lit "node-b"))]%string.

(** *** Routing *)

Definition candidates : list (pystr * spec_float) :=
  [(lit "node-b", float_of_decimal false 1000 (-1)); (lit "node-c", float_of_decimal false 800 (-1))].

(** [key(n) < key(m)], for [lambda n: (n["score"], n["node_id"])] *)
Definition key_lt (n m : pystr * spec_float) : bool :=
  if SFeqb (snd n) (snd m) then seq_lt (fst n) (fst m) else SFltb (snd n) (snd m).

(** [max(eligible, key=...)] *)
Definition max_node (eligible : list (pystr * spec_float)) : presult (pystr * spec_float) :=
  match eligible with
  | [] => Raise (ValueError "max() iterable argument is empty")
  | n :: rest => Ok (fold_left (fun best m => if key_lt best m then m else best) rest n)
  end.

(** The failed node is excluded; the best of the others is the next. *)
Definition route (failure : json) : presult pystr :=
  failed ← subscript failure "failed_node_id";
  failed ← str_of failed;
  selected ← max_node (filter (fun n => fst n <> failed) candidates);
  Ok (fst selected).

(** Node A up to its choice of node C.  The code closes the connection before it
    looks at the answer; here A's end closes when A is done, which B cannot
    tell apart, since A sends and receives nothing in between. *)
Definition ask_b (key_a : Ed25519PrivateKey) (pub_b : bytes) : thread unit :=
  send_frame (frame_obj (lit "JOB_REQUEST") (sign_payload request_b key_a));;
  failure_envelope ← recv_frame;
  failure ← compute (open_message "FAILURE_NOTICE" failure_envelope);
  compute (verify_payload failure pub_b);;
  compute (assert_member failure "request_id" "job-distributed-failover-1");;
  compute (assert_member failure "failed_node_id" "node-b");;
  note "A:failure_verified";;
  selected ← compute (route failure);
  compute (assert_that (is_lit selected "node-c"));;
  note "routing:B->C".

Definition result (payload : json) : pydict := lit_items
  [("completed_at", PInt 1800000101); ("message_id", PStr (lit "result-c-1"));
   ("payload", obj_of payload); ("protocol_version", PStr (lit "0.2"));
   ("recipient_node_id", PStr (lit "node-a")); ("request_id", PStr request_id);
   ("responder_node_id", PStr (lit "node-c")); ("signature_algorithm", PStr (lit "Ed25519"));
   ("status", PStr (lit "OK"))]%string.

Definition node_c (pub_a : bytes) (key_c : Ed25519PrivateKey) : thread unit :=
  message ← recv_frame;
  request ← compute (open_message "JOB_REQUEST" message);
  compute (verify_payload request pub_a);;
  compute (assert_member request "target_node_id" "node-c");;
  note "C:request_verified";;
  payload ← compute (subscript request "payload");
  send_frame (frame_obj (lit "JOB_RESULT") (sign_payload (result payload) key_c)).

Definition request_c : pydict :=
  dict_set (lit "target_node_id") (PStr (lit "node-c"))
    (dict_set (lit "message_id") (PStr (lit "request-c-1")) request_b).

(** Node A from its choice on. *)
Definition ask_c (key_a : Ed25519PrivateKey) (pub_c : bytes) : thread unit :=
  send_frame (frame_obj (lit "JOB_REQUEST") (sign_payload request_c key_a));;
  result_envelope ← recv_frame;
  result ← compute (open_message "JOB_RESULT" result_envelope);
  compute (verify_payload result pub_c);;
  compute (assert_member result "request_id" "job-distributed-failover-1");;
  compute (assert_member result "responder_node_id" "node-c");;
  compute (assert_member result "status" "OK");;
  compute (assert_member result "payload" "failover-payload");;
  note "A:result_verified".

(** ** The script *)

Definition expected_trace : list String.string :=
  ["B:request_verified"; "A:failure_verified"; "routing:B->C"; "C:request_verified"; "A:result_verified"]%string.

(** The keys of the nodes: [bytes(range(0, 32))] and so on. *)
Definition seed (first : nat) : bytes := map (fun i => byte_of_Z (Z.of_nat i)) (seq first 32).
Definition keys : presult (Ed25519PrivateKey * Ed25519PrivateKey * Ed25519PrivateKey) :=
  key_a ← from_private_bytes (seed 0);
  key_b ← from_private_bytes (seed 32);
  key_c ← from_private_bytes (seed 64);
  Ok (key_a, key_b, key_c).

(** How [main] can end.  A is the client of both sessions; it joins the thread
    of its peer before it goes on.  A session that gets stuck runs into the
    timeout of A's socket. *)
Inductive main_ends (capacity : nat) : presult Z -> Prop :=
| main_keys_fail e : keys = Raise e -> main_ends capacity (Raise e)
| main_first_raises a b c s e :
    keys = Ok (a, b, c) ->
    rtc (step capacity) (connected [] (ask_b a (public_raw b)) (node_b (public_raw a) b)) s ->
    client s = Ended (Raise e) -> main_ends capacity (Raise e)
| main_first_stuck a b c s :
    keys = Ok (a, b, c) ->
    rtc (step capacity) (connected [] (ask_b a (public_raw b)) (node_b (public_raw a) b)) s ->
    nf (step capacity) s -> ended (client s) = false -> main_ends capacity (Raise OSError)
| main_second_raises a b c s s' e :
    keys = Ok (a, b, c) ->
    rtc (step capacity) (connected [] (ask_b a (public_raw b)) (node_b (public_raw a) b)) s ->
    client s = Ended (Ok tt) -> nf (step capacity) s ->
    rtc (step capacity) (connected (trace s) (ask_c a (public_raw c)) (node_c (public_raw a) c)) s' ->
    client s' = Ended (Raise e) -> main_ends capacity (Raise e)
| main_second_stuck a b c s s' :
    keys = Ok (a, b, c) ->
    rtc (step capacity) (connected [] (ask_b a (public_raw b)) (node_b (public_raw a) b)) s ->
    client s = Ended (Ok tt) -> nf (step capacity) s ->
    rtc (step capacity) (connected (trace s) (ask_c a (public_raw c)) (node_c (public_raw a) c)) s' ->
    nf (step capacity) s' -> ended (client s') = false -> main_ends capacity (Raise OSError)
| main_returns a b c s s' :
    keys = Ok (a, b, c) ->
    rtc (step capacity) (connected [] (ask_b a (public_raw b)) (node_b (public_raw a) b)) s ->
    client s = Ended (Ok tt) -> nf (step capacity) s ->
    rtc (step capacity) (connected (trace s) (ask_c a (public_raw c)) (node_c (public_raw a) c)) s' ->
    client s' = Ended (Ok tt) -> nf (step capacity) s' ->
    main_ends capacity (assert_that (bool_decide (trace s' = expected_trace));; Ok 0%Z).
End script.
End three_nodes.
Import three_nodes.

(** ** Signed frames *)

(** *** What is read *)

Lemma open_sealed k payload s :
  open_message k (json_of (sort_obj (sealed (lit k) payload s)))
  = Ok (json_of (sort_obj (PDict (payload ++ [(lit "signature", PStr s)])))).
Proof.
  unfold open_message, assert_member. set (m := json_of _).
  assert (subscript m "type" = Ok (JStr (lit k))) as -> by reflexivity.
  cbn [mbind presult_bind equals_lit]. unfold is_lit. rewrite bool_decide_eq_true_2 by done. reflexivity.
Qed.

Section nodes.
Context `{L : Ed25519Laws} (from_private_bytes : bytes -> presult Ed25519PrivateKey) (recursion_left : nat).

Lemma sign_payload_sealed k payload key :
  sendable k payload -> frame_obj k (sign_payload payload key) = sealed k payload (seal key payload).
Proof. intros H. unfold sign_payload. by rewrite dict_set_fresh by apply H. Qed.

Lemma send_frame_sealed k payload key frame :
  sendable k payload -> encode_frame (dumps (sealed k payload (seal key payload))) = Ret frame ->
  behaves (send_frame (frame_obj k (sign_payload payload key))) (map Sent frame) (Ok tt).
Proof. intros H Hf. rewrite sign_payload_sealed by done. by apply sendall_behaves. Qed.

Lemma recv_frame_sealed k payload key frame :
  2 <= recursion_left -> sendable k payload ->
  encode_frame (dumps (sealed k payload (seal key payload))) = Ret frame ->
  behaves (recv_frame recursion_left) (map Received frame)
    (Ok (json_of (sort_obj (sealed k payload (seal key payload))))).
Proof.
  intros Hl H Hf. unfold recv_frame. rewrite <-(app_nil_r (map _ _)).
  eapply behaves_then; [by apply recv_body_behaves|].
  apply (loads_written _ _ (fun raw => compute (Ok raw))).
  - apply sealed_writable; [done|apply seal_scalar].
  - etrans; [by apply sealed_height|done].
  - constructor.
Qed.

(** What is read verifies under the key of the sender. *)
Lemma verify_sealed zero payload read unsigned key :
  from_private_bytes (replicate 32 x00) = Ok zero ->
  pop_member read "signature" = Ok (JStr (seal key payload), unsigned) ->
  canonical_json (obj_of unsigned) = canonical_json (PDict payload) ->
  verify_payload from_private_bytes read (public_raw public_key key) = Ok tt.
Proof.
  intros Hz Hp Ht. unfold verify_payload. rewrite Hp. cbn [mbind presult_bind str_of].
  unfold seal. rewrite _unb64_b64. cbn [mbind presult_bind]. rewrite Hz. cbn [mbind presult_bind].
  unfold public_raw. rewrite load_public_bytes. cbn [mbind presult_bind]. rewrite Ht. apply verify_sign.
Qed.
End nodes.

(** ** The messages of the script *)

Lemma request_b_sendable : sendable (lit "JOB_REQUEST") request_b.
Proof. sendable_message. Qed.
Lemma notice_sendable : sendable (lit "FAILURE_NOTICE") notice.
Proof. sendable_message. Qed.
Lemma request_c_sendable : sendable (lit "JOB_REQUEST") request_c.
Proof. sendable_message. Qed.
Definition c_result : pydict := result (JStr (lit "failover-payload")).
Lemma c_result_sendable : sendable (lit "JOB_RESULT") c_result.
Proof. sendable_message. Qed.

(** A signed payload as it is read. *)
Definition read_back (payload : pydict) (s : pystr) : json :=
  json_of (sort_obj (PDict (payload ++ [(lit "signature", PStr s)]))).

(** The signature comes off, and what is left has the text that was signed. *)
Definition unseals (payload : pydict) : Prop :=
  forall s, exists unsigned, pop_member (read_back payload s) "signature" = Ok (JStr s, unsigned)
    /\ canonical_json (obj_of unsigned) = canonical_json (PDict payload).

Ltac unseal := intros s; eexists; split; [vm_compute; reflexivity|vm_compute; reflexivity].

Lemma request_b_unseals : unseals request_b.
Proof. unseal. Qed.
Lemma notice_unseals : unseals notice.
Proof. unseal. Qed.
Lemma request_c_unseals : unseals request_c.
Proof. unseal. Qed.
Lemma c_result_unseals : unseals c_result.
Proof. unseal. Qed.

(** The best of the candidates that are left. *)
Lemma route_around_b s : route (read_back notice s) = Ok (lit "node-c").
Proof. vm_compute. reflexivity. Qed.

(** ** The nodes at work *)

Section script.
Context `{L : Ed25519Laws} (from_private_bytes : bytes -> presult Ed25519PrivateKey) (recursion_left : nat).
Context (zero : Ed25519PrivateKey) (Hz : from_private_bytes (replicate 32 x00) = Ok zero).
Context (Hlimit : 2 <= recursion_left).

(** A node that receives a signed message goes on with its payload. *)
Lemma receives_sealed {A} k payload key frame (f : json -> thread A) evs r :
  sendable (lit k) payload -> unseals payload ->
  encode_frame (dumps (sealed (lit k) payload (seal key payload))) = Ret frame ->
  behaves (f (read_back payload (seal key payload))) evs r ->
  behaves (message ← recv_frame recursion_left;
           received ← compute (open_message k message);
           compute (verify_payload from_private_bytes received (public_raw public_key key));;
           f received) (map Received frame ++ evs) r.
Proof.
  intros Hs Hu Hf Hb. eapply behaves_then; [by eapply recv_frame_sealed|]. cbv beta.
  eapply behaves_compute; [apply open_sealed|].
  destruct (Hu (seal key payload)) as (unsigned & Hp & Ht).
  eapply behaves_compute; [by eapply verify_sealed|exact Hb].
Qed.

Ltac asserted := eapply behaves_compute; [vm_compute; reflexivity|].

Lemma node_b_behaves a b question answer :
  encode_frame (dumps (sealed (lit "JOB_REQUEST") request_b (seal a request_b))) = Ret question ->
  encode_frame (dumps (sealed (lit "FAILURE_NOTICE") notice (seal b notice))) = Ret answer ->
  behaves (node_b from_private_bytes recursion_left (public_raw public_key a) b)
    (map Received question ++ map Noted ["B:request_verified"]%string ++ map Sent answer) (Ok tt).
Proof.
  intros Hq Ha. apply (receives_sealed "JOB_REQUEST" request_b); [apply request_b_sendable|apply request_b_unseals|done|].
  generalize (seal a request_b). intros s. asserted.
  eapply behaves_then; [apply behaves_note|]. apply send_frame_sealed; [apply notice_sendable|done].
Qed.

Lemma ask_b_behaves a b question answer :
  encode_frame (dumps (sealed (lit "JOB_REQUEST") request_b (seal a request_b))) = Ret question ->
  encode_frame (dumps (sealed (lit "FAILURE_NOTICE") notice (seal b notice))) = Ret answer ->
  behaves (ask_b from_private_bytes recursion_left a (public_raw public_key b))
    (map Sent question ++ map Received answer
     ++ map Noted ["A:failure_verified"; "routing:B->C"]%string) (Ok tt).
Proof.
  intros Hq Ha. eapply behaves_then; [by apply send_frame_sealed; [apply request_b_sendable|]|].
  apply (receives_sealed "FAILURE_NOTICE" notice); [apply notice_sendable|apply notice_unseals|done|].
  generalize (seal b notice). intros s. asserted. asserted.
  eapply (behaves_then _ _ [Noted _]); [apply behaves_note|].
  eapply behaves_compute; [apply route_around_b|]. asserted. apply behaves_note.
Qed.

Lemma node_c_behaves a c question answer :
  encode_frame (dumps (sealed (lit "JOB_REQUEST") request_c (seal a request_c))) = Ret question ->
  encode_frame (dumps (sealed (lit "JOB_RESULT") c_result (seal c c_result))) = Ret answer ->
  behaves (node_c from_private_bytes recursion_left (public_raw public_key a) c)
    (map Received question ++ map Noted ["C:request_verified"]%string ++ map Sent answer) (Ok tt).
Proof.
  intros Hq Ha. apply (receives_sealed "JOB_REQUEST" request_c); [apply request_c_sendable|apply request_c_unseals|done|].
  generalize (seal a request_c). intros s. asserted.
  eapply behaves_then; [apply behaves_note|].
  apply (behaves_compute _ (JStr (lit "failover-payload"))); [vm_compute; reflexivity|].
  apply send_frame_sealed; [apply c_result_sendable|done].
Qed.

Lemma ask_c_behaves a c question answer :
  encode_frame (dumps (sealed (lit "JOB_REQUEST") request_c (seal a request_c))) = Ret question ->
  encode_frame (dumps (sealed (lit "JOB_RESULT") c_result (seal c c_result))) = Ret answer ->
  behaves (ask_c from_private_bytes recursion_left a (public_raw public_key c))
    (map Sent question ++ map Received answer ++ map Noted ["A:result_verified"]%string) (Ok tt).
Proof.
  intros Hq Ha. eapply behaves_then; [by apply send_frame_sealed; [apply request_c_sendable|]|].
  apply (receives_sealed "JOB_RESULT" c_result); [apply c_result_sendable|apply c_result_unseals|done|].
  generalize (seal c c_result). intros s. do 4 asserted. apply behaves_note.
Qed.

(** ** The two sessions *)

Context (capacity : nat) (Hcap : 0 < capacity).

Definition trace_b : list String.string := ["B:request_verified"; "A:failure_verified"; "routing:B->C"]%string.
Definition trace_c : list String.string := ["C:request_verified"; "A:result_verified"]%string.

Lemma first_session a b :
  always_ends capacity [] (ask_b from_private_bytes recursion_left a (public_raw public_key b))
    (node_b from_private_bytes recursion_left (public_raw public_key a) b) (Ok tt) (Ok tt) trace_b.
Proof.
  destruct (signed_frame _ _ a request_b_sendable) as (question & Hq & _).
  destruct (signed_frame _ _ b notice_sendable) as (answer & Ha & Hne).
  eapply (question_and_answer _ _ _ _ question answer ["B:request_verified"]%string); [done|done|..].
  - by apply ask_b_behaves.
  - by apply node_b_behaves.
Qed.

Lemma second_session noted a c :
  always_ends capacity noted (ask_c from_private_bytes recursion_left a (public_raw public_key c))
    (node_c from_private_bytes recursion_left (public_raw public_key a) c) (Ok tt) (Ok tt) trace_c.
Proof.
  destruct (signed_frame _ _ a request_c_sendable) as (question & Hq & _).
  destruct (signed_frame _ _ c c_result_sendable) as (answer & Ha & Hne).
  eapply (question_and_answer _ _ _ _ question answer ["C:request_verified"]%string); [done|done|..].
  - by apply ask_c_behaves.
  - by apply node_c_behaves.
Qed.

(** C36: The failover script of three nodes.  Whatever the scheduler does with
    node A and the threads of nodes B and C, and however the connections cut and
    buffer their bytes, the script ends, and with status 0: no assertion fails,
    no signature is refused, no node waits in vain, node C is chosen once B is
    left out, and the shared trace is the expected one.  The signature scheme
    verifies what it signs and loads the keys it wrote. *)
Theorem three_nodes_failover (a b c : Ed25519PrivateKey)
    (Hkeys : keys from_private_bytes = Ok (a, b, c)) :
  (exists r, main_ends from_private_bytes public_key recursion_left capacity r)
  /\ forall r, main_ends from_private_bytes public_key recursion_left capacity r -> r = Ok 0%Z.
Proof.
  split.
  - exists (Ok 0%Z). eapply (main_returns _ _ _ _ a b c (all_done (Ok tt) (Ok tt) trace_b)
      (all_done (Ok tt) (Ok tt) (trace_b ++ trace_c))); try done.
    + eapply (always_ends_run _ [] _ _ _ _ trace_b); [apply first_session|done].
    + apply all_done_stays.
    + eapply always_ends_run; [apply second_session|done].
    + apply all_done_stays.
  - intros r Hmain. destruct Hmain as [e He|a' b' c' s e Hk Hs He|a' b' c' s Hk Hs Hn He
      |a' b' c' s s' e Hk Hs H1 Hn Hs' He|a' b' c' s s' Hk Hs H1 Hn Hs' Hn' He|a' b' c' s s' Hk Hs H1 Hn Hs' He Hn'].
    + congruence.
    + by apply (client_ends _ _ _ _ _ _ _ _ _ (first_session a' b') Hs) in He.
    + by rewrite (nothing_left _ _ _ _ _ _ _ _ (first_session a' b') Hs Hn) in He.
    + by apply (client_ends _ _ _ _ _ _ _ _ _ (second_session _ a' c') Hs') in He.
    + by rewrite (nothing_left _ _ _ _ _ _ _ _ (second_session _ a' c') Hs' Hn') in He.
    + rewrite (nothing_left _ _ _ _ _ _ _ _ (second_session _ a' c') Hs' Hn').
      by rewrite (nothing_left _ _ _ _ _ _ _ _ (first_session a' b') Hs Hn).
Qed.
End script.
