(* ===== verification/PyTwoNodes.v ===== *)
(** * The test of the job transport (tests/test_job_transport.py)

    The test runs the server of transport.py in a thread, with a handler that
    verifies, executes and signs, and the client in its own; then it checks the
    result. *)
From stdpp Require Import relations.
From S2P Require Import Prelude Contracts Canonical Unicode Framing PyText PyJson PyLoads PyRoundTrip PyJob PyTransport PyAuth.
From S2P Require Import Interop WireInterop PyExchange Threads PyThreads PySealed PythonNode.

Module two_nodes.
Section test.
Context `{E : Ed25519} (recursion_left : nat).
Context (key_a key_b : Ed25519PrivateKey) (public_key_a public_key_b : Ed25519PublicKey) (now : Z).

(** The request before it is signed. *)
Definition request : job.JobRequest.t :=
  {| job.JobRequest.protocol_version := lit "0.1"; job.JobRequest.message_id := lit "msg-1";
     job.JobRequest.request_id := lit "req-1"; job.JobRequest.sender_node_id := lit "node-a";
     job.JobRequest.target_node_id := lit "node-b"; job.JobRequest.organization_id := Some (lit "org-1");
     job.JobRequest.operation := lit "ECHO"; job.JobRequest.payload := lit "hello-m2a2";
     job.JobRequest.issued_at := now; job.JobRequest.expires_at := now + 30;
     job.JobRequest.signature_algorithm := lit "Ed25519"; job.JobRequest.signature := [] |}.

(** The assertions on the result. *)
Definition check_result (request : job.JobRequest.t) (result : job.JobResult.t) : presult unit :=
  assert_that (is_lit (job.JobResult.status result) "OK");;
  assert_that (is_lit (job.JobResult.payload result) "hello-m2a2");;
  assert_that (bool_decide (job.JobResult.request_id result = job.JobRequest.request_id request));;
  verified ← job.verify_job_result result public_key_b;
  assert_that verified.

(** The two threads once the request is signed. *)
Definition session (signed : job.JobRequest.t) : Threads.session job.JobResult.t unit :=
  connected [] (threaded.send_job recursion_left signed)
    (threaded.serve_one_job recursion_left (handler public_key_a key_b now)).

(** How the test can end.  A session that gets stuck runs into the timeout of
    the client's socket, or leaves the server's thread alive. *)
Inductive test_ends (capacity : nat) : presult unit -> Prop :=
| test_not_signed e : job.sign_job_request request key_a = Raise e -> test_ends capacity (Raise e)
| test_client_raises signed s e :
    job.sign_job_request request key_a = Ok signed -> rtc (step capacity) (session signed) s ->
    client s = Ended (Raise e) -> test_ends capacity (Raise e)
| test_client_stuck signed s :
    job.sign_job_request request key_a = Ok signed -> rtc (step capacity) (session signed) s ->
    nf (step capacity) s -> ended (client s) = false -> test_ends capacity (Raise OSError)
| test_server_raises signed s result e :
    job.sign_job_request request key_a = Ok signed -> rtc (step capacity) (session signed) s ->
    client s = Ended (Ok result) -> server s = Ended (Raise e) -> test_ends capacity (Raise e)
| test_server_alive signed s result :
    job.sign_job_request request key_a = Ok signed -> rtc (step capacity) (session signed) s ->
    nf (step capacity) s -> client s = Ended (Ok result) -> ended (server s) = false ->
    test_ends capacity (Raise AssertionError)
| test_checks signed s result :
    job.sign_job_request request key_a = Ok signed -> rtc (step capacity) (session signed) s ->
    client s = Ended (Ok result) -> server s = Ended (Ok tt) ->
    test_ends capacity (check_result signed result).
End test.
End two_nodes.

(** ** Signed jobs *)

Section signed.
Context `{L : Ed25519Laws}.

Definition sealed_request (key : Ed25519PrivateKey) (r : job.JobRequest.t) : job.JobRequest.t :=
  job.JobRequest.set_signature (seal key (pop (lit "signature") (job.JobRequest.asdict r))) r.
Definition sealed_result (key : Ed25519PrivateKey) (r : job.JobResult.t) : job.JobResult.t :=
  job.JobResult.set_signature (seal key (pop (lit "signature") (job.JobResult.asdict r))) r.

Lemma seal_truthy key payload : truthy (seal key payload) = true.
Proof.
  unfold truthy. rewrite bool_decide_eq_false_2; [done|]. intros H%(f_equal length).
  by rewrite seal_length in H.
Qed.

Lemma valid_unsigned_at r now : job.JobRequest.validate r (Some now) = Ok tt -> job.JobRequest.validate r None = Ok tt.
Proof.
  unfold job.JobRequest.validate. intros [-> H]%then_ok. apply then_ok in H as [-> H].
  apply then_ok in H as [-> H]. by apply then_ok in H as [_ H].
Qed.

Lemma sign_sealed_request r key :
  job.JobRequest.validate r None = Ok tt -> job.sign_job_request r key = Ok (sealed_request key r).
Proof. intros H. unfold job.sign_job_request. by rewrite H. Qed.

Lemma sign_sealed_result r key :
  job.JobResult.validate r = Ok tt -> job.sign_job_result r key = Ok (sealed_result key r).
Proof. intros H. unfold job.sign_job_result. by rewrite H. Qed.

Lemma verify_sealed_request r key now :
  job.JobRequest.validate r now = Ok tt ->
  job.verify_job_request (sealed_request key r) (public_key key) now = Ok true.
Proof.
  intros H. unfold job.verify_job_request.
  change (job.JobRequest.validate (sealed_request key r) now) with (job.JobRequest.validate r now).
  rewrite H. cbn [mbind presult_bind]. change (job.JobRequest.signature (sealed_request key r))
    with (seal key (pop (lit "signature") (job.JobRequest.asdict r))).
  rewrite seal_truthy. cbn [negb]. unfold seal. rewrite _unb64_b64. cbn [mbind presult_bind].
  change (job.JobRequest.unsigned_payload (sealed_request key r)) with (job.JobRequest.unsigned_payload r).
  unfold job.JobRequest.unsigned_payload. by rewrite verify_sign.
Qed.

Lemma verify_sealed_result r key :
  job.JobResult.validate r = Ok tt -> job.verify_job_result (sealed_result key r) (public_key key) = Ok true.
Proof.
  intros H. unfold job.verify_job_result.
  change (job.JobResult.validate (sealed_result key r)) with (job.JobResult.validate r).
  rewrite H. cbn [mbind presult_bind]. change (job.JobResult.signature (sealed_result key r))
    with (seal key (pop (lit "signature") (job.JobResult.asdict r))).
  rewrite seal_truthy. cbn [negb]. unfold seal. rewrite _unb64_b64. cbn [mbind presult_bind].
  change (job.JobResult.unsigned_payload (sealed_result key r)) with (job.JobResult.unsigned_payload r).
  unfold job.JobResult.unsigned_payload. by rewrite verify_sign.
Qed.

(** The handler of the test, on a request that is meant for it. *)
Lemma handler_signs r key_a key_b now :
  job.JobRequest.target_node_id r = lit "node-b" -> job.JobRequest.validate r (Some now) = Ok tt ->
  handler (public_key key_a) key_b now (sealed_request key_a r) = Ok (sealed_result key_b (reference_result r now)).
Proof.
  intros Ht Hv. unfold handler.
  change (job.JobRequest.target_node_id (sealed_request key_a r)) with (job.JobRequest.target_node_id r).
  rewrite Ht. change (assert_that (is_lit (lit "node-b") "node-b")) with (Ok tt). cbn [mbind presult_bind].
  rewrite (verify_sealed_request r key_a (Some now) Hv). cbn [mbind presult_bind assert_that negb raise_if].
  pose proof (sign_sealed_result _ key_b (reference_result_valid r now Hv)) as Hs. revert Hs.
  unfold reference_result.
  change (job.execute_reference_job (sealed_request key_a r)) with (job.execute_reference_job r).
  destruct (job.execute_reference_job r) as [status payload]. intros <-. reflexivity.
Qed.
End signed.

(** ** The test *)

Section test.
Context `{L : Ed25519Laws} (recursion_left : nat) (key_a key_b : Ed25519PrivateKey) (now : Z).
Context (Hlimit : 2 <= recursion_left) (Hnow : (0 <= now)%Z) (Hmax : (now + 30 <= INT64_MAX)%Z).
Import two_nodes.

Lemma request_valid : job.JobRequest.validate (request now) (Some now) = Ok tt.
Proof.
  unfold job.JobRequest.validate, request. cbn -[Z.add Z.ltb Z.leb].
  rewrite (proj2 (Z.ltb_ge now 0)), (proj2 (Z.leb_gt (now + 30) now)) by lia.
  rewrite Z.leb_refl, (proj2 (Z.leb_le now (now + 30))) by lia. reflexivity.
Qed.

(** What is signed, member by member. *)
Definition request_payload : pydict := lit_items
  [("protocol_version", PStr (lit "0.1")); ("message_id", PStr (lit "msg-1")); ("request_id", PStr (lit "req-1"));
   ("sender_node_id", PStr (lit "node-a")); ("target_node_id", PStr (lit "node-b"));
   ("organization_id", PStr (lit "org-1")); ("operation", PStr (lit "ECHO")); ("payload", PStr (lit "hello-m2a2"));
   ("issued_at", PInt now); ("expires_at", PInt (now + 30)); ("signature_algorithm", PStr (lit "Ed25519"))]%string.
Definition result_payload : pydict := lit_items
  [("protocol_version", PStr (lit "0.1")); ("message_id", PStr (lit "msg-2")); ("request_id", PStr (lit "req-1"));
   ("responder_node_id", PStr (lit "node-b")); ("recipient_node_id", PStr (lit "node-a")); ("status", PStr (lit "OK"));
   ("payload", PStr (lit "hello-m2a2")); ("completed_at", PInt (now + 1));
   ("signature_algorithm", PStr (lit "Ed25519"))]%string.

Lemma request_frame_sealed :
  frame_obj (lit "JOB_REQUEST") (job.JobRequest.asdict (sealed_request key_a (request now)))
  = sealed (lit "JOB_REQUEST") request_payload (seal key_a request_payload).
Proof. reflexivity. Qed.
Lemma result_frame_sealed :
  frame_obj (lit "JOB_RESULT") (job.JobResult.asdict (sealed_result key_b (reference_result (request now) now)))
  = sealed (lit "JOB_RESULT") result_payload (seal key_b result_payload).
Proof. reflexivity. Qed.

Lemma time_length z : is_int64 z -> length (ostream_dec z) <= 66.
Proof.
  intros H%int64_digits. unfold ostream_dec. destruct (Z.ltb_spec z 0); cbn [length]; rewrite length_map.
  - replace (Z.abs z) with (- z)%Z in H by lia. lia.
  - replace (Z.abs z) with z in H by lia. lia.
Qed.

Lemma time_range z : (0 <= z <= INT64_MAX)%Z -> is_int64 z.
Proof. unfold is_int64, INT64_MIN, INT64_MAX. lia. Qed.

(** The lengths of literals, computed. *)
Ltac literal_lengths :=
  repeat match goal with
  | |- context [length (py_json_string ?s)] =>
      let n := eval vm_compute in (length (py_json_string s)) in
      change (length (py_json_string s)) with n
  end.

Ltac timed_writable :=
  apply writable_lit_items;
  [by apply (bool_decide_unpack _); vm_compute
  |repeat (constructor; [cbn [fst]; ascii_lit|]); constructor
  |repeat (constructor; [cbn [snd]; first [apply writable_int64, time_range; lia
     | constructor; by apply forallb_scalar]|]); constructor].

Ltac small_overhead :=
  unfold items_length, dump_item; cbn [sum_list_with fst snd]; rewrite !length_app; literal_lengths;
  change (length (str ":")) with 1; lia.

Lemma request_sendable : sendable (lit "JOB_REQUEST") request_payload.
Proof.
  constructor; [apply lit_scalar; ascii_lit|timed_writable|by apply (bool_decide_unpack _); vm_compute|done|].
  pose proof (time_length now ltac:(apply time_range; lia)) as H1.
  pose proof (time_length (now + 30) ltac:(apply time_range; lia)) as H2.
  unfold overhead, request_payload, lit_items. cbn [map dumps]. small_overhead.
Qed.

Lemma result_sendable : sendable (lit "JOB_RESULT") result_payload.
Proof.
  constructor; [apply lit_scalar; ascii_lit|timed_writable|by apply (bool_decide_unpack _); vm_compute|done|].
  pose proof (time_length (now + 1) ltac:(apply time_range; lia)) as H1.
  unfold overhead, result_payload, lit_items. cbn [map dumps]. small_overhead.
Qed.

(** ** The test ends well *)

Context (capacity : nat) (Hcap : 0 < capacity).

Lemma session_ends :
  always_ends capacity [] (threaded.send_job recursion_left (sealed_request key_a (request now)))
    (threaded.serve_one_job recursion_left (handler (public_key key_a) key_b now))
    (Ok (sealed_result key_b (reference_result (request now) now))) (Ok tt) [].
Proof.
  destruct (signed_frame _ _ key_a request_sendable) as (question & Hq & _).
  destruct (signed_frame _ _ key_b result_sendable) as (answer & Ha & _).
  rewrite <-request_frame_sealed in Hq. rewrite <-result_frame_sealed in Ha.
  eapply answered_job_ends; [done| |exact Hq|done| | |exact Ha].
  - exact (signed_writable _ _ _ request_sendable (seal_scalar key_a request_payload)).
  - apply handler_signs; [done|apply request_valid].
  - exact (signed_writable _ _ _ result_sendable (seal_scalar key_b result_payload)).
Qed.

Lemma result_checks :
  check_result (public_key key_b) (sealed_request key_a (request now))
    (sealed_result key_b (reference_result (request now) now)) = Ok tt.
Proof.
  unfold check_result. rewrite verify_sealed_result; [reflexivity|].
  apply reference_result_valid, request_valid.
Qed.

(** The round trip test of the job transport.  Whatever the scheduler does
    with the client and the thread of the server, and however the connection
    cuts and buffers its bytes, the test ends, and it passes: the request is
    signed, the server verifies, executes and signs, its thread has ended, and
    the client holds a result that verifies under the key of the server and
    echoes the payload.  The signature scheme verifies what it signs, and the
    time of the test is that of a 64-bit clock. *)
Theorem signed_echo_test_passes :
  (exists r, test_ends recursion_left key_a key_b (public_key key_a) (public_key key_b) now capacity r)
  /\ forall r, test_ends recursion_left key_a key_b (public_key key_a) (public_key key_b) now capacity r ->
     r = Ok tt.
Proof.
  pose proof (sign_sealed_request _ key_a (valid_unsigned_at _ _ request_valid)) as Hsign. split.
  - exists (Ok tt). rewrite <-result_checks. eapply (test_checks _ _ _ _ _ _ _ _
      (all_done (Ok (sealed_result key_b (reference_result (request now) now))) (Ok tt) [])); try done.
    by eapply (always_ends_run _ [] _ _ _ _ []); [apply session_ends|].
  - intros r Htest. destruct Htest as [e Hs|signed s e Hs Hr He|signed s Hs Hr Hn He|signed s res e Hs Hr Hc He
      |signed s res Hs Hr Hn Hc He|signed s res Hs Hr Hc He]; rewrite Hsign in Hs; [done|injection Hs as <-..].
    + by apply (client_ends _ _ _ _ _ _ _ _ _ session_ends Hr) in He.
    + by rewrite (nothing_left _ _ _ _ _ _ _ _ session_ends Hr Hn) in He.
    + by apply (server_ends _ _ _ _ _ _ _ _ _ session_ends Hr) in He.
    + by rewrite (nothing_left _ _ _ _ _ _ _ _ session_ends Hr Hn) in He.
    + apply (client_ends _ _ _ _ _ _ _ _ _ session_ends Hr) in Hc. injection Hc as ->. apply result_checks.
Qed.
End test.
