(* ===== verification/System.v ===== *)
(** * The resilient client

    The three components as the tests and drivers compose them: the engine of
    resilient_execution.hpp over the routing adapter and the authenticated TCP
    executor.  The theorem is proved from the interfaces the components
    discharge, so it speaks about the whole path from a request to an
    accepted result. *)
From S2P Require Import Prelude Contracts Framing Crypto CryptoSpec JobAuth Tcp Network Transport.
From S2P Require Import AuthKeeps Resources Orchestrator Engine Adapter Executor.

(** The engine over an adapter for [nodes] and an executor. *)
Definition resilient_client `{R : ResolutiveRouting} {W : Type} {O : OpenSSL W} {P : Posix W}
    (fuel : nat) (nodes : list NodeSnapshot) (executor : AuthenticatedTcpAttemptExecutor.t W)
    (max_attempts : nat) : outcome (ResilientExecutionEngine.t W) :=
  let routing := ResolutiveRoutingProvider.create nodes in
  ResilientExecutionEngine.create
    (Some (ResolutiveRoutingProvider.call_operator routing))
    (Some (AuthenticatedTcpAttemptExecutor.call_operator executor fuel))
    max_attempts.

Lemma resilient_client_ret `{R : ResolutiveRouting} {W : Type} {O : OpenSSL W} {P : Posix W}
    fuel nodes (executor : AuthenticatedTcpAttemptExecutor.t W) max engine :
  resilient_client fuel nodes executor max = Ret engine ->
  0 < max /\ engine = ResilientExecutionEngine.mk_t
    (ResolutiveRoutingProvider.call_operator (ResolutiveRoutingProvider.create nodes))
    (AuthenticatedTcpAttemptExecutor.call_operator executor fuel) max.
Proof.
  unfold resilient_client, ResilientExecutionEngine.create. destruct (Nat.eqb_spec max 0); [done|].
  intros [= <-]. split; [lia|done].
Qed.

Section system.
Context `{R : ResolutiveRouting} {RS : RouterSpec}.
Context {W : Type} {O : OpenSSL W} {OS : OpenSSLSpec W} {OA : OpenSSLAvailable W}.
Context {P : Posix W} {PS : PosixSpec W} {FS : FiniteSignals W} {FT : FdTracking W}.
Context {CT : CtxTracking W} {CQ : CtxQuiet W}.

(** C1: The whole client.  With nodes that have names, a local key, enough
    resources, finitely many interruptions and total resolvers, executing a
    request that has an id ends for every network and every behaviour of
    the peers, with the same descriptors open and the same digest contexts
    allocated as before.  When it returns, the calls it made form one run from
    the first world to the last ([failover]): in each round the adapter chose a
    node of the list that no earlier round had tried, and the executor was
    called for it where the round before had left the world.  There are at most
    [max_attempts] rounds.  The excluded nodes are exactly the nodes of the
    rounds whose executor call returned a failure notice; each such notice
    is about its node and signed, by a reporter the resolver knows or by the
    local node for one of the documented reasons.  The outcome holds a result
    exactly when the last round's call returned it, and then the node of that
    round signed it (under the key the resolver gives for it) for this request
    and this sender.  An exception is one of the router's or the endpoint
    resolver's, and undefined behaviour needs a peer that overflows the
    timestamp parser. *)
Theorem client_completes_only_on_authentic_evidence
    fuel nodes (executor : AuthenticatedTcpAttemptExecutor.t W) max engine q k w
    (Hc : resilient_client fuel nodes executor max = Ret engine)
    (Hnamed : Forall (fun n => node_id n <> []) nodes)
    (Hk : AuthenticatedTcpAttemptExecutor.local_private_key_ executor = Some k)
    (Hq : JobRequest.request_id q <> [])
    (Hfuel : (Z.of_nat (signals w) + kMaxFrameBytes + 4 < Z.of_nat fuel)%Z)
    (Hssl : forall F, ssl_quiet (sys_state (signals w) F))
    (Her : forall F id, keeps False False (as_now w F)
       (AuthenticatedTcpAttemptExecutor.endpoint_resolver_ executor id) (fun _ => True))
    (Hpr : forall F id, keeps False False (as_now w F)
       (AuthenticatedTcpAttemptExecutor.public_key_resolver_ executor id) (fun _ => True)) :
  match ResilientExecutionEngine.execute engine q w with
  | (Ret out, w') =>
      let s := ResilientExecutionOutcome.state out in
      let tries := map ExecutionAttempt.node_id (ExecutionState.attempts s) in
      nothing_leaked w w'
      /\ NoDup tries /\ length tries <= max
      /\ Forall (fun node => node ∈ map node_id nodes) tries
      /\ exists failures e,
           failover (ResilientExecutionEngine.route_provider_ engine)
             (AuthenticatedTcpAttemptExecutor.call_operator executor fuel) q ∅ max w failures e w'
           /\ tries = tried failures e
           /\ ExecutionState.excluded_nodes s = list_to_set (map fst failures)
           /\ Forall (fun '(node, n) =>
                accepted_notice executor (attempt_for q node) node n
                \/ locally_failed executor (attempt_for q node) node n) failures
           /\ ExecutionState.result s = stop_result e
           /\ (forall node r, e = Completed node r ->
                accepted_result executor (attempt_for q node) node r)
  | (Throw x, w') => nothing_leaked w w'
      /\ ((exists r request nodes, router_route r request nodes = Throw x)
          \/ exists node w1 w2,
               AuthenticatedTcpAttemptExecutor.endpoint_resolver_ executor node w1
               = (Throw x, w2))
  | (Undef _, _) => peer_overflows fuel (as_now w)
  | (OutOfFuel, _) => False
  end.
Proof.
  apply resilient_client_ret in Hc as [Hmax ->].
  set (engine := ResilientExecutionEngine.mk_t _ _ _).
  set (I := as_now w (open_fds w)).
  assert (RouteProviderSpec I (ResilientExecutionEngine.route_provider_ engine))
    by by apply adapter_interface.
  assert (AttemptExecutorSpec (peer_overflows fuel (as_now w)) I
            (ResilientExecutionEngine.attempt_executor_ engine))
    by exact (executor_interface executor fuel _ (SI := fun F => process_state_ssl _ _ F (Hssl F))
                (fun F => as_now_fuel fuel w F Hfuel) Her Hpr (open_fds w)).
  pose proof (execute_keeps (peer_overflows fuel (as_now w)) I engine q w Hmax Hq (as_now_here w)) as Hkeep.
  destruct (ResilientExecutionEngine.execute engine q w) as [[out|x| |] w'] eqn:E; try done.
  - apply as_now_leaks in Hkeep. apply execute_refines in E as (_ & l & e & Hf & ->); [|done].
    destruct (failover_nodes _ _ _ _ _ _ Hf) as (Hd & _ & Hl & _).
    destruct (failover_calls _ _ _ _ _ _ Hf) as (Hn & Hr & Ht).
    cbv zeta. rewrite report_nodes. split_and!; try done.
    + eapply Forall_impl; [exact Ht|]. cbv beta.
      intros node (ex & w1 & w2 & H1%adapter_routes).
      apply list_elem_of_fmap in H1 as (n & -> & [_ H1]%list_elem_of_filter).
      by apply list_elem_of_fmap_2.
    + exists l, e. split_and!; try done.
      * eapply Forall_impl; [exact Hn|]. intros [node n] (w1 & w2 & H1). cbn [fst snd] in *.
        by apply call_operator_accepted in H1 as (_ & _ & [(? & [=] & _)|(? & [= <-] & H1)]).
      * intros node r He. destruct (Hr node r He) as (w1 & w2 & H1).
        by apply call_operator_accepted in H1 as (_ & _ & [(? & [= <-] & ?)|(? & [=] & _)]).
  - destruct Hkeep as [Hfd%as_now_leaks Hx]. split; [done|]. destruct Hx as [(ex & w1 & _ & Hx)|(t & w1 & _ & Ht & Hx)].
    + left. cbn in Hx. unfold ResolutiveRoutingProvider.call_operator, mbind, M_bind, lift in Hx.
      destruct (router_route _ _ _) as [d|y| |] eqn:Er; simplify_eq. eauto.
    + right. eapply call_operator_no_throw in Hx as [w2 Hx]; eauto.
Qed.
End system.
