(* ===== verification/Deadlines.v ===== *)
(** * How long an attempt and an execution wait

    The budget of an attempt of authenticated_tcp_executor.hpp in microseconds
    of system calls, and of an execution of the engine over it.  Section 10 of
    the specification promises that the deadlines are bounded; the budget says
    by what. *)
From S2P Require Import Prelude Contracts Wire Reader WireParse Envelope Framing Crypto CryptoSpec.
From S2P Require Import JobAuth Tcp Network Transport Timing AuthKeeps Orchestrator Engine Adapter.
From S2P Require Import Executor System.
Import AuthenticatedTcpAttemptExecutor.

#[local] Open Scope Z_scope.

(** ** Budgets *)

(** One connect deadline; one I/O deadline for every byte of the largest frame
    in each direction; [er] and [pr] for the two resolvers; and the slack of
    the calls that do not wait. *)
Definition attempt_budget (sl connect_timeout io_timeout er pr : Z) : Z :=
  er + pr + connect_timeout * 1000
  + 2 * (kMaxFrameBytes + 4) * (io_timeout * 1000 + sl) + 13 * sl.

(** What one interruption can repeat. *)
Definition interruption_charge (sl connect_timeout io_timeout : Z) : Z :=
  Z.max connect_timeout io_timeout * 1000 + sl.

Section executor.
Context {W : Type} {O : OpenSSL W} {OS : OpenSSLSpec W}.
Context {P : Posix W} {PS : PosixSpec W} {FS : FiniteSignals W} {TP : TimedPosix W}.
Context (self : AuthenticatedTcpAttemptExecutor.t W) (charge er pr : Z).
Context {SI : forall b, SslInvariant (fun w => potential charge w <= b)}.
Context (Hc : 0 < connect_timeout_ self <= INT_MAX) (Hi : 0 < io_timeout_ self <= INT_MAX).
Context (Hcc : connect_timeout_ self * 1000 + slack <= charge).
Context (Hic : io_timeout_ self * 1000 + slack <= charge).
Context (Her : forall id, spends charge (fun _ => True) er (endpoint_resolver_ self id) (fun _ _ => True)).
Context (Hpr : forall id, spends charge (fun _ => True) pr (public_key_resolver_ self id) (fun _ _ => True)).
Context (Her0 : 0 <= er) (Hpr0 : 0 <= pr).

Lemma ssl_spends {A} (m : M W A) (Pre : W -> Prop) k (Q : A -> Prop) u f :
  0 <= k -> (forall b, keeps u f (fun w => potential charge w <= b) m Q) ->
  spends charge Pre k m (fun _ _ => True).
Proof.
  intros Hk Hm. eapply spends_mono; [by apply (keeps_spends charge u f m (fun _ => True) 0 Q)|
    done|done|done].
Qed.

(** OpenSSL makes no system call, so what follows it keeps the whole budget. *)
Lemma ssl_then {A B} (m : M W A) (f : A -> M W B) (Pre : W -> Prop) k Post :
  0 <= k -> (forall b, keeps True True (fun w => potential charge w <= b) m (fun _ => True)) ->
  (forall a, spends charge (fun _ => True) k (f a) Post) -> spends charge Pre k (m ≫= f) Post.
Proof.
  intros Hk Hm Hf. eapply (spends_bind _ 0 _ _ _ _ (fun _ _ => True)); [done| |].
  - by eapply ssl_spends.
  - intros a. rewrite Z.sub_0_r. apply Hf.
Qed.

Lemma lift_then {A B} (o : outcome A) (f : A -> M W B) (Pre : W -> Prop) k Post :
  0 <= k -> (forall a, spends charge (fun _ => True) k (f a) Post) ->
  spends charge Pre k (lift o ≫= f) Post.
Proof.
  intros Hk Hf. eapply (spends_bind _ 0 _ _ _ _ (fun _ _ => True)); [done|by apply spends_lift|].
  intros a. rewrite Z.sub_0_r. apply Hf.
Qed.

Lemma local_failure_spends request target reason (Pre : W -> Prop) k :
  slack <= k -> spends charge Pre k (local_failure self request target reason) (fun _ _ => True).
Proof.
  intros Hk. pose proof slack_nonneg. unfold local_failure.
  apply prompt_then; [lia|lia|constructor|]. intros now.
  apply ssl_then; [lia|intros b; by apply sign_failure_notice_keeps|]. intros n.
  apply spends_ret; [lia|done].
Qed.

Lemma resolve_then {B} id (f : option EVP_PKEY -> M W B) (Pre : W -> Prop) k Post :
  pr <= k -> (forall key, spends charge (fun _ => True) (k - pr) (f key) Post) ->
  spends charge Pre k (public_key_resolver_ self id ≫= f) Post.
Proof.
  intros Hk Hf. eapply (spends_bind _ pr _ _ _ _ (fun _ _ => True)); [done| |exact Hf].
  intros w _. by apply Hpr.
Qed.

Lemma receive_result_spends request target json (Pre : W -> Prop) k :
  pr + slack <= k ->
  spends charge Pre k (receive_result self request target json) (fun _ _ => True).
Proof.
  intros Hk. pose proof slack_nonneg. unfold receive_result. apply lift_then; [lia|]. intros r.
  case_decide; [apply local_failure_spends; lia|]. apply resolve_then; [lia|]. intros key.
  apply ssl_then; [lia|intros b; by apply verify_job_result_touches|]. intros v.
  apply spends_if; intros _; [apply local_failure_spends; lia|apply spends_ret; [lia|done]].
Qed.

Lemma receive_failure_spends request target json (Pre : W -> Prop) k :
  pr + slack <= k ->
  spends charge Pre k (receive_failure self request target json) (fun _ _ => True).
Proof.
  intros Hk. pose proof slack_nonneg. unfold receive_failure. apply lift_then; [lia|]. intros n.
  case_decide; [apply local_failure_spends; lia|]. apply resolve_then; [lia|]. intros key.
  apply ssl_then; [lia|intros b; by apply verify_failure_notice_touches|]. intros v.
  apply spends_if; intros _; [apply local_failure_spends; lia|apply spends_ret; [lia|done]].
Qed.

Definition transfer_budget : Z := (kMaxFrameBytes + 4) * (io_timeout_ self * 1000 + slack).

Lemma transfer_budget_nonneg : 0 <= transfer_budget.
Proof. pose proof slack_nonneg. unfold transfer_budget, kMaxFrameBytes. lia. Qed.

Lemma exchange_spends fuel request signed target socket (Pre : W -> Prop) :
  spends charge Pre (pr + 2 * transfer_budget + 3 * slack)
    (exchange self fuel request signed target socket) (fun _ _ => True).
Proof.
  pose proof slack_nonneg. pose proof transfer_budget_nonneg. unfold exchange.
  eapply (spends_bind _ (2 * slack)); [lia|apply set_socket_io_timeout_spends; lia|]. intros ?.
  eapply (spends_bind _ transfer_budget); [lia|apply send_framed_json_spends; lia|]. intros ?.
  eapply (spends_bind _ transfer_budget); [lia|apply recv_framed_json_spends; lia|]. intros json.
  apply lift_then; [lia|]. intros type.
  case_decide; [apply receive_result_spends; lia|].
  case_decide; [apply receive_failure_spends; lia|apply local_failure_spends; lia].
Qed.

Lemma call_operator_spends fuel request target (Pre : W -> Prop) :
  spends charge Pre (attempt_budget slack (connect_timeout_ self) (io_timeout_ self) er pr)
    (call_operator self fuel request target) (fun _ _ => True).
Proof.
  pose proof slack_nonneg. pose proof transfer_budget_nonneg as Ht.
  assert (attempt_budget slack (connect_timeout_ self) (io_timeout_ self) er pr
    = er + (connect_timeout_ self * 1000 + 8 * slack)
      + (pr + 2 * transfer_budget + 3 * slack) + slack + slack) as ->
    by (unfold attempt_budget, transfer_budget; lia).
  unfold call_operator. case_decide; [apply spends_throw; lia|].
  case_decide; [apply spends_throw; lia|].
  eapply (spends_bind _ er _ _ _ _ (fun _ _ => True)); [lia|intros w _; by apply Her|].
  intros [ep|]; [|apply local_failure_spends; lia].
  apply ssl_then; [lia|intros b; by apply sign_job_request_keeps|]. intros signed.
  eapply (spends_try _ (connect_timeout_ self * 1000 + 8 * slack
    + (pr + 2 * transfer_budget + 3 * slack) + slack)); [lia| |apply local_failure_spends; lia].
  eapply (spends_bind _ (connect_timeout_ self * 1000 + 8 * slack) _ _ _ _ (fun _ _ => True));
    [lia|apply connect_ipv4_with_timeout_spends; lia|]. intros socket.
  apply (spends_with _ slack _ _ _ _ (fun _ => True)); [lia|apply destroy_releases; lia|].
  eapply spends_mono; [apply (exchange_spends fuel request signed target socket (fun _ => True))|
    lia|done|done].
Qed.
End executor.

(** ** Executions *)

Section engine.
Context {W : Type} {P : Posix W} {FS : FiniteSignals W} {TP : TimedPosix W} (charge kr ke : Z).
Context (engine : ResilientExecutionEngine.t W) (q : JobRequest.t).
Let route := ResilientExecutionEngine.route_provider_ engine.
Let exec := ResilientExecutionEngine.attempt_executor_ engine.
Let max := ResilientExecutionEngine.max_attempts_ engine.
Context (Hroute : forall ex, spends charge (fun _ => True) kr (route q ex) (fun _ _ => True)).
Context (Hexec : forall t, spends charge (fun _ => True) ke (exec (attempt_for q t) t) (fun _ _ => True)).
Context (Hkr : 0 <= kr) (Hke : 0 <= ke).

(** A round costs a routing and an attempt, and there is a round for every
    attempt that is left. *)
Lemma execute_from_spends fuel pre ex :
  (length pre <= max)%nat ->
  spends charge (fun _ => True) (Z.of_nat (max - length pre) * (kr + ke))
    (ResilientExecutionEngine.execute_from engine fuel q (lifecycle_after engine q pre ex))
    (fun _ _ => True).
Proof.
  revert pre ex. induction fuel as [|fuel IH]; intros pre ex Hl; [by intros w _|].
  destruct (decide (max <= length pre)%nat) as [Hm|Hm].
  { intros w _. rewrite execute_from_over by done. split; [lia|done]. }
  apply (spends_ext _ _ _ _ _ _ (fun w => execute_from_round engine q fuel pre ex w ltac:(fold max; lia))).
  replace (max - length pre)%nat with (S (max - S (length pre))) by lia.
  set (rest := Z.of_nat (max - S (length pre)) * (kr + ke)).
  assert (0 <= rest) by (unfold rest; nia).
  replace (Z.of_nat (S (max - S (length pre))) * (kr + ke)) with (rest + kr + ke)
    by (unfold rest; lia).
  eapply (spends_bind _ kr _ _ _ _ (fun _ _ => True)); [lia|apply Hroute|].
  intros [t|]; [|apply spends_ret; [lia|done]].
  apply lift_then; [lia|]. intros ?.
  eapply (spends_bind _ 0 _ _ _ _ (fun o _ => t <> [] /\ o = begun t (lifecycle_after engine q pre ex)));
    [lia|apply spends_lift; [lia|]|].
  { intros o w _ Ho. by apply can_begin_after_inv in Ho as (? & _ & ?). }
  intros o. apply (spends_pre _ (t <> [] /\ o = begun t (lifecycle_after engine q pre ex)));
    [done|]. intros [Ht ->].
  eapply (spends_bind _ ke _ _ _ _ (fun _ _ => True)); [lia|apply Hexec|]. intros resp.
  pose proof (accept_response_cases engine q pre ex t resp Ht) as Hr. cbv zeta in Hr.
  destruct (ResilientExecutionEngine.accept_response t resp _) as [o|x| |];
    [|intros w _; unfold mbind, M_bind, lift; lia|done..].
  apply (spends_ext _ _ (ResilientExecutionEngine.execute_from engine fuel q o)); [done|].
  destruct Hr as [(r & _ & _ & ->)|(n & _ & _ & ->)].
  - destruct fuel as [|fuel]; [by intros w _|]. intros w _. rewrite execute_from_done.
    split; [lia|done].
  - eapply spends_mono; [apply IH; rewrite length_app; cbn [length]; lia| |done|done].
    rewrite length_app. cbn [length]. fold max. replace (length pre + 1)%nat with (S (length pre)) by lia.
    fold rest. lia.
Qed.

Lemma execute_spends :
  JobRequest.request_id q <> [] -> (0 < max)%nat ->
  spends charge (fun _ => True) (Z.of_nat max * (kr + ke))
    (ResilientExecutionEngine.execute engine q) (fun _ _ => True).
Proof.
  intros Hq Hm. eapply spends_ext; [by intros w; apply execute_unfold|].
  eapply (spends_bind _ (Z.of_nat max * (kr + ke)) _ _ _ _ (fun _ _ => True)); [lia| |].
  - pose proof (execute_from_spends (S max) [] ∅ ltac:(cbn; lia)) as H.
    cbn [length] in H. by rewrite Nat.sub_0_r in H.
  - intros o. apply spends_ret; [lia|done].
Qed.
End engine.

(** ** Properties *)

(** OpenSSL makes no system call. *)
Definition ssl_computes {W : Type} {O : OpenSSL W} {P : Posix W} {FS : FiniteSignals W}
    {FT : FdTracking W} {TP : TimedPosix W} : Prop :=
  forall w w', ssl_step w w' ->
    (signals w' <= signals w)%nat /\ open_fds w' = open_fds w /\ blocked w' <= blocked w.

Lemma ssl_computes_state {W : Type} {O : OpenSSL W} {P : Posix W} {FS : FiniteSignals W}
    {FT : FdTracking W} {TP : TimedPosix W} n F :
  ssl_computes -> SslInvariant (sys_state n F).
Proof. intros H. apply quiet_invariant. intros w w' (Hs & Hf & _)%H [Hn <-]. split; [lia|done]. Qed.

Lemma ssl_computes_potential {W : Type} {O : OpenSSL W} {P : Posix W} {FS : FiniteSignals W}
    {FT : FdTracking W} {TP : TimedPosix W} charge b :
  0 <= charge -> ssl_computes -> SslInvariant (fun w => potential charge w <= b).
Proof. intros Hc H. apply quiet_invariant. intros w w' (Hs & _ & Hb)%H. unfold potential. nia. Qed.

Section properties.
Context {W : Type} {O : OpenSSL W} {OS : OpenSSLSpec W}.
Context {P : Posix W} {PS : PosixSpec W} {FS : FiniteSignals W} {FT : FdTracking W}.
Context {TP : TimedPosix W} (self : AuthenticatedTcpAttemptExecutor.t W).
Let ct := connect_timeout_ self.
Let io := io_timeout_ self.
Let charge := interruption_charge slack ct io.

(** A resolver that is total, keeps the descriptors and takes at most [k]. *)
Definition resolver_ok {A} (n : nat) (k : Z) (m : M W A) : Prop :=
  (forall F, keeps False False (sys_state n F) m (fun _ => True))
  /\ spends charge (fun _ => True) k m (fun _ _ => True).

Lemma blocked_within k w w' :
  0 < ct -> potential charge w' <= potential charge w + k ->
  blocked w' - blocked w <= k + charge * Z.of_nat (signals w).
Proof.
  intros Hct. pose proof slack_nonneg. unfold potential.
  assert (0 <= charge) by (unfold charge, interruption_charge; lia). nia.
Qed.

(** The time of an attempt is bounded.  Count the microseconds spent in
    system calls, where a call that waits takes at most the deadline in force
    and a call that does not at most [slack].  With deadlines that fit an
    [int], an attempt against any peer and any network ends, and takes at most
    one connect deadline, an I/O deadline for every byte of a largest frame in
    each direction, the time of the two resolvers and 13 times the slack; and
    every interruption adds at most one deadline. *)
Theorem attempt_time_is_bounded fuel request target w er pr
    (Hfuel : Z.of_nat (signals w) + kMaxFrameBytes + 4 < Z.of_nat fuel)
    (Hct : 0 < ct <= INT_MAX) (Hio : 0 < io <= INT_MAX) (Hssl : ssl_computes)
    (Her : 0 <= er /\ forall id, resolver_ok (signals w) er (endpoint_resolver_ self id))
    (Hpr : 0 <= pr /\ forall id, resolver_ok (signals w) pr (public_key_resolver_ self id)) :
  match call_operator self fuel request target w with
  | (Ret _, w') | (Throw _, w') =>
      blocked w' - blocked w
      <= attempt_budget slack ct io er pr
         + interruption_charge slack ct io * Z.of_nat (signals w)
  | (Undef _, _) => peer_overflows fuel (sys_state (signals w))
  | (OutOfFuel, _) => False
  end.
Proof.
  pose proof slack_nonneg. destruct Her as [Her0 Her], Hpr as [Hpr0 Hpr].
  assert (charge = interruption_charge slack ct io) as <- by done.
  assert (0 <= charge /\ ct * 1000 + slack <= charge /\ io * 1000 + slack <= charge) as (? & ? & ?)
    by (unfold charge, interruption_charge; lia).
  assert (forall F, enough_fuel fuel (sys_state (signals w) F)) as He by (intros F w1 [? _]; lia).
  pose proof (ssl_computes_potential charge) as Hp.
  assert (forall F, SslInvariant (sys_state (signals w) F)) by (intros F; by apply ssl_computes_state).
  pose proof (call_operator_keeps self fuel (sys_state (signals w)) He
    (fun F id => proj1 (Her id) F) (fun F id => proj1 (Hpr id) F) (open_fds w) request target w
    (conj (le_n _) eq_refl)) as Hk.
  pose proof (call_operator_spends (SI := fun b => Hp b ltac:(done) Hssl) self charge er pr
    Hct Hio ltac:(done) ltac:(done) (fun id => proj2 (Her id)) (fun id => proj2 (Hpr id))
    Her0 Hpr0 fuel request target (fun _ => True) w I) as Hs.
  destruct (call_operator self fuel request target w) as [[]]; try done;
    apply blocked_within; [lia|by destruct Hs|lia|done].
Qed.

Context `{R : ResolutiveRouting} {RS : RouterSpec}.

Lemma adapter_spends nodes q ex :
  spends charge (fun _ => True) 0
    (ResolutiveRoutingProvider.call_operator (W := W) (ResolutiveRoutingProvider.create nodes) q ex)
    (fun _ _ => True).
Proof.
  unfold ResolutiveRoutingProvider.call_operator. apply lift_then; [done|].
  intros d. by apply spends_ret.
Qed.

(** C28: The time of an execution is bounded, so no set of silent or slow peers
    blocks the client indefinitely (section 10 of the specification).  Over
    any network an execution of the whole client ends, and the time it
    spends in system calls is at most [max_attempts] times the budget of an
    attempt, and one deadline for every interruption. *)
Theorem execution_time_is_bounded fuel nodes max engine q w er pr
    (Hc : resilient_client fuel nodes self max = Ret engine)
    (Hnamed : Forall (fun n => node_id n <> []) nodes)
    (Hq : JobRequest.request_id q <> [])
    (Hfuel : Z.of_nat (signals w) + kMaxFrameBytes + 4 < Z.of_nat fuel)
    (Hct : 0 < ct <= INT_MAX) (Hio : 0 < io <= INT_MAX) (Hssl : ssl_computes)
    (Her : 0 <= er /\ forall id, resolver_ok (signals w) er (endpoint_resolver_ self id))
    (Hpr : 0 <= pr /\ forall id, resolver_ok (signals w) pr (public_key_resolver_ self id)) :
  match ResilientExecutionEngine.execute engine q w with
  | (Ret _, w') | (Throw _, w') =>
      blocked w' - blocked w
      <= Z.of_nat max * attempt_budget slack ct io er pr
         + interruption_charge slack ct io * Z.of_nat (signals w)
  | (Undef _, _) => peer_overflows fuel (sys_state (signals w))
  | (OutOfFuel, _) => False
  end.
Proof.
  pose proof slack_nonneg. destruct Her as [Her0 Her], Hpr as [Hpr0 Hpr].
  assert (charge = interruption_charge slack ct io) as <- by done.
  assert (0 <= charge /\ ct * 1000 + slack <= charge /\ io * 1000 + slack <= charge) as (? & ? & ?)
    by (unfold charge, interruption_charge; lia).
  assert (forall F, enough_fuel fuel (sys_state (signals w) F)) as He by (intros F w1 [? _]; lia).
  pose proof (ssl_computes_potential charge) as Hp.
  assert (forall F, SslInvariant (sys_state (signals w) F)) by (intros F; by apply ssl_computes_state).
  apply resilient_client_ret in Hc as [Hmax ->]. set (engine := ResilientExecutionEngine.mk_t _ _ _).
  assert (0 <= attempt_budget slack ct io er pr)
    by (unfold attempt_budget, kMaxFrameBytes; nia).
  assert (RouteProviderSpec (sys_state (signals w) (open_fds w))
            (ResilientExecutionEngine.route_provider_ engine)) by by apply adapter_interface.
  assert (AttemptExecutorSpec (peer_overflows fuel (sys_state (signals w)))
            (sys_state (signals w) (open_fds w)) (ResilientExecutionEngine.attempt_executor_ engine))
    by exact (executor_interface self fuel _ He
         (fun F id => proj1 (Her id) F) (fun F id => proj1 (Hpr id) F) (open_fds w)).
  pose proof (execute_keeps (peer_overflows fuel (sys_state (signals w)))
    (sys_state (signals w) (open_fds w)) engine q w Hmax Hq (conj (le_n _) eq_refl)) as Hk.
  pose proof (execute_spends charge 0 (attempt_budget slack ct io er pr) engine q
    (adapter_spends nodes q)
    (fun t => call_operator_spends (SI := fun b => Hp b ltac:(done) Hssl) self charge er pr
       Hct Hio ltac:(done) ltac:(done) (fun id => proj2 (Her id)) (fun id => proj2 (Hpr id))
       Her0 Hpr0 fuel (attempt_for q t) t (fun _ => True))
    ltac:(done) ltac:(done) Hq Hmax w I) as Hs. rewrite Z.add_0_l in Hs.
  destruct (ResilientExecutionEngine.execute engine q w) as [[]]; try done;
    apply blocked_within; [lia|by destruct Hs|lia|done].
Qed.
End properties.
