(* ===== verification/SimCodec.v ===== *)
(** * A base64 decoder and a signature scheme for the simulated world

    The interface of OpenSSL has to be inhabited before a theorem about it
    says anything.  This file gives its two pure ingredients: a decoder for
    RFC 4648 base64, which is proved to invert [base64], and a deterministic
    keyed checksum in the place of Ed25519 (it meets the functional laws of
    [OpenSSLSpec] and is of course not secure). *)
From S2P Require Import Prelude CryptoSpec.

Definition value64 (c : byte) : option Z :=
  let v := uchar c in
  (if (65 <=? v) && (v <=? 90) then Some (v - 65)
   else if (97 <=? v) && (v <=? 122) then Some (v - 71)
   else if (48 <=? v) && (v <=? 57) then Some (v + 4)
   else if v =? 43 then Some 62 else if v =? 47 then Some 63
   else if v =? 61 then Some 0 else None)%Z.

Fixpoint decode64 (s : bytes) : option bytes :=
  match s with
  | [] => Some []
  | a :: b :: c :: d :: s =>
      va ← value64 a; vb ← value64 b; vc ← value64 c; vd ← value64 d;
      let n := (va * 262144 + vb * 4096 + vc * 64 + vd)%Z in
      rest ← decode64 s;
      Some (byte_of_Z (n / 65536) :: byte_of_Z (n / 256) :: byte_of_Z n :: rest)
  | _ => None
  end.

Lemma value64_char64 i : (0 <= i < 64)%Z -> value64 (char64 i) = Some i.
Proof.
  intros H. assert (Z.to_nat i < 64) as Hn by lia. rewrite <-(Z2Nat.id i) by lia.
  generalize dependent (Z.to_nat i). intros n Hn. do 64 (destruct n; [done|]). lia.
Qed.

Lemma decode64_length s d : decode64 s = Some d -> 4 * length d = 3 * length s.
Proof.
  assert (forall k s d, length s <= k -> decode64 s = Some d -> 4 * length d = 3 * length s) as H.
  { clear. induction k as [|k IH]; intros [|a [|b [|c [|e s]]]] d Hk; cbn [decode64 length] in *;
      try lia; try done; try (by intros [= <-]).
    destruct (value64 a), (value64 b), (value64 c), (value64 e); try done. cbn.
    destruct (decode64 s) as [r|] eqn:E; [|done]. intros [= <-].
    apply IH in E; [|lia]. cbn [length]. lia. }
  by eapply H.
Qed.

(** The bytes of a number of 24 bits. *)
Lemma three_bytes a b c :
  let n := (uchar a * 65536 + uchar b * 256 + uchar c)%Z in
  byte_of_Z (n / 65536) = a /\ byte_of_Z (n / 256) = b /\ byte_of_Z n = c.
Proof.
  cbv zeta. uchar_bounds. split_and!; apply uchar_inj; rewrite uchar_byte_of_Z; zdiv.
Qed.

Lemma decode64_four i j k l s n :
  (0 <= i < 64)%Z -> (0 <= j < 64)%Z -> value64 k = Some (n / 64 mod 64)%Z ->
  value64 l = Some (n mod 64)%Z -> (n = i * 262144 + j * 4096 + n mod 4096)%Z ->
  decode64 (char64 i :: char64 j :: k :: l :: s)
  = (rest ← decode64 s; Some (byte_of_Z (n / 65536) :: byte_of_Z (n / 256) :: byte_of_Z n :: rest)).
Proof.
  intros Hi Hj Hk Hl Hn. cbn [decode64].
  rewrite (value64_char64 i), (value64_char64 j), Hk, Hl by done. cbn [mbind option_bind].
  assert (i * 262144 + j * 4096 + n / 64 mod 64 * 64 + n mod 64 = n)%Z as -> by zdiv. done.
Qed.

Lemma decode64_quartet n s :
  (0 <= n < 16777216)%Z ->
  decode64 (quartet n ++ s)
  = (rest ← decode64 s; Some (byte_of_Z (n / 65536) :: byte_of_Z (n / 256) :: byte_of_Z n :: rest)).
Proof.
  intros Hn. unfold quartet. cbn [map app].
  apply decode64_four; [zdiv|zdiv|apply value64_char64; zdiv..|zdiv].
Qed.

(** Decoding inverts encoding, up to the zero bytes of the padding. *)
Lemma decode64_base64 d :
  decode64 (base64 d) = Some (d ++ replicate (3 * (length (base64 d) / 4) - length d) x00).
Proof.
  induction d as [| a | a b |a b c d IH] using bytes_ind3; [done| | |].
  - uchar_bounds. destruct (three_bytes a x00 x00) as (E1 & E2 & E3).
    change (uchar x00) with 0%Z in E1, E2, E3. rewrite !Z.add_0_r in E1, E2, E3.
    cbn [base64 quartet map take app].
    rewrite (decode64_four _ _ _ _ _ (uchar a * 65536)); [|zdiv|zdiv| | |zdiv].
    + cbn [decode64 mbind option_bind]. rewrite E1, E2, E3. done.
    + change (value64 x3d) with (Some 0%Z). f_equal. zdiv.
    + change (value64 x3d) with (Some 0%Z). f_equal. zdiv.
  - uchar_bounds. destruct (three_bytes a b x00) as (E1 & E2 & E3).
    change (uchar x00) with 0%Z in E1, E2, E3. rewrite !Z.add_0_r in E1, E2, E3.
    cbn [base64 quartet map take app].
    rewrite (decode64_four _ _ _ _ _ (uchar a * 65536 + uchar b * 256));
      [|zdiv|zdiv|apply value64_char64; zdiv| |zdiv].
    + cbn [decode64 mbind option_bind]. rewrite E1, E2, E3. done.
    + change (value64 x3d) with (Some 0%Z). f_equal. zdiv.
  - uchar_bounds. destruct (three_bytes a b c) as (E1 & E2 & E3). cbn [base64].
    rewrite decode64_quartet by lia. rewrite IH. cbn [mbind option_bind].
    rewrite E1, E2, E3. f_equal. rewrite length_app. cbn [quartet map length].
    replace (4 + length (base64 d)) with (length (base64 d) + 1 * 4) by lia.
    rewrite Nat.div_add by lia. cbn [app]. do 4 f_equal. f_equal. lia.
Qed.

(** ** The signature scheme *)

(** A key is a byte string, and its own public half. *)
Definition checksum (m : bytes) : Z :=
  fold_left (fun h b => (h * 31 + uchar b + 1) mod 2 ^ 32)%Z m 7%Z.

Definition sim_signature (k m : bytes) : bytes :=
  let c := checksum (k ++ x00 :: m) in
  [byte_of_Z c; byte_of_Z (c / 256); byte_of_Z (c / 65536); byte_of_Z (c / 16777216)]
    ++ replicate 60 x2a.

Definition sim_valid (k m sg : bytes) : bool := bool_decide (sg = sim_signature k m).

Lemma sim_signature_length k m : length (sim_signature k m) = 64.
Proof. done. Qed.
