(* ===== verification/Sim.v ===== *)
(** * A simulated world

    A concrete world for the interfaces [OpenSSL] and [Posix]: sockets
    deliver in chunks, the first calls are interrupted by signals, peers answer
    a complete frame with bytes of their choice, and OpenSSL always has the
    resources.  It satisfies every class of assumptions at once, which is how
    the theorems that use them are shown not to be vacuous. *)
From S2P Require Import Prelude Contracts Canonical Wire Framing Crypto.
From S2P Require Import CryptoSpec SimCodec JobAuth Tcp Network Transport Timing AuthKeeps Resources.

(** What a peer makes of a request frame: the bytes it sends back. *)
Definition peer : Type := bytes -> bytes.

(** The time spent in system calls, and what decides how long one waits. *)
Record timing : Type := mk_timing {
  t_blocked : Z;                                 (* microseconds so far *)
  t_pace : Z;                                    (* how long a peer takes per call *)
  t_nonblocking : gset Z;
  t_deadlines : gmap (Z * Z) Z;                  (* by descriptor and option *)
}.

Record world : Type := mk_world {
  w_signals : nat;                               (* calls still to be interrupted *)
  w_chunk : nat;                                 (* bytes moved per call, less one *)
  w_open : gset Z;
  w_next : Z;                                    (* the next descriptor *)
  w_in : gmap Z bytes;
  w_out : gmap Z bytes;
  w_port : gmap Z Z;                             (* the port a descriptor is connected to *)
  w_listening : list (Z * peer);                 (* the ports with a peer *)
  (* the contexts that exist, with the key each was initialised with *)
  w_ctxs : gmap nat (option (ctx_mode * bytes));
  w_timing : timing;
}.

Definition set_signals n w := mk_world n (w_chunk w) (w_open w) (w_next w) (w_in w) (w_out w)
  (w_port w) (w_listening w) (w_ctxs w) (w_timing w).
Definition set_fds o n w := mk_world (w_signals w) (w_chunk w) o n (w_in w) (w_out w)
  (w_port w) (w_listening w) (w_ctxs w) (w_timing w).
Definition set_streams i o w := mk_world (w_signals w) (w_chunk w) (w_open w) (w_next w) i o
  (w_port w) (w_listening w) (w_ctxs w) (w_timing w).
Definition set_port p w := mk_world (w_signals w) (w_chunk w) (w_open w) (w_next w) (w_in w)
  (w_out w) p (w_listening w) (w_ctxs w) (w_timing w).
Definition set_ctxs c w := mk_world (w_signals w) (w_chunk w) (w_open w) (w_next w) (w_in w)
  (w_out w) (w_port w) (w_listening w) c (w_timing w).

Definition set_timing t w := mk_world (w_signals w) (w_chunk w) (w_open w) (w_next w) (w_in w)
  (w_out w) (w_port w) (w_listening w) (w_ctxs w) t.

Definition ok (v : Z) : sysret := {| sr_val := v; sr_errno := 0 |}.
Definition fails (e : Z) : sysret := {| sr_val := -1; sr_errno := e |}.

Definition stream (m : gmap Z bytes) (fd : Z) : bytes := default [] (m !! fd).

Fixpoint find_peer (port : Z) (l : list (Z * peer)) : option peer :=
  match l with
  | [] => None
  | (p, f) :: l => if decide (p = port) then Some f else find_peer port l
  end.

(** Nothing has waited yet, and peers answer at once. *)
Definition no_wait : timing := mk_timing 0 0 ∅ ∅.

(** *** Time

    A call takes a microsecond; a wait for a peer takes what the peer takes,
    or until the deadline. *)
Definition spend (c : Z) (w : world) : world :=
  let t := w_timing w in
  set_timing (mk_timing (t_blocked t + c) (t_pace t) (t_nonblocking t) (t_deadlines t)) w.

(** A call that takes [cost] of the state it is made in. *)
Definition timed {A} (cost : world -> Z) (call : world -> A * world) (w : world) : A * world :=
  let '(a, w') := call w in (a, spend (cost w) w').
Definition prompt {A} : (world -> A * world) -> world -> A * world := timed (fun _ => 1%Z).

Definition sim_deadline (fd option : Z) (w : world) : Datatypes.option Z :=
  match t_deadlines (w_timing w) !! (fd, option) with
  | Some d => if (0 <=? d)%Z then Some d else None
  | None => None
  end.

(** Receiving takes the pace of the peer, or the deadline when nothing comes. *)
Definition recv_cost (fd : Z) (w : world) : Z :=
  let pace := t_pace (w_timing w) in
  match sim_deadline fd SO_RCVTIMEO w with
  | Some d => if decide (stream (w_in w) fd = []) then d else Z.min pace d
  | None => pace
  end.

Definition sim_setfl (fd flags : Z) (w : world) : sysret * world :=
  let t := w_timing w in
  let nb := if (Z.land flags O_NONBLOCK =? 0)%Z then t_nonblocking t ∖ {[fd]}
            else {[fd]} ∪ t_nonblocking t in
  (ok 0, set_timing (mk_timing (t_blocked t) (t_pace t) nb (t_deadlines t)) w).

Definition sim_setsockopt (fd option : Z) (tv : timeval) (w : world) : sysret * world :=
  let t := w_timing w in
  (ok 0, set_timing (mk_timing (t_blocked t) (t_pace t) (t_nonblocking t)
           (<[(fd, option) := timeval_us tv]> (t_deadlines t))) w).

(** A call that a signal may interrupt. *)
Definition interruptible {A} (eintr : A) (call : world -> A * world) (w : world) : A * world :=
  match w_signals w with
  | S n => (eintr, set_signals n w)
  | O => call w
  end.

Definition sim_recv (fd : Z) (n : nat) (w : world) : (sysret * bytes) * world :=
  let data := take (Nat.min n (S (w_chunk w))) (stream (w_in w) fd) in
  if decide (data = []) then ((fails EAGAIN, []), w)
  else ((ok (Z.of_nat (length data)), data),
        set_streams (<[fd := drop (length data) (stream (w_in w) fd)]> (w_in w)) (w_out w) w).

(** The peer answers when the bytes it has got are a frame. *)
Definition answer (fd : Z) (got : bytes) (w : world) : bytes :=
  match decode_complete_frame got, find_peer (default 0%Z (w_port w !! fd)) (w_listening w) with
  | Ret json, Some f => f json
  | _, _ => []
  end.

Definition sim_send (fd : Z) (data : bytes) (w : world) : sysret * world :=
  let sent := take (S (w_chunk w)) data in
  let got := stream (w_out w) fd ++ sent in
  (ok (Z.of_nat (length sent)),
   set_streams (<[fd := stream (w_in w) fd ++ answer fd got w]> (w_in w))
     (<[fd := got]> (w_out w)) w).

Definition sim_socket (w : world) : sysret * world :=
  if decide (w_next w ∈ w_open w \/ (w_next w < 0)%Z) then (fails 24, w)
  else (ok (w_next w), set_fds ({[w_next w]} ∪ w_open w) (w_next w + 1)%Z w).

(** A port with a peer is connected to, at once or, on a socket that does not
    block, once [poll] says so; others refuse. *)
Definition sim_connect (fd : Z) (address : sockaddr_in) (w : world) : sysret * world :=
  match find_peer (htons (sin_port address)) (w_listening w) with
  | Some _ => (if decide (fd ∈ t_nonblocking (w_timing w)) then fails EINPROGRESS else ok 0,
               set_port (<[fd := htons (sin_port address)]> (w_port w)) w)
  | None => (fails 111, w)
  end.

#[export] Instance sim_posix : Posix world := {
  sys_socket := prompt sim_socket;
  sys_close fd w := spend 1 (set_fds (w_open w ∖ {[fd]}) (w_next w) w);
  sys_fcntl_getfl fd := prompt (fun w => (ok 2, w));
  sys_fcntl_setfl fd flags := prompt (sim_setfl fd flags);
  sys_connect fd address := prompt (sim_connect fd address);
  sys_poll fd events timeout :=
    timed (fun w => Z.min (t_pace (w_timing w)) (timeout * 1000))%Z
      (interruptible (fails EINTR) (fun w => (ok 1, w)));
  sys_getsockopt_error fd := prompt (fun w => ((ok 0, 0%Z), w));
  sys_setsockopt_timeout fd option tv := prompt (sim_setsockopt fd option tv);
  sys_send fd data flags := prompt (interruptible (fails EINTR) (sim_send fd data));
  sys_recv fd n flags :=
    timed (recv_cost fd) (interruptible (fails EINTR, []) (sim_recv fd n));
  inet_pton host := if decide (host = str "127.0.0.1") then Some [x7f; x00; x00; x01] else None;
  system_clock_now := prompt (fun w => (1800000003000000000%Z, w));
}.

(** *** Contexts *)

Definition next_ctx (w : world) : nat := S (list_max (elements (dom (w_ctxs w)))).
Definition sim_key (w : world) (ctx : nat) : Datatypes.option (ctx_mode * bytes) :=
  match w_ctxs w !! ctx with Some key => key | None => None end.

#[export] Instance sim_openssl : OpenSSL world := {
  EVP_PKEY := bytes;
  EVP_MD_CTX := nat;
  EVP_EncodeBlock d n := (Z.of_nat (length (base64 d)), base64 d);
  EVP_DecodeBlock s n :=
    match decode64 s with
    | Some d => (Z.of_nat (length d), d)
    | None => ((-1)%Z, [])
    end;
  EVP_MD_CTX_new w := (Some (next_ctx w), set_ctxs (<[next_ctx w := None]> (w_ctxs w)) w);
  EVP_MD_CTX_free ctx w := set_ctxs (delete ctx (w_ctxs w)) w;
  EVP_PKEY_new_raw_private_key seed w := (Some seed, w);
  EVP_PKEY_new_raw_public_key key w := (Some key, w);
  EVP_DigestSignInit ctx key w :=
    match key with
    | Some k => (1%Z, set_ctxs (<[ctx := Some (Signing, k)]> (w_ctxs w)) w)
    | None => (0%Z, w)
    end;
  EVP_DigestSign_size ctx m w := ((1%Z, 64), w);
  EVP_DigestSign ctx n m w :=
    match sim_key w ctx with
    | Some (Signing, k) => ((1%Z, take n (sim_signature k m)), w)
    | _ => ((1%Z, []), w)
    end;
  EVP_DigestVerifyInit ctx key w :=
    match key with
    | Some k => (1%Z, set_ctxs (<[ctx := Some (Verifying, k)]> (w_ctxs w)) w)
    | None => (0%Z, w)
    end;
  EVP_DigestVerify ctx sg m w :=
    match sim_key w ctx with
    | Some (Verifying, k) => ((if sim_valid k m sg then 1 else 0)%Z, w)
    | _ => (0%Z, w)
    end;
}.

(** ** The world keeps the contracts *)

#[export] Instance sim_openssl_spec : OpenSSLSpec world.
Proof.
  refine {| ctx_key := sim_key;
            ed25519_signature := sim_signature; ed25519_valid := sim_valid;
            public_key_of := fun k => k |}.
  - apply sim_signature_length.
  - intros k m. unfold sim_valid. by apply bool_decide_eq_true_2.
  - done.
  - intros d _. cbn [EVP_DecodeBlock sim_openssl]. rewrite decode64_base64. f_equal.
    rewrite length_app, length_replicate. f_equal.
    enough (length d <= 3 * (length (base64 d) / 4)) by lia.
    rewrite length_base64, (Nat.mul_comm 4), Nat.div_mul by done.
    pose proof (Nat.div_mod_eq (length d + 2) 3).
    pose proof (Nat.mod_upper_bound (length d + 2) 3 ltac:(done)). lia.
  - intros s _. cbn [EVP_DecodeBlock sim_openssl]. destruct (decode64 s) as [d|] eqn:E; cbn [snd length]; [|lia].
    apply decode64_length in E.
    pose proof (Nat.div_mod_eq (length s) 4). pose proof (Nat.mod_upper_bound (length s) 4 ltac:(done)). lia.
  - intros ctx [k|] w w'; cbn; [|done]. intros [= <-]. exists k. split; [done|].
    unfold sim_key. cbn. by rewrite lookup_insert_eq.
  - intros ctx k m rc n w w' H. cbn. intros [= <- <- <-]. done.
  - intros ctx k n m rc sg w w' H. cbn in H |- *. rewrite H. intros [= <- <- <-].
    rewrite length_take. split; [lia|]. by intros _ ->.
  - intros ctx [k|] w w'; cbn; [|done]. intros [= <-]. exists k. split; [done|].
    unfold sim_key. cbn. by rewrite lookup_insert_eq.
  - intros ctx k sg m rc w w' H. cbn in H |- *. rewrite H. intros [= <- <-]. by destruct (sim_valid k m sg).
Defined.

#[export] Instance sim_openssl_available : OpenSSLAvailable world.
Proof.
  split; intros; cbn; repeat (case_match; try (by eexists)); by repeat eexists.
Qed.

(** A timed call is the call, and then time. *)
Lemma timed_inv {A} cost (call : world -> A * world) w a w' :
  timed cost call w = (a, w') -> exists w1, call w = (a, w1) /\ w' = spend (cost w) w1.
Proof. unfold timed. destruct (call w) as [b w1]. intros [= <- <-]. by exists w1. Qed.

(** Interruptions happen to the call or to nothing. *)
Lemma interruptible_cases {A} (eintr : A) call w r w' :
  interruptible eintr call w = (r, w') ->
  (r = eintr /\ S (w_signals w') = w_signals w /\ exists n, w' = set_signals n w)
  \/ call w = (r, w').
Proof.
  unfold interruptible. destruct (w_signals w) as [|n] eqn:E; [by right|].
  intros [= <- <-]. left. split; [done|]. split; [done|by exists n].
Qed.

Lemma sim_recv_cases fd n w r data w' :
  sim_recv fd n w = ((r, data), w') ->
  (r = fails EAGAIN /\ data = [] /\ w' = w)
  \/ (r = ok (Z.of_nat (length data)) /\ length data <= n
      /\ stream (w_in w) fd = data ++ drop (length data) (stream (w_in w) fd)
      /\ w' = set_streams (<[fd := drop (length data) (stream (w_in w) fd)]> (w_in w)) (w_out w) w).
Proof.
  unfold sim_recv. set (s := stream (w_in w) fd). case_decide as H; [|intros [= <- <- <-]].
  { intros [= <- <- <-]. by left. }
  right. split_and!; [done|rewrite length_take; lia| |done].
  set (k := Nat.min n (S (w_chunk w))). rewrite length_take, <-(take_drop k s) at 1. f_equal.
  destruct (decide (k <= length s)).
  - by rewrite Nat.min_l by done.
  - rewrite Nat.min_r by lia. by rewrite !drop_ge by lia.
Qed.

Lemma stream_insert m fd s : stream (<[fd := s]> m) fd = s.
Proof. unfold stream. by rewrite lookup_insert_eq. Qed.

#[export] Instance sim_posix_spec : PosixSpec world.
Proof.
  split.
  - intros fd data flags w r w' (w1 & [(-> & _)|H]%interruptible_cases & _)%timed_inv; [cbn; lia|].
    injection H as <- _. cbn. rewrite length_take. lia.
  - intros fd n flags w r data w' (w1 & [([= -> ->] & _)|H]%interruptible_cases & _)%timed_inv;
      [split; [done|cbn; lia]|].
    apply sim_recv_cases in H as [(-> & -> & _)|(-> & Hl & _)]; cbn [sr_val fails ok];
      (split; [cbn; lia|lia]).
Qed.

Definition sim_signals (w : world) : nat := w_signals w.

(** What a call leaves of signals and descriptors. *)
Lemma timed_io {A} cost (call : world -> A * world) w :
  w_signals (snd (call w)) <= w_signals w /\ w_open (snd (call w)) = w_open w ->
  w_signals (snd (timed cost call w)) <= w_signals w
  /\ w_open (snd (timed cost call w)) = w_open w.
Proof. unfold timed. by destruct (call w). Qed.

Lemma interruptible_io {A} (eintr : A) (call : world -> A * world) w :
  w_signals (snd (call w)) <= w_signals w /\ w_open (snd (call w)) = w_open w ->
  w_signals (snd (interruptible eintr call w)) <= w_signals w
  /\ w_open (snd (interruptible eintr call w)) = w_open w.
Proof. unfold interruptible. destruct (w_signals w) as [|n]; [done|]. cbn. split; [lia|done]. Qed.

Lemma sim_io_step w w' : io_step w w' -> w_signals w' <= w_signals w /\ w_open w' = w_open w.
Proof.
  intros H. destruct H; try (apply timed_io; try apply interruptible_io; done).
  - apply timed_io. unfold sim_connect. by destruct (find_peer _ _).
  - apply timed_io, interruptible_io. destruct (sim_recv fd n w) as [[r data] w1] eqn:E. cbn.
    by apply sim_recv_cases in E as [(_ & _ & ->)|(_ & _ & _ & ->)].
Qed.

(** An interruption takes a signal. *)
Lemma sim_interrupted {A} (g : A -> sysret) cost eintr call w r w' :
  timed cost (interruptible eintr call) w = (r, w') -> interrupted (g r) = true ->
  (forall w1, call w = (r, w1) -> interrupted (g r) = false) -> w_signals w' < w_signals w.
Proof.
  intros (w1 & [(_ & Hs & _)|E]%interruptible_cases & ->)%timed_inv Hi Hc; [cbn; lia|].
  by rewrite (Hc w1 E) in Hi.
Qed.

#[export] Instance sim_finite_signals : FiniteSignals world.
Proof.
  refine {| signals := sim_signals |}.
  - intros w w' H. by apply sim_io_step.
  - intros w. cbn. unfold prompt, timed, sim_socket. by case_decide.
  - intros fd w. done.
  - intros fd data flags w r w' E Hi. eapply (sim_interrupted id); [exact E|done|].
    intros w1 [= <- _]. unfold interrupted. cbn. by rewrite andb_false_r.
  - intros fd n flags w r data w' E Hi. eapply (sim_interrupted fst); [exact E|done|].
    intros w1 [(-> & _)|(-> & _)]%sim_recv_cases; [done|]. unfold interrupted. cbn.
    by rewrite andb_false_r.
  - intros fd events timeout w r w' E Hi. eapply (sim_interrupted id); [exact E|done|].
    intros w1 [= <- _]. done.
Defined.

#[export] Instance sim_fd_tracking : FdTracking world.
Proof.
  refine {| open_fds := w_open |}.
  - intros w w' H. by apply sim_io_step.
  - done.
  - intros w r w'. cbn. unfold prompt, timed, sim_socket. case_decide as H; intros [= <- <-]; [done|].
    cbn [sr_val ok]. rewrite (proj2 (Z.leb_le 0 _)) by lia. split; [tauto|done].
Defined.

#[export] Instance sim_socket_streams : SocketStreams world.
Proof.
  refine {| stream_in := fun fd w => stream (w_in w) fd;
            stream_out := fun fd w => stream (w_out w) fd |}.
  - intros fd n flags w r data w' (w1 & [([= -> ->] & _ & k & ->)|E]%interruptible_cases & ->)%timed_inv;
      [done|].
    apply sim_recv_cases in E as [(_ & -> & ->)|(_ & _ & Hs & ->)]; [done|].
    cbn. rewrite stream_insert. by split.
  - intros fd data flags w r w' (w1 & [(-> & _ & k & ->)|E]%interruptible_cases & ->)%timed_inv.
    + cbn. by rewrite app_nil_r.
    + injection E as <- <-. cbn [w_out set_streams spend set_timing sr_val ok].
      rewrite stream_insert. f_equal.
      rewrite Nat2Z.id, length_take. destruct (decide (S (w_chunk w) <= length data)).
      * by rewrite Nat.min_l by done.
      * rewrite Nat.min_r by lia. by rewrite !take_ge by lia.
Defined.

(** OpenSSL touches neither descriptors nor signals. *)
Lemma sim_ssl_quiet n F : ssl_quiet (sys_state (W := world) n F).
Proof.
  intros w w' Hs [Hn Hf]. destruct Hs; cbn; repeat case_match; done.
Qed.

#[export] Instance sim_ssl_invariant n F : SslInvariant (sys_state n F) :=
  quiet_invariant _ (sim_ssl_quiet n F).

(** *** Contexts *)

Lemma next_ctx_fresh w : w_ctxs w !! next_ctx w = None.
Proof.
  apply not_elem_of_dom. intros Hin%elem_of_elements.
  pose proof (proj1 (List.list_max_le (elements (dom (w_ctxs w))) _) (le_n _)) as H.
  rewrite List.Forall_forall in H. apply list_elem_of_In, H in Hin. unfold next_ctx in Hin. lia.
Qed.

Lemma is_Some_insert {A} (m : gmap nat A) i x c : is_Some (<[i := x]> m !! c) <-> c = i \/ is_Some (m !! c).
Proof. rewrite lookup_insert_is_Some'. split; (intros [?|?]; [by left|by right]). Qed.

#[export] Instance sim_ctx_tracking : CtxTracking world.
Proof.
  refine {| ctx_live := fun ctx w => is_Some (w_ctxs w !! (ctx : nat)) |}.
  - intros w ctx w' [= <- <-]. split; [by rewrite next_ctx_fresh; intros [? ?]|].
    intros c. apply is_Some_insert.
  - done.
  - intros ctx w w' Hu Hl c.
    destruct Hu as [[k|] w| |n m w|[k|] w|sg m w]; cbn; try (by destruct (sim_key w ctx) as [[[] ?]|]);
      try done;
      rewrite is_Some_insert; (split; [intros [Hc|Hc]; [by rewrite Hc|done]|by right]).
  - intros ctx w _ c. cbn. rewrite lookup_delete_is_Some. by split; intros [? ?]; split.
Defined.

Lemma timed_ctxs {A} cost (call : world -> A * world) w :
  w_ctxs (snd (call w)) = w_ctxs w -> w_ctxs (snd (timed cost call w)) = w_ctxs w.
Proof. unfold timed. by destruct (call w). Qed.

Lemma interruptible_ctxs {A} (eintr : A) (call : world -> A * world) w :
  w_ctxs (snd (call w)) = w_ctxs w -> w_ctxs (snd (interruptible eintr call w)) = w_ctxs w.
Proof. unfold interruptible. by destruct (w_signals w). Qed.

#[export] Instance sim_ctx_quiet : CtxQuiet world.
Proof.
  split.
  - intros c w w' H. cbn. enough (w_ctxs w' = w_ctxs w) as -> by done.
    destruct H; apply timed_ctxs; try apply interruptible_ctxs; try done.
    + unfold sim_connect. by destruct (find_peer _ _).
    + unfold sim_recv. by case_decide.
  - intros c w. cbn. enough (w_ctxs (snd (prompt sim_socket w)) = w_ctxs w) as -> by done.
    apply timed_ctxs. unfold sim_socket. by case_decide.
  - done.
Qed.

(** ** Time passes as promised *)

Definition sim_blocked (w : world) : Z := t_blocked (w_timing w).

Lemma timed_blocked {A} cost (call : world -> A * world) w :
  sim_blocked (snd (call w)) = sim_blocked w ->
  sim_blocked (snd (timed cost call w)) = (sim_blocked w + cost w)%Z.
Proof. unfold timed, sim_blocked. destruct (call w) as [a w1]. cbn. by intros ->. Qed.

Lemma timed_deadline {A} cost (call : world -> A * world) w fd option :
  w_timing (snd (call w)) = w_timing w ->
  sim_deadline fd option (snd (timed cost call w)) = sim_deadline fd option w.
Proof. unfold timed, sim_deadline. destruct (call w) as [a w1]. cbn. by intros ->. Qed.

Lemma sim_send_timing fd data w :
  w_timing (snd (interruptible (fails EINTR) (sim_send fd data) w)) = w_timing w.
Proof. unfold interruptible. by case_match. Qed.

Lemma sim_recv_timing fd n w :
  w_timing (snd (interruptible (fails EINTR, []) (sim_recv fd n) w)) = w_timing w.
Proof. unfold interruptible, sim_recv. case_match; [by case_decide|done]. Qed.

Lemma sim_deadline_nonneg fd option w t : sim_deadline fd option w = Some t -> (0 <= t)%Z.
Proof. unfold sim_deadline. case_match; [|done]. destruct (Z.leb_spec 0 z); [|done]. by intros [= <-]. Qed.

#[export] Instance sim_timed : TimedPosix world.
Proof.
  refine {| blocked := sim_blocked; slack := 1;
            nonblocking := fun fd w => fd ∈ t_nonblocking (w_timing w);
            io_deadline := sim_deadline |}.
  - done.
  - intros w w' H. destruct H; try (cbn; unfold sim_blocked; cbn; lia).
    cbn. unfold prompt. rewrite timed_blocked; [lia|]. unfold sim_socket. by case_decide.
  - intros fd address w _. cbn. unfold prompt. rewrite timed_blocked; [lia|].
    unfold sim_connect. by destruct (find_peer _ _).
  - intros fd events timeout w Ht. cbn. rewrite timed_blocked; [lia|].
    unfold interruptible. by case_match.
  - intros fd data flags w t Hd. apply sim_deadline_nonneg in Hd. cbn. unfold prompt.
    rewrite timed_blocked; [lia|]. unfold sim_blocked. by rewrite sim_send_timing.
  - intros fd n flags w t Hd. cbn. rewrite timed_blocked.
    + unfold recv_cost. rewrite Hd. case_decide; lia.
    + unfold sim_blocked. by rewrite sim_recv_timing.
  - intros fd flags w r w' (w1 & [= _ <-] & ->)%timed_inv _ Hf. cbn.
    rewrite (proj2 (Z.eqb_neq _ _)) by done. set_solver.
  - intros fd option tv w r w' (w1 & [= _ <-] & ->)%timed_inv _ Hp _. cbn.
    unfold sim_deadline. cbn. rewrite lookup_insert_eq, (proj2 (Z.leb_le _ _)); [done|lia].
  - intros fd option other tv w Ho. cbn. unfold sim_deadline. cbn.
    rewrite lookup_insert_ne by congruence. done.
  - intros fd data flags option w. cbn. apply timed_deadline, sim_send_timing.
  - intros fd n flags option w. cbn. apply timed_deadline, sim_recv_timing.
Defined.
