(* ===== verification/Scenarios.v ===== *)
(** * The repository's own scenarios, run in the model

    cpp/tests/authenticated_tcp_resilient_execution_test.cpp and
    cpp/tests/authenticated_tcp_adversarial_test.cpp drive the client against
    servers that are silent, forge signatures, answer for another job or send
    garbage.  Here the same fixtures run against the simulated world, and the
    assertions of the tests are theorems. *)
From S2P Require Import Prelude Contracts Canonical Reader Wire WireParse Framing Crypto CryptoSpec JobAuth Tcp.
From S2P Require Import Network Transport Timing Orchestrator Engine Adapter Executor System SimCodec Sim.

(** ** Fixtures *)

(** [make_seed]: a key of the simulated scheme is its seed. *)
Definition make_seed (base : Z) : bytes := map (fun i => byte_of_Z (base + Z.of_nat i)) (seq 0 32).

Definition base_request (target : bytes) : JobRequest.t := {|
  JobRequest.protocol_version := str "0.2"; JobRequest.message_id := str "msg-adversarial-1";
  JobRequest.request_id := str "job-adversarial-1"; JobRequest.sender_node_id := str "node-a";
  JobRequest.target_node_id := target; JobRequest.organization_id := str "org-1";
  JobRequest.operation := str "ECHO"; JobRequest.payload := str "payload";
  JobRequest.issued_at := 1800000000; JobRequest.expires_at := 1800000060;
  JobRequest.signature_algorithm := str "Ed25519"; JobRequest.signature := [] |}.

Definition result_for (request : JobRequest.t) (responder : bytes) : JobResult.t := {|
  JobResult.protocol_version := JobRequest.protocol_version request;
  JobResult.message_id := str "msg-result-1"; JobResult.request_id := JobRequest.request_id request;
  JobResult.responder_node_id := responder;
  JobResult.recipient_node_id := JobRequest.sender_node_id request;
  JobResult.status := str "OK"; JobResult.payload := JobRequest.payload request;
  JobResult.completed_at := 1800000001; JobResult.signature_algorithm := str "Ed25519";
  JobResult.signature := [] |}.

Definition failure_for (request : JobRequest.t) (node : bytes) : FailureNotice.t := {|
  FailureNotice.protocol_version := JobRequest.protocol_version request;
  FailureNotice.message_id := str "msg-failure-1";
  FailureNotice.request_id := JobRequest.request_id request;
  FailureNotice.reporting_node_id := node; FailureNotice.failed_node_id := node;
  FailureNotice.reason := str "remote_execution_unavailable";
  FailureNotice.observed_at := 1800000001; FailureNotice.signature_algorithm := str "Ed25519";
  FailureNotice.signature := [] |}.

(** [executor_for]: the resolvers know one node. *)
Definition executor_for (key : bytes) (endpoint : option TcpEndpoint.t) (target_key : bytes)
    (connect_timeout io_timeout : Z) : outcome (AuthenticatedTcpAttemptExecutor.t world) :=
  AuthenticatedTcpAttemptExecutor.create (Some key)
    (Some (fun id => mret (if decide (id = str "node-b") then endpoint else None)))
    (Some (fun id => mret (if decide (id = str "node-b") then Some target_key else None)))
    connect_timeout io_timeout.

(** A server that consumes one request and sends these bytes. *)
Definition sends (reply : bytes) : peer := fun _ => reply.
Definition framed (json : bytes) : bytes := match encode_frame json with Ret f => f | _ => [] end.

(** A world with one server, the first three calls interrupted, and 48 bytes
    moved per call. *)
Definition test_world (servers : list (Z * peer)) : world :=
  mk_world 3 47 {[0%Z; 1%Z; 2%Z]} 3 ∅ ∅ ∅ servers ∅ no_wait.

Definition test_fuel : nat := 200.
Definition server_port : Z := 40001.
Definition local_private : bytes := make_seed 0x01.
Definition target_private : bytes := make_seed 0x21.
Definition attacker_private : bytes := make_seed 0x41.

(** One attempt of the adversarial test. *)
Definition attempt_against (endpoint : option TcpEndpoint.t) (reply : bytes)
    : outcome AttemptResponse.t * bool :=
  let w := test_world [(server_port, sends reply)] in
  let request := base_request (str "node-b") in
  match executor_for local_private endpoint target_private 200 200 with
  | Ret executor =>
      let '(o, w') := AuthenticatedTcpAttemptExecutor.call_operator executor test_fuel request
                        (str "node-b") w in
      (o, bool_decide (w_open w' = w_open w))
  | _ => (Undef null_dereference, false)
  end.

Definition server_endpoint : option TcpEndpoint.t :=
  Some (TcpEndpoint.mk (str "127.0.0.1") server_port).

(** The response [assert_local_failure] accepts. *)
Definition local_failure_response (reason : bytes) : AttemptResponse.t :=
  let request := base_request (str "node-b") in
  AttemptResponse.mk None (Some (signed_notice (W := world) local_private {|
    FailureNotice.protocol_version := JobRequest.protocol_version request;
    FailureNotice.message_id := str "local-failure-job-adversarial-1-node-b";
    FailureNotice.request_id := JobRequest.request_id request;
    FailureNotice.reporting_node_id := JobRequest.sender_node_id request;
    FailureNotice.failed_node_id := str "node-b"; FailureNotice.reason := reason;
    FailureNotice.observed_at := 1800000003; FailureNotice.signature_algorithm := str "Ed25519";
    FailureNotice.signature := [] |})).

Definition signed_result_frame (key : bytes) (r : JobResult.t) : bytes :=
  framed (job_result_envelope_json (signed_result (W := world) key r)).
Definition signed_notice_frame (key : bytes) (n : FailureNotice.t) : bytes :=
  framed (failure_notice_envelope_json (signed_notice (W := world) key n)).

(** The eleven attempts of the adversarial test: what the server sends, and
    the response the test asserts. *)
Definition adversarial_cases : list (option TcpEndpoint.t * bytes * AttemptResponse.t) :=
  let request := base_request (str "node-b") in
  let good := result_for request (str "node-b") in
  let failure := failure_for request (str "node-b") in
  let other_job := {| JobResult.protocol_version := JobResult.protocol_version good;
    JobResult.message_id := JobResult.message_id good; JobResult.request_id := str "job-other";
    JobResult.responder_node_id := str "node-b"; JobResult.recipient_node_id := str "node-a";
    JobResult.status := str "OK"; JobResult.payload := JobResult.payload good;
    JobResult.completed_at := JobResult.completed_at good;
    JobResult.signature_algorithm := str "Ed25519"; JobResult.signature := [] |} in
  let other_node := {| FailureNotice.protocol_version := FailureNotice.protocol_version failure;
    FailureNotice.message_id := FailureNotice.message_id failure;
    FailureNotice.request_id := FailureNotice.request_id failure;
    FailureNotice.reporting_node_id := str "node-b"; FailureNotice.failed_node_id := str "node-c";
    FailureNotice.reason := FailureNotice.reason failure;
    FailureNotice.observed_at := FailureNotice.observed_at failure;
    FailureNotice.signature_algorithm := str "Ed25519"; FailureNotice.signature := [] |} in
  let rejected := local_failure_response in
  let closed_port := Some (TcpEndpoint.mk (str "127.0.0.1") 40002) in
  [ (None, [], rejected (str "endpoint_unavailable"));
    (closed_port, [], rejected (str "transport_unavailable"));
    (server_endpoint, framed (str "{" ++ lit_key "broken" ++ str "true}"),
      rejected (str "transport_unavailable"));
    (server_endpoint, [x00; x10; x00; x01], rejected (str "transport_unavailable"));
    (server_endpoint, framed (str "{" ++ lit_key "payload" ++ str "{}," ++ lit_key "type"
      ++ [dquote] ++ str "PING" ++ [dquote] ++ str "}"), rejected (str "unsupported_response_type"));
    (server_endpoint, signed_result_frame target_private other_job, rejected (str "invalid_result_contract"));
    (server_endpoint, signed_result_frame attacker_private good, rejected (str "invalid_result_signature"));
    (server_endpoint, signed_notice_frame target_private failure,
      AttemptResponse.mk None (Some (signed_notice (W := world) target_private failure)));
    (server_endpoint, signed_notice_frame attacker_private failure,
      rejected (str "invalid_failure_signature"));
    (server_endpoint, signed_notice_frame target_private other_node,
      rejected (str "invalid_failure_contract"));
    (server_endpoint, signed_result_frame target_private good,
      AttemptResponse.mk (Some (signed_result (W := world) target_private good)) None) ].

(** ** Failover over three nodes *)

(** A router that prefers the first node it is given. *)
#[export] Instance first_node_routing : ResolutiveRouting := {
  NodeSnapshot := bytes; node_id := id; Request := JobRequest.t -> bytes;
  RequestType := unit; RoutingScope := unit; RequestType_Echo := tt; Scope_Private := tt;
  default_request := fun _ => []; set_request_id _ r := r; set_type _ r := r; set_scope _ r := r;
  set_source_node_id _ r := r; set_organization_id _ r := r;
  DeterministicRouter := unit; default_router := tt; RouteDecision := option bytes;
  router_route _ _ nodes := Ret (head nodes); selected_node_id := id;
}.

#[export] Instance first_node_router_spec : RouterSpec.
Proof.
  split; [done|]. intros r request nodes d id [= <-]. cbn. destruct nodes; [done|].
  intros [= ->]. left.
Qed.

(** The job of the test, and the envelope a node expects. *)
Definition job : JobRequest.t := {|
  JobRequest.protocol_version := str "0.2"; JobRequest.message_id := str "msg-auth-tcp-1";
  JobRequest.request_id := str "job-auth-tcp-1"; JobRequest.sender_node_id := str "node-a";
  JobRequest.target_node_id := []; JobRequest.organization_id := str "org-1";
  JobRequest.operation := str "ECHO"; JobRequest.payload := str "authenticated-real-routing";
  JobRequest.issued_at := 1800000000; JobRequest.expires_at := 1800000060;
  JobRequest.signature_algorithm := str "Ed25519"; JobRequest.signature := [] |}.

Definition signed_attempt_envelope (original : JobRequest.t) (target key : bytes) : bytes :=
  job_request_envelope_json
    (signed_request (W := world) key (JobRequest.set_target_node_id target original)).

(** A server that answers nothing but the request it expects. *)
Definition answers_to (expected reply : bytes) : peer := fun json =>
  if decide (json = expected) then reply else [].

Definition result_of (node : bytes) (message : bytes) (completed_at : Z) : JobResult.t := {|
  JobResult.protocol_version := str "0.2"; JobResult.message_id := message;
  JobResult.request_id := str "job-auth-tcp-1"; JobResult.responder_node_id := node;
  JobResult.recipient_node_id := str "node-a"; JobResult.status := str "OK";
  JobResult.payload := str "authenticated-real-routing"; JobResult.completed_at := completed_at;
  JobResult.signature_algorithm := str "Ed25519"; JobResult.signature := [] |}.

Definition d_private : bytes := make_seed 0x61.
Definition d_result : JobResult.t :=
  signed_result (W := world) d_private (result_of (str "node-d") (str "msg-result-d") 1800000002).

(** B is silent, C signs with the key of an attacker, D answers. *)
Definition three_servers : list (Z * peer) :=
  let envelope node := signed_attempt_envelope job node local_private in
  [ (40011%Z, sends []);
    (40012%Z, answers_to (envelope (str "node-c")) (signed_result_frame (make_seed 0x81)
       (result_of (str "node-c") (str "msg-result-c") 1800000001)));
    (40013%Z, answers_to (envelope (str "node-d")) (framed (job_result_envelope_json d_result))) ].

(** The resolvers of the test. *)
Definition node_endpoint (id : bytes) : option TcpEndpoint.t :=
  let at_port p := Some (TcpEndpoint.mk (str "127.0.0.1") p) in
  if decide (id = str "node-b") then at_port 40011%Z
  else if decide (id = str "node-c") then at_port 40012%Z
  else if decide (id = str "node-d") then at_port 40013%Z else None.
Definition node_key (id : bytes) : option bytes :=
  if decide (id = str "node-b") then Some (make_seed 0x21)
  else if decide (id = str "node-c") then Some (make_seed 0x41)
  else if decide (id = str "node-d") then Some d_private else None.

Definition tcp_executor : AuthenticatedTcpAttemptExecutor.t world :=
  AuthenticatedTcpAttemptExecutor.mk_t (Some local_private) (fun id => mret (node_endpoint id))
    (fun id => mret (node_key id)) 200 50.

Definition test_nodes : list bytes := [str "node-b"; str "node-c"; str "node-d"].

(** The engine of the test over these parts, run on a request. *)
Definition run_client (fuel : nat) (executor : AuthenticatedTcpAttemptExecutor.t world)
    (nodes : list bytes) (max_attempts : nat) (request : JobRequest.t) (w : world)
    : outcome ResilientExecutionOutcome.t * world :=
  match resilient_client (R := first_node_routing) fuel nodes executor max_attempts with
  | Ret engine => ResilientExecutionEngine.execute engine request w
  | Throw e => (Throw e, w)
  | Undef u => (Undef u, w)
  | OutOfFuel => (OutOfFuel, w)
  end.

(** An executor without endpoints (cases 12 and 13 of the adversarial test). *)
Definition unavailable_executor : AuthenticatedTcpAttemptExecutor.t world :=
  AuthenticatedTcpAttemptExecutor.mk_t (Some local_private) (fun _ => mret None)
    (fun _ => mret None) 50 50.

(** A frame no key has signed, whose first number does not fit 64 bits. *)
Definition hostile_reply : bytes :=
  str "{" ++ lit_key "payload" ++ str "{" ++ lit_key "completed_at"
    ++ str "9223372036854775808" ++ str "}," ++ lit_key "type" ++ [dquote] ++ str "JOB_RESULT"
    ++ [dquote] ++ str "}".
Definition hostile_frame : bytes := framed hostile_reply.

(** ** A slow peer

    The receive timeout bounds one call, not one message: a peer that sends a
    byte just before every deadline is received from for as many deadlines as
    the message has bytes. *)
Lemma slow_peer_takes_a_deadline_per_byte fuel fd d size out received w :
  w_signals w = 0 -> w_chunk w = 0 -> sim_deadline fd SO_RCVTIMEO w = Some d ->
  t_pace (w_timing w) = d -> received <= size -> length out = size ->
  size - received <= length (stream (w_in w) fd) -> size - received < fuel ->
  exists res w', recv_exact_from fuel fd size out received w = (Ret res, w')
    /\ blocked w' = (blocked w + Z.of_nat (size - received) * d)%Z.
Proof.
  revert out received w. induction fuel as [|fuel IH]; intros out received w Hs Hc Hd Hp Hr Hl Hn Hf; [lia|].
  destruct (decide (received = size)) as [->|].
  { cbn [recv_exact_from]. rewrite Nat.ltb_irrefl. exists out, w. split; [done|lia]. }
  destruct (recv_round fuel fd size out received w) as (r & data & w1 & E & _ & _ & ->); [lia|done|].
  apply timed_inv in E as (w2 & E & ->). unfold interruptible, sim_recv in E. rewrite Hs, Hc in E.
  unfold recv_cost. rewrite Hd, Hp, Z.min_id.
  destruct (stream (w_in w) fd) as [|b rest] eqn:Es; [cbn in Hn; lia|].
  replace (Nat.min (size - received) 1) with 1 in E by lia. cbn [take] in E. rewrite take_0 in E. cbn [length drop] in E.
  rewrite decide_False in E by done. injection E as <- <- <-. rewrite decide_False by done.
  cbn [ok sr_val length]. cbn [length] in *. rewrite (proj2 (Z.ltb_lt 0 _)) by done.
  edestruct (IH (take received out ++ [b] ++ drop (received + 1) out) (received + 1))
    as (res & w' & E' & Hb); cycle -1.
  { exists res, w'. split; [exact E'|]. rewrite Hb. cbn. unfold sim_blocked. cbn.
    replace (size - received) with (S (size - (received + 1))) by lia. lia. }
  all: try done; try lia.
  - by rewrite (splice_length out [b]) by (cbn; lia).
  - cbn [set_streams spend set_timing w_in]. rewrite stream_insert, drop_0. lia.
Qed.

(** ** Properties *)

(** The adversarial test passes in the model.  For each of its eleven
    attempts (no endpoint, a refused connection, a malformed envelope, an
    oversized frame, an unknown type, a result for another job, an attacker's
    result, an authentic notice, a forged notice, a notice about another node,
    and an authentic result) the attempt returns exactly the response the test
    asserts, and leaves the open descriptors as they were. *)
Lemma adversarial_attempts :
  map (fun '(endpoint, reply, _) => attempt_against endpoint reply) adversarial_cases
  = map (fun '(_, _, response) => (Ret response, true)) adversarial_cases.
Proof. vm_compute. reflexivity. Qed.

(** The failover test passes in the model.  Against a silent node B, a
    node C whose result an attacker signed and an honest node D, each of which
    only accepts the request signed for itself, the client completes on D's
    result after two failed attempts, has excluded B and C, reports no
    exhaustion, and has closed every socket. *)
Lemma failover_scenario :
  let '(o, w) := run_client test_fuel tcp_executor test_nodes 4 job (test_world three_servers) in
  o = Ret (ResilientExecutionOutcome.mk
        (ExecutionState.mk (str "job-auth-tcp-1")
           [ExecutionAttempt.mk (str "node-b") (str "FAILED");
            ExecutionAttempt.mk (str "node-c") (str "FAILED");
            ExecutionAttempt.mk (str "node-d") (str "OK")]
           {[str "node-b"; str "node-c"]} true (Some d_result)) false)
  /\ w_open w = {[0%Z; 1%Z; 2%Z]}.
Proof. vm_compute. split; reflexivity. Qed.

(** What the tests look at in an outcome. *)
Definition terminal (o : outcome ResilientExecutionOutcome.t * world)
    : option (bool * bool * nat * list bytes) :=
  match fst o with
  | Ret out =>
      let s := ResilientExecutionOutcome.state out in
      Some (ExecutionState.completed s, ResilientExecutionOutcome.exhausted out,
            length (ExecutionState.attempts s), elements (ExecutionState.excluded_nodes s))
  | _ => None
  end.

(** The terminal states.  With three unreachable nodes and eight attempts
    the routes run out: not completed, not exhausted, three attempts; with
    four nodes and two attempts the attempts run out: not completed,
    exhausted.  And an execution that completes on its last attempt is
    completed and exhausted at once, so [exhausted] alone does not tell
    success from attempt exhaustion. *)
Lemma terminal_states :
  terminal (run_client test_fuel unavailable_executor test_nodes 8 (base_request []) (test_world []))
  = Some (false, false, 3, elements ({[str "node-b"; str "node-c"; str "node-d"]} : gset bytes))
  /\ terminal (run_client test_fuel unavailable_executor (test_nodes ++ [str "node-e"]) 2
       (base_request []) (test_world []))
     = Some (false, true, 2, elements ({[str "node-b"; str "node-c"]} : gset bytes))
  /\ terminal (run_client test_fuel tcp_executor test_nodes 3 job (test_world three_servers))
     = Some (true, true, 3, elements ({[str "node-b"; str "node-c"]} : gset bytes)).
Proof. vm_compute. split_and!; reflexivity. Qed.

(** The attack of Hostile.v in the simulated world: the unsigned frame
    overflows, and the number one below is refused as a malformed envelope,
    with local evidence. *)
Example hostile_frame_in_the_simulation :
  fst (attempt_against server_endpoint hostile_frame) = Undef signed_overflow
  /\ attempt_against server_endpoint (framed (str "{" ++ lit_key "payload" ++ str "{"
       ++ lit_key "completed_at" ++ str "9223372036854775807" ++ str "}," ++ lit_key "type"
       ++ [dquote] ++ str "JOB_RESULT" ++ [dquote] ++ str "}"))
     = (Ret (local_failure_response (str "transport_unavailable")), true).
Proof. vm_compute. split; reflexivity. Qed.
