(* ===== verification/PySim.v ===== *)
(** * A Python node in the simulated world

    The signature scheme of Sim.v as the [cryptography] library sees it, and a
    peer of the simulated network that runs the Python server on what it
    receives. *)
From S2P Require Import Prelude Contracts Canonical Wire Framing Crypto CryptoSpec Job PyText PyJson PyLoads PyJob PyTransport PyAuth.
From S2P Require Import JobAuth Interop SignedInterop Tcp Engine Executor Liveness PythonNode SimCodec Sim Scenarios.

#[export] Instance sim_ed25519 : Ed25519 := {
  Ed25519PrivateKey := bytes;
  Ed25519PublicKey := bytes;
  sign := sim_signature;
  verify k sg m := if sim_valid k m sg then Ok tt else Raise InvalidSignature;
  from_public_bytes b := Ok b;
  public_bytes_raw k := k;
}.

#[export] Instance sim_same_scheme : SameScheme world.
Proof.
  refine {| py_private := fun k => k : @Ed25519PrivateKey sim_ed25519;
            py_public := fun k => k : @Ed25519PublicKey sim_ed25519 |}; done.
Defined.

#[export] Instance sim_ed25519_laws : Ed25519Laws.
Proof.
  refine {| public_key := fun k => k : @Ed25519PublicKey sim_ed25519 |}.
  - intros k m. cbn. unfold sim_valid. by rewrite bool_decide_eq_true_2.
  - apply sim_signature_length.
  - done.
  - intros p sg m e. cbn. destruct (sim_valid p m sg); congruence.
  - done.
Defined.

(** The connection a request arrives on, in two segments. *)
Definition arriving (frame : bytes) : conn := {|
  inbox := [take 3 frame; drop 3 frame]; peer_closed := false; room := None; sent := [] |}.

(** A node that runs [serve_one_job] with the handler of the tests. *)
Definition python_node (key kp : bytes) (now : Z) : peer := fun json =>
  sent (snd (serve_one_job 10 (handler (key : @Ed25519PublicKey sim_ed25519) kp now)
               (arriving (framed json)))).

Definition python_world : world :=
  test_world [(40011%Z, python_node local_private (make_seed 0x21) 1800000010)].

(** The C++ client against the Python node. *)
Example python_node_answers :
  match fst (AuthenticatedTcpAttemptExecutor.call_operator tcp_executor test_fuel
               (base_request (str "node-b")) (str "node-b") python_world) with
  | Ret (AttemptResponse.mk (Some result) None) =>
      JobResult.status result = str "OK" /\ JobResult.payload result = str "payload"
      /\ JobResult.completed_at result = 1800000011%Z
  | _ => False
  end.
Proof. vm_compute. split_and!; reflexivity. Qed.

(** The request of the adversarial test as Python reads it. *)
Definition py_request : job.JobRequest.t := py_sample_request (lit "payload").

Lemma py_request_interoperable : interoperable py_request.
Proof.
  split; try done.
  - by apply valid_texts_unpack.
  - by apply plain_texts_unpack.
Qed.
