(* ===== verification/PyWitnesses.v ===== *)
(** * Instances of the theorems about the Python reference

    Each lemma applies one theorem at a concrete input, with the signature
    scheme of PySim.v where the theorem is about signatures. *)
From S2P Require Import Prelude Contracts Canonical Unicode Framing Crypto CryptoSpec Wire WireParse Job JobAuth.
From S2P Require Import Threads PyThreads ThreeNodes PyTwoNodes.
From S2P Require Import PyText PyJson PyLoads PyRoundTrip PyJob PyTransport PyConflict PyAuth Interop SignedInterop.
From S2P Require Import PyFloat PyCapability PyDelta PySha256 PyRoutes Envelope WireInterop PyExchange SimCodec Sim Scenarios PySim.
Import auth.
Import wire.
Import rm_bridge.

(** ** Conflict resolution *)

Definition sample_delta (base : Z) (sender : String.string) : conflict.DeltaMeta.t :=
  conflict.DeltaMeta.mk base (base + 1) 1 (lit "org") (lit sender) (lit "m") true false.

Lemma sample_admissible base sender :
  forallb scalarb (lit sender) = true -> admissible (sample_delta base sender).
Proof.
  intros H. split; [done|done|done|]. cbn.
  split_and!; [by apply forallb_scalar|by apply forallb_scalar|by apply forallb_scalar].
Qed.

Lemma replicas_converge_witness :
  let s := sample_delta 0 "agent" in
  let a := sample_delta 1 "a" in
  let b := sample_delta 1 "b" in
  delivered s [a; b] b /\ delivered s [b; a] b /\ b ∈ [s; a; b].
Proof.
  cbv zeta.
  assert (delivered (sample_delta 0 "agent") [sample_delta 1 "a"; sample_delta 1 "b"] (sample_delta 1 "b")) as H1
    by (repeat (apply delivered_cons; [apply Z.leb_le; vm_compute; reflexivity|]); apply delivered_nil).
  assert (delivered (sample_delta 0 "agent") [sample_delta 1 "b"; sample_delta 1 "a"] (sample_delta 1 "b")) as H2
    by (repeat (apply delivered_cons; [apply Z.leb_le; vm_compute; reflexivity|]); apply delivered_nil).
  destruct (replicas_converge (sample_delta 0 "agent") [sample_delta 1 "a"; sample_delta 1 "b"]
    [sample_delta 1 "b"; sample_delta 1 "a"] (sample_delta 1 "b") (sample_delta 1 "b")) as (_ & Hin & _);
    [by apply sample_admissible| |by apply Permutation_swap|exact H1|exact H2|].
  - constructor; [by apply sample_admissible|]. constructor; [by apply sample_admissible|done].
  - split; [exact H1|]. split; [exact H2|exact Hin].
Defined.

(** ** The handshake *)

Lemma honest_device_is_admitted_witness :
  let a := honest_attempt (E := sim_ed25519) (make_seed 1) (make_seed 2) (make_seed 3) (lit "1") (lit "2")
             (lit "c-1") (lit "sn") (lit "cn") (lit "org-1") (lit "device-1") (lit "0.1")
             [lit "sync"] [lit "sync"] (Some (lit "sync")) 0 1000 100 30 110 in
  verify_handshake a ∅ = (Ok (true, "ok"%string), {[lit "c-1"]} ∪ ∅)
  /\ verify_handshake a ({[lit "c-1"]} ∪ ∅) = (Ok (false, "replay"%string), {[lit "c-1"]} ∪ ∅).
Proof.
  apply (honest_device_is_admitted (E := sim_ed25519) (make_seed 1) (make_seed 2) (make_seed 3)
    (lit "1") (lit "2") (lit "c-1") (lit "sn") (lit "cn") (lit "org-1") (lit "device-1") (lit "0.1")
    [lit "sync"] [lit "sync"] (Some (lit "sync")) 0 1000 100 30 110 ∅ _ eq_refl).
  - apply not_elem_of_empty.
  - lia.
  - lia.
  - intros x [= <-]. by left.
Defined.

Definition sample_challenge (sn : String.string) : Challenge.t :=
  Challenge.mk (lit "c-1") (lit "cn") (lit sn) (lit "org-1") (lit "device-1") (lit "0.1") [lit "sync"] 100 130.

Definition sample_certificate : Certificate.t :=
  Certificate.mk 1 (lit "1") (lit "device-1") (lit "device") (lit "key") (lit "org-1") 0 1000
    [lit "sync"] (lit "Ed25519") (lit "sig").

Lemma signatures_bind_the_handshake_witness :
  Challenge.transcript (sample_challenge "s1") <> Challenge.transcript (sample_challenge "s2").
Proof.
  intros C. destruct (signatures_bind_the_handshake (sample_challenge "s1") (sample_challenge "s2")
    sample_certificate sample_certificate) as [[H _] _].
  1-2: apply valid_texts_unpack; vm_compute; reflexivity.
  1-2: constructor; [apply (bool_decide_unpack _); vm_compute; exact I
    |repeat (constructor; [apply lit_scalar; ascii_lit|]); constructor
    |repeat (constructor; [constructor; first [apply lit_scalar; ascii_lit
        | apply Nat.leb_le; vm_compute; reflexivity
        | apply Forall_singleton; constructor; apply lit_scalar; ascii_lit]|]); constructor].
  destruct (H C) as (i & e & Ec). discriminate (f_equal Challenge.server_nonce Ec).
Defined.

(** ** Across the languages *)

Definition node_key : @EVP_PKEY world sim_openssl := make_seed 5.

Lemma signatures_interoperate_witness :
  exists (q' : job.JobRequest.t) (w' : world),
     job.sign_job_request (py_sample_request (lit "payload")) (py_private node_key) = Ok q'
     /\ sign_job_request (W := world) (cpp_request (py_sample_request (lit "payload"))) (Some node_key)
          (test_world []) = (Ret (cpp_request q'), w').
Proof.
  destruct (signatures_interoperate (W := world) node_key (py_sample_request (lit "payload"))
    (py_sample_result (lit "payload")) (py_sample_notice (lit "down")) (test_world []))
    as ((q' & w' & H1 & H2 & _) & _);
    [by apply valid_texts_unpack|by apply plain_texts_unpack|done|reflexivity
    |by apply valid_texts_unpack|by apply plain_texts_unpack|reflexivity
    |by apply valid_texts_unpack|by apply plain_texts_unpack|reflexivity|].
  exists q', w'. split; [exact H1|exact H2].
Defined.

(** What arrives on the connection, in two segments, from a peer that closes. *)
Definition closing (frame : bytes) : conn := {|
  inbox := [take 3 frame; drop 3 frame]; peer_closed := true; room := None; sent := [] |}.

Lemma closing_inbox frame : concat (inbox (closing frame)) = frame.
Proof. cbn. by rewrite app_nil_r, take_drop. Qed.

Lemma segmented_unpack c : forallb (fun s => negb (bool_decide (s = []))) (inbox c) = true -> segmented c.
Proof.
  rewrite forallb_forall. intros H. apply Forall_forall. intros s Hin%list_elem_of_In%H.
  intros ->. done.
Qed.

Definition sample_request_frame : bytes :=
  framed (job_request_envelope_json (cpp_request (py_sample_request sample_text))).

Lemma frames_cross_languages_witness :
  (exists payload c', recv_frame 10 (closing sample_request_frame) = (Ok (lit "JOB_REQUEST", payload), c')
     /\ make_job_request payload = Ok (py_sample_request sample_text))
  /\ exists body, wire_envelope_type body = Ret (str "JOB_RESULT")
     /\ parse_job_result_envelope_json body = Ret (cpp_result (py_sample_result sample_text)).
Proof.
  destruct (frames_cross_languages 10 (py_sample_request sample_text) (py_sample_result sample_text)
    (py_sample_notice sample_text) (closing sample_request_frame) sample_request_frame [])
    as (Hr & _ & (payload & c' & H1 & H2 & _));
    [by apply valid_texts_unpack|done|done|by apply valid_texts_unpack|done|done
    |by apply valid_texts_unpack|done|done|done|lia|by apply segmented_unpack; vm_compute
    |done|vm_compute; reflexivity|by rewrite closing_inbox, app_nil_r|].
  split; [exists payload, c'; split; [exact H1|exact H2]|].
  destruct (Hr (snd (send_frame (lit "JOB_RESULT") (job.JobResult.asdict (py_sample_result sample_text))
    (closing sample_request_frame)))) as (body & _ & _ & _ & H3 & H4); [vm_compute; reflexivity|].
  exists body. split; [exact H3|exact H4].
Defined.

(** ** Between Python nodes *)

Definition exchange_request : job.JobRequest.t := py_sample_request sample_text.
Definition exchange_result : job.JobResult.t := py_sample_result sample_text.
Definition exchange_question : bytes :=
  framed (dumps (frame_obj (lit "JOB_REQUEST") (job.JobRequest.asdict exchange_request))).
Definition exchange_answer : bytes :=
  framed (dumps (frame_obj (lit "JOB_RESULT") (job.JobResult.asdict exchange_result))).

Lemma python_job_round_trip_witness :
  (exists cs', serve_one_job 10 (fun _ => Ok exchange_result)
     {| inbox := [take 3 exchange_question; drop 3 exchange_question]; peer_closed := true;
        room := None; sent := [] |} = (Ok tt, cs'))
  /\ exists c', send_job 10 exchange_request (closing exchange_answer) = (Ok exchange_result, c').
Proof.
  destruct (python_job_round_trip 10 (fun _ => Ok exchange_result) exchange_request exchange_question
    ltac:(lia) ltac:(writable_dict) ltac:(vm_compute; reflexivity) exchange_result exchange_answer
    (closing exchange_answer) (closing exchange_question) 3
    ltac:(writable_dict) ltac:(vm_compute; reflexivity))
    as (Hserve & Hsend & _);
    [by apply segmented_unpack; vm_compute|done|apply closing_inbox
    |by apply segmented_unpack; vm_compute|done|done|apply Nat.ltb_lt; vm_compute; reflexivity|].
  destruct (Hserve eq_refl) as (cs' & H1 & _). destruct (Hsend (closing_inbox _)) as (c' & H2 & _).
  split; [exists cs'; exact H1|exists c'; exact H2].
Defined.

(** Buffers of one byte, and a handler that answers or raises. *)
Lemma job_survives_interleaving_witness :
  always_ends 1 [] (threaded.send_job 10 exchange_request)
    (threaded.serve_one_job 10 (fun _ => Ok exchange_result)) (Ok exchange_result) (Ok tt) []
  /\ always_ends 1 [] (threaded.send_job 10 exchange_request)
       (threaded.serve_one_job 10 (fun _ => Raise KeyError))
       (Raise (ConnectionError "connection closed before frame completed")) (Raise KeyError) [].
Proof.
  split.
  - apply (job_survives_interleaving 10 (fun _ => Ok exchange_result) exchange_request exchange_question
      ltac:(lia) ltac:(writable_dict) ltac:(vm_compute; reflexivity) 1 ltac:(lia)) with exchange_answer;
      [reflexivity|writable_dict|vm_compute; reflexivity].
  - apply (job_survives_interleaving 10 (fun _ => Raise KeyError) exchange_request exchange_question
      ltac:(lia) ltac:(writable_dict) ltac:(vm_compute; reflexivity) 1 ltac:(lia)). reflexivity.
Defined.

(** The scripts, with the keys of the simulated scheme. *)
Definition sim_key (first : nat) : @Ed25519PrivateKey sim_ed25519 := three_nodes.seed first.
Definition load_private (b : bytes) : presult (@Ed25519PrivateKey sim_ed25519) := Ok b.

Lemma three_nodes_failover_witness :
  (exists r, three_nodes.main_ends load_private public_key 2 1 r)
  /\ forall r, three_nodes.main_ends load_private public_key 2 1 r -> r = Ok 0%Z.
Proof.
  apply (three_nodes_failover load_private 2 (replicate 32 x00) eq_refl ltac:(lia) 1 ltac:(lia)
    (sim_key 0) (sim_key 32) (sim_key 64) eq_refl).
Defined.

Example signed_echo_test_at_a_time r :
  two_nodes.test_ends 2 (sim_key 0) (sim_key 32) (public_key (sim_key 0)) (public_key (sim_key 32))
    1800000000 1 r -> r = Ok tt.
Proof. apply (signed_echo_test_passes 2 (sim_key 0) (sim_key 32) 1800000000); (lia || done). Qed.

(** ** Deltas and routes *)

Definition sample_reference_delta : ReferenceDelta.t :=
  ReferenceDelta.mk (JStr (lit "0.1")) (JStr (lit "m")) (JStr (lit "device:d")) (JStr (lit "org:o"))
    (JStr (lit "traj:t")) (JInt 0) (JInt 1) (JStr (lit "SET")) (JStr (lit "shared"))
    (JStr sample_text) (JStr (lit "digest")) (JInt 1) (JStr (lit "sig")).

Definition sample_delta_bytes : bytes :=
  match encode_reference_delta sample_reference_delta with Ok data => data | Raise _ => [] end.

Lemma reference_delta_round_trip_witness :
  encode_reference_delta sample_reference_delta = Ok sample_delta_bytes
  /\ decode_reference_delta 10 sample_delta_bytes = Ok sample_reference_delta.
Proof.
  assert (encode_reference_delta sample_reference_delta = Ok sample_delta_bytes) as E
    by (vm_compute; reflexivity).
  pose proof (reference_delta_round_trip 10 sample_reference_delta) as H. rewrite E in H.
  split; [exact E|]. apply H; [split|lia].
  - repeat (constructor; [cbn; by apply forallb_scalar|]). constructor.
  - repeat (constructor; [apply Nat.leb_le; vm_compute; reflexivity|]). constructor.
Defined.

Definition ascii_lower (s : pystr) : pystr :=
  map (fun c => if (65 <=? c) && (c <=? 90) then c + 32 else c)%Z s.

Lemma returns {A B} (p : A * B) a : fst p = a -> p = (a, snd p).
Proof. destruct p. by intros <-. Qed.

(** The agents of test_rm_ma2a_route_transfer.py. *)
Definition sensor : pystr := lit "sensor-voltage-high".
Definition sensor_key : pystr :=
  match condition_key ascii_lower sensor with Ok k => k | Raise _ => [] end.
Definition learn (result : String.string) : presult (pystr * bool * pystr) * memory :=
  resolve ascii_lower sensor (Some (fun _ => Ok (lit result))) None new.
Definition learned (result : String.string) : memory := snd (learn result).
Definition learned_address (result : String.string) : pystr :=
  match fst (learn result) with Ok (_, _, a) => a | Raise _ => [] end.
Definition exported (m : memory) (address : pystr) : presult bytes * memory :=
  export_delta address (lit "agent-a") (lit "org-example") (lit "msg-0001") 1 m.
Definition exported_bytes (m : memory) (address : pystr) : bytes :=
  match fst (exported m address) with Ok data => data | Raise _ => [] end.

Lemma route_memory_stays_coherent_witness :
  exists r, resolve ascii_lower (lit "  Sensor-VOLTAGE-high ") None None (learned "reduce_pwm_duty")
    = (Ok (RouteRecord.result r, true, learned_address "reduce_pwm_duty"), learned "reduce_pwm_duty").
Proof.
  destruct (route_memory_stays_coherent 10 ascii_lower (learned "reduce_pwm_duty")) as [H _].
  { apply (reachable_resolve 10 ascii_lower new sensor (Some (fun _ => Ok (lit "reduce_pwm_duty"))) None
      (fst (learn "reduce_pwm_duty"))); [apply reachable_new|exact (surjective_pairing _)]. }
  destruct (H (lit "  Sensor-VOLTAGE-high ") sensor_key (learned_address "reduce_pwm_duty") None None)
    as (r & Hr & _); [vm_compute; reflexivity|vm_compute; reflexivity|].
  exists r. exact Hr.
Defined.

Lemma learn_returns :
  learn "reduce_pwm_duty"
  = (Ok (lit "reduce_pwm_duty", false, learned_address "reduce_pwm_duty"), learned "reduce_pwm_duty").
Proof. apply (returns (learn "reduce_pwm_duty")). vm_compute. reflexivity. Qed.

Lemma exported_returns :
  exported (learned "reduce_pwm_duty") (learned_address "reduce_pwm_duty")
  = (Ok (exported_bytes (learned "reduce_pwm_duty") (learned_address "reduce_pwm_duty")),
     snd (exported (learned "reduce_pwm_duty") (learned_address "reduce_pwm_duty"))).
Proof.
  apply (returns (exported (learned "reduce_pwm_duty") (learned_address "reduce_pwm_duty"))).
  vm_compute. reflexivity.
Qed.

Lemma learned_route_serves_another_agent_witness :
  exists record b', import_delta 10
      (exported_bytes (learned "reduce_pwm_duty") (learned_address "reduce_pwm_duty")) new = (Ok record, b')
    /\ resolve ascii_lower sensor None None b'
       = (Ok (lit "reduce_pwm_duty", true, learned_address "reduce_pwm_duty"), b').
Proof.
  destruct (learned_route_serves_another_agent 10 ascii_lower sensor sensor_key (lit "reduce_pwm_duty")
    (learned_address "reduce_pwm_duty") false (fun _ => Ok (lit "reduce_pwm_duty")) None new
    (learned "reduce_pwm_duty")
    (snd (exported (learned "reduce_pwm_duty") (learned_address "reduce_pwm_duty"))) new
    (lit "agent-a") (lit "org-example") (lit "msg-0001") 1
    (exported_bytes (learned "reduce_pwm_duty") (learned_address "reduce_pwm_duty")))
    as (_ & _ & record & b' & H1 & _ & H2);
    [lia|vm_compute; reflexivity|vm_compute; reflexivity|exact learn_returns
    |by apply forallb_scalar|by apply forallb_scalar|by apply forallb_scalar
    |exact exported_returns|].
  exists record, b'. split; [exact H1|]. apply (H2 None None).
Defined.

(** A memory that files the two halves of the result otherwise. *)
Definition split_record : RouteRecord.t :=
  RouteRecord.mk (learned_address "open|shut") (sensor_key ++ lit "|" ++ lit "open") (lit "shut") 1
    (lit "shared").
Definition split_memory : memory :=
  {| _by_condition := ∅; _by_address := {[learned_address "open|shut" := split_record]};
     external_resolution_calls := 0 |}.

Lemma split_exported_returns :
  exported split_memory (learned_address "open|shut")
  = (Ok (exported_bytes split_memory (learned_address "open|shut")),
     snd (exported split_memory (learned_address "open|shut"))).
Proof.
  apply (returns (exported split_memory (learned_address "open|shut"))). vm_compute. reflexivity.
Qed.

Lemma route_address_is_ambiguous_witness :
  exists r b', import_delta 10 (exported_bytes split_memory (learned_address "open|shut"))
      (learned "open|shut") = (Ok r, b')
    /\ resolve ascii_lower sensor None None b' = (Ok (lit "shut", true, learned_address "open|shut"), b').
Proof.
  destruct (route_address_is_ambiguous 10 ascii_lower sensor sensor_key (lit "open") (lit "shut")
    (learned_address "open|shut")
    (RouteRecord.mk (learned_address "open|shut") sensor_key (lit "open|shut") 1 (lit "shared"))
    split_memory (snd (exported split_memory (learned_address "open|shut"))) (learned "open|shut")
    (lit "agent-a") (lit "org-example") (lit "msg-0001") 1
    (exported_bytes split_memory (learned_address "open|shut"))) as (_ & r & b' & H1 & H2);
    [lia|vm_compute; reflexivity| |vm_compute; reflexivity|vm_compute; reflexivity|reflexivity|vm_compute; reflexivity
    |vm_compute; reflexivity
    |by apply forallb_scalar|by apply forallb_scalar|by apply forallb_scalar
    |exact split_exported_returns|].
  - apply (reachable_coherent 10 ascii_lower).
    apply (reachable_resolve 10 ascii_lower new sensor (Some (fun _ => Ok (lit "open|shut"))) None
      (fst (learn "open|shut"))); [apply reachable_new|exact (surjective_pairing _)].
  - exists r, b'. split; [exact H1|exact H2].
Defined.

Lemma decoding_a_delta_ends_witness :
  decode_reference_delta 3 (str "[[[[") = Raise RecursionError
  /\ ReferenceDelta.validate sample_reference_delta = Ok tt.
Proof.
  destruct (decoding_a_delta_ends 3 sample_delta_bytes) as [Hd Hr]. split.
  - apply Hr. vm_compute. reflexivity.
  - assert (decode_reference_delta 3 sample_delta_bytes = Ok sample_reference_delta) as E
      by (vm_compute; reflexivity).
    rewrite E in Hd. exact (proj1 Hd).
Defined.

(** An attempt of the honest device, and one with another's signature. *)
Definition sample_attempt (device : Z) : attempt :=
  let a := honest_attempt (E := sim_ed25519) (make_seed 1) (make_seed 2) (make_seed 3) (lit "1") (lit "2")
             (lit "c-1") (lit "sn") (lit "cn") (lit "org-1") (lit "device-1") (lit "0.1")
             [lit "sync"] [lit "sync"] (Some (lit "sync")) 0 1000 100 30 110 in
  {| challenge := challenge a;
     signature := sign_challenge (H := sim_ed25519) (challenge a) (make_seed device);
     device_certificate := device_certificate a; organization_certificate := organization_certificate a;
     root_public_key := root_public_key a; organization_status := organization_status a;
     required_capability := required_capability a; now := now a; device_status := device_status a |}.

Lemma verifier_admits_exactly_the_authorised_witness :
  authorised (E := sim_ed25519) (sample_attempt 3) ∅ /\ ~ authorised (E := sim_ed25519) (sample_attempt 4) ∅.
Proof.
  destruct (verifier_admits_exactly_the_authorised (E := sim_ed25519) (sample_attempt 3) ∅)
    as (b & reason & used & H & Hb & _).
  destruct (verifier_admits_exactly_the_authorised (E := sim_ed25519) (sample_attempt 4) ∅)
    as (b' & reason' & used' & H' & Hb' & _).
  assert (fst (verify_handshake (H := sim_ed25519) (sample_attempt 3) ∅) = Ok (true, "ok"%string)) as E
    by (vm_compute; reflexivity).
  assert (fst (verify_handshake (H := sim_ed25519) (sample_attempt 4) ∅) = Ok (false, "invalid_signature"%string))
    as E' by (vm_compute; reflexivity).
  rewrite H in E. rewrite H' in E'. injection E as -> _. injection E' as -> _.
  split; [by apply Hb|]. intros C%Hb'. discriminate.
Defined.

Lemma challenge_admits_once_witness :
  let '(admitted, used) :=
    session (E := sim_ed25519) [sample_attempt 4; sample_attempt 3; sample_attempt 3] ∅ in
  admitted = [lit "c-1"] /\ used = list_to_set admitted ∪ ∅.
Proof.
  pose proof (challenge_admits_once (E := sim_ed25519) [sample_attempt 4; sample_attempt 3; sample_attempt 3] ∅) as H.
  assert (fst (session (E := sim_ed25519) [sample_attempt 4; sample_attempt 3; sample_attempt 3] ∅)
    = [lit "c-1"]) as E by (vm_compute; reflexivity).
  destruct (session (E := sim_ed25519) _ ∅) as [admitted used]. destruct H as (_ & _ & Hu).
  split; [exact E|exact Hu].
Defined.

(** ** Capability advertisements *)

Definition sample_advertisement (scopes : list pystr) : advertisement.CapabilityAdvertisement.t :=
  advertisement.CapabilityAdvertisement.mk (lit "0.2") (lit "cap-1") (lit "node-a") (Some (lit "org-1")) 7
    100 200 true (float_of_decimal false 64 0) (float_of_decimal false 25 (-2)) [lit "small_llm"; lit "qwen_7b"]
    [lit "electronics"] scopes (lit "Ed25519") [].

Lemma advertisements_are_authentic_witness :
  exists s, advertisement.sign_capability_advertisement (H := sim_ed25519)
      (sample_advertisement [lit "PUBLIC"; lit "ORGANIZATION"]) (make_seed 7) = Ok s
  /\ advertisement.verify_capability_advertisement (H := sim_ed25519) s (make_seed 7) (Some 150%Z) = Ok true
  /\ advertisement.verify_capability_advertisement (H := sim_ed25519) s (make_seed 7) (Some 201%Z) <> Ok true.
Proof.
  destruct (advertisements_are_authentic (E := sim_ed25519)
    (sample_advertisement [lit "PUBLIC"; lit "ORGANIZATION"]) (make_seed 7)) as [_ H].
  destruct (advertisement.sign_capability_advertisement (H := sim_ed25519) _ (make_seed 7)) as [s|e] eqn:Es.
  - destruct H as (_ & _ & Hv & _). exists s. split; [done|]. split.
    + apply Hv. cbn. lia.
    + intros C%Hv. cbn in C. lia.
  - destruct H as [C _]. vm_compute in C. discriminate.
Defined.

Definition encodableb (a : advertisement.CapabilityAdvertisement.t) : bool :=
  forallb (forallb scalarb) (texts a)
  && forallb (fun z => Nat.leb (length (digits_of 10 (Z.abs z))) int_max_str_digits)
       [advertisement.CapabilityAdvertisement.sequence a; advertisement.CapabilityAdvertisement.issued_at a;
        advertisement.CapabilityAdvertisement.expires_at a]
  && forallb (SpecFloat.valid_binary 53 1024)
       [advertisement.CapabilityAdvertisement.compute_capacity a; advertisement.CapabilityAdvertisement.current_load a].

Lemma encodable_unpack a : encodableb a = true -> encodable a.
Proof.
  unfold encodableb. rewrite !andb_true_iff, !forallb_forall. intros [[Ht Hz] Hf]. split.
  - apply valid_texts_unpack. by apply forallb_forall.
  - apply Forall_forall. intros z Hin%list_elem_of_In%Hz. by apply Nat.leb_le.
  - apply Forall_forall. by intros x Hin%list_elem_of_In%Hf.
Qed.

Lemma signed_text_binds_the_advertisement_witness :
  canonical_json (advertisement.CapabilityAdvertisement.unsigned_payload (sample_advertisement [lit "PUBLIC"]))
  <> canonical_json (advertisement.CapabilityAdvertisement.unsigned_payload
                       (sample_advertisement [lit "ORGANIZATION"])).
Proof.
  intros C%(signed_text_binds_the_advertisement (sample_advertisement [lit "PUBLIC"])
    (sample_advertisement [lit "ORGANIZATION"])); [|apply encodable_unpack; vm_compute; reflexivity..].
  discriminate (f_equal advertisement.CapabilityAdvertisement.supported_scopes C).
Defined.
