(* ===== verification/PyUnitTests.v ===== *)
(** * The tests of the Python reference

    Each example evaluates the model on the fixtures of a test: test_auth.py,
    test_auth_malformed.py, test_capability.py, test_conflict_resolver.py,
    test_process_roundtrip.py, test_wire_hardening.py,
    test_rm_ma2a_route_transfer.py, test_job_transport.py (its round trip is in
    PyTwoNodes.v) and reference/python/tests/test_wire_contract.py.
    Keys and signatures are those of PySim.v; what [secrets] would return is a
    literal. *)
From Stdlib Require Import SpecFloat.
From S2P Require Import Prelude Canonical Unicode CryptoSpec PyText PyFloat PyJson PyLoads PyJob PyTransport PyConflict PyDelta PyRoutes.
From S2P Require Import PyAuth PyCapability SimCodec Sim Scenarios PySim.
From stdpp Require Import gmap.
Import auth.

(** ** test_auth.py *)

Module auth_tests.
Definition now : Z := 1800000000.

#[local] Existing Instance sim_ed25519.

Definition root : bytes := make_seed 1.
Definition organization : bytes := make_seed 2.
Definition device : bytes := make_seed 3.

Definition organization_certificate_until (not_before not_after : Z) : Certificate.t :=
  issue_certificate (lit "serial-1") (lit "ma2a-root") (root : Ed25519PrivateKey)
    (lit "org:acme") (lit "organization") (organization : Ed25519PublicKey)
    not_before not_after [lit "delegate"].
Definition device_certificate_until (not_before not_after : Z) : Certificate.t :=
  issue_certificate (lit "serial-2") (lit "org:acme") (organization : Ed25519PrivateKey)
    (lit "device:robot-7") (lit "device") (device : Ed25519PublicKey)
    not_before not_after [lit "sync:shared"].
Definition org_cert : Certificate.t := organization_certificate_until (now - 60) (now + 3600).
Definition device_cert : Certificate.t := device_certificate_until (now - 60) (now + 600).

Definition made : presult Challenge.t :=
  make_challenge (lit "challenge-1") (lit "server-nonce") (lit "org:acme") (lit "device:robot-7")
    (lit "client-nonce") (lit "0.1") [lit "sync:shared"] now 30.
Definition the_challenge : Challenge.t :=
  Challenge.mk (lit "challenge-1") (lit "client-nonce") (lit "server-nonce") (lit "org:acme")
    (lit "device:robot-7") (lit "0.1") [lit "sync:shared"] now (now + 30).
Definition the_signature : pystr := sign_challenge the_challenge (device : Ed25519PrivateKey).

Example fixture_challenge : made = Ok the_challenge.
Proof. vm_compute. reflexivity. Qed.

Definition case (root : Ed25519PublicKey) (org_cert device_cert : Certificate.t) (c : Challenge.t)
    (sg : pystr) (now : Z) (organization_status device_status required : String.string) : attempt :=
  {| challenge := c; signature := sg; device_certificate := device_cert;
     organization_certificate := org_cert; root_public_key := root;
     organization_status := lit organization_status; required_capability := Some (lit required);
     auth.now := now; device_status := lit device_status |}.

(** [HandshakeVerifier().verify(...)], of a verifier that consumed nothing. *)
Definition verify_case (root : Ed25519PublicKey) (org_cert device_cert : Certificate.t) (c : Challenge.t)
    (sg : pystr) (now : Z) (organization_status device_status required : String.string)
    : presult (bool * String.string) :=
  fst (verify_handshake (case root org_cert device_cert c sg now organization_status device_status required) ∅).

(** [dataclasses.replace] of a member. *)
Definition with_capabilities (caps : list pystr) (c : Certificate.t) : Certificate.t :=
  Certificate.mk (Certificate.version c) (Certificate.serial c) (Certificate.subject_id c)
    (Certificate.subject_kind c) (Certificate.subject_public_key c) (Certificate.issuer_id c)
    (Certificate.not_before c) (Certificate.not_after c) caps (Certificate.signature_algorithm c)
    (Certificate.issuer_signature c).
Definition with_issuer (issuer : pystr) (c : Certificate.t) : Certificate.t :=
  Certificate.mk (Certificate.version c) (Certificate.serial c) (Certificate.subject_id c)
    (Certificate.subject_kind c) (Certificate.subject_public_key c) issuer
    (Certificate.not_before c) (Certificate.not_after c) (Certificate.capabilities c)
    (Certificate.signature_algorithm c) (Certificate.issuer_signature c).
Definition with_issuer_signature (sg : pystr) (c : Certificate.t) : Certificate.t :=
  Certificate.mk (Certificate.version c) (Certificate.serial c) (Certificate.subject_id c)
    (Certificate.subject_kind c) (Certificate.subject_public_key c) (Certificate.issuer_id c)
    (Certificate.not_before c) (Certificate.not_after c) (Certificate.capabilities c)
    (Certificate.signature_algorithm c) sg.
Definition with_version (v : Z) (c : Certificate.t) : Certificate.t :=
  Certificate.mk v (Certificate.serial c) (Certificate.subject_id c)
    (Certificate.subject_kind c) (Certificate.subject_public_key c) (Certificate.issuer_id c)
    (Certificate.not_before c) (Certificate.not_after c) (Certificate.capabilities c)
    (Certificate.signature_algorithm c) (Certificate.issuer_signature c).
Definition with_public_key (key : pystr) (c : Certificate.t) : Certificate.t :=
  Certificate.mk (Certificate.version c) (Certificate.serial c) (Certificate.subject_id c)
    (Certificate.subject_kind c) key (Certificate.issuer_id c)
    (Certificate.not_before c) (Certificate.not_after c) (Certificate.capabilities c)
    (Certificate.signature_algorithm c) (Certificate.issuer_signature c).
Definition with_client_nonce (nonce : pystr) (c : Challenge.t) : Challenge.t :=
  Challenge.mk (Challenge.challenge_id c) nonce (Challenge.server_nonce c) (Challenge.organization_id c)
    (Challenge.agent_or_device_id c) (Challenge.protocol_version c) (Challenge.selected_capabilities c)
    (Challenge.issued_at c) (Challenge.expires_at c).
Definition with_selected (caps : list pystr) (c : Challenge.t) : Challenge.t :=
  Challenge.mk (Challenge.challenge_id c) (Challenge.client_nonce c) (Challenge.server_nonce c)
    (Challenge.organization_id c) (Challenge.agent_or_device_id c) (Challenge.protocol_version c) caps
    (Challenge.issued_at c) (Challenge.expires_at c).

Definition denied (reason : String.string) : presult (bool * String.string) := Ok (false, reason).
Definition attacker : bytes := make_seed 4.

Example test_valid_handshake :
  verify_case root org_cert device_cert the_challenge the_signature now "ACTIVE" "ACTIVE" "sync:shared"
  = Ok (true, "ok"%string).
Proof. vm_compute. reflexivity. Qed.

Example test_replay_is_rejected :
  let a := case root org_cert device_cert the_challenge the_signature now "ACTIVE" "ACTIVE" "sync:shared" in
  fst (verify_handshake a (snd (verify_handshake a ∅))) = denied "replay".
Proof. vm_compute. reflexivity. Qed.

Example test_rejections :
  [verify_case root org_cert device_cert the_challenge (sign_challenge the_challenge (attacker : Ed25519PrivateKey))
     now "ACTIVE" "ACTIVE" "sync:shared";
   verify_case root org_cert device_cert the_challenge the_signature (now + 31) "ACTIVE" "ACTIVE" "sync:shared";
   verify_case root org_cert device_cert the_challenge the_signature now "REVOKED" "ACTIVE" "sync:shared";
   verify_case root org_cert device_cert the_challenge the_signature now "ACTIVE" "REVOKED" "sync:shared";
   verify_case root org_cert device_cert the_challenge the_signature now "ACTIVE" "ACTIVE" "publish:global";
   verify_case attacker org_cert device_cert the_challenge the_signature now "ACTIVE" "ACTIVE" "sync:shared";
   verify_case root org_cert (with_capabilities [lit "sync:shared"; lit "publish:global"] device_cert)
     the_challenge the_signature now "ACTIVE" "ACTIVE" "sync:shared";
   verify_case root org_cert (with_issuer (lit "org:other") device_cert) the_challenge the_signature
     now "ACTIVE" "ACTIVE" "sync:shared";
   verify_case root org_cert device_cert (with_client_nonce (lit "different-client-nonce") the_challenge)
     the_signature now "ACTIVE" "ACTIVE" "sync:shared";
   verify_case root org_cert device_cert (with_selected [lit "publish:global"] the_challenge)
     the_signature now "ACTIVE" "ACTIVE" "sync:shared";
   verify_case root org_cert (device_certificate_until (now - 120) (now - 1)) the_challenge the_signature
     now "ACTIVE" "ACTIVE" "sync:shared";
   verify_case root (organization_certificate_until (now - 120) (now - 1)) device_cert the_challenge
     the_signature now "ACTIVE" "ACTIVE" "sync:shared"]
  = map denied ["invalid_signature"; "expired_challenge"; "inactive_organization"; "inactive_device";
                "unauthorized_capability"; "invalid_organization_certificate";
                "invalid_device_certificate"; "invalid_delegation"; "invalid_signature";
                "invalid_signature"; "invalid_device_certificate";
                "invalid_organization_certificate"]%string.
Proof. vm_compute. reflexivity. Qed.

(** ** test_auth_malformed.py *)

Definition garbage : pystr := lit "%%%not-base64%%%".

Example test_malformed_fails_closed :
  [verify_case root (with_issuer_signature garbage org_cert) device_cert the_challenge the_signature
     now "ACTIVE" "ACTIVE" "sync:shared";
   verify_case root org_cert (with_issuer_signature garbage device_cert) the_challenge the_signature
     now "ACTIVE" "ACTIVE" "sync:shared";
   verify_case root org_cert device_cert the_challenge garbage now "ACTIVE" "ACTIVE" "sync:shared";
   verify_case root (with_version 99 org_cert) device_cert the_challenge the_signature
     now "ACTIVE" "ACTIVE" "sync:shared";
   verify_case root org_cert (with_public_key (lit "%%%") device_cert) the_challenge the_signature
     now "ACTIVE" "ACTIVE" "sync:shared"]
  = map denied ["invalid_organization_certificate"; "invalid_device_certificate"; "invalid_signature";
                "invalid_organization_certificate"; "invalid_device_certificate"]%string.
Proof. vm_compute. reflexivity. Qed.
End auth_tests.

(** ** test_capability.py *)

Module capability_tests.
Import advertisement.
#[local] Existing Instance sim_ed25519.

Definition advertised (message_id : String.string) (sequence : Z) (capacity load : spec_float)
    (models memory_domains supported_scopes : list String.string) : CapabilityAdvertisement.t :=
  CapabilityAdvertisement.mk (lit "0.2") (lit message_id) (lit "node-a") (Some (lit "org-1")) sequence
    100 200 true capacity load (map lit models) (map lit memory_domains) (map lit supported_scopes)
    (lit "Ed25519") [].
Definition with_load (load : spec_float) (a : CapabilityAdvertisement.t) : CapabilityAdvertisement.t :=
  CapabilityAdvertisement.mk (CapabilityAdvertisement.protocol_version a)
    (CapabilityAdvertisement.message_id a) (CapabilityAdvertisement.node_id a)
    (CapabilityAdvertisement.organization_id a) (CapabilityAdvertisement.sequence a)
    (CapabilityAdvertisement.issued_at a) (CapabilityAdvertisement.expires_at a)
    (CapabilityAdvertisement.available a) (CapabilityAdvertisement.compute_capacity a) load
    (CapabilityAdvertisement.models a) (CapabilityAdvertisement.memory_domains a)
    (CapabilityAdvertisement.supported_scopes a) (CapabilityAdvertisement.signature_algorithm a)
    (CapabilityAdvertisement.signature a).

Definition private : bytes := make_seed 7.
Definition signed (a : CapabilityAdvertisement.t) : presult CapabilityAdvertisement.t :=
  sign_capability_advertisement a (private : Ed25519PrivateKey).
Definition verified (a : CapabilityAdvertisement.t) (now : Z) : presult bool :=
  verify_capability_advertisement a (private : Ed25519PublicKey) (Some now).

Definition float (d p : Z) : spec_float := float_of_decimal false d p.

Definition advertisement_1 : CapabilityAdvertisement.t :=
  advertised "cap-1" 7 (float 64 0) (float 25 (-2)) ["qwen_7b"; "small_llm"] ["electronics"]
    ["ORGANIZATION"; "PUBLIC"].

Example test_signed_capability_advertisement_verifies :
  (s ← signed advertisement_1; verified s 150) = Ok true.
Proof. vm_compute. reflexivity. Qed.

Example signed_text :
  canonical_json (CapabilityAdvertisement.unsigned_payload advertisement_1)
  = json_literal "{'available':true,'compute_capacity':64.0,'current_load':0.25,'expires_at':200,'issued_at':100,'memory_domains':['electronics'],'message_id':'cap-1','models':['qwen_7b','small_llm'],'node_id':'node-a','organization_id':'org-1','protocol_version':'0.2','sequence':7,'signature_algorithm':'Ed25519','supported_scopes':['ORGANIZATION','PUBLIC']}".
Proof. vm_compute. reflexivity. Qed.

Example test_capability_tampering_is_detected :
  (s ← signed (advertised "cap-2" 1 (float 64 0) (float 25 (-2)) ["small_llm"] [] ["PUBLIC"]);
   verified (with_load (S754_zero false) s) 150) = Ok false.
Proof. vm_compute. reflexivity. Qed.

Example test_expired_capability_is_rejected :
  (s ← signed (advertised "cap-3" 1 (float 32 0) (float 5 (-1)) [] [] ["PUBLIC"]);
   verified s 201) = Ok false.
Proof. vm_compute. reflexivity. Qed.

(** [validate] refuses a load that is no number, but not such a capacity: the
    comparison with 0 is false.  What is then signed is no JSON. *)
Example capacity_that_is_no_number :
  (s ← signed (advertised "cap-4" 1 S754_nan (float 5 (-1)) [] [] ["PUBLIC"]); verified s 150) = Ok true
  /\ CapabilityAdvertisement.validate (advertised "cap-4" 1 (float 32 0) S754_nan [] [] ["PUBLIC"]) None
     = Raise (ValueError "current_load must be between 0 and 1")
  /\ dumps (PFloat S754_nan) = str "NaN".
Proof. vm_compute. split_and!; reflexivity. Qed.

Import capability.
Definition notice : FailureNotice.t :=
  FailureNotice.mk (lit "0.2") (lit "fail-1") (lit "req-9") (lit "node-a") (lit "node-b")
    (lit "transport_timeout") 123 (lit "Ed25519") [].
Definition with_failed_node (v : pystr) (n : FailureNotice.t) : FailureNotice.t :=
  FailureNotice.mk (FailureNotice.protocol_version n) (FailureNotice.message_id n)
    (FailureNotice.request_id n) (FailureNotice.reporting_node_id n) v (FailureNotice.reason n)
    (FailureNotice.observed_at n) (FailureNotice.signature_algorithm n) (FailureNotice.signature n).

Example test_signed_failure_notice_verifies_and_tampering_fails :
  (s ← sign_failure_notice notice (private : Ed25519PrivateKey);
   valid ← verify_failure_notice s (private : Ed25519PublicKey);
   tampered ← verify_failure_notice (with_failed_node (lit "node-c") s) (private : Ed25519PublicKey);
   Ok (valid, tampered)) = Ok (true, false).
Proof. vm_compute. reflexivity. Qed.
End capability_tests.

(** ** test_job_transport.py *)

Module job_transport_tests.
Import job.
#[local] Existing Instance sim_ed25519.

Definition private : bytes := make_seed 9.
Definition sample (operation payload : String.string) (issued_at expires_at : Z) : JobRequest.t :=
  JobRequest.mk (lit "0.1") (lit "m") (lit "r") (lit "a") (lit "b") (Some (lit "org"))
    (lit operation) (lit payload) issued_at expires_at (lit "Ed25519") [].
Definition with_target (v : pystr) (r : JobRequest.t) : JobRequest.t :=
  JobRequest.mk (JobRequest.protocol_version r) (JobRequest.message_id r) (JobRequest.request_id r)
    (JobRequest.sender_node_id r) v (JobRequest.organization_id r) (JobRequest.operation r)
    (JobRequest.payload r) (JobRequest.issued_at r) (JobRequest.expires_at r)
    (JobRequest.signature_algorithm r) (JobRequest.signature r).
Definition signed (r : JobRequest.t) : presult JobRequest.t := sign_job_request r (private : Ed25519PrivateKey).
Definition verified (r : JobRequest.t) (now : Z) : presult bool :=
  verify_job_request r (private : Ed25519PublicKey) (Some now).

Example test_tampered_job_request_fails_signature :
  (s ← signed (sample "PING" "" 1800000000 1800000030); verified (with_target (lit "node-c") s) 1800000000)
  = Ok false.
Proof. vm_compute. reflexivity. Qed.

Example test_expired_job_request_is_rejected :
  (s ← signed (sample "PING" "" 10 20); verified s 21) = Ok false.
Proof. vm_compute. reflexivity. Qed.

Example test_arbitrary_operation_is_not_allowed :
  signed (sample "EXEC" "rm -rf /" 10 20) = Raise (ValueError "unsupported job operation").
Proof. vm_compute. reflexivity. Qed.
End job_transport_tests.

(** ** test_conflict_resolver.py *)

Module conflict_tests.
Import conflict.

Definition d (base new clock : Z) (org sender msg : String.string) : DeltaMeta.t :=
  DeltaMeta.mk base new clock (lit org) (lit sender) (lit msg) true false.
Definition replayed (m : DeltaMeta.t) : DeltaMeta.t :=
  DeltaMeta.mk (DeltaMeta.base_version m) (DeltaMeta.new_version m) (DeltaMeta.logical_clock m)
    (DeltaMeta.organization_id m) (DeltaMeta.sender_id m) (DeltaMeta.message_id m)
    (DeltaMeta.scope_allowed m) true.
Definition out_of_scope (m : DeltaMeta.t) : DeltaMeta.t :=
  DeltaMeta.mk (DeltaMeta.base_version m) (DeltaMeta.new_version m) (DeltaMeta.logical_clock m)
    (DeltaMeta.organization_id m) (DeltaMeta.sender_id m) (DeltaMeta.message_id m) false
    (DeltaMeta.replay m).

Definition a : DeltaMeta.t := d 1 2 10 "A" "a" "1".
Definition b : DeltaMeta.t := d 1 2 10 "B" "a" "1".

Example conflict_tests :
  [resolve (d 0 1 1 "org" "agent" "local") (d 1 2 2 "org" "agent" "incoming");
   resolve (d 0 1 1 "org" "agent" "m") (replayed (d 1 2 2 "org" "agent" "m"));
   resolve (d 0 1 1 "org" "agent" "m") (out_of_scope (d 1 2 2 "org" "agent" "m"));
   resolve (d 1 3 3 "org" "agent" "m") (d 1 2 2 "org" "agent" "m");
   resolve a b; resolve b a;
   resolve (d 0 1 1 "org" "agent" "m") (d 5 6 6 "org" "agent" "m")]
  = map Ok [ACCEPT_INCOMING; REJECT_REPLAY; REJECT_SCOPE; REJECT_STALE; ACCEPT_INCOMING; KEEP_LOCAL;
            REJECT_UNRESOLVED].
Proof. vm_compute. reflexivity. Qed.
End conflict_tests.

(** ** The tests of deltas: test_process_roundtrip.py, test_wire_hardening.py *)

Module delta_tests.
Import wire.

(** The recursion limit of the interpreter leaves this much. *)
Definition depth : nat := 900.

Definition delta_with (message_id sender organization address : String.string) (base new : Z)
    (operation scope payload digest : String.string) (clock : Z) (signature : String.string)
    : ReferenceDelta.t :=
  ReferenceDelta.mk (JStr (lit "0.1")) (JStr (lit message_id)) (JStr (lit sender))
    (JStr (lit organization)) (JStr (lit address)) (JInt base) (JInt new) (JStr (lit operation))
    (JStr (lit scope)) (JStr (lit payload)) (JStr (lit digest)) (JInt clock) (JStr (lit signature)).

Definition process_delta : ReferenceDelta.t :=
  delta_with "msg-001" "device:robot-7" "org:acme" "traj:42" 7 8 "PATCH" "shared" "ref:payload-8"
    "sha256:example" 91 "ed25519:example".

Example test_reference_delta_roundtrips_across_independent_processes :
  (data ← encode_reference_delta process_delta;
   delta ← decode_reference_delta depth data;
   echoed ← encode_reference_delta delta;
   Ok (bool_decide (echoed = data), ReferenceDelta.organization_id delta, ReferenceDelta.new_version delta))
  = Ok (true, JStr (lit "org:acme"), JInt 8).
Proof. vm_compute. reflexivity. Qed.

Definition valid_delta (operation scope : String.string) (new : Z) : ReferenceDelta.t :=
  delta_with "m" "device:d" "org:o" "traj:t" 0 new operation scope "payload" "digest" 1 "sig".

Example test_invalid_operation_scope_and_versions_are_rejected :
  map encode_reference_delta [valid_delta "EXECUTE" "shared" 1; valid_delta "SET" "secret" 1; valid_delta "SET" "shared" (-1)]
  = map (fun msg => Raise (ValueError msg)) ["invalid operation"; "invalid scope"; "negative version"]%string.
Proof. vm_compute. reflexivity. Qed.

(** The text of the valid delta, with the end of its object replaced. *)
Definition with_end (rest : String.string) : bytes :=
  json_literal "{'base_version':0,'integrity_digest':'digest','logical_clock':1,'message_id':'m','new_version':1,'operation':'SET','organization_id':'org:o','payload_or_reference':'payload','protocol_version':'0.1','scope':'shared','sender_id':'device:d'"
  ++ json_literal rest.

Example test_missing_and_extra_fields_are_rejected :
  encode_reference_delta (valid_delta "SET" "shared" 1)
  = Ok (with_end ",'signature':'sig','trajectory_address':'traj:t'}")
  /\ map (fun rest => decode_reference_delta depth (with_end rest))
       [",'trajectory_address':'traj:t'}";
        ",'signature':'sig','trajectory_address':'traj:t','unexpected':1}"]%string
     = let refused := Raise (ValueError "unexpected or missing fields") in [refused; refused].
Proof. vm_compute. split; reflexivity. Qed.

Example test_oversized_reference_delta_is_rejected :
  decode_reference_delta depth (str "{" ++ replicate (Z.to_nat MAX_REFERENCE_DELTA_BYTES) x78 ++ str "}")
  = Raise (ValueError "reference delta too large").
Proof. vm_compute. reflexivity. Qed.
End delta_tests.

(** ** test_rm_ma2a_route_transfer.py *)

Module route_tests.
Import rm_bridge.
Import delta_tests.

(** The conditions of the tests are in lower case. *)
Definition lower (s : pystr) : pystr := s.

Definition resolver_a (condition : pystr) : presult pystr :=
  if decide (condition = lit "sensor-voltage-high") then Ok (lit "reduce_pwm_duty")
  else Raise AssertionError.
Definition validator (result : pystr) : presult bool := Ok (bool_decide (result = lit "reduce_pwm_duty")).
Definition resolver_b (condition : pystr) : presult pystr := Ok (lit "should-not-be-called").

Definition agent_a_run : RM (pystr * bool * (pystr * bool) * bool * bytes) :=
  '(result_1, hit_1, address_1) ← resolve lower (lit "sensor-voltage-high") (Some resolver_a) (Some validator);
  '(result_2, hit_2, address_2) ← resolve lower (lit "sensor-voltage-high") (Some resolver_a) None;
  data ← export_delta address_1 (lit "agent-a") (lit "org-example") (lit "msg-0001") 1;
  mret (result_1, hit_1, (result_2, hit_2), bool_decide (address_1 = address_2), data).

Definition agent_b_run (data : bytes) : RM (pystr * pystr * bool * bool) :=
  imported ← import_delta depth data;
  '(result_b, hit_b, address_b) ← resolve lower (lit "sensor-voltage-high") (Some resolver_b) None;
  mret (RouteRecord.result imported, result_b, hit_b,
        bool_decide (address_b = RouteRecord.trajectory_address imported)).

Example test_agent_a_learns_and_agent_b_reuses_same_route_without_fallback :
  let '(a, memory_a) := agent_a_run new in
  match a with
  | Ok (result_1, hit_1, (result_2, hit_2), same_address, data) =>
      let '(b, memory_b) := agent_b_run data new in
      [result_1; result_2] = [lit "reduce_pwm_duty"; lit "reduce_pwm_duty"]
      /\ [hit_1; hit_2; same_address] = [false; true; true]
      /\ b = Ok (lit "reduce_pwm_duty", lit "reduce_pwm_duty", true, true)
      /\ external_resolution_calls memory_a = 1%Z /\ external_resolution_calls memory_b = 0%Z
  | Raise _ => False
  end.
Proof. vm_compute. split_and!; reflexivity. Qed.

(** [data.replace(old, new)]; [skip] counts the bytes of an [old] found. *)
Fixpoint replace_bytes (old new : bytes) (skip : nat) (data : bytes) : bytes :=
  match data with
  | [] => []
  | c :: data' =>
      match skip with
      | S skip => replace_bytes old new skip data'
      | O => if decide (take (length old) data = old)
             then new ++ replace_bytes old new (length old - 1) data'
             else c :: replace_bytes old new 0 data'
      end
  end.

Definition agent_a_export : RM bytes :=
  '(_, _, address) ← resolve lower (lit "known-condition") (Some (fun _ => Ok (lit "known-action"))) None;
  export_delta address (lit "agent-a") (lit "org-example") (lit "msg-0002") 2.

Example test_import_rejects_tampered_payload :
  match fst (agent_a_export new) with
  | Ok encoded =>
      let tampered := replace_bytes (str "known-action") (str "wrong-action") 0 encoded in
      import_delta depth tampered new = (Raise (ValueError "integrity mismatch"), new)
      /\ fst (import_delta depth encoded new) <> Raise (ValueError "integrity mismatch")
  | Raise _ => False
  end.
Proof. vm_compute. split; [reflexivity|discriminate]. Qed.
End route_tests.

(** ** test_wire_contract.py *)

Definition wire_job : job.JobRequest.t := {|
  job.JobRequest.protocol_version := lit "0.2"; job.JobRequest.message_id := lit "msg-interop-1";
  job.JobRequest.request_id := lit "job-interop-1"; job.JobRequest.sender_node_id := lit "node-python";
  job.JobRequest.target_node_id := lit "node-cpp"; job.JobRequest.organization_id := Some (lit "org-1");
  job.JobRequest.operation := lit "ECHO"; job.JobRequest.payload := lit "hello";
  job.JobRequest.issued_at := 1700000000; job.JobRequest.expires_at := 1700000060;
  job.JobRequest.signature_algorithm := lit "Ed25519"; job.JobRequest.signature := lit "abc123==" |}.

Example test_job_request_wire_contract_is_canonical_and_matches_native_fixture :
  let '(r, left_) := send_frame (lit "JOB_REQUEST") (job.JobRequest.asdict wire_job)
                       {| inbox := []; peer_closed := false; room := None; sent := [] |} in
  r = Ok tt
  /\ unpack_I (take 4 (sent left_)) = Z.of_nat (length (drop 4 (sent left_)))
  /\ drop 4 (sent left_) = json_literal "{'payload':{'expires_at':1700000060,'issued_at':1700000000,'message_id':'msg-interop-1','operation':'ECHO','organization_id':'org-1','payload':'hello','protocol_version':'0.2','request_id':'job-interop-1','sender_node_id':'node-python','signature':'abc123==','signature_algorithm':'Ed25519','target_node_id':'node-cpp'},'type':'JOB_REQUEST'}"
  /\ MAX_FRAME_BYTES = (1024 * 1024)%Z.
Proof. vm_compute. split_and!; reflexivity. Qed.
