(* ===== verification/Stress.v ===== *)
(** * The stress gate (cpp/tests/resilient_execution_stress_test.cpp)

    The engine over the routing adapter, with an executor that lets the first
    nodes fail, is run again and again; an iteration that deviates from the
    expected trace counts as a divergence.  The test runs 10000 iterations for
    each number of failovers; the theorem covers any number. *)
From S2P Require Import Prelude Contracts Canonical Orchestrator Engine Adapter.
Import ResolutiveRoutingProvider.

Definition expected_trace (failovers : Z) : list bytes :=
  if (failovers =? 0)%Z then [str "node-b"] else
  if (failovers =? 1)%Z then [str "node-b"; str "node-c"] else
  [str "node-b"; str "node-c"; str "node-d"].

(** The executor of [run_scenario]. *)
Definition stress_executor {W : Type} (failovers : Z) : AttemptExecutor W := fun request target =>
  let fail_b := (1 <=? failovers)%Z && bool_decide (target = str "node-b") in
  let fail_c := (2 <=? failovers)%Z && bool_decide (target = str "node-c") in
  if fail_b || fail_c then
    mret (AttemptResponse.mk None (Some {|
      FailureNotice.protocol_version := JobRequest.protocol_version request;
      FailureNotice.message_id :=
        str "stress-failure-" ++ JobRequest.request_id request ++ str "-" ++ target;
      FailureNotice.request_id := JobRequest.request_id request;
      FailureNotice.reporting_node_id := target;
      FailureNotice.failed_node_id := target;
      FailureNotice.reason := str "stress_injected_failure";
      FailureNotice.observed_at := 1800000001;
      FailureNotice.signature_algorithm := str "Ed25519";
      FailureNotice.signature := str "authenticated-by-stress-fixture" |}))
  else
    mret (AttemptResponse.mk (Some {|
      JobResult.protocol_version := JobRequest.protocol_version request;
      JobResult.message_id := str "stress-result-" ++ JobRequest.request_id request;
      JobResult.request_id := JobRequest.request_id request;
      JobResult.responder_node_id := target;
      JobResult.recipient_node_id := JobRequest.sender_node_id request;
      JobResult.status := str "OK";
      JobResult.payload := JobRequest.payload request;
      JobResult.completed_at := 1800000002;
      JobResult.signature_algorithm := str "Ed25519";
      JobResult.signature := str "authenticated-by-stress-fixture" |}) None).

(** The request of an iteration; [std::to_string] prints in decimal. *)
Definition stress_request (failovers : Z) (i : nat) : JobRequest.t := {|
  JobRequest.protocol_version := str "0.2";
  JobRequest.message_id := str "stress-msg-" ++ ostream_dec (Z.of_nat i);
  JobRequest.request_id :=
    str "stress-job-" ++ ostream_dec failovers ++ str "-" ++ ostream_dec (Z.of_nat i);
  JobRequest.sender_node_id := str "node-a"; JobRequest.target_node_id := [];
  JobRequest.organization_id := str "org-1"; JobRequest.operation := str "ECHO";
  JobRequest.payload := str "stress-payload"; JobRequest.issued_at := 1800000000;
  JobRequest.expires_at := 1800000060; JobRequest.signature_algorithm := str "Ed25519";
  JobRequest.signature := [] |}.

(** The loop over the attempts. *)
Fixpoint trace_matches (expected : list bytes) (attempts : list ExecutionAttempt.t) : bool :=
  match expected, attempts with
  | node :: expected, attempt :: attempts =>
      bool_decide (ExecutionAttempt.node_id attempt = node)
      && bool_decide (ExecutionAttempt.outcome attempt
                      = match expected with [] => str "OK" | _ => str "FAILED" end)
      && trace_matches expected attempts
  | _, _ => true
  end.

(** [valid] at the end of an iteration. *)
Definition stress_valid (failovers : Z) (request : JobRequest.t)
    (outcome : ResilientExecutionOutcome.t) : bool :=
  let s := ResilientExecutionOutcome.state outcome in
  let expected := expected_trace failovers in
  ExecutionState.completed s && negb (ResilientExecutionOutcome.exhausted outcome)
  && (length (ExecutionState.attempts s) =? length expected)
  && match ExecutionState.result s with
     | None => false
     | Some result =>
         (Z.of_nat (size (ExecutionState.excluded_nodes s)) =? failovers)%Z
         && trace_matches expected (ExecutionState.attempts s)
         && bool_decide (Some (JobResult.responder_node_id result) = last expected)
         && bool_decide (JobResult.request_id result = JobRequest.request_id request)
     end.

Section stress.
Context `{R : ResolutiveRouting} {W : Type}.
Context (nodes : list NodeSnapshot).

(** The engine of [run_scenario]. *)
Definition stress_engine (failovers : Z) : ResilientExecutionEngine.t W :=
  ResilientExecutionEngine.mk_t (call_operator (create nodes)) (stress_executor failovers) 4.

(** The loop from iteration [i] on, with the divergences so far. *)
Fixpoint stress_loop (failovers : Z) (iterations i divergences : nat) : M W nat :=
  match iterations with
  | O => mret divergences
  | S iterations =>
      outcome ← ResilientExecutionEngine.execute (stress_engine failovers) (stress_request failovers i);
      stress_loop failovers iterations (S i)
        (if stress_valid failovers (stress_request failovers i) outcome
         then divergences else S divergences)
  end.

(** The divergences [run_scenario] measures. *)
Definition run_scenario (failovers : Z) (iterations : nat) : M W nat :=
  stress_loop failovers iterations 0 0.

(** The nodes are listed from the best to the worst, and the router selects
    the best node it is given. *)
Definition fixture_nodes : Prop :=
  map node_id nodes = [str "node-b"; str "node-c"; str "node-d"; str "node-e"].
Definition prefers_listed : Prop := forall request eligible,
  eligible `sublist_of` nodes -> exists d, router_route default_router request eligible = Ret d
    /\ selected_node_id d = node_id <$> head eligible.
End stress.

Section proofs.
Context `{R : ResolutiveRouting} {W : Type}.
Context (nodes : list NodeSnapshot) (Hnodes : fixture_nodes nodes) (Hroute : prefers_listed nodes).

Lemma stress_route q ex (w : W) :
  call_operator (create nodes) q ex w
  = (Ret (head (filter (fun id => id ∉ ex)
       [str "node-b"; str "node-c"; str "node-d"; str "node-e"])), w).
Proof.
  unfold call_operator. rewrite eligible_nodes_filter. cbn [app nodes_ router_ create].
  destruct (Hroute (routing_request q) (filter (fun n => node_id n ∉ ex) nodes)) as (d & E & Hd).
  { apply sublist_filter. }
  erewrite run_bind by (unfold lift; by rewrite E). rewrite Hd.
  unfold mret, M_ret. do 2 f_equal.
  clear Hd E. revert Hnodes. unfold fixture_nodes.
  generalize [str "node-b"; str "node-c"; str "node-d"; str "node-e"].
  clear Hroute. induction nodes as [|n l IH]; intros ids <-; [done|]. cbn [map].
  rewrite !filter_cons. destruct (decide (node_id n ∉ ex)) as [H|H]; [done|by apply IH].
Qed.

(** The node a round routes to, with these nodes excluded. *)
Lemma stress_round q ex node (w : W) :
  head (filter (fun id => id ∉ ex)
    [str "node-b"; str "node-c"; str "node-d"; str "node-e"]) = Some node ->
  call_operator (create nodes) q ex w = (Ret (Some node), w).
Proof. intros E. by rewrite stress_route, E. Qed.

Ltac routed := first [by apply stress_round | done | by vm_compute | reflexivity].

(** The run of an iteration, for any request. *)
Lemma stress_failover failovers q (w : W) :
  (0 <= failovers <= 2)%Z ->
  exists l target r, failover (call_operator (create nodes)) (stress_executor failovers) q ∅ 4 w l
      (Completed target r) w
    /\ map fst l ++ [target] = expected_trace failovers
    /\ JobResult.responder_node_id r = target /\ JobResult.request_id r = JobRequest.request_id q.
Proof.
  intros Hf. assert (failovers = 0 \/ failovers = 1 \/ failovers = 2)%Z as [-> | [-> | ->] ] by lia.
  - eexists [], _, _. split.
    + eapply failover_completed; routed.
    + by split_and!.
  - eexists [(_, _)], _, _. split.
    + eapply failover_failed; [routed..|]. eapply failover_completed; routed.
    + by split_and!.
  - eexists [(_, _); (_, _)], _, _. split.
    + do 2 (eapply failover_failed; [routed..|]). eapply failover_completed; routed.
    + by split_and!.
Qed.

(** The gate passes whatever state the process is in. *)
Lemma stress_iteration failovers q (w : W) :
  (0 <= failovers <= 2)%Z -> JobRequest.request_id q <> [] ->
  exists out, ResilientExecutionEngine.execute (stress_engine nodes failovers) q w = (Ret out, w)
    /\ stress_valid failovers q out = true.
Proof.
  intros Hf Hq. destruct (stress_failover failovers q w Hf) as (l & t & r & H & Ht & Hrt & Hrq).
  eexists. split.
  { apply execute_refines; [cbn; lia|]. split; [done|]. by exists l, (Completed t r). }
  unfold stress_valid, report.
  cbn [ResilientExecutionOutcome.state ResilientExecutionOutcome.exhausted ExecutionState.completed
       ExecutionState.attempts ExecutionState.result ExecutionState.excluded_nodes
       stop_result final_attempts].
  rewrite Hrt, decide_True by done. rewrite Hrq, (bool_decide_eq_true_2 (_ = JobRequest.request_id q)) by done.
  assert (failovers = 0 \/ failovers = 1 \/ failovers = 2)%Z as [-> | [-> | ->] ] by lia;
    apply (app_inj_tail _ [_; _]) in Ht || apply (app_inj_tail _ [_]) in Ht
    || apply (app_inj_tail _ []) in Ht; destruct Ht as [-> ->]; vm_compute; reflexivity.
Qed.

Lemma stress_loop_ok failovers iterations i divergences (w : W) :
  (0 <= failovers <= 2)%Z ->
  stress_loop nodes failovers iterations i divergences w = (Ret divergences, w).
Proof.
  intros Hf. revert i divergences. induction iterations as [|n IH]; intros i d; [done|].
  cbn [stress_loop]. destruct (stress_iteration failovers (stress_request failovers i) w Hf)
    as (out & E & Hv); [done|].
  erewrite run_bind by exact E. rewrite Hv. apply IH.
Qed.
End proofs.

(** The stress gate passes, however many iterations it runs.  Over nodes
    listed from the best to the worst and a router that selects the best node
    it is given, zero, one and two injected failures never produce a
    divergence: every iteration completes on the expected last node after
    exactly the expected failed attempts, with as many excluded nodes as
    failures, unexhausted, and with a result of its own request. *)
Lemma stress_gate_never_diverges `{R : ResolutiveRouting} {W : Type} (nodes : list NodeSnapshot)
    (Hnodes : fixture_nodes nodes) (Hroute : prefers_listed nodes)
    (failovers : Z) (iterations : nat) (w : W) (Hf : (0 <= failovers <= 2)%Z) :
  run_scenario nodes failovers iterations w = (Ret 0, w).
Proof. by apply stress_loop_ok. Qed.
