(* ===== verification/UnitTests.v ===== *)
(** * The repository's unit tests, run in the model

    The fixtures of cpp/tests/contract_test.cpp, execution_orchestrator_test.cpp,
    resilient_execution_test.cpp, real_routing_execution_test.cpp,
    job_framing_test.cpp, wire_contract_test.cpp and failure_notice_test.cpp.  Each example evaluates the model on a
    fixture and finds what the test asserts. *)
From Stdlib Require Import SpecFloat.
From S2P Require Import Prelude Contracts Canonical Wire Framing Job Crypto CryptoSpec JobAuth.
From S2P Require Import Orchestrator Engine Adapter SimCodec Sim Scenarios.
Import ExecutionFailoverOrchestrator.

(** ** contract_test.cpp *)

(** [64.0], [0.25], [0.0] and [1.0]; a comparison of doubles that are not NaN. *)
Definition capability_fixture : CapabilityAdvertisement.t := {|
  CapabilityAdvertisement.protocol_version := str "0.2";
  CapabilityAdvertisement.message_id := str "cap-1"; CapabilityAdvertisement.node_id := str "node-b";
  CapabilityAdvertisement.organization_id := str "org-1"; CapabilityAdvertisement.sequence := 1;
  CapabilityAdvertisement.issued_at := 100; CapabilityAdvertisement.expires_at := 200;
  CapabilityAdvertisement.available := true;
  CapabilityAdvertisement.compute_capacity := S754_finite false (2 ^ 52) (-46);
  CapabilityAdvertisement.current_load := S754_finite false (2 ^ 52) (-54);
  CapabilityAdvertisement.models := [str "small_llm"];
  CapabilityAdvertisement.memory_domains := [str "electronics"];
  CapabilityAdvertisement.supported_scopes := [Organization];
  CapabilityAdvertisement.signature_algorithm := str "Ed25519";
  CapabilityAdvertisement.signature := [] |}.

Example contract_test :
  let load := CapabilityAdvertisement.current_load capability_fixture in
  CapabilityAdvertisement.available capability_fixture = true
  /\ (CapabilityAdvertisement.issued_at capability_fixture
      < CapabilityAdvertisement.expires_at capability_fixture)%Z
  /\ SFleb (S754_zero false) load = true /\ SFleb load (S754_finite false (2 ^ 52) (-52)) = true.
Proof. vm_compute. split_and!; reflexivity. Qed.

(** ** execution_orchestrator_test.cpp *)

Definition unit_failure (request_id node signature : bytes) : FailureNotice.t := {|
  FailureNotice.protocol_version := []; FailureNotice.message_id := [];
  FailureNotice.request_id := request_id; FailureNotice.reporting_node_id := node;
  FailureNotice.failed_node_id := node; FailureNotice.reason := str "execution_unavailable";
  FailureNotice.observed_at := 0; FailureNotice.signature_algorithm := str "Ed25519";
  FailureNotice.signature := signature |}.

Definition unit_result (request_id node payload signature : bytes) : JobResult.t := {|
  JobResult.protocol_version := []; JobResult.message_id := [];
  JobResult.request_id := request_id; JobResult.responder_node_id := node;
  JobResult.recipient_node_id := []; JobResult.status := str "OK"; JobResult.payload := payload;
  JobResult.completed_at := 0; JobResult.signature_algorithm := str "Ed25519";
  JobResult.signature := signature |}.

(** A call that must throw: its exception is the value. *)
Definition thrown {S A : Type} (m : M S A) : M S (option exn) := fun s =>
  match m s with
  | (Ret _, s') => (Ret None, s')
  | (Throw e, s') => (Ret (Some e), s')
  | (Undef u, s') => (Undef u, s')
  | (OutOfFuel, s') => (OutOfFuel, s')
  end.

Definition orchestrator_test : M t (option exn * option exn) :=
  begin_attempt (str "node-b");;
  accept_authenticated_failure (unit_failure (str "job-1") (str "node-b") (str "authenticated-signature"));;
  rejected ← thrown (begin_attempt (str "node-b"));
  begin_attempt (str "node-c");;
  accept_authenticated_failure (unit_failure (str "job-1") (str "node-c") (str "authenticated-signature"));;
  begin_attempt (str "node-d");;
  accept_authenticated_result (unit_result (str "job-1") (str "node-d") (str "done")
    (str "authenticated-result-signature"));;
  closed ← thrown (begin_attempt (str "node-e"));
  mret (rejected, closed).

Definition limited_test : M t (option exn) :=
  begin_attempt (str "node-x");;
  accept_authenticated_failure (unit_failure (str "job-2") (str "node-x") (str "authenticated-signature"));;
  thrown (begin_attempt (str "node-y")).

Example execution_orchestrator_test :
  (match create (str "job-1") 3 with
   | Ret o => let '(r, o) := orchestrator_test o in Some (r, state o)
   | _ => None
   end)
  = Some (Ret (Some (invalid_argument "cannot retry excluded node"),
               Some (logic_error "execution already completed")),
          ExecutionState.mk (str "job-1")
            [ExecutionAttempt.mk (str "node-b") (str "FAILED");
             ExecutionAttempt.mk (str "node-c") (str "FAILED");
             ExecutionAttempt.mk (str "node-d") (str "OK")]
            {[str "node-b"; str "node-c"]} true
            (Some (unit_result (str "job-1") (str "node-d") (str "done")
    (str "authenticated-result-signature"))))
  /\ (match create (str "job-2") 1 with Ret o => Some (fst (limited_test o)) | _ => None end)
     = Some (Ret (Some (runtime_error "execution attempts exhausted"))).
Proof. vm_compute. split; reflexivity. Qed.

(** ** resilient_execution_test.cpp: the state is the trace of routes *)

Definition unit_nodes : list bytes := [str "node-b"; str "node-c"; str "node-d"].

Definition traced_routing : RouteProvider (list bytes) := fun _ excluded trace =>
  match filter (fun node => node ∉ excluded) unit_nodes with
  | node :: _ => (Ret (Some node), trace ++ [node])
  | [] => (Ret None, trace)
  end.

Definition unit_transport {W : Type} : AttemptExecutor W := fun request node =>
  if bool_decide (node = str "node-b") || bool_decide (node = str "node-c")
  then mret (AttemptResponse.mk None (Some (unit_failure (JobRequest.request_id request) node
         (str "verified-failure-signature"))))
  else mret (AttemptResponse.mk
         (Some (unit_result (JobRequest.request_id request) node (JobRequest.payload request)
            (str "verified-result-signature"))) None).

Definition unit_request : JobRequest.t := {|
  JobRequest.protocol_version := []; JobRequest.message_id := [];
  JobRequest.request_id := str "job-resilient-1"; JobRequest.sender_node_id := str "node-a";
  JobRequest.target_node_id := []; JobRequest.organization_id := [];
  JobRequest.operation := str "ECHO"; JobRequest.payload := str "payload";
  JobRequest.issued_at := 0; JobRequest.expires_at := 0;
  JobRequest.signature_algorithm := str "Ed25519"; JobRequest.signature := [] |}.

(** [engine.execute(request)] from an empty trace. *)
Definition unit_run (route : RouteProvider (list bytes)) (max_attempts : nat)
    : outcome ResilientExecutionOutcome.t * list bytes :=
  match ResilientExecutionEngine.create (Some route) (Some unit_transport) max_attempts with
  | Ret engine => ResilientExecutionEngine.execute engine unit_request []
  | Throw e => (Throw e, [])
  | _ => (OutOfFuel, [])
  end.

Example resilient_execution_test :
  unit_run traced_routing 4
  = (Ret (ResilientExecutionOutcome.mk
       (ExecutionState.mk (str "job-resilient-1")
          [ExecutionAttempt.mk (str "node-b") (str "FAILED");
           ExecutionAttempt.mk (str "node-c") (str "FAILED");
           ExecutionAttempt.mk (str "node-d") (str "OK")]
          {[str "node-b"; str "node-c"]} true
          (Some (unit_result (str "job-resilient-1") (str "node-d") (str "payload")
             (str "verified-result-signature")))) false),
     unit_nodes)
  /\ unit_run (fun _ _ => mret None) 2
     = (Ret (ResilientExecutionOutcome.mk
          (ExecutionState.mk (str "job-resilient-1") [] ∅ false None) false), [])
  /\ fst (unit_run (fun _ _ => mret (Some (str "node-b"))) 2)
     = Throw (logic_error "routing returned an excluded node").
Proof. vm_compute. split_and!; reflexivity. Qed.

(** ** real_routing_execution_test.cpp, with a router that takes the first node
    it is given in the place of the external one *)

Definition routed_executor {W : Type} : AttemptExecutor W := fun request target =>
  let signature := str "verified-before-engine" in
  if bool_decide (target = str "node-b") || bool_decide (target = str "node-c")
  then mret (AttemptResponse.mk None
         (Some (unit_failure (JobRequest.request_id request) target signature)))
  else mret (AttemptResponse.mk
         (Some (unit_result (JobRequest.request_id request) target (JobRequest.payload request)
            signature)) None).

Definition routed_job : JobRequest.t := {|
  JobRequest.protocol_version := []; JobRequest.message_id := [];
  JobRequest.request_id := str "job-real-routing-1"; JobRequest.sender_node_id := str "node-a";
  JobRequest.target_node_id := []; JobRequest.organization_id := str "org-1";
  JobRequest.operation := str "ECHO"; JobRequest.payload := str "real-routing";
  JobRequest.issued_at := 0; JobRequest.expires_at := 0;
  JobRequest.signature_algorithm := str "Ed25519"; JobRequest.signature := [] |}.

Definition routing_test : outcome ResilientExecutionOutcome.t :=
  match ResilientExecutionEngine.create
          (Some (ResolutiveRoutingProvider.call_operator
                   (ResolutiveRoutingProvider.create (R := first_node_routing) unit_nodes)))
          (Some (routed_executor (W := unit))) 4 with
  | Ret engine => fst (ResilientExecutionEngine.execute engine routed_job tt)
  | _ => OutOfFuel
  end.

Example real_routing_execution_test :
  routing_test
  = Ret (ResilientExecutionOutcome.mk
      (ExecutionState.mk (str "job-real-routing-1")
         [ExecutionAttempt.mk (str "node-b") (str "FAILED");
          ExecutionAttempt.mk (str "node-c") (str "FAILED");
          ExecutionAttempt.mk (str "node-d") (str "OK")]
         {[str "node-b"; str "node-c"]} true
         (Some (unit_result (str "job-real-routing-1") (str "node-d") (str "real-routing")
            (str "verified-before-engine")))) false).
Proof. vm_compute. reflexivity. Qed.

(** ** job_framing_test.cpp *)

Definition job_fixture (operation payload : bytes) : JobRequest.t := {|
  JobRequest.protocol_version := str "0.2"; JobRequest.message_id := str "msg-1";
  JobRequest.request_id := str "job-1"; JobRequest.sender_node_id := str "node-a";
  JobRequest.target_node_id := str "node-b"; JobRequest.organization_id := str "org-1";
  JobRequest.operation := operation; JobRequest.payload := payload;
  JobRequest.issued_at := 100; JobRequest.expires_at := 200;
  JobRequest.signature_algorithm := str "Ed25519"; JobRequest.signature := [] |}.

(** Validating at a time and executing. *)
Definition validate_and_execute (request : JobRequest.t) (now : Z) : outcome (bytes * bytes) :=
  validate_job_request request now;; Ret (execute_reference_job request).

Example job_framing_test :
  validate_and_execute (job_fixture (str "PING") []) 150 = Ret (str "OK", str "PONG")
  /\ validate_and_execute (job_fixture (str "ECHO") (str "hello")) 150 = Ret (str "OK", str "hello")
  /\ (frame ← encode_frame (json_literal "{'type':'job'}"); decode_complete_frame frame)
     = Ret (json_literal "{'type':'job'}")
  /\ validate_and_execute (job_fixture (str "SHELL") (str "hello")) 150
     = Throw (invalid_argument "unsupported job operation").
Proof. vm_compute. split_and!; reflexivity. Qed.

(** ** wire_contract_test.cpp *)

Definition wire_fixture : JobRequest.t := {|
  JobRequest.protocol_version := str "0.2"; JobRequest.message_id := str "msg-interop-1";
  JobRequest.request_id := str "job-interop-1"; JobRequest.sender_node_id := str "node-python";
  JobRequest.target_node_id := str "node-cpp"; JobRequest.organization_id := str "org-1";
  JobRequest.operation := str "ECHO"; JobRequest.payload := str "hello";
  JobRequest.issued_at := 1700000000; JobRequest.expires_at := 1700000060;
  JobRequest.signature_algorithm := str "Ed25519"; JobRequest.signature := str "abc123==" |}.

Definition wire_expected : bytes := json_literal
  "{'payload':{'expires_at':1700000060,'issued_at':1700000000,'message_id':'msg-interop-1','operation':'ECHO','organization_id':'org-1','payload':'hello','protocol_version':'0.2','request_id':'job-interop-1','sender_node_id':'node-python','signature':'abc123==','signature_algorithm':'Ed25519','target_node_id':'node-cpp'},'type':'JOB_REQUEST'}".

Example wire_contract_test :
  job_request_envelope_json wire_fixture = wire_expected
  /\ (frame ← encode_frame wire_expected; decode_complete_frame frame) = Ret wire_expected
  /\ encode_frame [] = Throw (invalid_argument "empty frame").
Proof. vm_compute. split_and!; reflexivity. Qed.

(** ** failure_notice_test.cpp, with the key and scheme of the simulated world *)

Definition notice_fixture (failed_node : bytes) (signature : bytes) : FailureNotice.t := {|
  FailureNotice.protocol_version := str "0.2"; FailureNotice.message_id := str "fail-msg-1";
  FailureNotice.request_id := str "job-42"; FailureNotice.reporting_node_id := str "node-a";
  FailureNotice.failed_node_id := failed_node; FailureNotice.reason := str "transport_timeout";
  FailureNotice.observed_at := 1800000100; FailureNotice.signature_algorithm := str "Ed25519";
  FailureNotice.signature := signature |}.

(** Signs the notice and verifies it as it is and with another failed node. *)
Definition notice_test (key : @EVP_PKEY world sim_openssl) : M world (bool * bool) :=
  notice ← sign_failure_notice (notice_fixture (str "node-b") []) (Some key);
  valid ← verify_failure_notice notice (Some key);
  tampered ← verify_failure_notice
    (notice_fixture (str "node-c") (FailureNotice.signature notice)) (Some key);
  mret (valid, tampered).

Example failure_notice_test :
  fst (notice_test (make_seed 0x00) (test_world [])) = Ret (true, false).
Proof. vm_compute. reflexivity. Qed.
