(* ===== verification/Witnesses.v ===== *)
(** * Instances of the theorems in the simulated world

    Each lemma applies one theorem of the development to the world of Sim.v
    and discharges its hypotheses there, so none of them is vacuous. *)
From S2P Require Import Prelude Contracts Canonical Reader Wire WireParse Framing Crypto CryptoSpec JobAuth Tcp.
From S2P Require Import Network Transport Timing AuthKeeps Resources Orchestrator Engine Adapter Executor Liveness Hostile System.
From S2P Require Import Deadlines Drivers CrossLang.
From S2P Require Import SimCodec Sim Scenarios Stress PyText PyJson PyLoads PyJob PyTransport Interop SignedInterop PythonNode PySim.

(** ** Signatures *)

Definition d_key : @EVP_PKEY world sim_openssl := d_private.

Lemma base64url_round_trip_witness :
  exists text, base64url_encode (W := world) [x00; xff; x10; x80] = Ret text
    /\ base64url_decode (W := world) text = Ret [x00; xff; x10; x80].
Proof.
  destruct (base64url_round_trip (W := world) [x00; xff; x10; x80] ltac:(vm_compute; done))
    as (text & H1 & H2 & _). by exists text.
Defined.

Lemma verification_total_and_sound_witness :
  exists b w', verify_job_result (W := world) d_result (Some d_key) (test_world [])
               = (Ret b, w').
Proof.
  destruct (verification_total_and_sound (W := world) (Some d_key) d_result
    (failure_for (base_request []) (str "node-b")) (test_world [])
    ltac:(vm_compute; done) ltac:(vm_compute; done)) as [(b & w' & H & _) _].
  by exists b, w'.
Defined.

Lemma sign_verify_round_trip_witness :
  exists r' w1 w2,
    sign_job_result (W := world) (result_of (str "node-d") (str "m") 7) (Some d_key) (test_world [])
    = (Ret r', w1)
    /\ verify_job_result (W := world) r' (Some d_key) (test_world []) = (Ret true, w2).
Proof.
  destruct (sign_verify_round_trip (W := world) d_key (result_of (str "node-d") (str "m") 7)
    (failure_for (base_request []) (str "node-b")) (test_world []) (test_world []))
    as [(r' & w1 & w2 & H1 & _ & H2) _].
  by exists r', w1, w2.
Defined.

(** ** The network *)

(** A world in which descriptor 3 will deliver these bytes. *)
Definition incoming (data : bytes) : world :=
  mk_world 2 1 {[0%Z; 1%Z; 2%Z; 3%Z]} 4 {[3%Z := data]} ∅ ∅ [] ∅ no_wait.

Definition two_frames : bytes := framed (str "hello") ++ framed (str "next").

Lemma receive_is_segmentation_independent_witness :
  exists w', recv_framed_json 20 3 (incoming two_frames) = (Ret (str "hello"), w')
    /\ stream_in 3 w' = framed (str "next").
Proof.
  assert (recv_framed_json 20 3 (incoming two_frames)
    = (Ret (str "hello"), snd (recv_framed_json 20 3 (incoming two_frames)))) as E
    by (vm_compute; reflexivity).
  destruct (receive_is_segmentation_independent (W := world) 20 3 _ _ _ E) as [_ H].
  exists (snd (recv_framed_json 20 3 (incoming two_frames))). split; [exact E|].
  refine (proj2 (H (str "hello") (framed (str "hello")) (framed (str "next")) _ _));
    vm_compute; reflexivity.
Defined.

Definition oversized_header : header := (x00, x10, x00, x01).

Lemma bad_header_is_refused_witness :
  exists w' consumed, stream_in 3 (incoming (header_bytes oversized_header ++ str "rest"))
      = consumed ++ stream_in 3 w' /\ length consumed <= 4.
Proof.
  destruct (bad_header_is_refused (W := world) 20 3
    (incoming (header_bytes oversized_header ++ str "rest")) oversized_header (str "rest")
    (length_error "frame too large")) as (w' & c & H1 & H2 & _); [by vm_compute|done|].
  by exists w', c.
Defined.

Lemma send_puts_one_frame_witness :
  exists sent, stream_out 3 (snd (send_framed_json 20 3 (str "hello") (incoming []))) = [] ++ sent
    /\ sent `prefix_of` framed (str "hello").
Proof.
  pose proof (send_puts_one_frame (W := world) 20 3 (str "hello") (incoming [])
    (fst (send_framed_json 20 3 (str "hello") (incoming [])))
    (snd (send_framed_json 20 3 (str "hello") (incoming []))) (surjective_pairing _)) as H.
  assert (encode_frame (str "hello") = Ret (framed (str "hello"))) as E by by vm_compute.
  rewrite E in H. destruct H as (sent & H1 & H2 & _). exists sent. split; [exact H1|exact H2].
Defined.

(** Enough rounds for the largest frame; the number itself does not matter. *)
Lemma large_fuel_exists : { fuel : nat | (Z.of_nat 3 + kMaxFrameBytes + 4 < Z.of_nat fuel)%Z }.
Proof. exists (Z.to_nat 2000000). rewrite Z2Nat.id; unfold kMaxFrameBytes; lia. Qed.

Definition large_fuel : nat := proj1_sig large_fuel_exists.

Lemma large_fuel_enough : (Z.of_nat 3 + kMaxFrameBytes + 4 < Z.of_nat large_fuel)%Z.
Proof. exact (proj2_sig large_fuel_exists). Qed.

Lemma framed_exchange_terminates_witness :
  defined (fst (recv_framed_json large_fuel 3 (incoming two_frames))).
Proof.
  apply (framed_exchange_terminates (W := world) large_fuel 3 (str "hello") (incoming two_frames)).
  pose proof large_fuel_enough. change (signals (incoming two_frames)) with 2. lia.
Defined.

Lemma deadlines_are_exact_witness :
  (tv_sec (timeval_of_ms 1500) * 1000000 + tv_usec (timeval_of_ms 1500) = 1500 * 1000)%Z.
Proof.
  by destruct (deadlines_are_exact (W := world) (P := sim_posix) 3 1500 (incoming [])
    (snd (set_socket_io_timeout (P := sim_posix) 3 1500 (incoming []))) ltac:(vm_compute; reflexivity))
    as ((_ & _ & _ & H) & _).
Defined.

Lemma connect_leaks_no_descriptor_witness :
  match connect_ipv4_with_timeout large_fuel (str "127.0.0.1") 40001 200
          (test_world [(40001%Z, sends [])]) with
  | (Ret sock, w') => w_open w' = {[SocketHandle.get sock]} ∪ {[0%Z; 1%Z; 2%Z]}
  | (Throw _, w') => w_open w' = {[0%Z; 1%Z; 2%Z]}
  | _ => False
  end.
Proof.
  pose proof (connect_leaks_no_descriptor (W := world) large_fuel (str "127.0.0.1") 40001 200
    (test_world [(40001%Z, sends [])]) large_fuel_enough _ (or_intror eq_refl)) as H.
  destruct (connect_ipv4_with_timeout _ _ _ _ _) as [[sock| | |] w']; [|done..]. by destruct H as (_ & H & _).
Defined.

(** ** The engine *)

(** The client of the failover test. *)
Definition test_engine (fuel : nat) : ResilientExecutionEngine.t world :=
  ResilientExecutionEngine.mk_t
    (ResolutiveRoutingProvider.call_operator
       (ResolutiveRoutingProvider.create (R := first_node_routing) test_nodes))
    (AuthenticatedTcpAttemptExecutor.call_operator tcp_executor fuel) 4.

Definition test_run : outcome ResilientExecutionOutcome.t * world :=
  ResilientExecutionEngine.execute (test_engine test_fuel) job (test_world three_servers).

(** What the run returned. *)
Definition test_outcome : ResilientExecutionOutcome.t :=
  match fst test_run with
  | Ret out => out
  | _ => ResilientExecutionOutcome.mk (ExecutionState.mk [] [] ∅ false None) false
  end.

Lemma returned {A S : Type} (p : outcome A * S) (d : A) :
  (match fst p with Ret _ => true | _ => false end) = true ->
  p = (Ret (match fst p with Ret a => a | _ => d end), snd p).
Proof. by destruct p as [[]]. Qed.

Lemma test_run_returns : test_run = (Ret test_outcome, snd test_run).
Proof. apply returned. vm_compute. reflexivity. Qed.

Lemma execute_refines_failover_witness :
  exists l e, failover
    (ResilientExecutionEngine.route_provider_ (test_engine test_fuel))
    (ResilientExecutionEngine.attempt_executor_ (test_engine test_fuel)) job ∅ 4
    (test_world three_servers) l e (snd test_run).
Proof.
  destruct (proj1 (execute_refines_failover (test_engine test_fuel) job (test_world three_servers)
    test_outcome (snd test_run) ltac:(cbn; lia)) test_run_returns) as (_ & l & e & H & _).
  by exists l, e.
Defined.

Lemma execution_outcome_well_formed_witness :
  NoDup (map ExecutionAttempt.node_id
           (ExecutionState.attempts (ResilientExecutionOutcome.state test_outcome))).
Proof.
  exact (proj1 (execution_outcome_well_formed (test_engine test_fuel) job
    (test_world three_servers) test_outcome (snd test_run) ltac:(cbn; lia) test_run_returns)).
Defined.

(** The nodes of the test are named. *)
Lemma test_nodes_named : Forall (fun n => @node_id first_node_routing n <> []) test_nodes.
Proof. repeat constructor; vm_compute; done. Qed.

Lemma adapter_is_a_route_provider_witness :
  RouteProviderSpec (fun _ : world => True)
    (ResilientExecutionEngine.route_provider_ (test_engine large_fuel)).
Proof.
  exact (proj1 (adapter_is_a_route_provider (W := world) (fun _ => True) test_nodes test_nodes_named)).
Defined.

(** The resolvers of the tests are total and leave the world alone. *)
Lemma resolver_keeps {A} (o : bytes -> option A) (I : world -> Prop) id :
  keeps False False I (mret (o id)) (fun _ => True).
Proof. by apply keeps_ret. Qed.

Lemma sim_enough n F : n <= 3 -> enough_fuel large_fuel (sys_state n F).
Proof. intros Hn w [Hw _]. pose proof large_fuel_enough. lia. Qed.

Lemma execution_is_total_witness :
  match ResilientExecutionEngine.execute (test_engine large_fuel) job (test_world three_servers) with
  | (Ret _, w') | (Throw _, w') => sys_state 3 {[0%Z; 1%Z; 2%Z]} w'
  | (Undef _, _) => peer_overflows large_fuel (sys_state 3)
  | (OutOfFuel, _) => False
  end.
Proof.
  pose proof (execution_is_total (test_engine large_fuel) job (sys_state 3 {[0%Z; 1%Z; 2%Z]})
    (peer_overflows large_fuel (sys_state 3))
    (adapter_interface _ _ test_nodes_named)
    (executor_interface tcp_executor large_fuel (sys_state 3)
       (fun F => sim_enough 3 F (le_n 3)) (fun F id => resolver_keeps node_endpoint _ id)
       (fun F id => resolver_keeps node_key _ id) {[0%Z; 1%Z; 2%Z]})
    (test_world three_servers) ltac:(cbn; lia) ltac:(vm_compute; done) ltac:(split; [cbn; lia|done])) as H.
  destruct (ResilientExecutionEngine.execute _ _ _) as [[| | |] w']; [by destruct H..|exact H|exact H].
Defined.

(** ** The executor *)

Definition good_world : world :=
  test_world [(40013%Z, answers_to (signed_attempt_envelope job (str "node-d") local_private)
                          (framed (job_result_envelope_json d_result)))].
Definition d_request : JobRequest.t := JobRequest.set_target_node_id (str "node-d") job.
Definition d_attempt : outcome AttemptResponse.t * world :=
  AuthenticatedTcpAttemptExecutor.call_operator tcp_executor test_fuel d_request (str "node-d") good_world.

Lemma d_attempt_returns : d_attempt = (Ret (AttemptResponse.mk (Some d_result) None), snd d_attempt).
Proof.
  rewrite (surjective_pairing d_attempt) at 1.
  apply (f_equal (fun o => (o, snd d_attempt))). vm_compute. reflexivity.
Qed.

Lemma attempt_evidence_is_authentic_witness :
  accepted tcp_executor d_request (str "node-d") (AttemptResponse.mk (Some d_result) None).
Proof.
  exact (proj2 (proj2 (attempt_evidence_is_authentic tcp_executor test_fuel d_request (str "node-d")
    good_world _ _ d_attempt_returns))).
Defined.

Lemma attempt_evidence_is_well_typed_witness :
  parse_job_result_envelope_json (job_result_envelope_json d_result) = Ret d_result.
Proof.
  exact (proj1 (proj2 (attempt_evidence_is_well_typed tcp_executor
    ltac:(intros w; split; vm_compute; discriminate)
    test_fuel d_request (str "node-d") good_world _ _ d_attempt_returns)) d_result None eq_refl).
Defined.

Lemma attempt_signs_for_its_target_witness :
  exists endpoint w1, node_endpoint (str "node-d") = Some endpoint
    /\ AuthenticatedTcpAttemptExecutor.endpoint_resolver_ tcp_executor (str "node-d") good_world
       = (Ret (Some endpoint), w1).
Proof.
  destruct (attempt_signs_for_its_target tcp_executor test_fuel d_request (str "node-d") good_world
    d_result _ d_attempt_returns) as (ep & k & so & j & w1 & w2 & w3 & w4 & w5 & w6 & H & _).
  exists ep, w1. split; [|exact H]. injection H as <- _. reflexivity.
Defined.

Lemma attempt_ends_without_leak_witness :
  match AuthenticatedTcpAttemptExecutor.call_operator tcp_executor large_fuel d_request
          (str "node-d") good_world with
  | (Ret _, w') | (Throw _, w') => nothing_leaked good_world w'
  | (Undef _, _) => peer_overflows large_fuel (as_now good_world)
  | (OutOfFuel, _) => False
  end.
Proof.
  pose proof (attempt_ends_without_leak tcp_executor large_fuel d_request (str "node-d") local_private
    good_world large_fuel_enough (sim_ssl_quiet 3)
    (fun F id => resolver_keeps node_endpoint _ id) (fun F id => resolver_keeps node_key _ id)
    eq_refl ltac:(vm_compute; done) eq_refl) as H.
  destruct (AuthenticatedTcpAttemptExecutor.call_operator _ _ _ _ _) as [[| | |] w'];
    [by destruct H..|exact H|exact H].
Defined.

(** A peer of the simulated world that answers one question. *)
Definition sim_asking (fd port : Z) (f : peer) (question reply : bytes) (w : world) : Prop :=
  w_port w !! fd = Some port /\ find_peer port (w_listening w) = Some f
  /\ stream (w_in w) fd = if decide (stream (w_out w) fd = question) then reply else [].

(** What the peer says to a prefix of the question. *)
Lemma answer_to_prefix fd port f q question w got rest :
  encode_frame q = Ret question -> w_port w !! fd = Some port ->
  find_peer port (w_listening w) = Some f -> got ++ rest = question ->
  answer fd got w = if decide (got = question) then f q else [].
Proof.
  intros Eq Hp Hl Ho. unfold answer. rewrite Hp. unfold default, from_option, id. rewrite Hl.
  case_decide as E.
  - rewrite E. apply decode_complete_frame_iff in Eq. by rewrite Eq.
  - destruct (decode_complete_frame got) as [json| | |] eqn:Ej; [|done..].
    apply decode_complete_frame_iff in Ej. destruct E.
    rewrite <-(app_nil_r question) in Ho.
    destruct (frame_prefix_unique _ _ _ _ _ _ Ej Eq Ho) as [_ ->].
    by apply app_inv_tail in Ho.
Qed.

Lemma sim_answering fd port f q question reply :
  encode_frame q = Ret question -> f q = reply ->
  AnsweringPeer fd [] question reply (sim_asking fd port f question reply) (fun _ => True).
Proof.
  intros Eq Ef. split.
  - intros data flags w r w' (Hp & Hl & Hi) Hd Ho (w1 & [(-> & _ & n & ->)|E]%interruptible_cases & ->)%timed_inv;
      [by split; [|right]|].
    injection E as <- <-. split; [|left; destruct data; [done|cbn; lia]].
    cbn [stream_out sim_socket_streams app] in Ho.
    unfold sim_asking. cbn [spend set_timing set_streams w_port w_listening w_in w_out]. rewrite !stream_insert.
    split_and!; [done|done|]. rewrite Hi, decide_False, app_nil_l.
    + erewrite answer_to_prefix by (done || (rewrite <-app_assoc, take_drop; exact Ho)).
      by rewrite Ef.
    + intros E. rewrite E in Ho. apply Hd. by apply (app_inv_head question); rewrite app_nil_r.
  - intros w (_ & _ & Hi) Ho. split; [done|]. exists []. cbn in Hi, Ho |- *.
    by rewrite Hi, decide_True, app_nil_r.
  - intros n flags w r data w' _ Hn Hs (w1 & [([= -> ->] & _ & k & ->)|E]%interruptible_cases & ->)%timed_inv;
      (split; [done|]); [by right|left].
    cbn in Hs. cbn [sys_recv sim_posix] in E. unfold sim_recv in E.
    case_decide as Hd; injection E as <- <- <-.
    + destruct n; [lia|]. by destruct (stream (w_in w) fd).
    + destruct (take _ _); [done|]. cbn. lia.
Qed.

(** The steps of the attempt at D. *)
Definition dialogue_fuel : nat := 2000.
Definition asked_world : world := snd (sign_job_request d_request (Some local_private) good_world).
Definition connected_world : world :=
  snd (connect_ipv4_with_timeout dialogue_fuel (str "127.0.0.1") 40013 200 asked_world).
Definition d_question : bytes :=
  framed (job_request_envelope_json (signed_request (W := world) local_private d_request)).
Definition d_answer : bytes := framed (job_result_envelope_json d_result).

Lemma by_outcome {A S : Type} (p : outcome A * S) (a : A) :
  fst p = Ret a -> p = (Ret a, snd p).
Proof. destruct p. by intros [= ->]. Qed.

Lemma d_signed : sign_job_request d_request (Some local_private) good_world
  = (Ret (signed_request (W := world) local_private d_request), asked_world).
Proof. apply by_outcome. vm_compute. reflexivity. Qed.

Lemma d_connected :
  connect_ipv4_with_timeout dialogue_fuel (str "127.0.0.1") 40013 200 asked_world
  = (Ret (SocketHandle.mk 3), connected_world).
Proof. unfold connected_world. apply by_outcome. vm_compute. reflexivity. Qed.

(** The deadlines of a connection, set. *)
Definition with_deadlines (w : world) : world := snd (set_socket_io_timeout 3 50 w).

Lemma deadlines_set w : set_socket_io_timeout 3 50 w = (Ret tt, with_deadlines w).
Proof. done. Qed.

Lemma honest_peer_completes_attempt_witness :
  exists w', AuthenticatedTcpAttemptExecutor.call_operator tcp_executor dialogue_fuel d_request
               (str "node-d") good_world
             = (Ret (AttemptResponse.mk (Some d_result) None), w').
Proof.
  refine (honest_peer_completes_attempt tcp_executor dialogue_fuel d_request (str "node-d")
    local_private d_private (result_of (str "node-d") (str "msg-result-d") 1800000002)
    (TcpEndpoint.mk (str "127.0.0.1") 40013) (SocketHandle.mk 3) d_question d_answer
    (sim_asking 3 40013 (answers_to (signed_attempt_envelope job (str "node-d") local_private)
                           d_answer) d_question d_answer)
    (fun _ => True) good_world good_world asked_world connected_world (with_deadlines connected_world)
    ltac:(done) eq_refl eq_refl eq_refl d_signed d_connected
    (deadlines_set connected_world) ltac:(vm_compute; reflexivity) ltac:(vm_compute; reflexivity) ltac:(vm_compute; lia)
    _ _ ltac:(vm_compute; done) ltac:(done)
    eq_refl eq_refl eq_refl eq_refl _).
  - assert (stream_out (SocketHandle.get (SocketHandle.mk 3)) (with_deadlines connected_world) = []) as ->
      by (vm_compute; reflexivity).
    apply (sim_answering _ _ _ (signed_attempt_envelope job (str "node-d") local_private));
      vm_compute; reflexivity.
  - vm_compute. split_and!; reflexivity.
  - intros w5. exists w5. vm_compute. reflexivity.
Defined.

(** A node D that answers the same request with a frame nobody signed. *)
Definition hostile_world : world := test_world [(40013%Z, fun _ => hostile_frame)].
Definition hostile_asked : world := snd (sign_job_request d_request (Some local_private) hostile_world).
Definition hostile_connected : world :=
  snd (connect_ipv4_with_timeout dialogue_fuel (str "127.0.0.1") 40013 200 hostile_asked).

Lemma hostile_signed : sign_job_request d_request (Some local_private) hostile_world
  = (Ret (signed_request (W := world) local_private d_request), hostile_asked).
Proof. apply by_outcome. vm_compute. reflexivity. Qed.

Lemma hostile_connects :
  connect_ipv4_with_timeout dialogue_fuel (str "127.0.0.1") 40013 200 hostile_asked
  = (Ret (SocketHandle.mk 3), hostile_connected).
Proof. unfold hostile_connected. apply by_outcome. vm_compute. reflexivity. Qed.

Lemma hostile_timestamp_is_undefined_witness :
  fst (AuthenticatedTcpAttemptExecutor.call_operator tcp_executor dialogue_fuel d_request
         (str "node-d") hostile_world) = Undef signed_overflow.
Proof.
  pose proof (hostile_timestamp_is_undefined tcp_executor) as (_ & _ & H).
  refine (H dialogue_fuel d_request (str "node-d") hostile_reply local_private
    (TcpEndpoint.mk (str "127.0.0.1") 40013) (SocketHandle.mk 3) d_question hostile_frame
    (sim_asking 3 40013 (fun _ => hostile_frame) d_question hostile_frame)
    (fun _ => True) hostile_world hostile_world hostile_asked hostile_connected
    (with_deadlines hostile_connected) ltac:(done) eq_refl eq_refl eq_refl hostile_signed
    hostile_connects (deadlines_set hostile_connected) ltac:(vm_compute; reflexivity)
    ltac:(vm_compute; reflexivity) ltac:(vm_compute; lia) _ _ _).
  - assert (stream_out (SocketHandle.get (SocketHandle.mk 3)) (with_deadlines hostile_connected) = []) as ->
      by (vm_compute; reflexivity).
    apply (sim_answering _ _ _ (signed_attempt_envelope job (str "node-d") local_private));
      vm_compute; reflexivity.
  - vm_compute. split_and!; reflexivity.
  - left. eexists. split; [vm_compute; reflexivity|].
    exists false, [9;2;2;3;3;7;2;0;3;6;8;5;4;7;7;5;8;0;8]%Z, (str "}").
    split; [vm_compute; reflexivity|]. split; [repeat constructor; lia|]. split; [done|].
    vm_compute. reflexivity.
Defined.

(** The same attempt against a node that runs the Python server. *)
Definition py_asked_world : world :=
  snd (sign_job_request (cpp_request py_request) (Some local_private) python_world).
Definition py_connected_world : world :=
  snd (connect_ipv4_with_timeout dialogue_fuel (str "127.0.0.1") 40011 200 py_asked_world).
Definition py_question : bytes :=
  framed (job_request_envelope_json (signed_request (W := world) local_private (cpp_request py_request))).
Definition py_served : presult unit * conn :=
  serve_one_job 10 (handler (local_private : @Ed25519PublicKey sim_ed25519) (make_seed 0x21) 1800000010)
    (arriving py_question).

Lemma py_signed_request_run :
  sign_job_request (cpp_request py_request) (Some local_private) python_world
  = (Ret (signed_request (W := world) local_private (cpp_request py_request)), py_asked_world).
Proof. apply by_outcome. vm_compute. reflexivity. Qed.

Lemma py_connected :
  connect_ipv4_with_timeout dialogue_fuel (str "127.0.0.1") 40011 200 py_asked_world
  = (Ret (SocketHandle.mk 3), py_connected_world).
Proof. unfold py_connected_world. apply by_outcome. vm_compute. reflexivity. Qed.

(** Nothing of this depends on what the node answers. *)
Lemma py_connected_peer (f : peer) :
  let w := test_world [(40011%Z, f)] in
  let asked := snd (sign_job_request (cpp_request py_request) (Some local_private) w) in
  let connected := with_deadlines
    (snd (connect_ipv4_with_timeout dialogue_fuel (str "127.0.0.1") 40011 200 asked)) in
  w_port connected !! 3%Z = Some 40011%Z /\ find_peer 40011 (w_listening connected) = Some f
  /\ stream (w_in connected) 3 = [] /\ stream (w_out connected) 3 = [].
Proof. vm_compute. split_and!; reflexivity. Qed.

Lemma py_question_unsent : [] <> py_question.
Proof. vm_compute. discriminate. Qed.

Lemma py_answer_framed :
  encode_frame (dumps (frame_obj (lit "JOB_RESULT") (job.JobResult.asdict
    (py_signed_result (W := world) (make_seed 0x21) (reference_result py_request 1800000010)))))
  = Ret (sent (snd py_served)).
Proof. vm_compute. reflexivity. Qed.

Lemma python_node_completes_attempt_witness :
  exists result w',
    AuthenticatedTcpAttemptExecutor.call_operator tcp_executor dialogue_fuel (cpp_request py_request)
      (str "node-b") python_world
    = (Ret (AttemptResponse.mk (Some result) None), w')
    /\ (JobResult.status result, JobResult.payload result)
       = Job.execute_reference_job (cpp_request py_request).
Proof.
  edestruct (python_node_completes_attempt (W := world) tcp_executor dialogue_fuel 10 py_request
    1800000010 local_private (make_seed 0x21)
    (TcpEndpoint.mk (str "127.0.0.1") 40011) (SocketHandle.mk 3) py_question (sent (snd py_served))
    (sim_asking 3 40011 (python_node local_private (make_seed 0x21) 1800000010)
       py_question (sent (snd py_served)))
    (fun _ => True) (arriving py_question) python_world python_world
    py_asked_world py_connected_world (with_deadlines py_connected_world) py_request_interoperable
    ltac:(unfold is_int64, INT64_MIN, INT64_MAX; lia) eq_refl eq_refl eq_refl eq_refl
    py_signed_request_run py_connected (deadlines_set py_connected_world) ltac:(vm_compute; reflexivity) py_answer_framed
    ltac:(lia) ltac:(vm_compute; repeat constructor; discriminate) eq_refl
    ltac:(vm_compute; reflexivity))
    as (_ & result & w' & Hcall & _ & Hexec).
  - assert (stream_out (SocketHandle.get (SocketHandle.mk 3)) (with_deadlines py_connected_world) = []) as ->
      by (vm_compute; reflexivity).
    eapply sim_answering; [|reflexivity]. vm_compute. reflexivity.
  - destruct (py_connected_peer (python_node local_private (make_seed 0x21) 1800000010))
      as (H1 & H2 & H3 & H4).
    split; [exact H1|]. split; [exact H2|]. cbv zeta in H3, H4. fold python_world in H3, H4.
    fold py_asked_world in H3, H4. fold py_connected_world in H3, H4.
    rewrite H3, H4, decide_False by apply py_question_unsent. reflexivity.
  - apply Nat.ltb_lt. vm_compute. reflexivity.
  - intros w5. exists w5. vm_compute. reflexivity.
  - exists result, w'. split; [exact Hcall|exact Hexec].
Defined.

(** The signed script, with the seeds of the two programs: in the simulated
    scheme a key is its seed. *)
Definition cpp_key : bytes := tcp_crosslang_signed_client.cpp_seed.
Definition python_key : bytes := tcp_crosslang_signed_roundtrip.PYTHON_SEED.
Definition script_serves (c : conn) : presult unit * conn :=
  tcp_crosslang_signed_roundtrip.serve (H := sim_ed25519) Ok cpp_key python_key 10 c.
Definition script_node : peer := fun json => sent (snd (script_serves (arriving (framed json)))).
Definition script_world : world := test_world [(40021%Z, script_node)].

Definition script_question : bytes :=
  framed (job_request_envelope_json (signed_request (W := world) cpp_key tcp_crosslang_signed_client.job)).
Definition script_answer : bytes :=
  framed (job_result_envelope_json (signed_result (W := world) python_key (cpp_result py_result))).

Definition script_signed_world : world :=
  snd (ed25519_sign (Some cpp_key) (canonical_job_request_json tcp_crosslang_signed_client.job) script_world).
Definition script_connected_world : world :=
  snd (connect_ipv4 (str "127.0.0.1") 40021 script_signed_world).

Lemma script_signs :
  ed25519_sign (Some cpp_key) (canonical_job_request_json tcp_crosslang_signed_client.job) script_world
  = (Ret (ed25519_signature (W := world) cpp_key (canonical_job_request_json tcp_crosslang_signed_client.job)),
     script_signed_world).
Proof. apply by_outcome. vm_compute. reflexivity. Qed.

Lemma script_connects :
  connect_ipv4 (str "127.0.0.1") (to_uint16 (strtoul (str "40021"))) script_signed_world
  = (Ret (SocketHandle.mk 3), script_connected_world).
Proof. unfold script_connected_world. apply by_outcome. vm_compute. reflexivity. Qed.

(** Nothing of this depends on what the node answers. *)
Lemma script_connected_peer (f : peer) :
  let w := test_world [(40021%Z, f)] in
  let signed := snd (ed25519_sign (Some (cpp_key : @EVP_PKEY world sim_openssl))
                       (canonical_job_request_json tcp_crosslang_signed_client.job) w) in
  let connected := snd (connect_ipv4 (str "127.0.0.1") 40021 signed) in
  w_port connected !! 3%Z = Some 40021%Z /\ find_peer 40021 (w_listening connected) = Some f
  /\ stream (w_in connected) 3 = [] /\ stream (w_out connected) 3 = [].
Proof. vm_compute. split_and!; reflexivity. Qed.

Lemma script_question_unsent : [] <> script_question.
Proof. vm_compute. discriminate. Qed.

Lemma signed_round_trip_witness :
  fst (script_serves (arriving script_question)) = Ok tt
  /\ exists w', tcp_crosslang_signed_client.main_with cpp_key python_key dialogue_fuel
                  [str "client"; str "40021"] script_world = (Ret 0%Z, w').
Proof.
  destruct (signed_round_trip (W := world) (E := sim_ed25519) Ok cpp_key python_key cpp_key python_key)
    as (Hround & _).
  edestruct (Hround 10 dialogue_fuel (str "client") (str "40021") (cpp_key : @EVP_PKEY world sim_openssl)
    (python_key : @EVP_PKEY world sim_openssl) (SocketHandle.mk 3) script_question script_answer
    (sim_asking 3 40021 script_node script_question script_answer) (fun _ => True) (arriving script_question)
    script_world script_world script_signed_world script_connected_world
    eq_refl script_signs script_connects ltac:(vm_compute; reflexivity) ltac:(vm_compute; reflexivity))
    as ((c' & Hs & _) & (w' & Hm)).
  - apply Nat.ltb_lt. vm_compute. reflexivity.
  - assert (stream_out (SocketHandle.get (SocketHandle.mk 3)) script_connected_world = []) as ->
      by (vm_compute; reflexivity).
    apply (sim_answering _ _ _ (job_request_envelope_json
      (signed_request (W := world) (cpp_key : @EVP_PKEY world sim_openssl) tcp_crosslang_signed_client.job))); vm_compute; reflexivity.
  - destruct (script_connected_peer script_node) as (H1 & H2 & H3 & H4).
    split; [exact H1|]. split; [exact H2|].
    change (stream (w_in script_connected_world) 3 = []) in H3.
    change (stream (w_out script_connected_world) 3 = []) in H4.
    rewrite H3, H4, decide_False by apply script_question_unsent. reflexivity.
  - lia.
  - vm_compute. repeat constructor; discriminate.
  - reflexivity.
  - vm_compute. reflexivity.
  - reflexivity.
  - reflexivity.
  - intros w. exists w. reflexivity.
  - split; [unfold script_serves; by rewrite Hs|]. by exists w'.
Defined.

(** ** The client *)

Lemma client_completes_only_on_authentic_evidence_witness :
  match ResilientExecutionEngine.execute (test_engine large_fuel) job (test_world three_servers) with
  | (Ret out, w') => nothing_leaked (test_world three_servers) w'
      /\ length (ExecutionState.attempts (ResilientExecutionOutcome.state out)) <= 4
  | (Throw _, w') => nothing_leaked (test_world three_servers) w'
  | (Undef _, _) => peer_overflows large_fuel (as_now (test_world three_servers))
  | (OutOfFuel, _) => False
  end.
Proof.
  pose proof (client_completes_only_on_authentic_evidence large_fuel test_nodes tcp_executor 4
    (test_engine large_fuel) job local_private (test_world three_servers) eq_refl test_nodes_named
    eq_refl ltac:(vm_compute; done) large_fuel_enough (sim_ssl_quiet 3)
    (fun F id => resolver_keeps node_endpoint _ id) (fun F id => resolver_keeps node_key _ id)) as H.
  destruct (ResilientExecutionEngine.execute _ _ _) as [[out| | |] w'];
    [|by destruct H|exact H|exact H].
  destruct H as (H1 & _ & H2 & _). split; [exact H1|]. by rewrite length_map in H2.
Defined.

Lemma stress_gate_never_diverges_witness :
  run_scenario (R := first_node_routing) (W := world) (test_nodes ++ [str "node-e"]) 2 10
    (test_world [])
  = (Ret 0, test_world []).
Proof.
  apply (stress_gate_never_diverges (R := first_node_routing) (test_nodes ++ [str "node-e"]));
    [reflexivity| |lia].
  intros request eligible _. exists (head eligible). split; [reflexivity|]. by destruct eligible.
Defined.

(** ** Time *)

(** Peers that take 40 ms per call, three of whose calls are interrupted. *)
Definition paced_world : world := set_timing (mk_timing 0 40000 ∅ ∅) (test_world three_servers).

Lemma sim_ssl_computes : ssl_computes (W := world).
Proof. intros w w' H. destruct H; cbn; unfold sim_blocked; repeat case_match; done. Qed.

Lemma pure_resolver {A} (o : bytes -> option A) charge id :
  spends charge (fun _ : world => True) 0 (mret (o id)) (fun _ _ => True).
Proof. by apply spends_ret. Qed.

Lemma tcp_resolvers :
  (0 <= 0)%Z /\ (forall id, resolver_ok tcp_executor 3 0
    (AuthenticatedTcpAttemptExecutor.endpoint_resolver_ tcp_executor id))
  /\ forall id, resolver_ok tcp_executor 3 0
       (AuthenticatedTcpAttemptExecutor.public_key_resolver_ tcp_executor id).
Proof.
  split_and!; [done|intros id; split..].
  - intros F. by apply (resolver_keeps node_endpoint).
  - apply (pure_resolver node_endpoint).
  - intros F. by apply (resolver_keeps node_key).
  - apply (pure_resolver node_key).
Qed.

Lemma attempt_time_is_bounded_witness :
  match AuthenticatedTcpAttemptExecutor.call_operator tcp_executor large_fuel d_request
          (str "node-d") paced_world with
  | (Ret _, w') | (Throw _, w') =>
      (sim_blocked w' <= 200000 + 2 * 1048580 * 50001 + 13 + 200001 * 3)%Z
  | (Undef _, _) => peer_overflows large_fuel (sys_state 3)
  | (OutOfFuel, _) => False
  end.
Proof.
  destruct tcp_resolvers as (H0 & He & Hp).
  pose proof (attempt_time_is_bounded tcp_executor large_fuel d_request (str "node-d") paced_world 0 0
    large_fuel_enough ltac:(vm_compute; intuition discriminate) ltac:(vm_compute; intuition discriminate)
    sim_ssl_computes (conj H0 He) (conj H0 Hp)) as H.
  change (blocked paced_world) with 0%Z in H.
  destruct (AuthenticatedTcpAttemptExecutor.call_operator _ _ _ _ _) as [[| | |] w'];
    [rewrite Z.sub_0_r in H; exact H..|exact H|exact H].
Defined.

Lemma execution_time_is_bounded_witness :
  match ResilientExecutionEngine.execute (test_engine large_fuel) job paced_world with
  | (Ret _, w') | (Throw _, w') =>
      (sim_blocked w' <= 4 * (200000 + 2 * 1048580 * 50001 + 13) + 200001 * 3)%Z
  | (Undef _, _) => peer_overflows large_fuel (sys_state 3)
  | (OutOfFuel, _) => False
  end.
Proof.
  destruct tcp_resolvers as (H0 & He & Hp).
  pose proof (execution_time_is_bounded (RS := first_node_router_spec) tcp_executor large_fuel
    test_nodes 4 (test_engine large_fuel) job paced_world 0 0
    eq_refl test_nodes_named ltac:(vm_compute; done) large_fuel_enough
    ltac:(vm_compute; intuition discriminate) ltac:(vm_compute; intuition discriminate)
    sim_ssl_computes (conj H0 He) (conj H0 Hp)) as H.
  change (blocked paced_world) with 0%Z in H.
  destruct (ResilientExecutionEngine.execute _ _ _) as [[| | |] w'];
    [rewrite Z.sub_0_r in H; exact H..|exact H|exact H].
Defined.
